(** * Verification orchestration engine: a shallow embedding

    The Python sources modelled here are
    - [sheerid_client.py]            (API client: retry and backoff),
    - [sheerid_api_service.py]       (status poller),
    - [sheerid_verifier.py]          (verifier: locale handling, [verify]),
    - [verification_orchestrator.py] (top-level run),
    - [form_filler.py]               (organization selector protocol,
                                      field methods),
    - [form_ready_dump.py]           (the snapshot read before submitting,
                                      its readers),
    - [config.py]                    (schools and URLs),
    - [__main__.py]                  (command line entry),
    - [status_inspector.py]          (status page inspector).

    Conventions.
    - A Python [str] is a [string], one [ascii] per character; the
      messages written in Chinese are kept as their UTF-8 bytes (they are
      only compared and concatenated, their length is never taken).
    - A Python float is a finite IEEE 754 double, given as the rational
      it denotes ([Q]); an operation on floats rounds its exact result
      to the nearest double, ties to even ([PyFloat]), and the
      conversion of an [int] beyond the doubles raises.
    - An [async] function that talks to the browser, the network or the
      clock is a function of an explicit world state [S]: it returns a
      value or raises, and leaves a new state.  The calls a function makes
      to its collaborators are recorded in a call log.
    - An exception is represented by its [str()] text. *)

From Stdlib Require Import List String Ascii Bool ZArith QArith Qminmax Lia.
From Stdlib Require Import Lqa Qround Qabs Qpower DecimalString.
Import ListNotations.

Open Scope string_scope.
Open Scope list_scope.
Open Scope Z_scope.

(* ===================================================================== *)
(** ** Python strings *)
(* ===================================================================== *)

(** [str.isspace] on one character (code points below 256). *)
Definition py_isspace (c : ascii) : bool :=
  let n := nat_of_ascii c in
  ((9 <=? n) && (n <=? 13) || (28 <=? n) && (n <=? 32)
   || (n =? 133) || (n =? 160))%nat.

Fixpoint lstrip (s : string) : string :=
  match s with
  | String c s' => if py_isspace c then lstrip s' else s
  | EmptyString => EmptyString
  end.

Fixpoint rstrip (s : string) : string :=
  match s with
  | String c s' =>
      match rstrip s' with
      | EmptyString => if py_isspace c then EmptyString else String c EmptyString
      | r => String c r
      end
  | EmptyString => EmptyString
  end.

(** [s.strip()] *)
Definition strip (s : string) : string := rstrip (lstrip s).

Definition lower_char (c : ascii) : ascii :=
  let n := nat_of_ascii c in
  if ((65 <=? n) && (n <=? 90)
      || (192 <=? n) && (n <=? 222) && negb (n =? 215))%nat
  then ascii_of_nat (n + 32) else c.

(** [s.lower()] *)
Fixpoint lower (s : string) : string :=
  match s with
  | String c s' => String (lower_char c) (lower s')
  | EmptyString => EmptyString
  end.

(** [c in s] for a one-character needle. *)
Fixpoint contains_char (c : ascii) (s : string) : bool :=
  match s with
  | String d s' => Ascii.eqb c d || contains_char c s'
  | EmptyString => false
  end.

(** [s.split(sep)] for a one-character separator: always at least one
    segment. *)
Fixpoint split (sep : ascii) (s : string) : list string :=
  match s with
  | EmptyString => [EmptyString]
  | String c s' =>
      if Ascii.eqb c sep then EmptyString :: split sep s'
      else match split sep s' with
           | seg :: rest => String c seg :: rest
           | [] => [String c EmptyString]
           end
  end.

(** [s.replace(a, b)] for one-character [a] and [b]. *)
Fixpoint replace (a b : ascii) (s : string) : string :=
  match s with
  | String c s' => String (if Ascii.eqb c a then b else c) (replace a b s')
  | EmptyString => EmptyString
  end.

(** [bool(s)] *)
Definition nonempty (s : string) : bool :=
  match s with EmptyString => false | _ => true end.

(** [x in xs] for a list of strings. *)
Definition mem_str (x : string) (xs : list string) : bool :=
  existsb (String.eqb x) xs.

(** [s[:n]] *)
Fixpoint take (n : nat) (s : string) : string :=
  match n, s with
  | S n', String c s' => String c (take n' s')
  | _, _ => EmptyString
  end.

(** [(os.getenv(k, "") or "").strip().lower() in ("1", "true", "yes", "on")];
    the variable is [None] when unset. *)
Definition env_flag (v : option string) : bool :=
  let raw := match v with Some s => s | None => "" end in
  mem_str (lower (strip raw)) ["1"; "true"; "yes"; "on"].

(* ===================================================================== *)
(** ** Python values read from JSON payloads and form snapshots *)
(* ===================================================================== *)

Inductive pyval : Type :=
| PNone
| PBool (b : bool)
| PInt (z : Z)
| PStr (s : string).

(** A JSON object / Python [dict] with string keys. *)
Definition dict : Type := list (string * pyval).

(** [d.get(k)]: [None] when the key is missing. *)
Fixpoint dict_lookup (d : dict) (k : string) : option pyval :=
  match d with
  | [] => None
  | (k', v) :: d' => if String.eqb k k' then Some v else dict_lookup d' k
  end.

Definition dict_get (d : dict) (k : string) : pyval :=
  match dict_lookup d k with Some v => v | None => PNone end.

(** [d.get(k, default)] *)
Definition dict_get_default (d : dict) (k : string) (default : pyval) : pyval :=
  match dict_lookup d k with Some v => v | None => default end.

(** [bool(v)] *)
Definition truthy (v : pyval) : bool :=
  match v with
  | PNone => false
  | PBool b => b
  | PInt z => negb (z =? 0)
  | PStr s => nonempty s
  end.

(** [str(v)] *)
Definition py_str (v : pyval) : string :=
  match v with
  | PNone => "None"
  | PBool true => "True"
  | PBool false => "False"
  | PInt z => NilZero.string_of_int (Z.to_int z)
  | PStr s => s
  end.

(** [v or ""] *)
Definition or_empty (v : pyval) : pyval :=
  if truthy v then v else PStr "".

(** [v != "lit"] for a string literal. *)
Definition ne_str (v : pyval) (lit : string) : bool :=
  match v with
  | PStr s => negb (String.eqb s lit)
  | _ => true
  end.

(* ===================================================================== *)
(** ** Effects: world state, exceptions, call log *)
(* ===================================================================== *)

Definition exn : Type := string.

Inductive outcome (A : Type) : Type :=
| Ok (a : A)
| Raise (e : exn).
Arguments Ok {A} a.
Arguments Raise {A} e.

(** A computation over world state [S] logging calls of type [E]. *)
Definition M (S E A : Type) : Type := S -> outcome A * S * list E.

Definition ret {S E A} (a : A) : M S E A := fun s => (Ok a, s, []).

Definition raise {S E A} (e : exn) : M S E A := fun s => (Raise e, s, []).

Definition bind {S E A B} (m : M S E A) (k : A -> M S E B) : M S E B :=
  fun s =>
    match m s with
    | (Ok a, s1, l1) =>
        match k a s1 with
        | (r, s2, l2) => (r, s2, l1 ++ l2)
        end
    | (Raise e, s1, l1) => (Raise e, s1, l1)
    end.

(** [try: m  except Exception as e: h e] *)
Definition try_except {S E A} (m : M S E A) (h : exn -> M S E A) : M S E A :=
  fun s =>
    match m s with
    | (Ok a, s1, l1) => (Ok a, s1, l1)
    | (Raise e, s1, l1) =>
        match h e s1 with
        | (r, s2, l2) => (r, s2, l1 ++ l2)
        end
    end.

(** Record a call in the log. *)
Definition emit {S E} (e : E) : M S E unit := fun s => (Ok tt, s, [e]).

(** A collaborator call: runs on the world, may raise. *)
Definition call {S E A} (f : S -> outcome A * S) : M S E A :=
  fun s => let '(r, s1) := f s in (r, s1, []).

(** A collaborator call that cannot raise. *)
Definition effect {S E A} (f : S -> A * S) : M S E A :=
  fun s => let '(a, s1) := f s in (Ok a, s1, []).

Declare Scope m_scope.
Delimit Scope m_scope with m.
Notation "x <- m ;; k" := (bind m (fun x => k))
  (at level 100, m at next level, right associativity) : m_scope.
Notation "' p <- m ;; k" := (bind m (fun x => match x with p => k end))
  (at level 100, p pattern, m at next level, right associativity) : m_scope.
Notation "m ;;; k" := (bind m (fun _ => k))
  (at level 100, right associativity) : m_scope.

Definition result_of {S E A} (x : outcome A * S * list E) : outcome A := fst (fst x).
Definition state_of {S E A} (x : outcome A * S * list E) : S := snd (fst x).
Definition log_of {S E A} (x : outcome A * S * list E) : list E := snd x.

(* ===================================================================== *)
(** ** Python floats *)
(* ===================================================================== *)

Module PyFloat.

(** [2^e] *)
Definition pow2 (e : Z) : Q := Qpower 2 e.

(** The binade of a positive rational: the [e] with
    [2^e <= x < 2^(e+1)]. *)
Definition binade (x : Q) : Z :=
  if Qle_bool 1 x then Z.log2 (Qfloor x)
  else - Z.log2_up (Qceiling (/ x)).

(** The nearest integer, ties to even. *)
Definition rne (x : Q) : Z :=
  let f := Qfloor x in
  match Qcompare (x - inject_Z f) (1 # 2) with
  | Lt => f
  | Gt => f + 1
  | Eq => if Z.even f then f else f + 1
  end.

(** The spacing of the doubles at a positive [x]: 53 significant bits,
    and the fixed spacing [2^-1074] of the subnormal range. *)
Definition ulp (x : Q) : Q := pow2 (Z.max (binade x - 52) (-1074)).

(** The double nearest to [x], ties to even, were the exponent range
    unbounded above. *)
Definition nearest (x : Q) : Q :=
  match Qcompare x 0 with
  | Eq => 0%Q
  | Gt => (inject_Z (rne (x / ulp x)) * ulp x)%Q
  | Lt => (- (inject_Z (rne (- x / ulp (- x))) * ulp (- x)))%Q
  end.

(** Rounding [x] leaves the range of the doubles. *)
Definition overflows (x : Q) : bool := Qle_bool (pow2 1024) (Qabs (nearest x)).

Definition overflow_error : exn := "OverflowError: int too large to convert to float".

(** [float(n)] for an [int]: the nearest double, or [OverflowError]. *)
Definition float_of_int (n : Z) : outcome Q :=
  if overflows (inject_Z n) then Raise overflow_error
  else Ok (nearest (inject_Z n)).

(** [a + b] and [a * b] on floats, where the result is finite. *)
Definition add (a b : Q) : Q := nearest (a + b).

Definition mul (a b : Q) : Q := nearest (a * b).

End PyFloat.

(* ===================================================================== *)
(** ** sheerid_client.py: [ClientSettings], [SheerIDClient] *)
(* ===================================================================== *)

Module SheerIDClient.

Record ClientSettings : Type := {
  timeout_ms : Z;
  max_retries : Z;
  backoff_cap_sec : Q
}.


(** [ClientSettings.from_env], on the three numbers read from the
    environment ([None] when the variable is unset or empty). *)
Definition from_env (env_timeout env_retries : option Z) (env_cap : option Q)
  : ClientSettings :=
  {| timeout_ms := match env_timeout with Some t => t | None => 20000 end;
     max_retries := Z.max 0 (match env_retries with Some r => r | None => 1 end);
     backoff_cap_sec := match env_cap with Some c => c | None => 30 end |}.

(** The client object: [self.request] is the transport of the section
    below. *)
Record t : Type := {
  accept_language : string;
  settings : ClientSettings
}.

(** [SheerIDClient._compute_backoff_sec], with the value drawn by
    [random.uniform(0, 1)], a double of [[0, 1]], as the argument
    [jitter]: [min(float(cap), float(base) + float(jitter))].  The
    conversion of [base] raises when [base] is beyond the doubles. *)
Definition _compute_backoff_sec (self : t) (attempt : Z) (jitter : Q) : outcome Q :=
  let base := 2 ^ Z.max 0 attempt in
  match PyFloat.float_of_int base with
  | Ok b => Ok (Qmin (backoff_cap_sec (settings self)) (PyFloat.add b jitter))
  | Raise e => Raise e
  end.

(** What [APIRequestContext.fetch] hands back: the status, and what
    [resp.json()] and [resp.text()] will give. *)
Record response : Type := {
  status : Z;
  json : outcome dict;
  text : outcome (option string)
}.

Inductive client_call : Type :=
| CFetch (method url : string) (headers : list (string * string))
    (data : option dict) (r : outcome response)
| CSleep (sec : Q).

Definition SHEERID_BASE_URL : string := "https://services.sheerid.com".

Definition retry_statuses : list Z := [408; 429; 500; 502; 503; 504].

Definition in_retry_statuses (st : Z) : bool := existsb (Z.eqb st) retry_statuses.

(** The loop variables of [request_json]. *)
Record req_vars : Type := {
  last_data : dict;
  last_status : Z;
  last_exc : option exn
}.

Inductive loop_ctl (A : Type) : Type :=
| Continue (v : req_vars)
| Return (a : A).
Arguments Continue {A} v.
Arguments Return {A} a.

(** [json.dumps(body) if body else None]: an empty or missing body sends
    no data. *)
Definition json_body (body : option dict) : option dict :=
  match body with
  | Some ((_ :: _) as d) => Some d
  | _ => None
  end.

Definition request_headers (self : t) : list (string * string) :=
  [("Content-Type", "application/json");
   ("Accept", "application/json, text/plain, */*");
   ("Origin", SHEERID_BASE_URL);
   ("Referer", (SHEERID_BASE_URL ++ "/")%string)]
  ++ (if nonempty (accept_language self)
      then [("Accept-Language", accept_language self)] else []).

Section Transport.
Context {S : Type}.
(** The transport ([self.request.fetch]) and the random source. *)
Variable fetch : string -> string -> list (string * string) -> option dict ->
                 S -> outcome response * S.
Variable uniform01 : S -> Q * S.

(** [await asyncio.sleep(self._compute_backoff_sec(attempt))] *)
Definition backoff_sleep (self : t) (attempt : Z) : M S client_call unit :=
  (j <- effect uniform01 ;;
   match _compute_backoff_sec self attempt j with
   | Ok delay => emit (CSleep delay)
   | Raise e => raise e
   end)%m.

(** [resp = await self.request.fetch(...)] *)
Definition do_fetch (self : t) (method url : string) (body : option dict)
  : M S client_call response :=
  fun s =>
    let '(r, s1) := fetch method url (request_headers self) (json_body body) s in
    (r, s1, [CFetch method url (request_headers self) (json_body body) r]).

(** The body read: [resp.json()], else [{"raw": text[:500]}]; a failing
    [resp.text()] raises out of the handler. *)
Definition read_body (resp : response) : M S client_call dict :=
  match json resp with
  | Ok d => ret d
  | Raise _ =>
      match text resp with
      | Ok t => ret [("raw", PStr (take 500 (match t with Some x => x | None => "" end)))]
      | Raise e => raise e
      end
  end.

(** The [try] block of one iteration: fetch, decode the body, then
    either go round again or return. *)
Definition attempt_body (self : t) (method url : string)
    (body : option dict) (attempt : Z) (v : req_vars)
  : M S client_call (loop_ctl (dict * Z)) :=
  (resp <- do_fetch self method url body ;;
   data <- read_body resp ;;
   if (attempt <? max_retries (settings self)) && in_retry_statuses (status resp)
   then (backoff_sleep self attempt ;;;
         ret (Continue {| last_data := data; last_status := status resp;
                          last_exc := last_exc v |}))
   else ret (Return (data, status resp)))%m.

(** The [except Exception as e] block of one iteration. *)
Definition attempt_handler (self : t) (attempt : Z) (v : req_vars) (e : exn)
  : M S client_call (loop_ctl (dict * Z)) :=
  (if attempt <? max_retries (settings self)
   then (backoff_sleep self attempt ;;;
         ret (Continue {| last_data := last_data v;
                          last_status := last_status v;
                          last_exc := Some e |}))
   else raise e)%m.

(** [for attempt in range(max_retries + 1)] with [n] iterations left,
    followed by the statements after the loop. *)
Fixpoint request_loop (self : t) (method url : string)
    (body : option dict) (n : nat) (attempt : Z) (v : req_vars)
  : M S client_call (dict * Z) :=
  match n with
  | O =>
      match last_exc v with
      | Some e => raise e
      | None => ret (last_data v, last_status v)
      end
  | Datatypes.S n' =>
      (c <- try_except (attempt_body self method url body attempt v)
              (attempt_handler self attempt v) ;;
       match c with
       | Continue v' => request_loop self method url body n' (attempt + 1) v'
       | Return a => ret a
       end)%m
  end.

(** [SheerIDClient.request_json] *)
Definition request_json (self : t) (method url : string)
    (body : option dict) : M S client_call (dict * Z) :=
  request_loop self method url body (Z.to_nat (max_retries (settings self) + 1)) 0
    {| last_data := []; last_status := 0; last_exc := None |}.
End Transport.

End SheerIDClient.

(* ===================================================================== *)
(** ** sheerid_api_service.py: [SheerIDApiService] *)
(* ===================================================================== *)

Module SheerIDApiService.

Section Service.
Context {S E : Type}.
(** The two fields of the dataclass. *)
Variable request_json : string -> string -> option dict -> M S E (dict * Z).
Variable sleep_between_requests : M S E unit.

Definition request (method url : string) (body : option dict) : M S E (dict * Z) :=
  (sleep_between_requests ;;; request_json method url body)%m.

Definition precheck (base_url verification_id : string) : M S E (pyval * dict) :=
  ('(pre_data, _) <- request "GET"
                       (base_url ++ "/rest/v2/verification/" ++ verification_id)%string
                       None ;;
   let step := dict_get_default pre_data "currentStep" (PStr "collectStudentPersonalInfo") in
   ret (step, pre_data))%m.
End Service.

End SheerIDApiService.

(* ===================================================================== *)
(** ** verification_orchestrator.py: [VerificationOrchestrator] *)
(* ===================================================================== *)

Module VerificationOrchestrator.

Record VerificationProfile : Type := {
  first_name : string;
  last_name : string;
  email : string;
  birth_date : string;
  school_name : string;
  verification_id : string
}.

(** What [dump_form_ready] may hand back: a dictionary, or any other
    value ([OVal PNone] is [None]). *)
Inductive pyobj : Type :=
| ODict (d : dict)
| OVal (v : pyval).

(** The [status] entry of a result, by the place that builds it. *)
Inductive status_payload : Type :=
| StPrecheck (currentStep : pyval) (precheck : dict)
| StGotoFailed (precheckCurrentStep : pyval) (precheck : dict)
    (url title htmlHead : string)
| StLocateFailed (precheckCurrentStep : pyval) (precheck : dict)
    (url title : string) (iframeCount : Z) (htmlHead : string)
| StDryRun (precheckCurrentStep : pyval) (precheck : dict)
| StCurrentStepInitial
| StRaw (status2 : dict).

(** The dictionary [run] returns.  [form_values] and [trace] are [None]
    when the key is absent; [trace] stands for
    [traceback.format_exc()[:2000]] of the exception it holds. *)
Record run_result : Type := {
  success : bool;
  message : string;
  result_verification_id : string;
  status : option status_payload;
  form_values : option pyobj;
  trace : option exn
}.

(** The injected dependencies.  [human_delay] is a pacing delay: it lets
    time pass and returns. *)
Record VerificationDeps (S Page Frame : Type) : Type := {
  do_precheck : S -> outcome (pyval * dict) * S;
  ensure_browser : S -> outcome unit * S;
  ensure_form : S -> outcome unit * S;
  new_page : S -> outcome Page * S;
  wait_network_idle_soft : Page -> Z -> S -> outcome unit * S;
  locate_form_frame : Page -> S -> outcome Frame * S;
  fill_text : Frame -> string -> string -> S -> outcome unit * S;
  fill_org_and_select_first : Frame -> string -> S -> outcome unit * S;
  fill_birth_date_any : Frame -> string -> S -> outcome bool * S;
  check_all_visible_checkboxes : Frame -> S -> outcome Z * S;
  click_submit : Frame -> S -> outcome unit * S;
  human_delay : Q -> Q -> S -> S;
  build_verify_url : string -> string;
  dump_form_ready : option (Frame -> S -> outcome pyobj * S)
}.
Arguments do_precheck {S Page Frame}.
Arguments ensure_browser {S Page Frame}.
Arguments ensure_form {S Page Frame}.
Arguments new_page {S Page Frame}.
Arguments wait_network_idle_soft {S Page Frame}.
Arguments locate_form_frame {S Page Frame}.
Arguments fill_text {S Page Frame}.
Arguments fill_org_and_select_first {S Page Frame}.
Arguments fill_birth_date_any {S Page Frame}.
Arguments check_all_visible_checkboxes {S Page Frame}.
Arguments click_submit {S Page Frame}.
Arguments human_delay {S Page Frame}.
Arguments build_verify_url {S Page Frame}.
Arguments dump_form_ready {S Page Frame}.

(** What [run] uses besides its dependencies: the methods of the page
    object, the clock, the process environment and the diagnostics
    configuration. *)
Record Host (S Page : Type) : Type := {
  page_goto : Page -> string -> S -> outcome unit * S;
  page_wait_for_timeout : Page -> Z -> S -> outcome unit * S;
  page_url : Page -> S -> outcome string * S;
  page_title : Page -> S -> outcome (option string) * S;
  page_content : Page -> S -> outcome (option string) * S;
  page_iframe_count : Page -> S -> outcome Z * S;
  page_close : Page -> S -> outcome unit * S;
  asyncio_sleep : Q -> S -> S;
  getenv : string -> option string;
  screenshot_on_error : bool
}.
Arguments page_goto {S Page}.
Arguments page_wait_for_timeout {S Page}.
Arguments page_url {S Page}.
Arguments page_title {S Page}.
Arguments page_content {S Page}.
Arguments page_iframe_count {S Page}.
Arguments page_close {S Page}.
Arguments asyncio_sleep {S Page}.
Arguments getenv {S Page}.
Arguments screenshot_on_error {S Page}.

(** The collaborator call log of a run. *)
Inductive orch_call : Type :=
| DoPrecheck
| EnsureBrowser
| EnsureForm
| NewPage
| Goto (url : string)
| WaitForTimeout (ms : Z)
| WaitNetworkIdleSoft (timeout_ms : Z)
| LocateFormFrame
| HumanDelay (lo hi : Q)
| FillText (key value : string)
| FillOrgAndSelectFirst (org_name : string)
| FillBirthDateAny (birth_date : string)
| CheckAllVisibleCheckboxes
| DumpFormReady
| ClickSubmit
| DumpPage (prefix : string)
| PageClose
| AsyncioSleep (sec : Q).

(** [int(s)] for a string: surrounding whitespace, an optional sign,
    then decimal digits, single underscores allowed between digits. *)
Definition digit_val (c : ascii) : option Z :=
  let n := nat_of_ascii c in
  if ((48 <=? n) && (n <=? 57))%nat then Some (Z.of_nat n - 48) else None.

Fixpoint parse_digits (s : string) (acc : Z) (after_digit : bool) : option Z :=
  match s with
  | EmptyString => if after_digit then Some acc else None
  | String c s' =>
      match digit_val c with
      | Some d => parse_digits s' (10 * acc + d) true
      | None =>
          if Ascii.eqb c "_" && after_digit
          then match s' with
               | String c' _ =>
                   match digit_val c' with
                   | Some _ => parse_digits s' acc false
                   | None => None
                   end
               | EmptyString => None
               end
          else None
      end
  end.

Definition int_of_string (s : string) : option Z :=
  match strip s with
  | String "-" s' => option_map Z.opp (parse_digits s' 0 false)
  | String "+" s' => parse_digits s' 0 false
  | s' => parse_digits s' 0 false
  end.

(** [int(v)]: [None] when Python raises. *)
Definition py_int (v : pyval) : option Z :=
  match v with
  | PNone => None
  | PBool b => Some (if b then 1 else 0)
  | PInt z => Some z
  | PStr s => int_of_string s
  end.

(** [v is True] *)
Definition is_True (v : pyval) : bool :=
  match v with PBool true => true | _ => false end.

(** [v == 1] *)
Definition eq_one (v : pyval) : bool :=
  match v with
  | PBool b => b
  | PInt z => z =? 1
  | _ => false
  end.

(** The four entries the gate reads from a snapshot:
    [schoolId], [schoolText], [consentChecked], [ariaInvalidCount]. *)
Definition gate_fields : Type := (pyval * pyval * pyval * pyval)%type.

Definition read_fields (d : dict) : gate_fields :=
  (dict_get d "schoolId", dict_get d "schoolText",
   dict_get d "consentChecked", dict_get d "ariaInvalidCount").

Definition school_ok (school_id school_text : pyval) : bool :=
  let school_id_s := strip (py_str (or_empty school_id)) in
  let school_text_s := strip (py_str (or_empty school_text)) in
  nonempty school_id_s || nonempty school_text_s.

Definition consent_ok (consent_val : pyval) : bool :=
  is_True consent_val
  || String.eqb (lower (py_str consent_val)) "true"
  || eq_one consent_val.

Definition aria_ok (invalid_count : pyval) : bool :=
  let aria_invalid :=
    match py_int (if truthy invalid_count then invalid_count else PInt 0) with
    | Some n => n
    | None => 0
    end in
  aria_invalid =? 0.

(** [school_ok and consent_ok and aria_ok] *)
Definition gate_ok (f : gate_fields) : bool :=
  let '(school_id, school_text, consent_checked, invalid_count) := f in
  school_ok school_id school_text && consent_ok consent_checked && aria_ok invalid_count.

Definition show_bool (b : bool) : string := if b then "True" else "False".

Definition gate_message (f : gate_fields) (d : dict) : string :=
  let '(school_id, school_text, consent_checked, invalid_count) := f in
  ("提交前校验失败："
   ++ "school_ok=" ++ show_bool (school_ok school_id school_text)
   ++ ", consent_ok=" ++ show_bool (consent_ok consent_checked)
   ++ ", aria_ok=" ++ show_bool (aria_ok invalid_count) ++ ", "
   ++ "schoolId=" ++ py_str (dict_get d "schoolId")
   ++ ", schoolText=" ++ py_str (dict_get d "schoolText") ++ ", "
   ++ "consentChecked=" ++ py_str (dict_get d "consentChecked")
   ++ ", ariaInvalidCount=" ++ py_str (dict_get d "ariaInvalidCount"))%string.

Section Run.
Context {S Page Frame : Type}.
Variable deps : VerificationDeps S Page Frame.
Variable host : Host S Page.

Local Abbreviation Run := (M S orch_call).

(** A logged call to a collaborator. *)
Definition dep {A} (ev : orch_call) (f : S -> outcome A * S) : Run A :=
  (emit ev ;;; call f)%m.

Definition delay (lo hi : Q) : Run unit :=
  (emit (HumanDelay lo hi) ;;; effect (fun s => (tt, human_delay deps lo hi s)))%m.

(** [try: m  except Exception: pass] *)
Definition swallow {A} (m : Run A) : Run unit :=
  try_except (m ;;; ret tt)%m (fun _ => ret tt).

(** [try: x = m  except Exception: x = default] *)
Definition or_default {A} (m : Run A) (default : A) : Run A :=
  try_except m (fun _ => ret default).

(** [UiDiagnostics.dump_page]: never raises; nothing when disabled or
    when there is no page. *)
Definition dump_page (page : option Page) (prefix : string) : Run unit :=
  match page with
  | Some _ => if screenshot_on_error host then emit (DumpPage prefix) else ret tt
  | None => ret tt
  end.

Definition force_ui : bool := env_flag (getenv host "ONE_SHEERID_FORCE_UI").
Definition dry_run : bool := env_flag (getenv host "ONE_SHEERID_DRY_RUN").

Definition str_or_empty (o : option string) : string :=
  match o with Some x => x | None => "" end.

Definition read_url_now (page : Page) : Run string :=
  or_default (call (page_url host page)) "".

Definition read_title_now (page : Page) : Run string :=
  or_default (t <- call (page_title host page) ;; ret (str_or_empty t))%m "".

Definition read_html_head (page : Page) : Run string :=
  or_default (c <- call (page_content host page) ;; ret (take 2000 (str_or_empty c)))%m "".

(** Lines 122-160: navigation.  [None] means: carry on. *)
Definition navigate (profile : VerificationProfile) (current_step : pyval)
    (pre_status : dict) (page : Page) : Run (option run_result) :=
  let verify_url := build_verify_url deps (verification_id profile) in
  try_except
    (dep (Goto verify_url) (page_goto host page verify_url) ;;;
     dep (WaitForTimeout 800) (page_wait_for_timeout host page 800) ;;;
     ret None)%m
    (fun e =>
       if negb force_ui then raise e
       else
         (url_now <- read_url_now page ;;
          title_now <- read_title_now page ;;
          html_head <- read_html_head page ;;
          swallow (dump_page (Some page) ("goto_failed_" ++ verification_id profile)) ;;;
          swallow (dep PageClose (page_close host page)) ;;;
          ret (Some {| success := false;
                       message := ("force_ui: Page.goto 超时/失败：" ++ e)%string;
                       result_verification_id := verification_id profile;
                       status := Some (StGotoFailed current_step pre_status
                                         url_now title_now html_head);
                       form_values := None;
                       trace := None |}))%m).

(** Lines 164-202: locating the form frame. *)
Definition locate (profile : VerificationProfile) (current_step : pyval)
    (pre_status : dict) (page : Page) : Run (Frame + run_result) :=
  try_except
    (f <- dep LocateFormFrame (locate_form_frame deps page) ;; ret (inl f))%m
    (fun e =>
       (dump_page (Some page) ("locate_form_frame_failed_" ++ verification_id profile) ;;;
        if negb force_ui then raise e
        else
          (url_now <- read_url_now page ;;
           title_now <- read_title_now page ;;
           html_head <- read_html_head page ;;
           iframe_count <- or_default (call (page_iframe_count host page)) (-1) ;;
           swallow (dep PageClose (page_close host page)) ;;;
           ret (inr {| success := false;
                       message := ("force_ui: locate_form_frame 失败：" ++ e)%string;
                       result_verification_id := verification_id profile;
                       status := Some (StLocateFailed current_step pre_status
                                         url_now title_now iframe_count html_head);
                       form_values := None;
                       trace := None |})))%m).

(** Lines 204-228: the fields, in their fixed order. *)
Definition fill_fields (profile : VerificationProfile) (page : Page)
    (form_frame : Frame) : Run unit :=
  (delay 0.2 0.6 ;;;
   dep (FillText "first_name" (first_name profile))
       (fill_text deps form_frame "first_name" (first_name profile)) ;;;
   delay 0.2 0.6 ;;;
   dep (FillText "last_name" (last_name profile))
       (fill_text deps form_frame "last_name" (last_name profile)) ;;;
   delay 0.2 0.6 ;;;
   dep (FillText "email" (email profile))
       (fill_text deps form_frame "email" (email profile)) ;;;
   try_except
     (delay 0.2 0.6 ;;;
      dep (FillOrgAndSelectFirst (school_name profile))
          (fill_org_and_select_first deps form_frame (school_name profile)))
     (fun _ => dump_page (Some page) ("fill_org_exception_" ++ verification_id profile)) ;;;
   swallow (delay 0.2 0.6 ;;;
            dep (FillBirthDateAny (birth_date profile))
                (fill_birth_date_any deps form_frame (birth_date profile))) ;;;
   swallow (delay 0.2 0.6 ;;;
            dep CheckAllVisibleCheckboxes
                (check_all_visible_checkboxes deps form_frame)))%m.

(** Lines 230-236: the snapshot; [None] when there is no dump function
    or when it raises. *)
Definition take_snapshot (form_frame : Frame) : Run pyobj :=
  or_default
    match dump_form_ready deps with
    | Some dump => dep DumpFormReady (dump form_frame)
    | None => ret (OVal PNone)
    end
    (OVal PNone).

(** Lines 266-277: the consent remediation pass.  It returns the
    variables [data] and [school_id, school_text, consent_checked,
    invalid_count] as the [try] block leaves them: a new snapshot that
    is not a dictionary is kept in [data], and its first [.get] raises
    into the [except: pass], so the four readings stay. *)
Definition remediate (form_frame : Frame) (d : dict) : Run (pyobj * gate_fields) :=
  let '(_, _, consent_checked, _) := read_fields d in
  if negb (is_True consent_checked) then
    try_except
      (delay 0.2 0.6 ;;;
       dep CheckAllVisibleCheckboxes (check_all_visible_checkboxes deps form_frame) ;;;
       match dump_form_ready deps with
       | Some dump =>
           (data <- dep DumpFormReady (dump form_frame) ;;
            match data with
            | ODict d' => ret (data, read_fields d')
            | OVal _ => ret (data, read_fields d)
            end)
       | None => ret (ODict d, read_fields d)
       end)%m
      (fun _ => ret (ODict d, read_fields d))
  else ret (ODict d, read_fields d).

(** Lines 260-304: the body of the gate's [try].  [Some r]: return [r];
    [None]: fall through to the submit. *)
Definition gate_body (profile : VerificationProfile) (page : Page)
    (form_frame : Frame) (data : pyobj) : Run (option run_result) :=
  match data with
  | ODict d =>
      ('(data1, f) <- remediate form_frame d ;;
       if negb (gate_ok f) then
         (dump_page (Some page)
            ("pre_submit_validation_failed_" ++ verification_id profile) ;;;
          match data1 with
          | ODict d1 =>
              ret (Some {| success := false;
                           message := gate_message f d1;
                           result_verification_id := verification_id profile;
                           status := Some StCurrentStepInitial;
                           form_values := Some data1;
                           trace := None |})
          | OVal _ => raise "AttributeError: object has no attribute 'get'"
          end)
       else ret None)%m
  | OVal _ => ret None
  end.

(** Lines 259-306: [try: <gate> except Exception: pass]. *)
Definition submit_gate (profile : VerificationProfile) (page : Page)
    (form_frame : Frame) (data : pyobj) : Run (option run_result) :=
  try_except (gate_body profile page form_frame data) (fun _ => ret None).

(** Lines 337-346: [for _ in range(6)], [n] iterations left. *)
Fixpoint poll (page : Page) (n : nat) (last_step : pyval) (last_status : dict)
  : Run (pyval * dict) :=
  match n with
  | O => ret (last_step, last_status)
  | Datatypes.S n' =>
      ('(current_step2, status2) <- dep DoPrecheck (do_precheck deps) ;;
       if ne_str current_step2 "collectStudentPersonalInfo"
       then ret (current_step2, status2)
       else
         (swallow (dep (WaitNetworkIdleSoft 6000)
                       (wait_network_idle_soft deps page 6000)) ;;;
          emit (AsyncioSleep 2) ;;;
          effect (fun s => (tt, asyncio_sleep host 2 s)) ;;;
          poll page n' current_step2 status2))%m
  end.

(** Lines 308-372: the submit, the polling and the verdict. *)
Definition submit_and_poll (profile : VerificationProfile) (page : Page)
    (form_frame : Frame) : Run run_result :=
  (delay 0.2 0.6 ;;;
   dep ClickSubmit (click_submit deps form_frame) ;;;
   dep (WaitNetworkIdleSoft 15000) (wait_network_idle_soft deps page 15000) ;;;
   dump_page (Some page) ("after_submit_" ++ verification_id profile) ;;;
   '(current_step2, status2) <- poll page 6 PNone [] ;;
   if negb (ne_str current_step2 "error") then
     (dump_page (Some page) ("after_submit_error_" ++ verification_id profile) ;;;
      ret {| success := false;
             message := "表单提交后进入 error";
             result_verification_id := verification_id profile;
             status := Some (StRaw status2);
             form_values := None; trace := None |})
   else if negb (ne_str current_step2 "collectStudentPersonalInfo") then
     (dump_page (Some page) ("step_not_advanced_" ++ verification_id profile) ;;;
      ret {| success := false;
             message := "表单提交未生效（步骤未推进，仍为 collectStudentPersonalInfo）";
             result_verification_id := verification_id profile;
             status := Some (StRaw status2);
             form_values := None; trace := None |})
   else
     ret {| success := true;
            message := ("表单已提交，当前步骤: " ++ py_str current_step2)%string;
            result_verification_id := verification_id profile;
            status := Some (StRaw status2);
            form_values := None; trace := None |})%m.

(** Lines 258-372: from the gate on. *)
Definition submit_stage (profile : VerificationProfile) (page : Page)
    (form_frame : Frame) (data : pyobj) : Run run_result :=
  (g <- submit_gate profile page form_frame data ;;
   match g with
   | Some r => ret r
   | None => submit_and_poll profile page form_frame
   end)%m.

(** Lines 238-256: the dry run. *)
Definition dry_run_result (profile : VerificationProfile) (current_step : pyval)
    (pre_status : dict) (page : Page) (data : pyobj) : Run run_result :=
  (dump_page (Some page) ("dry_run_" ++ verification_id profile) ;;;
   swallow (dep PageClose (page_close host page)) ;;;
   ret {| success := true;
          message := "DRY_RUN: 仅填表未提交（用于校验前端绑定）";
          result_verification_id := verification_id profile;
          status := Some (StDryRun current_step pre_status);
          form_values := Some data;
          trace := None |})%m.

(** Lines 120-372: what runs once [page] is bound. *)
Definition browser_stage (profile : VerificationProfile) (current_step : pyval)
    (pre_status : dict) (page : Page) : Run run_result :=
  (nav <- navigate profile current_step pre_status page ;;
   match nav with
   | Some r => ret r
   | None =>
       (dep (WaitNetworkIdleSoft 15000) (wait_network_idle_soft deps page 15000) ;;;
        loc <- locate profile current_step pre_status page ;;
        match loc with
        | inr r => ret r
        | inl form_frame =>
            (fill_fields profile page form_frame ;;;
             data <- take_snapshot form_frame ;;
             if dry_run
             then dry_run_result profile current_step pre_status page data
             else submit_stage profile page form_frame data)
        end)
   end)%m.

(** Lines 373-383: the handler of the outermost [try]. *)
Definition unhandled (profile : VerificationProfile) (page : option Page) (e : exn)
  : Run run_result :=
  (swallow (dump_page page ("unhandled_exception_" ++ verification_id profile)) ;;;
   ret {| success := false;
          message := e;
          result_verification_id := verification_id profile;
          status := None;
          form_values := None;
          trace := Some e |})%m.

(** [VerificationOrchestrator.run].  The outermost [try] is split where
    [page] is bound, so that its handler knows whether [page] is still
    [None]. *)
Definition run (profile : VerificationProfile) : Run run_result :=
  try_except
    ('(current_step, pre_status) <- dep DoPrecheck (do_precheck deps) ;;
     if ne_str current_step "collectStudentPersonalInfo" && negb force_ui then
       ret {| success := ne_str current_step "error";
              message := ("预检步骤为 " ++ py_str current_step)%string;
              result_verification_id := verification_id profile;
              status := Some (StPrecheck current_step pre_status);
              form_values := None;
              trace := None |}
     else
       (dep EnsureBrowser (ensure_browser deps) ;;;
        dep EnsureForm (ensure_form deps) ;;;
        page <- dep NewPage (new_page deps) ;;
        try_except (browser_stage profile current_step pre_status page)
                   (unhandled profile (Some page))))%m
    (unhandled profile None).
End Run.

End VerificationOrchestrator.

(* ===================================================================== *)
(** ** config.py *)
(* ===================================================================== *)

Module config.

Definition SCHOOLS : list (string * dict) :=
  [("110565",
    [("id", PInt 110565);
     ("idExtended", PStr "110565");
     ("name", PStr "California State University-Fullerton");
     ("city", PStr "Fullerton");
     ("state", PStr "CA");
     ("country", PStr "US");
     ("type", PStr "UNIVERSITY");
     ("domain", PStr "FULLERTON.EDU")])].

Fixpoint schools_get (l : list (string * dict)) (k : string) : option dict :=
  match l with
  | [] => None
  | (k', v) :: l' => if String.eqb k k' then Some v else schools_get l' k
  end.

(** [bool(d)] for a dictionary or [None]. *)
Definition some_nonempty (o : option dict) : option dict :=
  match o with
  | Some ((_ :: _) as d) => Some d
  | _ => None
  end.

Section Env.
Variable getenv : string -> option string.

(** [(os.getenv('ONE_DEFAULT_SCHOOL_ID', '110565') or '110565').strip()] *)
Definition DEFAULT_SCHOOL_ID : string :=
  strip (match getenv "ONE_DEFAULT_SCHOOL_ID" with
         | Some (String _ _ as v) => v
         | _ => "110565"
         end).

Definition get_school (school_id : string) : option dict :=
  let sid := strip (if nonempty school_id then school_id else DEFAULT_SCHOOL_ID) in
  match some_nonempty (schools_get SCHOOLS sid) with
  | Some d => Some d
  | None =>
      match some_nonempty (schools_get SCHOOLS DEFAULT_SCHOOL_ID) with
      | Some d => Some d
      | None => schools_get SCHOOLS "110565"
      end
  end.

Definition VERIFY_URL (verification_id : string) : string :=
  (SheerIDClient.SHEERID_BASE_URL ++ "/verify/67c8c14f5f17a83b745e3f82/?verificationId="
   ++ verification_id)%string.
End Env.

End config.

(* ===================================================================== *)
(** ** sheerid_verifier.py: [SheerIDVerifier] *)
(* ===================================================================== *)

Module SheerIDVerifier.

Import VerificationOrchestrator.

(** The fields of the object that the modelled methods read or write;
    a handle is [true] when it is not [None]. *)
Record t : Type := {
  verification_id : string;
  _has_run : bool;
  locale : string;
  accept_language : string;
  _browser_mgr : bool;
  context : bool;
  http_client : bool;
  _api : option SheerIDClient.t;
  _api_svc : bool;
  _form : bool
}.

(** The collaborators outside the modelled files: browser, transport,
    clock, generators, the methods of [FormFiller] and of the page. *)
Record Collaborators (W Page Frame : Type) : Type := {
  browser_mgr_ensure : W -> outcome unit * W;
  fetch : string -> string -> list (string * string) -> option dict ->
          W -> outcome SheerIDClient.response * W;
  uniform01 : W -> Q * W;
  sleep_between_requests_async : W -> W;
  human_delay_async : Q -> Q -> W -> W;
  client_settings : SheerIDClient.ClientSettings;
  NameGenerator_generate : W -> outcome (string * string) * W;
  generate_birth_date : W -> outcome string * W;
  context_new_page : W -> outcome Page * W;
  page_wait_for_load_state : Page -> Z -> W -> outcome unit * W;
  form_locate_form_frame : Page -> W -> outcome Frame * W;
  form_fill_text : Frame -> string -> string -> W -> outcome unit * W;
  form_fill_org_and_select_first : Frame -> string -> W -> outcome unit * W;
  form_fill_birth_date_any : Frame -> string -> W -> outcome bool * W;
  form_check_all_visible_checkboxes : Frame -> W -> outcome Z * W;
  form_click_submit : Frame -> W -> outcome unit * W;
  form_ready_dump : Frame -> W -> outcome pyobj * W;
  page_host : Host W Page;
  (** [str(compact_for_trace(status))] *)
  render_status : status_payload -> string
}.
Arguments browser_mgr_ensure {W Page Frame}.
Arguments fetch {W Page Frame}.
Arguments uniform01 {W Page Frame}.
Arguments sleep_between_requests_async {W Page Frame}.
Arguments human_delay_async {W Page Frame}.
Arguments client_settings {W Page Frame}.
Arguments NameGenerator_generate {W Page Frame}.
Arguments generate_birth_date {W Page Frame}.
Arguments context_new_page {W Page Frame}.
Arguments page_wait_for_load_state {W Page Frame}.
Arguments form_locate_form_frame {W Page Frame}.
Arguments form_fill_text {W Page Frame}.
Arguments form_fill_org_and_select_first {W Page Frame}.
Arguments form_fill_birth_date_any {W Page Frame}.
Arguments form_check_all_visible_checkboxes {W Page Frame}.
Arguments form_click_submit {W Page Frame}.
Arguments form_ready_dump {W Page Frame}.
Arguments page_host {W Page Frame}.
Arguments render_status {W Page Frame}.

(** The object together with the world it acts on. *)
Record state (W : Type) : Type := {
  self : t;
  world : W
}.
Arguments self {W}.
Arguments world {W}.
Arguments Build_state {W}.

(** [__init__]: the locale configuration. *)
Definition init (getenv : string -> option string) (verification_id : string) : t :=
  let force_en :=
    env_flag (match getenv "ONE_SHEERID_FORCE_EN_US" with
              | Some (String _ _ as v) => Some v
              | _ => Some "1"
              end) in
  let al := strip (match getenv "ONE_SHEERID_ACCEPT_LANGUAGE" with
                   | Some v => v | None => "" end) in
  let accept := if nonempty al then al else "en-US,en;q=0.9" in
  let env_locale := strip (match getenv "ONE_SHEERID_LOCALE" with
                           | Some v => v | None => "" end) in
  let first := strip (hd "" (split "," accept)) in
  {| verification_id := verification_id;
     _has_run := false;
     locale := if force_en then "en-US"
               else if nonempty env_locale then env_locale
               else if nonempty first then first else "en-US";
     accept_language := if force_en then "en-US,en;q=0.9" else accept;
     _browser_mgr := false;
     context := false;
     http_client := false;
     _api := None;
     _api_svc := false;
     _form := false |}.

(** Lines 150-167 of [_do_precheck]: the server locale override, inside
    [try ... except Exception: pass].  A locale entry that is not a
    string and not falsy has no [.strip()]: the [except] swallows it. *)
Definition locale_override (pre_data : dict) (v : t) : t :=
  match or_empty (dict_get pre_data "locale") with
  | PStr raw =>
      let srv_locale := strip raw in
      if nonempty srv_locale && negb (String.eqb srv_locale (locale v)) then
        let al := (srv_locale ++ "," ++ hd "" (split "-" srv_locale)
                   ++ ";q=0.9,en-US;q=0.8,en;q=0.7")%string in
        {| verification_id := verification_id v;
           _has_run := _has_run v;
           locale := srv_locale;
           accept_language := al;
           _browser_mgr := _browser_mgr v;
           context := context v;
           http_client := http_client v;
           _api := match _api v with
                   | Some api =>
                       Some {| SheerIDClient.accept_language := al;
                               SheerIDClient.settings := SheerIDClient.settings api |}
                   | None => None
                   end;
           _api_svc := _api_svc v;
           _form := _form v |}
      else v
  | _ => v
  end.

Definition set_has_run (v : t) : t :=
  {| verification_id := verification_id v; _has_run := true;
     locale := locale v; accept_language := accept_language v;
     _browser_mgr := _browser_mgr v; context := context v;
     http_client := http_client v; _api := _api v;
     _api_svc := _api_svc v; _form := _form v |}.

Definition set_browser_mgr (v : t) : t :=
  {| verification_id := verification_id v; _has_run := _has_run v;
     locale := locale v; accept_language := accept_language v;
     _browser_mgr := true; context := context v;
     http_client := http_client v; _api := _api v;
     _api_svc := _api_svc v; _form := _form v |}.

Definition set_handles (v : t) : t :=
  {| verification_id := verification_id v; _has_run := _has_run v;
     locale := locale v; accept_language := accept_language v;
     _browser_mgr := _browser_mgr v; context := true;
     http_client := true; _api := _api v;
     _api_svc := _api_svc v; _form := _form v |}.

Definition set_api (v : t) (api : option SheerIDClient.t) (svc : bool) : t :=
  {| verification_id := verification_id v; _has_run := _has_run v;
     locale := locale v; accept_language := accept_language v;
     _browser_mgr := _browser_mgr v; context := context v;
     http_client := http_client v; _api := api;
     _api_svc := svc; _form := _form v |}.

Definition set_form (v : t) : t :=
  {| verification_id := verification_id v; _has_run := _has_run v;
     locale := locale v; accept_language := accept_language v;
     _browser_mgr := _browser_mgr v; context := context v;
     http_client := http_client v; _api := _api v;
     _api_svc := _api_svc v; _form := true |}.

Section Methods.
Context {W Page Frame E : Type}.
Variable env : Collaborators W Page Frame.

Local Abbreviation V := (M (state W) E).

Definition get_self : V t := fun st => (Ok (self st), st, []).

Definition modify_self (f : t -> t) : V unit :=
  fun st => (Ok tt, {| self := f (self st); world := world st |}, []).

(** A collaborator acting on the world only. *)
Definition on_world {A} (f : W -> outcome A * W) : V A :=
  fun st => let '(r, w) := f (world st) in
            (r, {| self := self st; world := w |}, []).

Definition on_world_total {A} (f : W -> A * W) : V A :=
  fun st => let '(a, w) := f (world st) in
            (Ok a, {| self := self st; world := w |}, []).

Definition _wait_network_idle_soft (page : Page) (timeout_ms : Z) : V unit :=
  try_except (on_world (page_wait_for_load_state env page timeout_ms))
             (fun _ => ret tt).

Definition _ensure_browser : V unit :=
  (v <- get_self ;;
   if context v && http_client v then ret tt
   else
     (modify_self set_browser_mgr ;;;
      on_world (browser_mgr_ensure env) ;;;
      modify_self set_handles))%m.

Definition _ensure_api_service : V unit :=
  (v <- get_self ;;
   if _api_svc v then ret tt
   else
     (_ensure_browser ;;;
      v1 <- get_self ;;
      let api :=
        match _api v1 with
        | None =>
            if http_client v1
            then Some {| SheerIDClient.accept_language := accept_language v1;
                         SheerIDClient.settings := client_settings env |}
            else None
        | Some a => Some a
        end in
      match api with
      | None => raise "API client 未初始化"
      | Some _ => modify_self (fun v => set_api v api true)
      end))%m.

(** The service holds the bound method [self._api.request_json]: every
    call goes through the one client object, with the
    [accept_language] it has at that moment.  The client's own call log
    is dropped here. *)
Definition api_request_json (method url : string) (body : option dict)
  : V (dict * Z) :=
  (v <- get_self ;;
   match _api v with
   | Some api =>
       on_world (fun w => fst (SheerIDClient.request_json (fetch env) (uniform01 env)
                                 api method url body w))
   | None => raise "AttributeError: 'NoneType' object has no attribute 'request'"
   end)%m.

Definition _do_precheck : V (pyval * dict) :=
  (_ensure_api_service ;;;
   v <- get_self ;;
   '(step, pre_data) <-
      SheerIDApiService.precheck api_request_json
        (on_world_total (fun w => (tt, sleep_between_requests_async env w)))
        SheerIDClient.SHEERID_BASE_URL (verification_id v) ;;
   modify_self (locale_override pre_data) ;;;
   ret (step, pre_data))%m.
Definition _ensure_form : V unit :=
  (v <- get_self ;;
   if _form v then ret tt else modify_self set_form)%m.
End Methods.

Section Verify.
Context {W Page Frame : Type}.
Variable env : Collaborators W Page Frame.

(** A bound method handed to the orchestrator as a dependency. *)
Definition as_dep {A} (m : M (state W) orch_call A)
  : state W -> outcome A * state W :=
  fun st => fst (m st).

Definition lift {A} (f : W -> outcome A * W) : state W -> outcome A * state W :=
  as_dep (on_world f).

Definition lift_total (f : W -> W) (st : state W) : state W :=
  {| self := self st; world := f (world st) |}.

(** The page methods and the process environment, seen from the
    verifier's state. *)
Definition host : Host (state W) Page :=
  let h := page_host env in
  {| page_goto := fun p u => lift (page_goto h p u);
     page_wait_for_timeout := fun p ms => lift (page_wait_for_timeout h p ms);
     page_url := fun p => lift (page_url h p);
     page_title := fun p => lift (page_title h p);
     page_content := fun p => lift (page_content h p);
     page_iframe_count := fun p => lift (page_iframe_count h p);
     page_close := fun p => lift (page_close h p);
     asyncio_sleep := fun q => lift_total (asyncio_sleep h q);
     getenv := getenv h;
     screenshot_on_error := screenshot_on_error h |}.

(** [new_page=lambda: self.context.new_page()] *)
Definition new_page_dep : M (state W) orch_call Page :=
  (v <- get_self ;;
   if context v then on_world (context_new_page env)
   else raise "AttributeError: 'NoneType' object has no attribute 'new_page'")%m.

(** Lines 223-238: the dependency assembly of [verify]. *)
Definition deps : VerificationDeps (state W) Page Frame :=
  {| do_precheck := as_dep (_do_precheck env);
     ensure_browser := as_dep (_ensure_browser env);
     ensure_form := as_dep _ensure_form;
     new_page := as_dep new_page_dep;
     wait_network_idle_soft := fun p ms => as_dep (_wait_network_idle_soft env p ms);
     locate_form_frame := fun p => lift (form_locate_form_frame env p);
     fill_text := fun f k v => lift (form_fill_text env f k v);
     fill_org_and_select_first := fun f n => lift (form_fill_org_and_select_first env f n);
     fill_birth_date_any := fun f b => lift (form_fill_birth_date_any env f b);
     check_all_visible_checkboxes := fun f => lift (form_check_all_visible_checkboxes env f);
     click_submit := fun f => lift (form_click_submit env f);
     human_delay := fun lo hi => lift_total (human_delay_async env lo hi);
     build_verify_url := config.VERIFY_URL;
     dump_form_ready := Some (fun f => lift (form_ready_dump env f)) |}.

(** [bool(s)] for an optional string argument. *)
Definition given (o : option string) : bool :=
  match o with Some s => nonempty s | None => false end.

Definition or_else (o : option string) (default : string) : string :=
  match o with
  | Some (String _ _ as s) => s
  | _ => default
  end.

(** [bool(out.get("status"))] *)
Definition status_truthy (o : option status_payload) : bool :=
  match o with
  | None => false
  | Some (StRaw []) => false
  | Some _ => true
  end.

(** Lines 251-253: the message kept from the original wording. *)
Definition reword (out : run_result) : run_result :=
  if status_truthy (status out) && negb (success out)
     && String.eqb (message out) "表单提交后进入 error"
  then {| success := success out;
          message := ("表单提交后进入 error，详情: "
                      ++ match status out with
                         | Some st => render_status env st
                         | None => ""
                         end)%string;
          result_verification_id := result_verification_id out;
          status := status out;
          form_values := form_values out;
          trace := trace out |}
  else out.

(** Lines 200-254 of [verify]: what follows the single-use guard. *)
Definition verify_steps (first_name last_name email birth_date school_id : option string)
  : M (state W) orch_call run_result :=
  ('(first_name, last_name) <-
      (if negb (given first_name) || negb (given last_name)
       then (gen <- on_world (NameGenerator_generate env) ;;
             ret (or_else first_name (fst gen), or_else last_name (snd gen)))
       else ret (or_else first_name "", or_else last_name "")) ;;
   if negb (given email) then raise "未提供邮箱"
   else
     let school_id :=
       or_else school_id (config.DEFAULT_SCHOOL_ID (getenv (page_host env))) in
     match config.some_nonempty
             (config.get_school (getenv (page_host env)) school_id) with
     | None => raise ("未知学校 ID: " ++ school_id)%string
     | Some school =>
         (birth_date <- (if given birth_date then ret (or_else birth_date "")
                         else on_world (generate_birth_date env)) ;;
          _ensure_form ;;;
          v <- get_self ;;
          out <- run deps host
                   {| first_name := first_name;
                      last_name := last_name;
                      email := or_else email "";
                      birth_date := birth_date;
                      school_name := py_str (or_empty (dict_get school "name"));
                      VerificationOrchestrator.verification_id := verification_id v |} ;;
          ret (reword out))
     end)%m.

(** The body of the [try] in [verify]: the single-use guard (lines
    196-198), then the steps. *)
Definition verify_body (first_name last_name email birth_date school_id : option string)
  : M (state W) orch_call run_result :=
  (v <- get_self ;;
   if _has_run v then raise "实例仅允许执行一次 verify()"
   else
     (modify_self set_has_run ;;;
      verify_steps first_name last_name email birth_date school_id))%m.

(** [SheerIDVerifier.verify] *)
Definition verify (first_name last_name email birth_date school_id : option string)
  : M (state W) orch_call run_result :=
  try_except (verify_body first_name last_name email birth_date school_id)
    (fun e =>
       (v <- get_self ;;
        ret {| success := false;
               message := e;
               result_verification_id := verification_id v;
               status := None;
               form_values := None;
               trace := Some e |})%m).
End Verify.

End SheerIDVerifier.

(* ===================================================================== *)
(** ** form_filler.py: [FormFiller], the organization selector *)
(* ===================================================================== *)

Module FormFiller.

(** A double quote, for the selectors that contain one. *)
Definition dq : string := String (ascii_of_nat 34) EmptyString.

Record FillDelays : Type := {
  after_field_sec : Q;
  after_org_sec : Q;
  after_submit_sec : Q
}.

(** [self.selectors.get("organization")]: absent, one selector or a
    list. *)
Inductive selector_conf : Type :=
| SelNone
| SelStr (s : string)
| SelList (l : list string).

Record t : Type := {
  organization_selectors : selector_conf;
  delays : FillDelays
}.

(** The Playwright frame (and its page's keyboard).  A locator is the
    selector it was made from; [.first] is understood.  Every call may
    raise. *)
Record FrameApi (S : Type) : Type := {
  count : string -> S -> outcome nat * S;
  is_visible : string -> S -> outcome bool * S;
  get_attribute : string -> string -> S -> outcome (option string) * S;
  input_value : string -> S -> outcome string * S;
  text_content : string -> S -> outcome (option string) * S;
  wait_for_selector : string -> string -> Z -> S -> outcome unit * S;
  click : string -> S -> outcome unit * S;
  fill : string -> string -> S -> outcome unit * S;
  press_sequentially : string -> string -> S -> outcome unit * S;
  type_text : string -> string -> S -> outcome unit * S;
  press : string -> string -> S -> outcome unit * S;
  dispatch_event : string -> string -> S -> outcome unit * S;
  keyboard_press : string -> S -> outcome unit * S;
  (** the script of [_try_select_org_option_js] on a selector *)
  evaluate_click : string -> S -> outcome bool * S;
  (** [loc.evaluate("el => el.value = ...")] *)
  evaluate_set_value : string -> string -> S -> outcome unit * S;
  (** the two read-only diagnostic scripts, whose results are only
      logged *)
  evaluate_diagnostics : S -> S;
  asyncio_sleep : Q -> S -> S
}.
Arguments count {S}.
Arguments is_visible {S}.
Arguments get_attribute {S}.
Arguments input_value {S}.
Arguments text_content {S}.
Arguments wait_for_selector {S}.
Arguments click {S}.
Arguments fill {S}.
Arguments press_sequentially {S}.
Arguments type_text {S}.
Arguments press {S}.
Arguments dispatch_event {S}.
Arguments keyboard_press {S}.
Arguments evaluate_click {S}.
Arguments evaluate_set_value {S}.
Arguments evaluate_diagnostics {S}.
Arguments asyncio_sleep {S}.

(** The actions on the page, and the verdict of each identifier check. *)
Inductive ui_call : Type :=
| KeyboardPress (key : string)
| Click (loc : string)
| Fill (loc value : string)
| PressSequentially (loc text : string)
| TypeText (loc text : string)
| Press (loc key : string)
| DispatchEvent (loc name : string)
| JsClick (selector : string)
| SetValue (loc value : string)
| WaitForSelector (selector state : string) (timeout_ms : Z)
| Sleep (sec : Q)
| IdCheck (found : option string)
| SetBirthDateScript (day year : Z).

(** The candidates of [_check_org_id_filled]. *)
Definition org_id_candidates : list string :=
  [("input[name=" ++ dq ++ "organizationId" ++ dq ++ "]")%string;
   ("input[name=" ++ dq ++ "schoolId" ++ dq ++ "]")%string;
   ("input[name=" ++ dq ++ "organization.id" ++ dq ++ "]")%string;
   ("input[name*=" ++ dq ++ "organization" ++ dq ++ " i][type=" ++ dq ++ "hidden" ++ dq ++ "]")%string;
   ("input[name*=" ++ dq ++ "school" ++ dq ++ " i][type=" ++ dq ++ "hidden" ++ dq ++ "]")%string;
   ("input[id*=" ++ dq ++ "college" ++ dq ++ " i][type=" ++ dq ++ "hidden" ++ dq ++ "]")%string;
   ("input[id*=" ++ dq ++ "org" ++ dq ++ " i][type=" ++ dq ++ "hidden" ++ dq ++ "]")%string].

(** The candidates of [_find_org_combobox_input], in order. *)
Definition org_input_candidates : list string :=
  [".sid-college-name-id input[role='combobox']";
   "label[for='sid-college-name'] ~ div input[role='combobox']";
   "input[role='combobox'][aria-controls]:not(#changeLanguageSelector-input)";
   "#sid-college-name";
   "input[placeholder='School'], input[aria-label='School']"].

Definition selected_name_sel : string := ".sid-college-name-id .sid-selected-org__name".
Definition hidden_id_sel : string := "input[name='organizationId'], input[name='schoolId']".

(** [bool(o and o.strip())] *)
Definition nonblank (o : option string) : bool :=
  match o with
  | Some s => nonempty s && nonempty (strip s)
  | None => false
  end.

(** Lines 416-424: the candidate search terms. *)
Definition search_terms (org_name : string) : list string :=
  let raw_name := strip org_name in
  let t1 :=
    if contains_char "-" raw_name then
      let parts := filter nonempty (map strip (split "-" raw_name)) in
      if (1 <? List.length parts)%nat then [last parts ""] else []
    else [] in
  let clean_name := strip (replace "-" " " raw_name) in
  let t2 := if nonempty clean_name && negb (mem_str clean_name t1)
            then t1 ++ [clean_name] else t1 in
  if nonempty raw_name && negb (mem_str raw_name t2)
  then t2 ++ [raw_name] else t2.

(** What one pass of the loop over the terms decides. *)
Inductive term_ctl : Type :=
| NextTerm
| Selected.

Section Protocol.
Context {S : Type}.
Variable frame : FrameApi S.
Variable self : t.

Local Abbreviation UI := (M S ui_call).

Definition act {A} (ev : ui_call) (f : S -> outcome A * S) : UI A :=
  (emit ev ;;; call f)%m.

(** [try: m  except Exception: pass] *)
Definition swallow {A} (m : UI A) : UI unit :=
  try_except (m ;;; ret tt)%m (fun _ => ret tt).

(** [FormFiller._sleep] *)
Definition _sleep (sec : Q) : UI unit :=
  if Qle_bool sec 0 then ret tt
  else (emit (Sleep sec) ;;; effect (fun s => (tt, asyncio_sleep frame sec s)))%m.

(** [_wait_any_selector] *)
Fixpoint wait_each (sels : list string) (timeout_ms : Z) : UI bool :=
  match sels with
  | [] => ret false
  | sel :: rest =>
      (r <- try_except
              (act (WaitForSelector sel "attached" timeout_ms)
                   (wait_for_selector frame sel "attached" timeout_ms) ;;; ret true)
              (fun _ => ret false) ;;
       if r then ret true else wait_each rest timeout_ms)%m
  end.

Definition _wait_any_selector (selectors : selector_conf) (timeout_ms : Z) : UI bool :=
  match selectors with
  | SelNone | SelStr "" | SelList [] => ret false
  | SelStr s => wait_each (filter (fun x => nonempty (strip x)) [s]) timeout_ms
  | SelList l => wait_each (filter (fun x => nonempty (strip x)) l) timeout_ms
  end.

(** [await loc.count() and await loc.is_visible()] *)
Definition present_and_visible (css : string) : UI bool :=
  (n <- call (count frame css) ;;
   if (0 <? n)%nat then call (is_visible frame css) else ret false)%m.

(** [_find_org_combobox_input] (and [_fresh_org_input]) *)
Fixpoint find_first_visible (cands : list string) : UI (option string) :=
  match cands with
  | [] => ret None
  | css :: rest =>
      (hit <- try_except (present_and_visible css) (fun _ => ret false) ;;
       if hit then ret (Some css) else find_first_visible rest)%m
  end.

Definition _find_org_combobox_input : UI (option string) :=
  find_first_visible org_input_candidates.

Definition _fresh_org_input : UI (option string) := _find_org_combobox_input.

(** The first loop of [_check_org_id_filled]. *)
Fixpoint check_candidates (cands : list string) : UI (option string) :=
  match cands with
  | [] => ret None
  | css :: rest =>
      (r <- try_except
              (n <- call (count frame css) ;;
               if (0 <? n)%nat then
                 (val <- call (get_attribute frame css "value") ;;
                  match val with
                  | Some v =>
                      if nonempty v && nonempty (strip v) && (5 <? length v)%nat
                      then ret (Some (strip v)) else ret None
                  | None => ret None
                  end)
               else ret None)
              (fun _ => ret None) ;;
       match r with
       | Some v => ret (Some v)
       | None => check_candidates rest
       end)%m
  end.

(** [_check_org_id_filled], its verdict recorded. *)
Definition _check_org_id_filled : UI (option string) :=
  (r <- check_candidates org_id_candidates ;;
   r' <- match r with
         | Some v => ret (Some v)
         | None =>
             try_except
               (n <- call (count frame "#sid-college-name, #sid-college-name") ;;
                if (0 <? n)%nat then
                  (val <- call (get_attribute frame
                                  "#sid-college-name, #sid-college-name"
                                  "data-selected-id") ;;
                   match val with
                   | Some (String _ _ as v) => ret (Some v)
                   | _ => ret None
                   end)
                else ret None)
               (fun _ => ret None)
         end ;;
   emit (IdCheck r') ;;;
   ret r')%m.

(** [_is_org_already_selected] *)
Definition _is_org_already_selected : UI bool :=
  (a <- try_except
          (selected_name <- call (text_content frame selected_name_sel) ;;
           ret (nonblank selected_name))
          (fun _ => ret false) ;;
   if a then ret true
   else
     try_except
       (hid <- call (input_value frame hidden_id_sel) ;;
        ret (nonblank (Some hid)))
       (fun _ => ret false))%m.

(** [_check_org_selected_strict]: [(ok, reason, school_text)] *)
Definition _check_org_selected_strict : UI (bool * string * option string) :=
  (a <- try_except
          (n <- call (count frame selected_name_sel) ;;
           if (0 <? n)%nat then
             (t <- call (text_content frame selected_name_sel) ;;
              let txt := strip (match t with Some x => x | None => "" end) in
              if nonempty txt then ret (Some txt) else ret None)
           else ret None)
          (fun _ => ret None) ;;
   match a with
   | Some txt => ret (true, "selected_org_container", Some txt)
   | None =>
       (b <- try_except
               (n <- call (count frame hidden_id_sel) ;;
                if (0 <? n)%nat then
                  (hid <- call (input_value frame hidden_id_sel) ;;
                   ret (nonempty (strip hid)))
                else ret false)
               (fun _ => ret false) ;;
        if b then ret (true, "hidden_org_id", None)
        else ret (false, "not_selected", None))
   end)%m.

(** [_safe_focus_input] *)
Definition _safe_focus_input (loc : string) : UI bool :=
  try_except (act (Click loc) (click frame loc) ;;; ret true)%m (fun _ => ret false).

(** [_try_select_org_option_js] *)
Definition _try_select_org_option_js (option_selector : string) : UI bool :=
  try_except (act (JsClick option_selector) (evaluate_click frame option_selector))
             (fun _ => ret false).

(** [_force_select_org_by_exact_text] *)
Definition _force_select_org_by_exact_text (full_text : string) : UI bool :=
  try_except
    (o <- _fresh_org_input ;;
     match o with
     | None => ret false
     | Some loc =>
         (_safe_focus_input loc ;;;
          swallow (act (Fill loc "") (fill frame loc "")) ;;;
          swallow (act (KeyboardPress "Control+A") (keyboard_press frame "Control+A") ;;;
                   act (KeyboardPress "Backspace") (keyboard_press frame "Backspace")) ;;;
          _sleep 0.15 ;;;
          swallow (act (TypeText loc full_text) (type_text frame loc full_text) ;;;
                   _sleep 0.25 ;;;
                   act (Press loc "Enter") (press frame loc "Enter")) ;;;
          _sleep 0.35 ;;;
          swallow (act (DispatchEvent loc "input") (dispatch_event frame loc "input") ;;;
                   act (DispatchEvent loc "change") (dispatch_event frame loc "change") ;;;
                   act (DispatchEvent loc "blur") (dispatch_event frame loc "blur")) ;;;
          _sleep 0.35 ;;;
          r <- _check_org_id_filled ;;
          ret (match r with Some _ => true | None => false end))
     end)%m
    (fun _ => ret false).

(** The keyboard strategy of a round (lines 477-482). *)
Definition keyboard_strategy : UI unit :=
  swallow (act (KeyboardPress "ArrowDown") (keyboard_press frame "ArrowDown") ;;;
           _sleep 0.15 ;;;
           act (KeyboardPress "Enter") (keyboard_press frame "Enter"))%m.

(** The synthetic pointer event strategy of a round (lines 488-498). *)
Definition pointer_strategy (menu_selector : string) : UI unit :=
  swallow (js_clicked <- _try_select_org_option_js
                           (menu_selector ++ " [role='option']")%string ;;
           if negb js_clicked
           then _try_select_org_option_js
                  (menu_selector ++ " div[class*='option']")%string
           else ret false)%m.

(** Lines 476-502: [for _ in range(4)], [n] rounds left. *)
Fixpoint selection_rounds (menu_selector : string) (n : nat) : UI unit :=
  match n with
  | O => ret tt
  | Datatypes.S n' =>
      (keyboard_strategy ;;;
       _sleep 0.25 ;;;
       filled <- _check_org_id_filled ;;
       match filled with
       | Some _ => ret tt
       | None =>
           (pointer_strategy menu_selector ;;;
            _sleep 0.35 ;;;
            filled' <- _check_org_id_filled ;;
            match filled' with
            | Some _ => ret tt
            | None => selection_rounds menu_selector n'
            end)
       end)%m
  end.

(** Lines 511-514: [for _ in range(8)], [n] polls left. *)
Fixpoint await_org_id (n : nat) : UI unit :=
  match n with
  | O => ret tt
  | Datatypes.S n' =>
      (filled <- _check_org_id_filled ;;
       match filled with
       | Some _ => ret tt
       | None => (_sleep 0.25 ;;; await_org_id n')
       end)%m
  end.

(** Lines 434-529: the [try] block for one search term. *)
Definition try_term (raw_name term : string) : UI term_ctl :=
  (o <- _fresh_org_input ;;
   match o with
   | None => ret NextTerm
   | Some loc =>
       (_safe_focus_input loc ;;;
        act (Fill loc "") (fill frame loc "") ;;;
        act (KeyboardPress "Control+A") (keyboard_press frame "Control+A") ;;;
        act (KeyboardPress "Backspace") (keyboard_press frame "Backspace") ;;;
        _sleep 0.1 ;;;
        act (PressSequentially loc term) (press_sequentially frame loc term) ;;;
        menu_id <- try_except (call (get_attribute frame loc "aria-controls"))
                     (fun _ => ret None) ;;
        let menu_selector :=
          if nonblank menu_id
          then ("#" ++ strip (match menu_id with Some x => x | None => "" end))%string
          else "#sid-college-name-menu" in
        let valid_option_sel :=
          (menu_selector ++ " [role='option'], " ++ menu_selector
           ++ " div[class*='option']")%string in
        visible <- try_except
                     (act (WaitForSelector valid_option_sel "visible" 6000)
                          (wait_for_selector frame valid_option_sel "visible" 6000) ;;;
                      ret true)
                     (fun _ => ret false) ;;
        if negb visible then ret NextTerm
        else
          (n <- call (count frame valid_option_sel) ;;
           (if (0 <? n)%nat
            then (selection_rounds menu_selector 4 ;;;
                  swallow (act (KeyboardPress "Tab") (keyboard_press frame "Tab")))
            else ret tt) ;;;
           await_org_id 8 ;;;
           '(ok, _, _) <- _check_org_selected_strict ;;
           if ok then
             (filled <- _check_org_id_filled ;;
              match filled with
              | Some _ => ret tt
              | None =>
                  swallow (_force_select_org_by_exact_text
                             (if nonempty raw_name then raw_name else term))
              end ;;;
              ret Selected)
           else ret NextTerm))
   end)%m.

(** Lines 428-533: [for term in search_terms]. *)
Fixpoint try_terms (raw_name : string) (terms : list string) : UI unit :=
  match terms with
  | [] => ret tt
  | term :: rest =>
      if (length term <? 2)%nat then try_terms raw_name rest
      else
        (c <- try_except (try_term raw_name term)
                (fun _ => act (KeyboardPress "Escape") (keyboard_press frame "Escape") ;;;
                          ret NextTerm) ;;
         match c with
         | Selected => ret tt
         | NextTerm => try_terms raw_name rest
         end)%m
  end.

(** Lines 535-553: the final check and the terminal fallback. *)
Definition conclude (raw_name : string) : UI unit :=
  ('(ok, _, _) <- _check_org_selected_strict ;;
   if ok then ret tt
   else
     (effect (fun s => (tt, evaluate_diagnostics frame s)) ;;;
      if nonempty raw_name then
        swallow (o <- _fresh_org_input ;;
                 match o with
                 | Some loc =>
                     (act (SetValue loc raw_name) (evaluate_set_value frame loc raw_name) ;;;
                      act (DispatchEvent loc "input") (dispatch_event frame loc "input") ;;;
                      act (DispatchEvent loc "change") (dispatch_event frame loc "change") ;;;
                      act (DispatchEvent loc "blur") (dispatch_event frame loc "blur"))
                 | None => ret tt
                 end)
      else ret tt))%m.

(** [FormFiller.fill_org_and_select_first] *)
Definition fill_org_and_select_first (org_name : string) : UI unit :=
  (already <- _is_org_already_selected ;;
   if already then ret tt
   else
     (try_except
        (act (WaitForSelector "#sid-college-name" "attached" 8000)
             (wait_for_selector frame "#sid-college-name" "attached" 8000))
        (fun _ => _wait_any_selector (organization_selectors self) 5000 ;;; ret tt) ;;;
      o <- _fresh_org_input ;;
      match o with
      | None => ret tt
      | Some _ =>
          let raw_name := strip org_name in
          (try_terms raw_name (search_terms org_name) ;;;
           conclude raw_name ;;;
           _sleep (after_org_sec (delays self)))
      end))%m.
End Protocol.

End FormFiller.

(* ===================================================================== *)
(** ** form_ready_dump.py: the snapshot [dump_form_ready] builds *)
(* ===================================================================== *)

Module form_ready_dump.

(** The entries of the dictionary built at lines 638-649 (the nested
    [schoolDebug] entry, which nothing reads, is left out).  The text
    readers [val] and [text] return a stripped text or [None];
    [consentChecked] is a boolean or [None]; [ariaInvalidCount] is a
    count, or -1 when counting failed. *)
Record FormReadySnapshot : Type := {
  firstName : option string;
  lastName : option string;
  email : option string;
  dob : option string;
  schoolText : option string;
  schoolId : option string;
  consentChecked : option bool;
  submitDisabled : option string;
  submitAriaDisabled : option string;
  ariaInvalidCount : Z
}.

Definition opt_str (o : option string) : pyval :=
  match o with Some s => PStr s | None => PNone end.

Definition opt_bool (o : option bool) : pyval :=
  match o with Some b => PBool b | None => PNone end.

Definition to_dict (f : FormReadySnapshot) : dict :=
  [("firstName", opt_str (firstName f));
   ("lastName", opt_str (lastName f));
   ("email", opt_str (email f));
   ("dob", opt_str (dob f));
   ("schoolText", opt_str (schoolText f));
   ("schoolId", opt_str (schoolId f));
   ("consentChecked", opt_bool (consentChecked f));
   ("submitDisabled", opt_str (submitDisabled f));
   ("submitAriaDisabled", opt_str (submitAriaDisabled f));
   ("ariaInvalidCount", PInt (ariaInvalidCount f))].

(** A text as [val] and [text] return it: nothing to strip. *)
Definition trimmed (o : option string) : Prop :=
  forall s, o = Some s -> strip s = s.





(** The two snapshots of the specification's test. *)
Definition snapshot_text_only : FormReadySnapshot :=
  {| firstName := None; lastName := None; email := None; dob := None;
     schoolText := Some "Acme University"; schoolId := Some "";
     consentChecked := Some true;
     submitDisabled := None; submitAriaDisabled := None;
     ariaInvalidCount := 0 |}.



End form_ready_dump.

(* ===================================================================== *)
(** ** Reading call logs *)
(* ===================================================================== *)

(** [l1] is [l2] with some elements left out, order kept. *)
Inductive Subseq {A : Type} : list A -> list A -> Prop :=
| Subseq_nil : forall l, Subseq [] l
| Subseq_skip : forall x l1 l2, Subseq l1 l2 -> Subseq l1 (x :: l2)
| Subseq_take : forall x l1 l2, Subseq l1 l2 -> Subseq (x :: l1) (x :: l2).

Module ClientLog.
Import SheerIDClient.

(** The transport outcomes of a call log, in order. *)
Definition fetches (log : list client_call) : list (outcome response) :=
  flat_map (fun c => match c with CFetch _ _ _ _ r => [r] | CSleep _ => [] end) log.

(** What one attempt amounts to: the decoded (body, status) pair, or the
    exception of the transport (the fetch, or the read of the body when
    it is not JSON). *)
Definition attempt_result (r : outcome response) : outcome (dict * Z) :=
  match r with
  | Raise e => Raise e
  | Ok resp =>
      match json resp with
      | Ok d => Ok (d, status resp)
      | Raise _ =>
          match text resp with
          | Ok t => Ok ([("raw", PStr (take 500 (match t with Some x => x | None => "" end)))],
                        status resp)
          | Raise e => Raise e
          end
      end
  end.

(** The attempt threw, or its status is one of the six. *)
Definition retryable (r : outcome response) : bool :=
  match attempt_result r with
  | Ok (_, st) => in_retry_statuses st
  | Raise _ => true
  end.


End ClientLog.

Module OrgLog.
Import FormFiller.

(** The terms typed into the organization input, in order. *)
Definition typed_terms (log : list ui_call) : list string :=
  flat_map (fun c => match c with PressSequentially _ t => [t] | _ => [] end) log.

(** The landmarks of a selection round: the two presses of the
    keyboard strategy (arrow-down, then enter), the two synthetic
    clicks of the pointer strategy (on the first option by role, then
    on the first option by class), an identifier check and whether it
    found one. *)
Inductive mark : Type :=
| MKeyboard
| MEnter
| MPointer
| MPointerAlt
| MCheck (found : bool).

Definition mark_of (menu_selector : string) (c : ui_call) : list mark :=
  match c with
  | KeyboardPress key =>
      if String.eqb key "ArrowDown" then [MKeyboard]
      else if String.eqb key "Enter" then [MEnter]
      else []
  | JsClick sel =>
      if String.eqb sel (menu_selector ++ " [role='option']")%string then [MPointer]
      else if String.eqb sel (menu_selector ++ " div[class*='option']")%string
           then [MPointerAlt]
           else []
  | IdCheck (Some _) => [MCheck true]
  | IdCheck None => [MCheck false]
  | _ => []
  end.

Definition marks (menu_selector : string) (log : list ui_call) : list mark :=
  flat_map (mark_of menu_selector) log.

(** The keyboard strategy: arrow-down then enter, or arrow-down alone
    when it raised. *)
Definition keyboard_marks (kb : list mark) : Prop :=
  kb = [MKeyboard; MEnter] \/ kb = [MKeyboard].

(** The pointer strategy: the click on the first option by role, and
    the click on the first option by class when the first did not
    click. *)
Definition pointer_marks (pt : list mark) : Prop :=
  pt = [MPointer] \/ pt = [MPointer; MPointerAlt].

(** The landmarks of a loop with [n] rounds left. *)
Inductive rounds_shape : nat -> list mark -> Prop :=
| rs_none : rounds_shape 0 []
| rs_keyboard_hit : forall n kb,
    keyboard_marks kb -> rounds_shape (S n) (kb ++ [MCheck true])
| rs_pointer_hit : forall n kb pt,
    keyboard_marks kb -> pointer_marks pt ->
    rounds_shape (S n) (kb ++ MCheck false :: pt ++ [MCheck true])
| rs_next : forall n kb pt rest,
    keyboard_marks kb -> pointer_marks pt ->
    rounds_shape n rest ->
    rounds_shape (S n) (kb ++ MCheck false :: pt ++ MCheck false :: rest).

Definition is_keyboard (m : mark) : bool :=
  match m with MKeyboard => true | _ => false end.

(** The number of rounds attempted. *)
Definition rounds (ms : list mark) : nat := List.length (filter is_keyboard ms).

(** The strategies of a log, in order: where each one starts. *)
Definition strategies (ms : list mark) : list mark :=
  filter (fun m => match m with MKeyboard | MPointer => true | _ => false end) ms.

(** The presses and the synthetic clicks of a log. *)
Definition gestures (ms : list mark) : list mark :=
  filter (fun m => match m with MCheck _ => false | _ => true end) ms.

(** Keyboard, pointer, keyboard, pointer, ... *)
Fixpoint alternating (keyboard_next : bool) (ms : list mark) : bool :=
  match ms with
  | [] => true
  | MKeyboard :: r => keyboard_next && alternating false r
  | MPointer :: r => negb keyboard_next && alternating true r
  | _ :: r => false
  end.

End OrgLog.

Module VerifierLog.
Import SheerIDVerifier.

(** The locale a payload declares: the stripped text of its [locale]
    entry, empty when there is none. *)
Definition server_locale (pd : dict) : string :=
  match dict_get pd "locale" with
  | PStr s => strip s
  | _ => ""
  end.

(** The header derived from a server locale. *)
Definition locale_header (srv : string) : string :=
  (srv ++ "," ++ hd "" (split "-" srv) ++ ";q=0.9,en-US;q=0.8,en;q=0.7")%string.

Definition same_locale (a b : t) : Prop :=
  locale a = locale b /\ accept_language a = accept_language b.

(** The object after a sequence of precheck payloads. *)
Definition after_payloads (v : t) (payloads : list dict) : t :=
  fold_left (fun v pd => locale_override pd v) payloads v.

(** A one-way ratchet: a locale once left is never taken again. *)
Definition ratchet (h : list string) : Prop :=
  forall i j k a b c,
    (i < j < k)%nat ->
    nth_error h i = Some a -> nth_error h j = Some b -> nth_error h k = Some c ->
    a <> b -> c <> a.

(** An instance once used stays used. *)
Definition keeps_used (a b : t) : Prop := _has_run a = true -> _has_run b = true.

(** The message of the single-use guard of [verify]. *)
Definition single_use_message : string := "实例仅允许执行一次 verify()".

End VerifierLog.

(** A relation between the state before and after that every step of a
    computation respects. *)
Definition stable {S E A} (R : S -> S -> Prop) (m : M S E A) : Prop :=
  forall s, R s (state_of (m s)).

Definition stable_fn {S A} (R : S -> S -> Prop) (f : S -> outcome A * S) : Prop :=
  forall s, R s (snd (f s)).

Record deps_stable {S Page Frame} (R : S -> S -> Prop)
    (deps : VerificationOrchestrator.VerificationDeps S Page Frame)
    (host : VerificationOrchestrator.Host S Page) : Prop := {
  st_do_precheck : stable_fn R (VerificationOrchestrator.do_precheck deps);
  st_ensure_browser : stable_fn R (VerificationOrchestrator.ensure_browser deps);
  st_ensure_form : stable_fn R (VerificationOrchestrator.ensure_form deps);
  st_new_page : stable_fn R (VerificationOrchestrator.new_page deps);
  st_wait : forall p ms,
      stable_fn R (VerificationOrchestrator.wait_network_idle_soft deps p ms);
  st_locate : forall p, stable_fn R (VerificationOrchestrator.locate_form_frame deps p);
  st_fill_text : forall f k v, stable_fn R (VerificationOrchestrator.fill_text deps f k v);
  st_fill_org : forall f n,
      stable_fn R (VerificationOrchestrator.fill_org_and_select_first deps f n);
  st_fill_birth : forall f b,
      stable_fn R (VerificationOrchestrator.fill_birth_date_any deps f b);
  st_check : forall f,
      stable_fn R (VerificationOrchestrator.check_all_visible_checkboxes deps f);
  st_click : forall f, stable_fn R (VerificationOrchestrator.click_submit deps f);
  st_delay : forall lo hi s, R s (VerificationOrchestrator.human_delay deps lo hi s);
  st_dump : forall dump f,
      VerificationOrchestrator.dump_form_ready deps = Some dump -> stable_fn R (dump f);
  st_goto : forall p u, stable_fn R (VerificationOrchestrator.page_goto host p u);
  st_wait_for_timeout : forall p ms,
      stable_fn R (VerificationOrchestrator.page_wait_for_timeout host p ms);
  st_url : forall p, stable_fn R (VerificationOrchestrator.page_url host p);
  st_title : forall p, stable_fn R (VerificationOrchestrator.page_title host p);
  st_content : forall p, stable_fn R (VerificationOrchestrator.page_content host p);
  st_iframe_count : forall p,
      stable_fn R (VerificationOrchestrator.page_iframe_count host p);
  st_close : forall p, stable_fn R (VerificationOrchestrator.page_close host p);
  st_sleep : forall q s, R s (VerificationOrchestrator.asyncio_sleep host q s)
}.

(* ===================================================================== *)
(** ** Simulated collaborators, for the concrete runs *)
(* ===================================================================== *)

(** A scripted world for the orchestrator: the payloads the status
    poller will return and the snapshots the dump function will build,
    in order; every other collaborator succeeds. *)
Module SimRun.
Import VerificationOrchestrator.

Record world : Type := {
  prechecks : list (pyval * dict);
  dumps : list (outcome pyobj)
}.

Definition next_precheck (w : world) : outcome (pyval * dict) * world :=
  match prechecks w with
  | x :: rest => (Ok x, {| prechecks := rest; dumps := dumps w |})
  | [] => (Raise "no more payloads", w)
  end.

Definition next_dump (w : world) : outcome pyobj * world :=
  match dumps w with
  | x :: rest => (x, {| prechecks := prechecks w; dumps := rest |})
  | [] => (Raise "no more snapshots", w)
  end.

Definition ok {A} (a : A) (w : world) : outcome A * world := (Ok a, w).

Definition deps (with_dump : bool) : VerificationDeps world unit unit :=
  {| do_precheck := next_precheck;
     ensure_browser := ok tt;
     ensure_form := ok tt;
     new_page := ok tt;
     wait_network_idle_soft := fun _ _ => ok tt;
     locate_form_frame := fun _ => ok tt;
     fill_text := fun _ _ _ => ok tt;
     fill_org_and_select_first := fun _ _ => ok tt;
     fill_birth_date_any := fun _ _ => ok true;
     check_all_visible_checkboxes := fun _ => ok 0;
     click_submit := fun _ => ok tt;
     human_delay := fun _ _ w => w;
     build_verify_url := config.VERIFY_URL;
     dump_form_ready := if with_dump then Some (fun _ => next_dump) else None |}.

Definition host : Host world unit :=
  {| page_goto := fun _ _ => ok tt;
     page_wait_for_timeout := fun _ _ => ok tt;
     page_url := fun _ => ok "";
     page_title := fun _ => ok None;
     page_content := fun _ => ok None;
     page_iframe_count := fun _ => ok 0;
     page_close := fun _ => ok tt;
     asyncio_sleep := fun _ w => w;
     getenv := fun _ => None;
     screenshot_on_error := true |}.

Definition profile : VerificationProfile :=
  {| first_name := "Ada"; last_name := "Lovelace"; email := "ada@example.edu";
     birth_date := "2001-3-7";
     school_name := "California State University-Fullerton";
     verification_id := "vid123" |}.

Definition initial : pyval * dict :=
  (PStr "collectStudentPersonalInfo", [("currentStep", PStr "collectStudentPersonalInfo")]).

Definition pending : pyval * dict :=
  (PStr "pending", [("currentStep", PStr "pending")]).


End SimRun.

(** A scripted transport for the API client and the verifier: the
    outcomes of the successive fetches. *)
Module SimApi.
Import VerificationOrchestrator.

Definition world : Type := list (outcome SheerIDClient.response).

Definition fetch (_ _ : string) (_ : list (string * string)) (_ : option dict)
    (w : world) : outcome SheerIDClient.response * world :=
  match w with
  | x :: rest => (x, rest)
  | [] => (Raise "connection refused", [])
  end.

Definition uniform01 (w : world) : Q * world := (1 # 2, w).

Definition json_response (st : Z) (d : dict) : outcome SheerIDClient.response :=
  Ok {| SheerIDClient.status := st; SheerIDClient.json := Ok d;
        SheerIDClient.text := Ok None |}.

Definition client : SheerIDClient.t :=
  {| SheerIDClient.accept_language := "en-US,en;q=0.9";
     SheerIDClient.settings := SheerIDClient.from_env None None None |}.

Definition ok {A} (a : A) (w : world) : outcome A * world := (Ok a, w).

Definition page_host : Host world unit :=
  {| page_goto := fun _ _ => ok tt;
     page_wait_for_timeout := fun _ _ => ok tt;
     page_url := fun _ => ok "";
     page_title := fun _ => ok None;
     page_content := fun _ => ok None;
     page_iframe_count := fun _ => ok 0;
     page_close := fun _ => ok tt;
     asyncio_sleep := fun _ w => w;
     getenv := fun _ => None;
     screenshot_on_error := true |}.

Definition env : SheerIDVerifier.Collaborators world unit unit :=
  {| SheerIDVerifier.browser_mgr_ensure := ok tt;
     SheerIDVerifier.fetch := fetch;
     SheerIDVerifier.uniform01 := uniform01;
     SheerIDVerifier.sleep_between_requests_async := fun w => w;
     SheerIDVerifier.human_delay_async := fun _ _ w => w;
     SheerIDVerifier.client_settings := SheerIDClient.from_env None None None;
     SheerIDVerifier.NameGenerator_generate := ok ("Ada", "Lovelace");
     SheerIDVerifier.generate_birth_date := ok "2001-3-7";
     SheerIDVerifier.context_new_page := ok tt;
     SheerIDVerifier.page_wait_for_load_state := fun _ _ => ok tt;
     SheerIDVerifier.form_locate_form_frame := fun _ => ok tt;
     SheerIDVerifier.form_fill_text := fun _ _ _ => ok tt;
     SheerIDVerifier.form_fill_org_and_select_first := fun _ _ => ok tt;
     SheerIDVerifier.form_fill_birth_date_any := fun _ _ => ok true;
     SheerIDVerifier.form_check_all_visible_checkboxes := fun _ => ok 0;
     SheerIDVerifier.form_click_submit := fun _ => ok tt;
     SheerIDVerifier.form_ready_dump :=
       fun _ => ok (ODict (form_ready_dump.to_dict form_ready_dump.snapshot_text_only));
     SheerIDVerifier.page_host := page_host;
     SheerIDVerifier.render_status := fun _ => "" |}.

(** A fresh verifier facing the given transport script. *)
Definition fresh (w : world) : SheerIDVerifier.state world :=
  {| SheerIDVerifier.self := SheerIDVerifier.init (fun _ => None) "vid123";
     SheerIDVerifier.world := w |}.

Definition payload (step locale : string) : outcome SheerIDClient.response :=
  json_response 200 [("currentStep", PStr step); ("locale", PStr locale)].

End SimApi.

(** A simulated document for the organization selector: an input
    [#sid-college-name], a results menu with options, and a hidden
    [organizationId] input whose value becomes [id] once [threshold]
    synthetic clicks have reached the first option. *)
Module SimDoc.
Import FormFiller.

Record doc : Type := {
  typed : string;
  js_clicks : nat
}.

Definition options_sel : string :=
  "#sid-college-name-menu [role='option'], #sid-college-name-menu div[class*='option']".

Definition hidden_attr_sel : string :=
  ("input[name=" ++ dq ++ "organizationId" ++ dq ++ "]")%string.

Section Doc.
Variable threshold : nat.
Variable id : string.

Definition hidden_value (d : doc) : string :=
  if (threshold <=? js_clicks d)%nat then id else "".

Definition ok {A} (a : A) (d : doc) : outcome A * doc := (Ok a, d).

Definition sim_count (css : string) : doc -> outcome nat * doc :=
  if String.eqb css "#sid-college-name" then ok 1%nat
  else if String.eqb css options_sel then ok 3%nat
  else if String.eqb css hidden_attr_sel then ok 1%nat
  else if String.eqb css hidden_id_sel then ok 1%nat
  else ok 0%nat.

Definition sim_get_attribute (css name : string) (d : doc)
  : outcome (option string) * doc :=
  if String.eqb css hidden_attr_sel && String.eqb name "value"
  then (Ok (Some (hidden_value d)), d)
  else (Ok None, d).

Definition sim_input_value (css : string) (d : doc) : outcome string * doc :=
  if String.eqb css hidden_id_sel then (Ok (hidden_value d), d)
  else (Raise "TimeoutError", d).

Definition sim_evaluate_click (sel : string) (d : doc) : outcome bool * doc :=
  if String.eqb sel "#sid-college-name-menu [role='option']"
  then (Ok true, {| typed := typed d; js_clicks := S (js_clicks d) |})
  else (Ok false, d).

Definition frame : FrameApi doc :=
  {| count := sim_count;
     is_visible := fun css => ok (String.eqb css "#sid-college-name");
     get_attribute := sim_get_attribute;
     input_value := sim_input_value;
     text_content := fun _ d => (Raise "TimeoutError", d);
     wait_for_selector := fun _ _ _ => ok tt;
     click := fun _ => ok tt;
     fill := fun _ v d => (Ok tt, {| typed := v; js_clicks := js_clicks d |});
     press_sequentially :=
       fun _ v d => (Ok tt, {| typed := (typed d ++ v)%string; js_clicks := js_clicks d |});
     type_text := fun _ _ => ok tt;
     press := fun _ _ => ok tt;
     dispatch_event := fun _ _ => ok tt;
     keyboard_press := fun _ => ok tt;
     evaluate_click := sim_evaluate_click;
     evaluate_set_value := fun _ _ => ok tt;
     evaluate_diagnostics := fun d => d;
     asyncio_sleep := fun _ d => d |}.
End Doc.

Definition filler : t :=
  {| organization_selectors := SelList ["#sid-college-name"];
     delays := {| after_field_sec := 0; after_org_sec := 0; after_submit_sec := 0 |} |}.

Definition blank : doc := {| typed := ""; js_clicks := 0 |}.

(** Is the terminal fallback (the forced write of the raw name) in the
    log? *)
Definition forced_write (log : list ui_call) : bool :=
  existsb (fun c => match c with SetValue _ _ => true | _ => false end) log.

End SimDoc.

(* ===================================================================== *)
(** ** Predicates on computations and on call logs *)
(* ===================================================================== *)

(** Every log of [m] satisfies [P]. *)
Definition logs {S E A} (P : list E -> Prop) (m : M S E A) : Prop :=
  forall s, P (log_of (m s)).

(** [m] never raises. *)
Definition total {S E A} (m : M S E A) : Prop :=
  forall s, exists a, result_of (m s) = Ok a.

Module OrgFacts.
Import FormFiller OrgLog.

(** The organization name as the protocol uses it. *)
Definition raw_name (org_name : string) : string := strip org_name.

(** Its non-empty hyphen-separated segments. *)
Definition segments (org_name : string) : list string :=
  filter nonempty (map strip (split "-" (raw_name org_name))).

(** A hyphenated compound with more than one non-empty segment. *)
Definition compound (org_name : string) : bool :=
  (1 <? List.length (segments org_name))%nat.

Definition trailing_segment (org_name : string) : string :=
  last (segments org_name) "".

(** The name with hyphens replaced by spaces. *)
Definition spaced_name (org_name : string) : string :=
  strip (replace "-" " " (raw_name org_name)).

(** A term of at least 2 characters. *)
Definition long_enough (term : string) : bool := negb (String.length term <? 2)%nat.

(** Nothing is typed into the organization input. *)
Definition quiet {S A} (m : M S ui_call A) : Prop :=
  logs (fun l => typed_terms l = []) m.

(** The terms typed by [m] are among [ts], in order. *)
Definition within {S A} (ts : list string) (m : M S ui_call A) : Prop :=
  forall s, Subseq (typed_terms (log_of (m s))) ts.

(** Calls that leave no landmark. *)
Definition markless {S A} (menu : string) (m : M S ui_call A) : Prop :=
  logs (fun l => marks menu l = []) m.

(** Calls that log nothing. *)
Definition silent {S A} (m : M S ui_call A) : Prop := logs (fun l => l = []) m.

(** The log of one pass of the loop over the terms, for the menu in
    use: the calls up to the menu, which leave no landmark; the
    selection rounds, if any, under a budget of [n]; and the calls that
    follow, which make no gesture of a round. *)
Definition pass_shape (n : nat) (menu : string) (log : list ui_call) : Prop :=
  exists pre mid post,
    log = pre ++ mid ++ post
    /\ marks menu pre = []
    /\ (mid = [] \/ rounds_shape n (marks menu mid))
    /\ gestures (marks menu post) = [].

(** Calls that make no gesture of a round. *)
Definition gestureless {S A} (menu : string) (m : M S ui_call A) : Prop :=
  logs (fun l => gestures (marks menu l) = []) m.

(** A found identifier is the last landmark, if there is one. *)
Fixpoint hit_only_last (ms : list mark) : bool :=
  match ms with
  | [] => true
  | MCheck true :: r => match r with [] => true | _ => false end
  | _ :: r => hit_only_last r
  end.

(** The menu of the simulated document. *)
Definition sim_menu : string := "#sid-college-name-menu".

(** The protocol on the simulated document whose hidden identifier
    becomes [id] at the [threshold]-th synthetic click. *)
Definition sim_fill (threshold : nat) (id : string)
  : outcome unit * SimDoc.doc * list ui_call :=
  fill_org_and_select_first (SimDoc.frame threshold id) SimDoc.filler
    "California State University-Fullerton" SimDoc.blank.

(** The selection loop alone on that document, with [n] rounds. *)
Definition sim_rounds (threshold : nat) (id : string) (n : nat)
  : outcome unit * SimDoc.doc * list ui_call :=
  selection_rounds (SimDoc.frame threshold id) sim_menu n SimDoc.blank.

End OrgFacts.

Module RunFacts.
Import VerificationOrchestrator.

(** A relation on the verifier object alone, seen on the whole state. *)
Definition on_self {W} (Rs : SheerIDVerifier.t -> SheerIDVerifier.t -> Prop)
    (a b : SheerIDVerifier.state W) : Prop :=
  Rs (SheerIDVerifier.self a) (SheerIDVerifier.self b).

(** A scripted run in which the form fills and the dump function builds
    the given snapshots, the status poller answers the initial step and
    then [pending]. *)
Definition world_with (snapshots : list (outcome pyobj)) : SimRun.world :=
  {| SimRun.prechecks := [SimRun.initial; SimRun.pending];
     SimRun.dumps := snapshots |}.

Definition sim_run (with_dump : bool) (snapshots : list (outcome pyobj))
  : outcome run_result * SimRun.world * list orch_call :=
  run (SimRun.deps with_dump) SimRun.host SimRun.profile (world_with snapshots).

Definition snapshot_of (f : form_ready_dump.FormReadySnapshot) : outcome pyobj :=
  Ok (ODict (form_ready_dump.to_dict f)).

(** A world whose status poller answers [error]. *)
Definition world_error : SimRun.world :=
  {| SimRun.prechecks := [(PStr "error", [("currentStep", PStr "error")])];
     SimRun.dumps := [] |}.

(** A verifier called a first time against a service that answers
    [error]. *)
Definition after_first_verify : SheerIDVerifier.state SimApi.world :=
  state_of (SheerIDVerifier.verify SimApi.env None None (Some "ada@example.edu") None None
              (SimApi.fresh [SimApi.payload "error" "en-US"])).

(** The verifier after one precheck answered with locale [fr-FR] and
    after a second one answered with locale [en-US]. *)
Definition two_prechecks : SheerIDVerifier.state SimApi.world :=
  SimApi.fresh [SimApi.payload "collectStudentPersonalInfo" "fr-FR";
                SimApi.payload "collectStudentPersonalInfo" "en-US"].

Definition after_precheck (st : SheerIDVerifier.state SimApi.world)
  : SheerIDVerifier.state SimApi.world :=
  state_of (@SheerIDVerifier._do_precheck _ _ _ orch_call SimApi.env st).

End RunFacts.

(* ===================================================================== *)
(** ** Orchestrator runs: what a log shows *)
(* ===================================================================== *)

(** The results of [m] all satisfy [Q]. *)
Definition returns {S E A} (Q : A -> Prop) (m : M S E A) : Prop :=
  forall s a, result_of (m s) = Ok a -> Q a.

(** The results of [m], together with the calls made to reach them, all
    satisfy [P]. *)
Definition yields {S E A} (P : A -> list E -> Prop) (m : M S E A) : Prop :=
  forall s a, result_of (m s) = Ok a -> P a (log_of (m s)).

(** The results of [m], together with the state they leave and the
    calls made to reach them, all satisfy [P]. *)
Definition produces {S E A} (P : A -> S -> list E -> Prop) (m : M S E A) : Prop :=
  forall s a, result_of (m s) = Ok a -> P a (state_of (m s)) (log_of (m s)).

Module RunLog.
Import VerificationOrchestrator.

Definition is_submit (c : orch_call) : bool :=
  match c with ClickSubmit => true | _ => false end.

Definition is_precheck (c : orch_call) : bool :=
  match c with DoPrecheck => true | _ => false end.

(** How many calls of a log satisfy [p]. *)
Definition calls (p : orch_call -> bool) (log : list orch_call) : nat :=
  List.length (filter p log).

(** [m] makes at most [n] calls that satisfy [p]. *)
Definition at_most {S A} (p : orch_call -> bool) (n : nat) (m : M S orch_call A) : Prop :=
  forall s, (calls p (log_of (m s)) <= n)%nat.

(** The status is polled only after a submit, at most 6 times. *)
Definition polls_follow_submit (log : list orch_call) : Prop :=
  (calls is_precheck log <= 6 * calls is_submit log)%nat.

(** [m] polls the status at most [c] times besides the polls that
    follow a submit. *)
Definition polls_within {S A} (c : nat) (m : M S orch_call A) : Prop :=
  forall s, (calls is_precheck (log_of (m s))
             <= c + 6 * calls is_submit (log_of (m s)))%nat.

(** Every call of the status poller in [log] comes after a submit. *)
Definition polls_after_submit (log : list orch_call) : Prop :=
  forall pre post, log = pre ++ DoPrecheck :: post -> In ClickSubmit pre.

(** A success that carries a status payload carries the answer of the
    last call of the run, a call of the status poller, which left the
    state [final]; the step of that answer is neither the initial one
    nor [error], and the message names it. *)
Definition polled_last {S Page Frame} (deps : VerificationDeps S Page Frame)
    (r : run_result) (final : S) (log : list orch_call) : Prop :=
  forall status2,
    status r = Some (StRaw status2) -> success r = true ->
    exists step2 s0 pre,
      do_precheck deps s0 = (Ok (step2, status2), final)
      /\ log = pre ++ [DoPrecheck]
      /\ message r = ("表单已提交，当前步骤: " ++ py_str step2)%string
      /\ ne_str step2 "error" = true
      /\ ne_str step2 "collectStudentPersonalInfo" = true.

(** A result that carries form values was reached without a submit. *)
Definition carried_unsubmitted (r : run_result) (log : list orch_call) : Prop :=
  form_values r <> None -> calls is_submit log = 0%nat.

(** When [m] invokes the submit control, its calls begin with [pre]. *)
Definition submit_after {S A} (pre : list orch_call) (m : M S orch_call A) : Prop :=
  forall s, In ClickSubmit (log_of (m s)) -> exists rest, log_of (m s) = pre ++ rest.

(** A failure that is not a polled verdict (nor, under the
    force-continue override, a verdict of the precheck). *)
Definition failed {S Page} (host : Host S Page) (r : run_result) : Prop :=
  success r = false
  /\ (forall status2, status r <> Some (StRaw status2))
  /\ (force_ui host = true ->
      forall step pre_status, status r <> Some (StPrecheck step pre_status)).

(** How a run may come to report a success: a verdict of the precheck,
    a dry run, or a submit followed by the status polled last. *)
Definition earned {S Page} (host : Host S Page) (r : run_result) (log : list orch_call)
  : Prop :=
  (exists step pre_status,
      status r = Some (StPrecheck step pre_status)
      /\ ne_str step "error" = true
      /\ ne_str step "collectStudentPersonalInfo" = true
      /\ force_ui host = false)
  \/ (dry_run host = true
      /\ message r = "DRY_RUN: 仅填表未提交（用于校验前端绑定）"
      /\ exists step pre_status, status r = Some (StDryRun step pre_status))
  \/ (dry_run host = false
      /\ In ClickSubmit log
      /\ exists status2, status r = Some (StRaw status2)).

(** What every result dictionary of [run] has: the verification id of
    the profile; a [trace] only on a failure without [status] and
    without [form_values]; a [status] otherwise. *)
Definition coherent (profile : VerificationProfile) (r : run_result) : Prop :=
  result_verification_id r = verification_id profile
  /\ (trace r <> None -> success r = false /\ status r = None /\ form_values r = None)
  /\ (trace r = None -> status r <> None).

(** The calls a run makes, in this order, before it fills the
    organization. *)
Definition opening {S Page Frame} (deps : VerificationDeps S Page Frame)
    (profile : VerificationProfile) : list orch_call :=
  [DoPrecheck; EnsureBrowser; EnsureForm; NewPage;
   Goto (build_verify_url deps (verification_id profile));
   WaitForTimeout 800; WaitNetworkIdleSoft 15000; LocateFormFrame;
   HumanDelay 0.2 0.6; FillText "first_name" (first_name profile);
   HumanDelay 0.2 0.6; FillText "last_name" (last_name profile);
   HumanDelay 0.2 0.6; FillText "email" (email profile)].

End RunLog.

(** The simulated host of [SimRun] with a process environment. *)
Module SimEnv.
Import VerificationOrchestrator.

Definition host (getenv : string -> option string) : Host SimRun.world unit :=
  {| page_goto := page_goto SimRun.host;
     page_wait_for_timeout := page_wait_for_timeout SimRun.host;
     page_url := page_url SimRun.host;
     page_title := page_title SimRun.host;
     page_content := page_content SimRun.host;
     page_iframe_count := page_iframe_count SimRun.host;
     page_close := page_close SimRun.host;
     asyncio_sleep := asyncio_sleep SimRun.host;
     getenv := getenv;
     screenshot_on_error := true |}.

(** [ONE_SHEERID_DRY_RUN=1] *)
Definition dry (k : string) : option string :=
  if String.eqb k "ONE_SHEERID_DRY_RUN" then Some "1" else None.

(** [ONE_SHEERID_FORCE_UI=true] *)
Definition forced (k : string) : option string :=
  if String.eqb k "ONE_SHEERID_FORCE_UI" then Some "true" else None.

End SimEnv.

(* ===================================================================== *)
(** ** Verifier life cycle and school table *)
(* ===================================================================== *)

(** [SheerIDVerifier.close] (and [__aexit__], which calls it). *)
Module Lifecycle.
Import SheerIDVerifier.

(** [self._browser_mgr = None; self.context = None; self.http_client = None] *)
Definition clear_handles (v : t) : t :=
  {| verification_id := verification_id v; _has_run := _has_run v;
     locale := locale v; accept_language := accept_language v;
     _browser_mgr := false; context := false;
     http_client := false; _api := _api v;
     _api_svc := _api_svc v; _form := _form v |}.

Section Close.
Context {W E : Type}.
(** [BrowserManager.close] *)
Variable browser_mgr_close : W -> outcome unit * W.

Definition close : M (state W) E unit :=
  (try_except
     (v <- get_self ;;
      if _browser_mgr v then on_world browser_mgr_close else ret tt)
     (fun _ => ret tt) ;;;
   modify_self clear_handles)%m.
End Close.

(** The fields [close] leaves alone. *)
Definition same_session (a b : t) : Prop :=
  verification_id a = verification_id b
  /\ _has_run a = _has_run b
  /\ locale a = locale b
  /\ accept_language a = accept_language b
  /\ _api a = _api b
  /\ _api_svc a = _api_svc b
  /\ _form a = _form b.

(** The verification id never changes. *)
Definition same_id (a b : t) : Prop := verification_id a = verification_id b.

(** The API client, once made, sends the [Accept-Language] of the
    instance. *)
Definition language_in_sync (v : t) : Prop :=
  forall api, _api v = Some api ->
              SheerIDClient.accept_language api = accept_language v.

Definition keeps_sync (a b : t) : Prop := language_in_sync a -> language_in_sync b.

End Lifecycle.

Module Schools.

(** The one entry of [SCHOOLS]. *)
Definition fullerton : dict :=
  match config.schools_get config.SCHOOLS "110565" with
  | Some d => d
  | None => []
  end.

Section Env.
Variable getenv : string -> option string.

(** [config.get_school_domain] *)
Definition get_school_domain (school_id : string) : string :=
  let school := match config.get_school getenv school_id with
                | Some ((_ :: _) as d) => d
                | _ => []
                end in
  py_str (dict_get_default school "domain" (PStr "FULLERTON.EDU")).
End Env.

End Schools.

(* ===================================================================== *)
(** ** sheerid_client.py: [upload_to_s3], and the pacing of [request_json] *)
(* ===================================================================== *)

(** [SheerIDClient.upload_to_s3] *)
Module Upload.
Import SheerIDClient.

Inductive upload_call : Type :=
| UPut (url : string) (headers : list (string * string)) (data : string)
    (timeout_ms : Z) (r : outcome response)
| USleep (sec : Q).

(** [200 <= resp.status < 300] *)
Definition is_2xx (st : Z) : bool := (200 <=? st) && (st <? 300).

(** [min(10.0, 0.5 * (2 ** attempt))]: the product converts the
    integer to a float, which raises beyond the doubles. *)
Definition upload_backoff_sec (attempt : Z) : outcome Q :=
  match PyFloat.float_of_int (2 ^ attempt) with
  | Ok b => Ok (Qmin 10 (PyFloat.mul (1 # 2) b))
  | Raise e => Raise e
  end.

Definition value_error : exn := "ValueError: invalid literal for int() with base 10".

(** [int((os.getenv(k, d) or d))]: the default for a variable that is
    unset or empty, [ValueError] for a text that is not a number.  The
    interpreter's limit on the number of digits of a literal is not
    modelled. *)
Definition env_int (getenv : string -> option string) (k d : string) : outcome Z :=
  let v := match getenv k with
           | Some ((String _ _) as v) => v
           | _ => d
           end in
  match VerificationOrchestrator.int_of_string v with
  | Some n => Ok n
  | None => Raise value_error
  end.

Section Transport.
Context {S : Type}.
(** [self.request.fetch(url, method="PUT", headers=..., data=...,
    timeout=...)]; the bytes of the file are a [string]. *)
Variable put : string -> list (string * string) -> string -> Z ->
               S -> outcome response * S.

Definition do_put (upload_url file_data content_type : string) (timeout_ms : Z)
  : M S upload_call response :=
  fun s =>
    let '(r, s1) := put upload_url [("Content-Type", content_type)] file_data timeout_ms s in
    (r, s1, [UPut upload_url [("Content-Type", content_type)] file_data timeout_ms r]).

(** [for attempt in range(max_attempts)], [n] iterations left, followed
    by [return False].  The pause is computed after the [try], so that
    what it raises leaves the function.  The body read for the warning
    ([resp.text()], in a [try] of its own) and the warnings are not
    modelled. *)
Fixpoint upload_loop (upload_url file_data content_type : string) (timeout_ms : Z)
    (n : nat) (attempt : Z) : M S upload_call bool :=
  match n with
  | O => ret false
  | Datatypes.S n' =>
      (done <- try_except
                 (resp <- do_put upload_url file_data content_type timeout_ms ;;
                  ret (is_2xx (status resp)))
                 (fun _ => ret false) ;;
       if done then ret true
       else match upload_backoff_sec attempt with
            | Ok sec =>
                (emit (USleep sec) ;;;
                 upload_loop upload_url file_data content_type timeout_ms n' (attempt + 1))
            | Raise e => raise e
            end)%m
  end.

(** [upload_to_s3]: the two numbers are read from the environment
    before the loop, outside any [try]. *)
Definition upload_to_s3 (getenv : string -> option string)
    (upload_url file_data content_type : string) : M S upload_call bool :=
  match env_int getenv "ONE_SHEERID_S3_UPLOAD_MAX_ATTEMPTS" "2" with
  | Raise e => raise e
  | Ok m =>
      let max_attempts := Z.max 1 m in
      match env_int getenv "ONE_SHEERID_S3_UPLOAD_TIMEOUT_MS" "60000" with
      | Raise e => raise e
      | Ok timeout_ms =>
          upload_loop upload_url file_data content_type timeout_ms
            (Z.to_nat max_attempts) 0
      end
  end.
End Transport.

(** Was the attempt answered with a 2xx status? *)
Definition accepted (r : outcome response) : bool :=
  match r with
  | Ok resp => is_2xx (status resp)
  | Raise _ => false
  end.

(** The log of an upload with [n] attempts left, the next one being
    attempt [k], and its result: every attempt is the same [PUT]; a
    refused or failed attempt is followed by its pause, or by the error
    of the pause that could not be computed; an accepted attempt ends
    the upload. *)
Inductive upload_log (url data content_type : string) (timeout_ms : Z)
  : Z -> nat -> outcome bool -> list upload_call -> Prop :=
| ul_exhausted : forall k, upload_log url data content_type timeout_ms k 0 (Ok false) []
| ul_accepted : forall k n r,
    accepted r = true ->
    upload_log url data content_type timeout_ms k (Datatypes.S n) (Ok true)
      [UPut url [("Content-Type", content_type)] data timeout_ms r]
| ul_refused : forall k n r q res rest,
    accepted r = false ->
    upload_backoff_sec k = Ok q ->
    upload_log url data content_type timeout_ms (k + 1) n res rest ->
    upload_log url data content_type timeout_ms k (Datatypes.S n) res
      (UPut url [("Content-Type", content_type)] data timeout_ms r
       :: USleep q :: rest)
| ul_overflow : forall k n r e,
    accepted r = false ->
    upload_backoff_sec k = Raise e ->
    upload_log url data content_type timeout_ms k (Datatypes.S n) (Raise e)
      [UPut url [("Content-Type", content_type)] data timeout_ms r].

Definition puts (log : list upload_call) : list (outcome response) :=
  flat_map (fun c => match c with UPut _ _ _ _ r => [r] | USleep _ => [] end) log.

Definition pauses (log : list upload_call) : list Q :=
  flat_map (fun c => match c with USleep q => [q] | UPut _ _ _ _ _ => [] end) log.

End Upload.

(** The pacing of [request_json]. *)
Module Pacing.
Import SheerIDClient.

(** The log of [request_json] from attempt [k] on: every attempt is
    the same request; an attempt that is retried is followed by the
    backoff pause of its index. *)
Inductive paced (self : t) (method url : string) (data : option dict)
  : Z -> list client_call -> Prop :=
| paced_last : forall k r,
    paced self method url data k [CFetch method url (request_headers self) data r]
| paced_retry : forall k r j q rest,
    _compute_backoff_sec self k j = Ok q ->
    paced self method url data (k + 1) rest ->
    paced self method url data k
      (CFetch method url (request_headers self) data r :: CSleep q :: rest).

Definition sleeps (log : list client_call) : list Q :=
  flat_map (fun c => match c with CSleep q => [q] | CFetch _ _ _ _ _ => [] end) log.

End Pacing.

(* ===================================================================== *)
(** ** form_filler.py: the field methods *)
(* ===================================================================== *)

(** form_filler.py: the field methods of [FormFiller] ([fill_text],
    [check_all_visible_checkboxes], [click_submit],
    [locate_form_frame], [fill_birth_date_combobox]). *)
Module FormFields.
Import FormFiller.

(** What the field methods use besides the frame of [FrameApi]: the
    state of a checkbox, the script that sets the day and the year of
    the birth date, the injected [human_delay_fn] and the selectors
    dictionary ([self.selectors.get(key)]). *)
Record FieldOps (S : Type) : Type := {
  is_checked : string -> S -> outcome bool * S;
  evaluate_birth_date : Z -> Z -> S -> outcome unit * S;
  human_delay_fn : option (S -> outcome unit * S);
  selectors : string -> selector_conf
}.
Arguments is_checked {S}.
Arguments evaluate_birth_date {S}.
Arguments human_delay_fn {S}.
Arguments selectors {S}.

(** The candidates of [check_all_visible_checkboxes], and its fallback. *)
Definition consent_candidates : list string :=
  [("input[type=" ++ dq ++ "checkbox" ++ dq ++ "][name*=" ++ dq ++ "consent" ++ dq ++ " i]")%string;
   ("input[type=" ++ dq ++ "checkbox" ++ dq ++ "][name*=" ++ dq ++ "agree" ++ dq ++ " i]")%string;
   ("input[type=" ++ dq ++ "checkbox" ++ dq ++ "][aria-label*=" ++ dq ++ "consent" ++ dq ++ " i]")%string;
   ("input[type=" ++ dq ++ "checkbox" ++ dq ++ "][aria-label*=" ++ dq ++ "agree" ++ dq ++ " i]")%string;
   ("input[type=" ++ dq ++ "checkbox" ++ dq ++ "][aria-label*=" ++ dq ++ "terms" ++ dq ++ " i]")%string;
   ("input[type=" ++ dq ++ "checkbox" ++ dq ++ "][name*=" ++ dq ++ "terms" ++ dq ++ " i]")%string;
   ("input[type=" ++ dq ++ "checkbox" ++ dq ++ "][name*=" ++ dq ++ "policy" ++ dq ++ " i]")%string].

Definition consent_fallback : string :=
  "label:has-text('Terms') input[type=checkbox],label:has-text('Consent') input[type=checkbox],label:has-text('Agree') input[type=checkbox],label:has-text('I agree') input[type=checkbox]".

Definition submit_testid_sel : string := "button[data-testid='submit-button']".
Definition submit_type_sel : string := "button[type='submit']".
Definition submit_text_sel : string :=
  "button:has-text('Verificar'), button:has-text('Verify')".

(** The digits at the head of [s], and what follows them. *)
Fixpoint span_digits (s : string) : string * string :=
  match s with
  | String c s' =>
      match VerificationOrchestrator.digit_val c with
      | Some _ => let (d, r) := span_digits s' in (String c d, r)
      | None => (EmptyString, s)
      end
  | EmptyString => (EmptyString, EmptyString)
  end.

(** [re.match(r"^(\d{4})-(\d{1,2})-(\d{1,2})$", s)]: the three groups.
    Each run of digits is followed by a character that is not a digit,
    so the greedy match is the only one; [$] also matches before a
    final newline. *)
Definition match_birth_date (s : string) : option (string * string * string) :=
  let (y, r1) := span_digits s in
  if (String.length y =? 4)%nat then
    match r1 with
    | String "-" r1' =>
        let (mo, r2) := span_digits r1' in
        if ((1 <=? String.length mo) && (String.length mo <=? 2))%nat then
          match r2 with
          | String "-" r2' =>
              let (d, r3) := span_digits r2' in
              if ((1 <=? String.length d) && (String.length d <=? 2))%nat then
                match r3 with
                | EmptyString => Some (y, mo, d)
                | String "010" EmptyString => Some (y, mo, d)
                | _ => None
                end
              else None
          | _ => None
          end
        else None
    | _ => None
    end
  else None.

(** Lines 564-569: the date as three numbers, or [None] when the
    method returns [False] for it. *)
Definition parse_birth_date (birth_date : string) : option (Z * Z * Z) :=
  match match_birth_date (strip birth_date) with
  | Some (y, mo, d) =>
      match VerificationOrchestrator.int_of_string y,
            VerificationOrchestrator.int_of_string mo,
            VerificationOrchestrator.int_of_string d with
      | Some y, Some mo, Some d => Some (y, mo, d)
      | _, _, _ => None
      end
  | None => None
  end.

(** [f"{mo:02d}"] for a number that is not negative. *)
Definition two_digits (n : Z) : string :=
  if n <? 10 then ("0" ++ py_str (PInt n))%string else py_str (PInt n).

Definition months : list string :=
  ["January"; "February"; "March"; "April"; "May"; "June";
   "July"; "August"; "September"; "October"; "November"; "December"].

(** [needle in hay] *)
Fixpoint is_substring (needle hay : string) : bool :=
  String.prefix needle hay
  || match hay with
     | String _ hay' => is_substring needle hay'
     | EmptyString => false
     end.

Section Fields.
Context {S : Type}.
Variable frame : FrameApi S.
Variable ops : FieldOps S.
Variable self : t.

Local Abbreviation UI := (M S ui_call).

(** [_human_delay_if_needed] *)
Definition _human_delay_if_needed : UI unit :=
  match human_delay_fn ops with
  | None => ret tt
  | Some fn => try_except (call fn) (fun _ => ret tt)
  end.

(** [_locator]: the first candidate of the key; [str(None)] when the
    key is missing. *)
Definition _locator (key : string) : UI string :=
  match selectors ops key with
  | SelList [] => raise ("selector invalid for " ++ key)%string
  | SelList (sel :: _) => ret sel
  | SelStr raw => ret raw
  | SelNone => ret "None"
  end.

(** [fill_text] *)
Definition fill_text (key value : string) : UI unit :=
  try_except
    (loc <- _locator key ;;
     act (Click loc) (click frame loc) ;;;
     act (Fill loc "") (fill frame loc "") ;;;
     act (TypeText loc value) (type_text frame loc value) ;;;
     _human_delay_if_needed ;;;
     _sleep frame (after_field_sec (delays self)))%m
    (fun _ => ret tt).

(** The body of the [try] for one checkbox: was [checked] incremented? *)
Definition tick (sel : string) : UI bool :=
  (n <- call (count frame sel) ;;
   if (0 <? n)%nat then
     (visible <- call (is_visible frame sel) ;;
      if visible then
        (c <- call (is_checked ops sel) ;;
         if negb c then (act (Click sel) (click frame sel) ;;; ret true)
         else ret false)
      else ret false)
   else ret false)%m.

(** [for sel in candidates] *)
Fixpoint tick_all (cands : list string) (checked : Z) : UI Z :=
  match cands with
  | [] => ret checked
  | sel :: rest =>
      (r <- try_except (tick sel) (fun _ => ret false) ;;
       tick_all rest (if r then checked + 1 else checked))%m
  end.

(** [check_all_visible_checkboxes] *)
Definition check_all_visible_checkboxes : UI Z :=
  (checked <- tick_all consent_candidates 0 ;;
   if checked =? 0 then
     (r <- try_except (tick consent_fallback) (fun _ => ret false) ;;
      ret (if r then checked + 1 else checked))
   else ret checked)%m.

(** [click_submit] *)
Definition click_submit : UI unit :=
  try_except
    (swallow (act (Press "body" "PageDown") (press frame "body" "PageDown")) ;;;
     n1 <- call (count frame submit_testid_sel) ;;
     let btn := if (n1 =? 0)%nat then submit_type_sel else submit_testid_sel in
     n2 <- call (count frame btn) ;;
     (if negb (n2 =? 0)%nat then act (Click btn) (click frame btn)
      else act (Click submit_text_sel) (click frame submit_text_sel)) ;;;
     _human_delay_if_needed ;;;
     _sleep frame (after_submit_sec (delays self)))%m
    (fun _ => ret tt).

(** [ids] of [fill_birth_date_combobox] *)
Definition birth_day_sel : string := "#sid-birthdate-day".
Definition birth_month_sel : string := "#sid-birthdate__month".
Definition birth_year_sel : string := "#sid-birthdate-year".

(** [_check_and_fill], the local function of
    [fill_birth_date_combobox]. *)
Definition _check_and_fill (sel val_str : string) (is_month : bool) : UI unit :=
  (n <- call (count frame sel) ;;
   shown <- (if (0 <? n)%nat then call (is_visible frame sel) else ret false) ;;
   if negb shown then ret tt
   else
     (typed <- (if is_month then
                  try_except
                    (match VerificationOrchestrator.int_of_string val_str with
                     | None => raise "ValueError"
                     | Some k =>
                         let month_idx := k - 1 in
                         if (0 <=? month_idx) && (month_idx <? 12) then
                           let month_name := nth (Z.to_nat month_idx) months "" in
                           (act (Click sel) (click frame sel) ;;;
                            act (Fill sel "") (fill frame sel "") ;;;
                            act (TypeText sel month_name) (type_text frame sel month_name) ;;;
                            _sleep frame 0.5 ;;;
                            act (Press sel "Enter") (press frame sel "Enter") ;;;
                            ret true)
                         else ret false
                     end)
                    (fun _ => ret false)
                else ret false) ;;
      if typed then ret tt
      else
        (v <- call (input_value frame sel) ;;
         if is_substring val_str v then ret tt
         else
           swallow (act (Click sel) (click frame sel) ;;;
                    act (Fill sel val_str) (fill frame sel val_str) ;;;
                    act (Press sel "Tab") (press frame sel "Tab")))))%m.

(** [fill_birth_date_combobox].  [SetBirthDateScript d y] is
    [frame.evaluate(js_script)]: the script sets the value of the day
    field to [d] and of the year field to [y], where they exist, and
    dispatches [input], [change] and [blur] on them. *)
Definition fill_birth_date_combobox (birth_date : string) : UI bool :=
  if negb (nonempty birth_date) then ret false
  else
    match parse_birth_date birth_date with
    | None => ret false
    | Some (y, mo, d) =>
        (swallow (act (SetBirthDateScript d y) (evaluate_birth_date ops d y)) ;;;
         _check_and_fill birth_month_sel (two_digits mo) true ;;;
         _check_and_fill birth_day_sel (py_str (PInt d)) false ;;;
         _check_and_fill birth_year_sel (py_str (PInt y)) false ;;;
         _human_delay_if_needed ;;;
         _sleep frame 1 ;;;
         ret true)%m
    end.
End Fields.

(** The clicks of a log, in order. *)
Definition clicks (log : list ui_call) : list string :=
  flat_map (fun c => match c with Click loc => [loc] | _ => [] end) log.

(** What [fill_birth_date_combobox] may do on the page once its script
    has run: click, fill or press on one of the three date fields, type
    a month name into the month field, and pause. *)
Definition birth_event (c : ui_call) : bool :=
  let on_field loc := mem_str loc [birth_month_sel; birth_day_sel; birth_year_sel] in
  match c with
  | Click loc => on_field loc
  | Fill loc _ => on_field loc
  | Press loc _ => on_field loc
  | TypeText loc text => String.eqb loc birth_month_sel && mem_str text months
  | Sleep _ => true
  | _ => false
  end.

(** The selector [fill_text] acts on; [None] when the key has an empty
    list of selectors. *)
Definition field_selector (c : selector_conf) : option string :=
  match c with
  | SelList [] => None
  | SelList (sel :: _) => Some sel
  | SelStr raw => Some raw
  | SelNone => Some "None"
  end.

(** [_find_frame_with_selector] and [locate_form_frame], over the
    frames of a page. *)
Section Frames.
Context {S E Frame : Type}.
(** [frame != page.main_frame] *)
Variable Frame_eq_dec : forall a b : Frame, {a = b} + {a <> b}.
Variable main_frame : Frame.
(** [page.frames], read when the loop starts. *)
Variable page_frames : S -> list Frame.
(** [frame.locator(selector).first.count()] *)
Variable locator_count : Frame -> string -> S -> outcome nat * S.

(** The selector was counted in the frame: the count returned, and was
    not zero. *)
Definition counted (f : Frame) (sel : string) (s : S) : Prop :=
  exists n, fst (locator_count f sel s) = Ok n /\ (0 < n)%nat.

Definition has_selector (f : Frame) (selector : string) : M S E bool :=
  try_except (n <- call (locator_count f selector) ;; ret (0 <? n)%nat)%m
             (fun _ => ret false).

Fixpoint first_frame_with (fs : list Frame) (selector : string)
  : M S E (option Frame) :=
  match fs with
  | [] => ret None
  | f :: rest =>
      (hit <- has_selector f selector ;;
       if hit then ret (Some f) else first_frame_with rest selector)%m
  end.

Definition _find_frame_with_selector (selector : string) : M S E Frame :=
  (m <- has_selector main_frame selector ;;
   if m then ret main_frame
   else
     (fs <- effect (fun s => (page_frames s, s)) ;;
      o <- first_frame_with fs selector ;;
      ret (match o with Some f => f | None => main_frame end)))%m.

Fixpoint locate_among (candidates : list string) : M S E Frame :=
  match candidates with
  | [] => ret main_frame
  | sel :: rest =>
      (f <- _find_frame_with_selector sel ;;
       if Frame_eq_dec f main_frame then locate_among rest else ret f)%m
  end.

Definition form_frame_candidates : list string :=
  ["#sid-college-name"; "#sid-email"; "#sid-first-name"].

Definition locate_form_frame : M S E Frame := locate_among form_frame_candidates.
End Frames.

End FormFields.

(** A page of three frames; the email field is in the third only. *)
Module SimFrames.

Definition main : nat := 0%nat.

Definition frames (_ : unit) : list nat := [0%nat; 1%nat; 2%nat].

Definition count (f : nat) (selector : string) (s : unit) : outcome nat * unit :=
  if (f =? 2)%nat && String.eqb selector "#sid-email" then (Ok 1%nat, s)
  else (Ok 0%nat, s).

Definition locate : outcome nat * unit * list FormFiller.ui_call :=
  FormFields.locate_form_frame Nat.eq_dec main frames count tt.

End SimFrames.

(** The simulated document of [SimDoc] with an organization input that
    cannot be cleared, and a keyboard that is gone. *)
Module SimStuck.
Import FormFiller.

Definition frame : FrameApi SimDoc.doc :=
  let f := SimDoc.frame 1 "12345678" in
  {| count := count f;
     is_visible := is_visible f;
     get_attribute := get_attribute f;
     input_value := input_value f;
     text_content := text_content f;
     wait_for_selector := wait_for_selector f;
     click := click f;
     fill := fun _ _ d => (Raise "element is not editable", d);
     press_sequentially := press_sequentially f;
     type_text := type_text f;
     press := press f;
     dispatch_event := dispatch_event f;
     keyboard_press := fun _ d => (Raise "page closed", d);
     evaluate_click := evaluate_click f;
     evaluate_set_value := evaluate_set_value f;
     evaluate_diagnostics := evaluate_diagnostics f;
     asyncio_sleep := asyncio_sleep f |}.

Definition fill : outcome unit * SimDoc.doc * list ui_call :=
  fill_org_and_select_first frame SimDoc.filler
    "California State University-Fullerton" SimDoc.blank.

End SimStuck.

(* ===================================================================== *)
(** ** __main__.py *)
(* ===================================================================== *)

(** __main__.py: the command line entry [_amain]. *)
Module Main.
Import VerificationOrchestrator SheerIDVerifier Lifecycle.

(** The literal part of the pattern [verificationId=([^&#]+)]. *)
Definition vid_key : string := "verificationId=".

(** The rest of [s] after the prefix [p], when [s] starts with it. *)
Fixpoint after_prefix (p s : string) : option string :=
  match p, s with
  | EmptyString, _ => Some s
  | String a p', String b s' => if Ascii.eqb a b then after_prefix p' s' else None
  | String _ _, EmptyString => None
  end.

(** The characters the class [[^&#]] excludes. *)
Definition is_sep (c : ascii) : bool := Ascii.eqb c "&" || Ascii.eqb c "#".

(** The longest run of [[^&#]] at the head of [s] (the group is
    greedy, and nothing follows it in the pattern). *)
Fixpoint id_run (s : string) : string :=
  match s with
  | String c s' => if is_sep c then EmptyString else String c (id_run s')
  | EmptyString => EmptyString
  end.

(** [re.search(r"verificationId=([^&#]+)", url)], then [group(1)]: the
    leftmost position where the key is followed by at least one
    character of the class. *)
Fixpoint search_vid (url : string) : option string :=
  match url with
  | EmptyString => None
  | String _ rest =>
      match after_prefix vid_key url with
      | Some tail =>
          match id_run tail with
          | EmptyString => search_vid rest
          | v => Some v
          end
      | None => search_vid rest
      end
  end.


Section Amain.
Context {W Page Frame : Type}.
Variable env : Collaborators W Page Frame.
(** [BrowserManager.close] *)
Variable browser_mgr_close : W -> outcome unit * W.
(** [input(prompt)] *)
Variable input : string -> W -> outcome string * W.



End Amain.

(** No character of [s] is [&] or [#]. *)
Fixpoint sep_free (s : string) : bool :=
  match s with
  | String c s' => negb (is_sep c) && sep_free s'
  | EmptyString => true
  end.

End Main.

(* ===================================================================== *)
(** ** status_inspector.py *)
(* ===================================================================== *)

(** status_inspector.py: [StatusInspector]. *)
Module StatusInspector.

Record UiCheckResult : Type := {
  ok : bool;
  hit : string;
  reason : string
}.

(** What the inspector calls, in order; the two readings of the page
    with what they answered. *)
Inductive inspect_call : Type :=
| INewPage
| IGoto (url : string)
| IWaitIdle (timeout_ms : Z)
| ICount (selector : string) (r : outcome nat)
| IVisible (selector : string) (r : outcome bool)
| IDump (prefix : string)
| IDebugEnabled
| IClose.

(** The browser context and its page, and what the inspector was built
    with: [ui] (of which [dump_page] is used), [wait_network_idle_soft]
    and [debug_enabled_fn].  Every call may raise. *)
Record Env (W Page : Type) : Type := {
  context_new_page : W -> outcome Page * W;
  page_goto : Page -> string -> W -> outcome unit * W;
  wait_network_idle_soft : Page -> Z -> W -> outcome unit * W;
  locator_count : Page -> string -> W -> outcome nat * W;
  locator_is_visible : Page -> string -> W -> outcome bool * W;
  ui_dump_page : Page -> string -> W -> outcome unit * W;
  debug_enabled : W -> outcome bool * W;
  (** [datetime.now().strftime("%Y%m%d_%H%M%S")] *)
  now_stamp : W -> string * W;
  page_close : Page -> W -> outcome unit * W;
  (** [default_patterns()]: nineteen phrases, several of them in
      scripts outside the characters of this development's strings. *)
  default_patterns : list string
}.
Arguments context_new_page {W Page}.
Arguments page_goto {W Page}.
Arguments wait_network_idle_soft {W Page}.
Arguments locator_count {W Page}.
Arguments locator_is_visible {W Page}.
Arguments ui_dump_page {W Page}.
Arguments debug_enabled {W Page}.
Arguments now_stamp {W Page}.
Arguments page_close {W Page}.
Arguments default_patterns {W Page}.

Section Inspector.
Context {W Page : Type}.
Variable env : Env W Page.

Local Abbreviation I := (M W inspect_call).

Definition step {A} (ev : inspect_call) (f : W -> outcome A * W) : I A :=
  (emit ev ;;; call f)%m.

(** A reading of the page, logged with its answer. *)
Definition reading {A} (ev : outcome A -> inspect_call) (f : W -> outcome A * W) : I A :=
  fun w => let '(r, w1) := f w in (r, w1, [ev r]).

(** [if self._debug_enabled(): logger.debug(...)] *)
Definition debug_note : I unit :=
  (_ <- step IDebugEnabled (debug_enabled env) ;; ret tt)%m.

(** [f'text="{s}"'] *)
Definition text_selector (s : string) : string :=
  ("text=" ++ FormFiller.dq ++ s ++ FormFiller.dq)%string.

(** The [try] of one pattern in [scan_text_patterns]: is it a hit? *)
Definition probe (page : Page) (s : string) : I bool :=
  try_except
    (n <- reading (ICount (text_selector s)) (locator_count env page (text_selector s)) ;;
     if (0 <? n)%nat
     then reading (IVisible (text_selector s))
                  (locator_is_visible env page (text_selector s))
     else ret false)%m
    (fun _ => debug_note ;;; ret false)%m.

Definition ok_result : UiCheckResult := {| ok := true; hit := ""; reason := "" |}.

Definition hit_result (s : string) : UiCheckResult :=
  {| ok := false; hit := s; reason := "pattern_hit" |}.

Definition soft_result : UiCheckResult :=
  {| ok := true; hit := ""; reason := "inspect_failed_soft" |}.

(** [scan_text_patterns] *)
Fixpoint scan_text_patterns (page : Page) (patterns : list string) : I UiCheckResult :=
  match patterns with
  | [] => ret ok_result
  | t :: rest =>
      let s := strip t in
      if nonempty s then
        (found <- probe page s ;;
         if found then ret (hit_result s) else scan_text_patterns page rest)%m
      else scan_text_patterns page rest
  end.

(** [patterns or self.default_patterns()] *)
Definition effective_patterns (patterns : option (list string)) : list string :=
  match patterns with
  | Some ((_ :: _) as p) => p
  | _ => default_patterns env
  end.

(** The [try] of [inspect_verify_page] once the page is open. *)
Definition inspect_page (page : Page) (verification_id : string)
    (pats : list string) (dump_prefix : string) : I UiCheckResult :=
  (step (IGoto (config.VERIFY_URL verification_id))
        (page_goto env page (config.VERIFY_URL verification_id)) ;;;
   try_except (step (IWaitIdle 15000) (wait_network_idle_soft env page 15000))
              (fun _ => ret tt) ;;;
   res <- scan_text_patterns page pats ;;
   (if negb (ok res) then
      try_except
        (ts <- effect (now_stamp env) ;;
         step (IDump (dump_prefix ++ "_" ++ ts))
              (ui_dump_page env page (dump_prefix ++ "_" ++ ts)))
        (fun _ => debug_note)
    else ret tt) ;;;
   ret res)%m.

(** [except Exception as e: ...; return UiCheckResult(ok=True, ...)] *)
Definition soft_failure : I UiCheckResult := (debug_note ;;; ret soft_result)%m.

(** [finally: if page is not None: try: await page.close() ...]: the
    cleanup runs after the body or its handler, whatever they did, and
    their outcome stands. *)
Definition finally_close {A} (page : Page) (m : I A) : I A :=
  fun w =>
    match m w with
    | (r, w1, l1) =>
        match try_except (step IClose (page_close env page)) (fun _ => ret tt) w1 with
        | (_, w2, l2) => (r, w2, l1 ++ l2)
        end
    end.

(** [inspect_verify_page] *)
Definition inspect_verify_page (verification_id : string)
    (patterns : option (list string)) (dump_prefix : string) : I UiCheckResult :=
  let pats := effective_patterns patterns in
  fun w =>
    match step INewPage (context_new_page env) w with
    | (Ok page, w1, l1) =>
        match finally_close page
                (try_except (inspect_page page verification_id pats dump_prefix)
                            (fun _ => soft_failure)) w1 with
        | (r, w2, l2) => (r, w2, l1 ++ l2)
        end
    | (Raise _, w1, l1) =>
        match soft_failure w1 with
        | (r, w2, l2) => (r, w2, l1 ++ l2)
        end
    end.
End Inspector.

(** A result that is not [ok] names a pattern of the list, stripped
    and not empty, whose selector the log shows counted, with a count
    that is not zero, and then read as visible. *)
Definition grounded (pats : list string) (r : UiCheckResult)
    (log : list inspect_call) : Prop :=
  ok r = true
  \/ exists t n,
       In t pats /\ strip t <> ""
       /\ r = {| ok := false; hit := strip t; reason := "pattern_hit" |}
       /\ (0 < n)%nat
       /\ exists pre post,
            log = pre
                  ++ [ICount ("text=" ++ FormFiller.dq ++ strip t ++ FormFiller.dq)%string
                        (Ok n);
                      IVisible ("text=" ++ FormFiller.dq ++ strip t ++ FormFiller.dq)%string
                        (Ok true)]
                  ++ post.

(** The number of [page.close()] calls in a log. *)
Definition closes (log : list inspect_call) : nat :=
  List.length (filter (fun c => match c with IClose => true | _ => false end) log).

End StatusInspector.

(** A page that shows the phrase "try again" and nothing else. *)
Module SimInspect.
Import StatusInspector.

Definition ok {A} (a : A) (w : unit) : outcome A * unit := (Ok a, w).

Definition env : Env unit unit :=
  {| context_new_page := ok tt;
     page_goto := fun _ _ => ok tt;
     wait_network_idle_soft := fun _ _ _ => (Raise "TimeoutError", tt);
     locator_count :=
       fun _ sel => ok (if String.eqb sel (text_selector "try again") then 1%nat else 0%nat);
     locator_is_visible := fun _ _ => ok true;
     ui_dump_page := fun _ _ => ok tt;
     debug_enabled := ok false;
     now_stamp := fun w => ("20240101_000000", w);
     page_close := fun _ _ => (Raise "page closed", tt);
     default_patterns := ["could not confirm"; "try again"] |}.

Definition inspect : outcome UiCheckResult * unit * list inspect_call :=
  inspect_verify_page env "vid123" None "sheerid_ui" tt.

End SimInspect.

(* ===================================================================== *)
(** ** form_ready_dump.py: the readers *)
(* ===================================================================== *)

(** Nothing to strip on the left. *)
Definition head_kept (s : string) : Prop :=
  match s with
  | String c _ => py_isspace c = false
  | EmptyString => True
  end.

(** form_ready_dump.py: the readers [safe_count], [val] and [text]. *)
Module FormReaders.

(** The locator methods the readers call on a selector; every one may
    raise. *)
Record Locators (S : Type) : Type := {
  count : string -> S -> outcome nat * S;
  input_value : string -> S -> outcome (option string) * S;
  get_attribute : string -> string -> S -> outcome (option string) * S;
  text_content : string -> S -> outcome (option string) * S;
  inner_text : string -> S -> outcome (option string) * S
}.
Arguments count {S}.
Arguments input_value {S}.
Arguments get_attribute {S}.
Arguments text_content {S}.
Arguments inner_text {S}.

Section Readers.
Context {S E : Type}.
Variable frame : Locators S.

(** [safe_count] *)
Definition safe_count (selector : string) : M S E nat :=
  try_except (call (count frame selector)) (fun _ => ret 0%nat).

(** One of the two attempts of [val] and [text]:
    [try: v = await read(); if v is not None: v = v.strip(); if v: return v]
    with [except Exception: pass]; [None] stands for falling through. *)
Definition read_stripped (read : S -> outcome (option string) * S)
  : M S E (option string) :=
  try_except
    (v <- call read ;;
     match v with
     | Some v => let v := strip v in if nonempty v then ret (Some v) else ret None
     | None => ret None
     end)%m
    (fun _ => ret None).

(** The common shape of [val] and [text]. *)
Definition read_first (selector : string)
    (first second : S -> outcome (option string) * S) : M S E (option string) :=
  try_except
    (n <- safe_count selector ;;
     if (n =? 0)%nat then ret None
     else
       (r <- read_stripped first ;;
        match r with
        | Some v => ret (Some v)
        | None => read_stripped second
        end))%m
    (fun _ => ret None).

(** [val] *)
Definition val (selector : string) : M S E (option string) :=
  read_first selector (input_value frame selector) (get_attribute frame selector "value").

(** [text] *)
Definition text (selector : string) : M S E (option string) :=
  read_first selector (text_content frame selector) (inner_text frame selector).

End Readers.

(** What [val] and [text] hand over: nothing, or a text that is not
    empty and has nothing left to strip. *)
Definition clean (o : option string) : Prop :=
  forall v, o = Some v -> v <> "" /\ strip v = v.

End FormReaders.

(* ===================================================================== *)
(** ** Where a computation raises *)
(* ===================================================================== *)

(** When [m] raises, the call it was making is [ev]: the last of its
    log. *)
Definition raises_only_at {S E A} (ev : E) (m : M S E A) : Prop :=
  forall s e, result_of (m s) = Raise e -> exists l, log_of (m s) = l ++ [ev].

(* ===================================================================== *)
(** * Proofs *)
(* ===================================================================== *)

(* --------------------------------------------------------------------- *)
(** ** The log and the state of composed computations *)
(* --------------------------------------------------------------------- *)

Section MonadFacts.
Context {S E : Type}.

Lemma log_bind {A B} (m : M S E A) (k : A -> M S E B) s :
  log_of (bind m k s)
  = log_of (m s) ++ match result_of (m s) with
                    | Ok a => log_of (k a (state_of (m s)))
                    | Raise _ => []
                    end.
Proof.
  unfold bind, log_of, result_of, state_of.
  destruct (m s) as [[[a|e] s1] l1]; simpl.
  - destruct (k a s1) as [[r s2] l2]; reflexivity.
  - rewrite app_nil_r. reflexivity.
Qed.

Lemma log_try {A} (m : M S E A) (h : exn -> M S E A) s :
  log_of (try_except m h s)
  = log_of (m s) ++ match result_of (m s) with
                    | Ok _ => []
                    | Raise e => log_of (h e (state_of (m s)))
                    end.
Proof.
  unfold try_except, log_of, result_of, state_of.
  destruct (m s) as [[[a|e] s1] l1]; simpl.
  - rewrite app_nil_r. reflexivity.
  - destruct (h e s1) as [[r s2] l2]; reflexivity.
Qed.

Lemma result_bind {A B} (m : M S E A) (k : A -> M S E B) s :
  result_of (bind m k s)
  = match result_of (m s) with
    | Ok a => result_of (k a (state_of (m s)))
    | Raise e => Raise e
    end.
Proof.
  unfold bind, result_of, state_of.
  destruct (m s) as [[[a|e] s1] l1]; simpl; [|reflexivity].
  destruct (k a s1) as [[r s2] l2]; reflexivity.
Qed.

Lemma state_bind {A B} (m : M S E A) (k : A -> M S E B) s :
  state_of (bind m k s)
  = match result_of (m s) with
    | Ok a => state_of (k a (state_of (m s)))
    | Raise e => state_of (m s)
    end.
Proof.
  unfold bind, result_of, state_of.
  destruct (m s) as [[[a|e] s1] l1]; simpl; [|reflexivity].
  destruct (k a s1) as [[r s2] l2]; reflexivity.
Qed.
(** A result that no handler returns comes from the body. *)
Lemma try_ok_body {A} (m : M S E A) (h : exn -> M S E A) s a :
  (forall e s', result_of (h e s') <> Ok a) ->
  result_of (try_except m h s) = Ok a ->
  result_of (m s) = Ok a /\ try_except m h s = m s.
Proof.
  intros H. unfold try_except, result_of.
  destruct (m s) as [[[x|e] s1] l1]; simpl; [intros X; split; auto|].
  specialize (H e s1). unfold result_of in H.
  destruct (h e s1) as [[r s2] l2]; simpl in *. intros X. contradiction.
Qed.

Lemma total_ret {A} (a : A) : total (@ret S E A a).
Proof. intros s. exists a. reflexivity. Qed.

Lemma total_emit (e : E) : total (@emit S E e).
Proof. intros s. exists tt. reflexivity. Qed.

Lemma total_effect {A} (f : S -> A * S) : total (@effect S E A f).
Proof.
  intros s. unfold effect, result_of. destruct (f s) as [a s1]. exists a. reflexivity.
Qed.

Lemma total_bind {A B} (m : M S E A) (k : A -> M S E B) :
  total m -> (forall a, total (k a)) -> total (bind m k).
Proof.
  intros Hm Hk s. destruct (Hm s) as (a & Ha). unfold bind, result_of in *.
  destruct (m s) as [[r s1] l1]. simpl in Ha. subst r.
  destruct (Hk a s1) as (b & Hb). unfold result_of in Hb.
  destruct (k a s1) as [[r s2] l2]. simpl in *. subst. exists b. reflexivity.
Qed.

Lemma total_try {A} (m : M S E A) (h : exn -> M S E A) :
  (forall e, total (h e)) -> total (try_except m h).
Proof.
  intros Hh s. unfold try_except, result_of.
  destruct (m s) as [[[a|e] s1] l1]; simpl.
  - exists a. reflexivity.
  - destruct (Hh e s1) as (b & Hb). unfold result_of in Hb.
    destruct (h e s1) as [[r s2] l2]. simpl in *. subst. exists b. reflexivity.
Qed.

(** What a computation gives, knowing that it does not raise. *)
Lemma total_run {A} (m : M S E A) s :
  total m -> exists a, m s = (Ok a, state_of (m s), log_of (m s)).
Proof.
  intros H. destruct (H s) as (a & Ha). exists a.
  unfold result_of, state_of, log_of in *. destruct (m s) as [[r s1] l]. simpl in *.
  subst. reflexivity.
Qed.

Section LogPredicate.
Variable P : list E -> Prop.
Hypothesis P_nil : P [].
Hypothesis P_app : forall a b, P a -> P b -> P (a ++ b).

Lemma logs_ret {A} (a : A) : logs P (@ret S E A a).
Proof. intros s. exact P_nil. Qed.

Lemma logs_raise {A} e : logs P (@raise S E A e).
Proof. intros s. exact P_nil. Qed.

Lemma logs_call {A} (f : S -> outcome A * S) : logs P (@call S E A f).
Proof. intros s. unfold call, log_of. destruct (f s). exact P_nil. Qed.

Lemma logs_effect {A} (f : S -> A * S) : logs P (@effect S E A f).
Proof. intros s. unfold effect, log_of. destruct (f s). exact P_nil. Qed.

Lemma logs_emit e : P [e] -> logs P (@emit S E e).
Proof. intros H s. exact H. Qed.

Lemma logs_bind {A B} (m : M S E A) (k : A -> M S E B) :
  logs P m -> (forall a, logs P (k a)) -> logs P (bind m k).
Proof.
  intros Hm Hk s. rewrite log_bind. apply P_app; [apply Hm|].
  destruct (result_of (m s)); [apply Hk | exact P_nil].
Qed.

Lemma logs_try {A} (m : M S E A) (h : exn -> M S E A) :
  logs P m -> (forall e, logs P (h e)) -> logs P (try_except m h).
Proof.
  intros Hm Hh s. rewrite log_try. apply P_app; [apply Hm|].
  destruct (result_of (m s)); [exact P_nil | apply Hh].
Qed.
End LogPredicate.

Section StateRelation.
Variable R : S -> S -> Prop.
Hypothesis R_refl : forall s, R s s.
Hypothesis R_trans : forall a b c, R a b -> R b c -> R a c.

Lemma stable_ret {A} (a : A) : stable R (@ret S E A a).
Proof. intros s. apply R_refl. Qed.

Lemma stable_raise {A} e : stable R (@raise S E A e).
Proof. intros s. apply R_refl. Qed.

Lemma stable_emit e : stable R (@emit S E e).
Proof. intros s. apply R_refl. Qed.

Lemma stable_call {A} (f : S -> outcome A * S) :
  stable_fn R f -> stable R (@call S E A f).
Proof. intros H s. unfold call, state_of. specialize (H s). destruct (f s); exact H. Qed.

Lemma stable_effect {A} (f : S -> A * S) :
  (forall s, R s (snd (f s))) -> stable R (@effect S E A f).
Proof. intros H s. unfold effect, state_of. specialize (H s). destruct (f s); exact H. Qed.

Lemma stable_bind {A B} (m : M S E A) (k : A -> M S E B) :
  stable R m -> (forall a, stable R (k a)) -> stable R (bind m k).
Proof.
  intros Hm Hk s. unfold bind, state_of. specialize (Hm s). unfold state_of in Hm.
  destruct (m s) as [[[a|e] s1] l1]; simpl in *; [|exact Hm].
  specialize (Hk a s1). unfold state_of in Hk.
  destruct (k a s1) as [[r s2] l2]; simpl in *. eapply R_trans; eauto.
Qed.

Lemma stable_try {A} (m : M S E A) (h : exn -> M S E A) :
  stable R m -> (forall e, stable R (h e)) -> stable R (try_except m h).
Proof.
  intros Hm Hh s. unfold try_except, state_of. specialize (Hm s). unfold state_of in Hm.
  destruct (m s) as [[[a|e] s1] l1]; simpl in *; [exact Hm|].
  specialize (Hh e s1). unfold state_of in Hh.
  destruct (h e s1) as [[r s2] l2]; simpl in *. eapply R_trans; eauto.
Qed.
End StateRelation.
End MonadFacts.

Lemma Subseq_refl {A} (l : list A) : Subseq l l.
Proof. induction l; [apply Subseq_nil | apply Subseq_take; assumption]. Qed.

Lemma Subseq_app {A} (a b c d : list A) :
  Subseq a c -> Subseq b d -> Subseq (a ++ b) (c ++ d).
Proof.
  intros H. induction H; intros Hb; simpl.
  - induction l; simpl; [exact Hb | apply Subseq_skip; assumption].
  - apply Subseq_skip. auto.
  - apply Subseq_take. auto.
Qed.

(** One step of a proof that a computation built from the monad's
    combinators keeps a predicate on its log; [nil_tac] and [app_tac]
    prove that the predicate holds of the empty log and of a
    concatenation. *)
Ltac logs_go nil_tac app_tac :=
  repeat first
    [ apply logs_ret; nil_tac
    | apply logs_raise; nil_tac
    | apply logs_call; nil_tac
    | apply logs_effect; nil_tac
    | apply logs_emit; reflexivity
    | apply logs_bind; [nil_tac | app_tac | | intros]
    | apply logs_try; [nil_tac | app_tac | | intros]
    | match goal with
      | |- logs _ (match ?x with _ => _ end) => destruct x
      | |- logs _ (let (_, _) := ?x in _) => destruct x
      end ].

(* --------------------------------------------------------------------- *)
(** ** Floats: rounding to the nearest double *)
(* --------------------------------------------------------------------- *)

Section FloatFacts.
Import PyFloat.
Open Scope Q_scope.

Lemma pow2_pos e : 0 < pow2 e.
Proof. apply Qpower_0_lt. reflexivity. Qed.

Lemma pow2_plus a b : pow2 (a + b) == pow2 a * pow2 b.
Proof. apply Qpower_plus. discriminate. Qed.

Lemma pow2_inject e : (0 <= e)%Z -> pow2 e == inject_Z (2 ^ e).
Proof. intros H. unfold pow2. rewrite (Zpower_Qpower 2 e H). reflexivity. Qed.

Lemma pow2_le a b : (a <= b)%Z -> pow2 a <= pow2 b.
Proof. intros H. apply Qpower_le_compat_l; [exact H | discriminate]. Qed.

Lemma pow2_lt a b : (a < b)%Z -> pow2 a < pow2 b.
Proof. intros H. apply Qpower_lt_compat_l; [exact H | reflexivity]. Qed.


Lemma rne_floor x : (Qfloor x <= rne x <= Qfloor x + 1)%Z.
Proof.
  unfold rne. destruct (Qcompare _ _); [destruct (Z.even _)| |]; lia.
Qed.

Lemma rne_ge x n : inject_Z n <= x -> (n <= rne x)%Z.
Proof.
  intros H. pose proof (rne_floor x) as [L _].
  apply Z.le_trans with (Qfloor x); [|exact L].
  rewrite <- (Qfloor_Z n). apply Qfloor_resp_le. exact H.
Qed.

Lemma rne_le x n : x <= inject_Z n -> (rne x <= n)%Z.
Proof.
  intros H. unfold rne.
  pose proof (Qfloor_le x) as F. pose proof (Qlt_floor x) as G.
  assert (FL : (Qfloor x <= n)%Z).
  { rewrite <- (Qfloor_Z n). apply Qfloor_resp_le. exact H. }
  destruct (Z.eq_dec (Qfloor x) n) as [E|NE].
  - (* x = n exactly *)
    assert (X : x - inject_Z (Qfloor x) == 0) by (rewrite E in *; lra).
    assert (C : Qcompare (x - inject_Z (Qfloor x)) (1 # 2) = Lt).
    { rewrite <- Qlt_alt. rewrite X. reflexivity. }
    rewrite C. lia.
  - destruct (Qcompare _ _); [destruct (Z.even _)| |]; lia.
Qed.


Lemma rne_inject n : rne (inject_Z n) = n.
Proof.
  apply Z.le_antisymm; [apply rne_le | apply rne_ge]; apply Qle_refl.
Qed.

Lemma binade_ge1 x i :
  (0 <= i)%Z -> pow2 i <= x -> x < pow2 (i + 1) -> binade x = i.
Proof.
  intros Hi L U. unfold binade.
  assert (One : 1 <= x).
  { apply Qle_trans with (pow2 i); [|exact L].
    change 1 with (pow2 0). apply pow2_le. exact Hi. }
  apply Qle_bool_iff in One. rewrite One.
  apply Z.log2_unique; [exact Hi|].
  rewrite pow2_inject in L by exact Hi.
  rewrite pow2_inject in U by lia.
  split.
  - rewrite <- (Qfloor_Z (2 ^ i)). apply Qfloor_resp_le. exact L.
  - rewrite Zlt_Qlt. apply Qle_lt_trans with x; [apply Qfloor_le | exact U].
Qed.

(** In the binade of [2^i], [0 <= i]: the spacing is [2^(i-52)]. *)
Lemma nearest_in_binade x i :
  (0 <= i)%Z -> pow2 i <= x -> x < pow2 (i + 1) ->
  nearest x = inject_Z (rne (x / pow2 (i - 52))) * pow2 (i - 52).
Proof.
  intros Hi L U. unfold nearest, ulp.
  assert (P : 0 < x) by (apply Qlt_le_trans with (pow2 i); [apply pow2_pos | exact L]).
  assert (C : Qcompare x 0 = Gt) by (rewrite <- Qgt_alt; exact P).
  rewrite C, (binade_ge1 x i Hi L U).
  rewrite Z.max_l by lia. reflexivity.
Qed.

Lemma pow2_split i : pow2 i == inject_Z (2 ^ 52) * pow2 (i - 52).
Proof.
  rewrite <- (pow2_inject 52) by lia. rewrite <- pow2_plus.
  replace (52 + (i - 52))%Z with i by lia. reflexivity.
Qed.


(** A power of two is a double. *)
Lemma nearest_pow2 i : (0 <= i)%Z -> nearest (pow2 i) == pow2 i.
Proof.
  intros Hi.
  rewrite (nearest_in_binade (pow2 i) i Hi) by (try apply Qle_refl; apply pow2_lt; lia).
  assert (Pu : 0 < pow2 (i - 52)) by apply pow2_pos.
  assert (D : pow2 i / pow2 (i - 52) == inject_Z (2 ^ 52)).
  { rewrite (pow2_split i) at 1. field. intros Z. rewrite Z in Pu. discriminate Pu. }
  assert (R : rne (pow2 i / pow2 (i - 52)) = (2 ^ 52)%Z).
  { apply Z.le_antisymm; [apply rne_le | apply rne_ge]; rewrite D; apply Qle_refl. }
  rewrite R. symmetry. apply pow2_split.
Qed.

Lemma binade_comp x y : x == y -> binade x = binade y.
Proof.
  intros E. unfold binade.
  assert (B : Qle_bool 1 x = Qle_bool 1 y).
  { destruct (Qle_bool 1 y) eqn:Y.
    - apply Qle_bool_iff. rewrite E. apply Qle_bool_iff. exact Y.
    - destruct (Qle_bool 1 x) eqn:X; [|reflexivity].
      apply Qle_bool_iff in X. rewrite E in X. apply Qle_bool_iff in X. congruence. }
  rewrite B. destruct (Qle_bool 1 y).
  - rewrite (Qfloor_comp _ _ E). reflexivity.
  - rewrite (Qceiling_comp (/ x) (/ y)) by (rewrite E; reflexivity). reflexivity.
Qed.

Lemma rne_comp x y : x == y -> rne x = rne y.
Proof.
  intros E. unfold rne. rewrite (Qfloor_comp _ _ E).
  assert (C : Qcompare (x - inject_Z (Qfloor y)) (1 # 2)
              = Qcompare (y - inject_Z (Qfloor y)) (1 # 2))
    by (apply Qcompare_comp; [rewrite E|]; reflexivity).
  rewrite C. reflexivity.
Qed.

Lemma nearest_comp x y : x == y -> nearest x = nearest y.
Proof.
  intros E. unfold nearest, ulp.
  assert (C : Qcompare x 0 = Qcompare y 0) by (apply Qcompare_comp; [exact E | reflexivity]).
  rewrite C. destruct (Qcompare y 0); [reflexivity| |].
  - rewrite (binade_comp (- x) (- y)) by (rewrite E; reflexivity).
    rewrite (rne_comp (- x / _) (- y / pow2 (Z.max (binade (- y) - 52) (-1074))))
      by (rewrite E; reflexivity).
    reflexivity.
  - rewrite (binade_comp x y E).
    rewrite (rne_comp (x / _) (y / pow2 (Z.max (binade y - 52) (-1074))))
      by (rewrite E; reflexivity).
    reflexivity.
Qed.

Lemma nearest_exact x i : (0 <= i)%Z -> x == pow2 i -> nearest x == pow2 i.
Proof.
  intros Hi E. rewrite (nearest_comp _ _ E). apply nearest_pow2. exact Hi.
Qed.

(** [float(2^k)] raises from [k = 1024] on. *)
Lemma overflows_pow2 k :
  (0 <= k)%Z -> overflows (inject_Z (2 ^ k)) = (1024 <=? k)%Z.
Proof.
  intros Hk. unfold overflows.
  assert (N : nearest (inject_Z (2 ^ k)) == pow2 k).
  { apply nearest_exact; [exact Hk | symmetry; apply pow2_inject; exact Hk]. }
  assert (A : Qabs (nearest (inject_Z (2 ^ k))) == pow2 k).
  { rewrite N. apply Qabs_pos. apply Qlt_le_weak, pow2_pos. }
  destruct (1024 <=? k)%Z eqn:C.
  - apply Z.leb_le in C. apply Qle_bool_iff. rewrite A. apply pow2_le. exact C.
  - apply Z.leb_gt in C. destruct (Qle_bool _ _) eqn:B; [|reflexivity].
    apply Qle_bool_iff in B. rewrite A in B.
    apply Qpower_le_compat_l_inv in B; [lia | reflexivity].
Qed.

Lemma float_of_pow2 k :
  (0 <= k)%Z ->
  (k < 1024 -> exists b, float_of_int (2 ^ k) = Ok b /\ b == pow2 k)%Z
  /\ (1024 <= k -> float_of_int (2 ^ k) = Raise overflow_error)%Z.
Proof.
  intros Hk. unfold float_of_int. rewrite (overflows_pow2 k Hk). split; intros H.
  - assert (C : (1024 <=? k)%Z = false) by (apply Z.leb_gt; exact H). rewrite C.
    eexists. split; [reflexivity|].
    apply nearest_exact; [exact Hk | symmetry; apply pow2_inject; exact Hk].
  - assert (C : (1024 <=? k)%Z = true) by (apply Z.leb_le; exact H). rewrite C.
    reflexivity.
Qed.

End FloatFacts.

(* --------------------------------------------------------------------- *)
(** ** API client: retry and backoff *)
(* --------------------------------------------------------------------- *)

Section ClientProofs.
Import SheerIDClient ClientLog.

(** Up to attempt 1023 the delay is computed. *)
Lemma backoff_ok self a j :
  a < 1024 ->
  exists b,
    PyFloat.float_of_int (2 ^ Z.max 0 a) = Ok b
    /\ (b == PyFloat.pow2 (Z.max 0 a))%Q
    /\ _compute_backoff_sec self a j
       = Ok (Qmin (backoff_cap_sec (settings self)) (PyFloat.add b j)).
Proof.
  intros H. unfold _compute_backoff_sec.
  destruct (float_of_pow2 (Z.max 0 a) ltac:(lia)) as [A _].
  destruct (A ltac:(lia)) as (b & E & B). rewrite E. exists b. auto.
Qed.

(** From attempt 1024 on it raises. *)
Lemma backoff_overflow self a j :
  1024 <= a -> _compute_backoff_sec self a j = Raise PyFloat.overflow_error.
Proof.
  intros H. unfold _compute_backoff_sec.
  destruct (float_of_pow2 (Z.max 0 a) ltac:(lia)) as [_ A].
  rewrite (A ltac:(lia)). reflexivity.
Qed.

Lemma backoff_le_cap self a j q :
  _compute_backoff_sec self a j = Ok q -> (q <= backoff_cap_sec (settings self))%Q.
Proof.
  unfold _compute_backoff_sec. destruct (PyFloat.float_of_int _); [|discriminate].
  intros X; inversion X; subst. apply Q.le_min_l.
Qed.

Lemma fetches_app l1 l2 : fetches (l1 ++ l2) = fetches l1 ++ fetches l2.
Proof. apply flat_map_app. Qed.


Section Loop.
Context {S : Type}.
Variable fetch : string -> string -> list (string * string) -> option dict ->
                 S -> outcome response * S.
Variable uniform01 : S -> Q * S.
Variable self : t.
Variables (method url : string) (body : option dict).

Lemma backoff_sleep_ok attempt s :
  attempt < 1024 ->
  exists q,
    backoff_sleep uniform01 self attempt s = (Ok tt, snd (uniform01 s), [CSleep q])
    /\ _compute_backoff_sec self attempt (fst (uniform01 s)) = Ok q.
Proof.
  intros H. unfold backoff_sleep, bind, effect, emit.
  destruct (uniform01 s) as [j s1]. cbn [fst snd].
  destruct (backoff_ok self attempt j H) as (b & _ & _ & E). rewrite E.
  eexists. split; reflexivity.
Qed.

Lemma backoff_sleep_overflow attempt s :
  1024 <= attempt ->
  backoff_sleep uniform01 self attempt s
  = (Raise PyFloat.overflow_error, snd (uniform01 s), []).
Proof.
  intros H. unfold backoff_sleep, bind, effect, emit, raise.
  destruct (uniform01 s) as [j s1]. cbn [fst snd].
  rewrite (backoff_overflow self attempt j H). reflexivity.
Qed.

(** One iteration: the fetch it makes, and what it decides: it ends the
    loop with the attempt, or pauses and goes round again, or fails to
    compute the pause. *)
Lemma iteration_spec attempt v s :
  exists r s1 l out,
    try_except (attempt_body fetch uniform01 self method url body attempt v)
               (attempt_handler uniform01 self attempt v) s = (out, s1, l)
    /\ ((retryable r && (attempt <? max_retries (settings self)) = false
         /\ l = [CFetch method url (request_headers self) (json_body body) r]
         /\ out = match attempt_result r with
                  | Ok a => Ok (Return a)
                  | Raise e => Raise e
                  end)
        \/ (retryable r = true /\ attempt < max_retries (settings self)
            /\ attempt < 1024
            /\ exists v' j q,
                 out = Ok (Continue v')
                 /\ _compute_backoff_sec self attempt j = Ok q
                 /\ l = [CFetch method url (request_headers self) (json_body body) r;
                         CSleep q])
        \/ (retryable r = true /\ attempt < max_retries (settings self)
            /\ 1024 <= attempt
            /\ out = Raise PyFloat.overflow_error
            /\ l = [CFetch method url (request_headers self) (json_body body) r])).
Proof.
  unfold try_except, attempt_body, attempt_handler, bind, do_fetch, read_body.
  destruct (fetch method url (request_headers self) (json_body body) s) as [r s1] eqn:F.
  exists r.
  destruct (Z_lt_le_dec attempt 1024) as [Lo|Hi].
  - (* the pause can be computed *)
    destruct r as [resp|e]; cbn [app].
    + destruct (json resp) as [d|e1] eqn:J.
      * unfold ret at 1. cbn [app].
        destruct ((attempt <? max_retries (settings self)) && in_retry_statuses (status resp))
          eqn:C.
        -- apply andb_true_iff in C. destruct C as [C1 C2].
           destruct (backoff_sleep_ok attempt s1 Lo) as (q & B & Q). rewrite B.
           unfold ret. cbn [app].
           eexists _, _, _. split; [reflexivity|]. right. left.
           split; [unfold retryable, attempt_result; rewrite J; exact C2|].
           split; [apply Z.ltb_lt; exact C1|]. split; [exact Lo|].
           eexists _, _, _. split; [reflexivity|]. split; [exact Q | reflexivity].
        -- unfold ret. cbn [app].
           eexists _, _, _. split; [reflexivity|]. left.
           split; [unfold retryable, attempt_result; rewrite J, andb_comm; exact C|].
           split; [reflexivity|]. unfold attempt_result. rewrite J. reflexivity.
      * destruct (text resp) as [t0|e2] eqn:T.
        -- unfold ret at 1. cbn [app].
           destruct ((attempt <? max_retries (settings self))
                     && in_retry_statuses (status resp)) eqn:C.
           ++ apply andb_true_iff in C. destruct C as [C1 C2].
              destruct (backoff_sleep_ok attempt s1 Lo) as (q & B & Q). rewrite B.
              unfold ret. cbn [app].
              eexists _, _, _. split; [reflexivity|]. right. left.
              split; [unfold retryable, attempt_result; rewrite J, T; exact C2|].
              split; [apply Z.ltb_lt; exact C1|]. split; [exact Lo|].
              eexists _, _, _. split; [reflexivity|]. split; [exact Q | reflexivity].
           ++ unfold ret. cbn [app].
              eexists _, _, _. split; [reflexivity|]. left.
              split; [unfold retryable, attempt_result; rewrite J, T, andb_comm; exact C|].
              split; [reflexivity|]. unfold attempt_result. rewrite J, T. reflexivity.
        -- unfold raise at 1. cbn [app].
           destruct (attempt <? max_retries (settings self)) eqn:C.
           ++ destruct (backoff_sleep_ok attempt s1 Lo) as (q & B & Q). rewrite B.
              unfold ret. cbn [app].
              eexists _, _, _. split; [reflexivity|]. right. left.
              split; [unfold retryable, attempt_result; rewrite J, T; reflexivity|].
              split; [apply Z.ltb_lt; exact C|]. split; [exact Lo|].
              eexists _, _, _. split; [reflexivity|]. split; [exact Q | reflexivity].
           ++ unfold raise. cbn [app].
              eexists _, _, _. split; [reflexivity|]. left.
              split; [unfold retryable, attempt_result; rewrite J, T; reflexivity|].
              split; [reflexivity|]. unfold attempt_result. rewrite J, T. reflexivity.
    + destruct (attempt <? max_retries (settings self)) eqn:C.
      * destruct (backoff_sleep_ok attempt s1 Lo) as (q & B & Q). rewrite B.
        unfold ret. cbn [app].
        eexists _, _, _. split; [reflexivity|]. right. left.
        split; [reflexivity|].
        split; [apply Z.ltb_lt; exact C|]. split; [exact Lo|].
        eexists _, _, _. split; [reflexivity|]. split; [exact Q | reflexivity].
      * unfold raise. cbn [app].
        eexists _, _, _. split; [reflexivity|]. left.
        split; [reflexivity|]. split; reflexivity.
  - (* the pause raises, in the [try] and again in the handler *)
    destruct r as [resp|e]; cbn [app].
    + destruct (json resp) as [d|e1] eqn:J.
      * unfold ret at 1. cbn [app].
        destruct ((attempt <? max_retries (settings self)) && in_retry_statuses (status resp))
          eqn:C.
        -- apply andb_true_iff in C. destruct C as [C1 C2].
           rewrite (backoff_sleep_overflow attempt s1 Hi). rewrite C1.
           rewrite (backoff_sleep_overflow attempt _ Hi). cbn [app].
           eexists _, _, _. split; [reflexivity|]. right. right.
           split; [unfold retryable, attempt_result; rewrite J; exact C2|].
           split; [apply Z.ltb_lt; exact C1|]. split; [exact Hi|].
           split; reflexivity.
        -- unfold ret. cbn [app].
           eexists _, _, _. split; [reflexivity|]. left.
           split; [unfold retryable, attempt_result; rewrite J, andb_comm; exact C|].
           split; [reflexivity|]. unfold attempt_result. rewrite J. reflexivity.
      * destruct (text resp) as [t0|e2] eqn:T.
        -- unfold ret at 1. cbn [app].
           destruct ((attempt <? max_retries (settings self))
                     && in_retry_statuses (status resp)) eqn:C.
           ++ apply andb_true_iff in C. destruct C as [C1 C2].
              rewrite (backoff_sleep_overflow attempt s1 Hi). rewrite C1.
              rewrite (backoff_sleep_overflow attempt _ Hi). cbn [app].
              eexists _, _, _. split; [reflexivity|]. right. right.
              split; [unfold retryable, attempt_result; rewrite J, T; exact C2|].
              split; [apply Z.ltb_lt; exact C1|]. split; [exact Hi|].
              split; reflexivity.
           ++ unfold ret. cbn [app].
              eexists _, _, _. split; [reflexivity|]. left.
              split; [unfold retryable, attempt_result; rewrite J, T, andb_comm; exact C|].
              split; [reflexivity|]. unfold attempt_result. rewrite J, T. reflexivity.
        -- unfold raise at 1. cbn [app].
           destruct (attempt <? max_retries (settings self)) eqn:C.
           ++ rewrite (backoff_sleep_overflow attempt s1 Hi). cbn [app].
              eexists _, _, _. split; [reflexivity|]. right. right.
              split; [unfold retryable, attempt_result; rewrite J, T; reflexivity|].
              split; [apply Z.ltb_lt; exact C|]. split; [exact Hi|].
              split; reflexivity.
           ++ unfold raise. cbn [app].
              eexists _, _, _. split; [reflexivity|]. left.
              split; [unfold retryable, attempt_result; rewrite J, T; reflexivity|].
              split; [reflexivity|]. unfold attempt_result. rewrite J, T. reflexivity.
    + destruct (attempt <? max_retries (settings self)) eqn:C.
      * rewrite (backoff_sleep_overflow attempt s1 Hi). cbn [app].
        eexists _, _, _. split; [reflexivity|]. right. right.
        split; [reflexivity|].
        split; [apply Z.ltb_lt; exact C|]. split; [exact Hi|].
        split; reflexivity.
      * unfold raise. cbn [app].
        eexists _, _, _. split; [reflexivity|]. left.
        split; [reflexivity|]. split; reflexivity.
Qed.


End Loop.







End ClientProofs.

(* --------------------------------------------------------------------- *)
(** ** Orchestrator: precheck gate, snapshot, submit-readiness gate *)
(* --------------------------------------------------------------------- *)

Section OrchestratorProofs.
Import VerificationOrchestrator form_ready_dump RunFacts.

Lemma nonempty_iff s : nonempty s = true <-> s <> "".
Proof. destruct s; simpl; split; intros; congruence. Qed.






Section Stages.
Context {S Page Frame : Type}.
Variable deps : VerificationDeps S Page Frame.
Variable host : Host S Page.

Lemma delay_run lo hi s :
  delay deps lo hi s = (Ok tt, human_delay deps lo hi s, [HumanDelay lo hi]).
Proof. reflexivity. Qed.

Lemma dep_run {A} ev (f : S -> outcome A * S) s :
  dep ev f s = (fst (f s), snd (f s), [ev]).
Proof. unfold dep, bind, emit, call. simpl. destruct (f s); reflexivity. Qed.




Lemma submit_and_poll_log profile page form_frame s :
  exists l, log_of (submit_and_poll deps host profile page form_frame s)
            = HumanDelay 0.2 0.6 :: ClickSubmit :: l.
Proof.
  unfold submit_and_poll. rewrite log_bind, delay_run.
  cbn [log_of result_of state_of fst snd app].
  rewrite log_bind, dep_run.
  cbn [log_of result_of state_of fst snd app].
  eexists; reflexivity.
Qed.






Lemma precheck_gate profile s step pre_status s1 :
  do_precheck deps s = (Ok (step, pre_status), s1) ->
  ne_str step "collectStudentPersonalInfo" = true ->
  force_ui host = false ->
  run deps host profile s
  = (Ok {| success := ne_str step "error";
           message := ("预检步骤为 " ++ py_str step)%string;
           result_verification_id := verification_id profile;
           status := Some (StPrecheck step pre_status);
           form_values := None;
           trace := None |}, s1, [DoPrecheck]).
Proof.
  intros P N F.
  unfold run, try_except, bind at 1. rewrite dep_run, P.
  cbn [fst snd]. rewrite N, F. reflexivity.
Qed.

Lemma initial_step_proceeds profile s pre_status s1 :
  do_precheck deps s = (Ok (PStr "collectStudentPersonalInfo", pre_status), s1) ->
  exists l, log_of (run deps host profile s) = DoPrecheck :: EnsureBrowser :: l.
Proof.
  intros P. unfold run, try_except.
  match goal with |- context [match ?m s with _ => _ end] => set (body := m) end.
  assert (L : exists l, log_of (body s) = DoPrecheck :: EnsureBrowser :: l).
  { unfold body. rewrite log_bind, dep_run, P.
    cbn [log_of result_of state_of fst snd app ne_str String.eqb Ascii.eqb Bool.eqb negb andb].
    rewrite log_bind, dep_run.
    cbn [log_of result_of state_of fst snd app]. eexists; reflexivity. }
  destruct L as (l & L).
  destruct (body s) as [[[r|e] s2] l2]; unfold log_of in *; cbn [snd] in L |- *.
  - eexists; exact L.
  - subst l2.
    destruct (unhandled host profile None e s2) as [[r s3] l3].
    cbn [snd app]. eexists; reflexivity.
Qed.





End Stages.

(** C2.  When the precheck returns a step other than
    [collectStudentPersonalInfo] and the force-continue override is not
    set, the run ends there: its result has [success = (step != "error")],
    its message names the step, and its call log holds the precheck
    alone: no navigation, no form fill, no submit.  With the step
    [error] the result is a failure whose message names [error]. *)
Theorem precheck_gate_ends_run :
  forall (S Page Frame : Type) (deps : VerificationDeps S Page Frame)
         (host : Host S Page) (profile : VerificationProfile) (s : S)
         (step : pyval) (pre_status : dict) (s1 : S),
    do_precheck deps s = (Ok (step, pre_status), s1) ->
    ne_str step "collectStudentPersonalInfo" = true ->
    force_ui host = false ->
    run deps host profile s
    = (Ok {| success := ne_str step "error";
             message := ("预检步骤为 " ++ py_str step)%string;
             result_verification_id := verification_id profile;
             status := Some (StPrecheck step pre_status);
             form_values := None;
             trace := None |}, s1, [DoPrecheck])
    /\ (step = PStr "error" ->
        exists r, result_of (run deps host profile s) = Ok r
                  /\ success r = false
                  /\ message r = "预检步骤为 error"
                  /\ log_of (run deps host profile s) = [DoPrecheck]).
Proof.
  intros S Page Frame deps host profile s step pre_status s1 P N F.
  pose proof (precheck_gate deps host profile s step pre_status s1 P N F) as E.
  split; [exact E|].
  intros ->. rewrite E. eexists. repeat split.
Qed.

(** The status poller answers [error]: the run fails at once. *)
Lemma precheck_gate_ends_run_witness :
  log_of (run (SimRun.deps true) SimRun.host SimRun.profile world_error) = [DoPrecheck]
  /\ exists r, result_of (run (SimRun.deps true) SimRun.host SimRun.profile world_error)
               = Ok r
               /\ success r = false.
Proof.
  pose proof (precheck_gate_ends_run _ _ _ (SimRun.deps true) SimRun.host SimRun.profile
                world_error (PStr "error") [("currentStep", PStr "error")]
                {| SimRun.prechecks := []; SimRun.dumps := [] |}
                eq_refl eq_refl eq_refl) as [E _].
  rewrite E. split; [reflexivity|]. eexists. split; reflexivity.
Defined.


End OrchestratorProofs.

(* --------------------------------------------------------------------- *)
(** ** Every step of a run respects what its dependencies respect *)
(* --------------------------------------------------------------------- *)

Ltac stable_step :=
  match goal with
  | |- stable _ (ret _) => apply stable_ret; assumption
  | |- stable _ (raise _) => apply stable_raise; assumption
  | |- stable _ (emit _) => apply stable_emit; assumption
  | |- stable _ (bind _ _) => apply stable_bind; [assumption | | intros]
  | |- stable _ (try_except _ _) => apply stable_try; [assumption | | intros]
  | |- stable _ (call _) => apply stable_call
  | |- stable _ (effect _) => apply stable_effect
  | |- stable _ (match VerificationOrchestrator.dump_form_ready ?d with _ => _ end) =>
      destruct (VerificationOrchestrator.dump_form_ready d) eqn:?
  | |- stable _ (match ?x with _ => _ end) => destruct x
  | |- stable _ (let (_, _) := ?x in _) => destruct x
  end.

Section RunStable.
Import VerificationOrchestrator.
Context {S Page Frame : Type} (R : S -> S -> Prop).
Hypothesis R_refl : forall s, R s s.
Hypothesis R_trans : forall a b c, R a b -> R b c -> R a c.
Variable deps : VerificationDeps S Page Frame.
Variable host : Host S Page.
Hypothesis D : deps_stable R deps host.

Ltac run_stable_go :=
  repeat first
    [ stable_step
    | solve [ apply D | intros; apply D
            | eapply (st_dump R deps host D); eassumption ] ].

Lemma poll_stable page n : forall a b, stable R (poll deps host page n a b).
Proof.
  induction n as [|n IH]; intros a b; cbn [poll]; [run_stable_go|].
  unfold dep, swallow. run_stable_go. apply IH.
Qed.

Lemma run_stable profile : stable R (run deps host profile).
Proof.
  unfold run, unhandled, browser_stage, navigate, locate, fill_fields, take_snapshot,
    dry_run_result, submit_stage, submit_gate, gate_body, remediate, submit_and_poll,
    read_url_now, read_title_now, read_html_head, or_default, swallow, dump_page, delay, dep.
  run_stable_go.
  all: try apply poll_stable.
Qed.
End RunStable.

(* --------------------------------------------------------------------- *)
(** ** Verifier: status poller, locale, single use *)
(* --------------------------------------------------------------------- *)

Section VerifierProofs.
Import VerificationOrchestrator SheerIDVerifier VerifierLog RunFacts.

Section SelfRelation.
Context {W Page Frame : Type}.
Variable env : Collaborators W Page Frame.
Variable Rs : t -> t -> Prop.
Hypothesis Rs_refl : forall v, Rs v v.
Hypothesis Rs_trans : forall a b c, Rs a b -> Rs b c -> Rs a c.

Lemma on_self_refl (s : state W) : on_self Rs s s.
Proof. apply Rs_refl. Qed.

Lemma on_self_trans (a b c : state W) :
  on_self Rs a b -> on_self Rs b c -> on_self Rs a c.
Proof. apply Rs_trans. Qed.

Lemma stable_get_self {E} : stable (on_self Rs) (@get_self W E).
Proof. intros s. apply Rs_refl. Qed.

Lemma stable_on_world {E A} (f : W -> outcome A * W) :
  stable (on_self Rs) (@on_world W E A f).
Proof.
  intros s. unfold on_world, state_of, on_self.
  destruct (f (world s)); simpl. apply Rs_refl.
Qed.

Lemma stable_on_world_total {E A} (f : W -> A * W) :
  stable (on_self Rs) (@on_world_total W E A f).
Proof.
  intros s. unfold on_world_total, state_of, on_self.
  destruct (f (world s)); simpl. apply Rs_refl.
Qed.

Lemma stable_modify_self {E} (f : t -> t) :
  (forall v, Rs v (f v)) -> stable (on_self Rs) (@modify_self W E f).
Proof. intros H s. apply H. Qed.

Hypothesis H_mgr : forall v, Rs v (set_browser_mgr v).
Hypothesis H_handles : forall v, Rs v (set_handles v).
Hypothesis H_api : forall v api svc, Rs v (set_api v api svc).
Hypothesis H_form : forall v, Rs v (set_form v).

Ltac self_go :=
  repeat (first
    [ apply stable_get_self | apply stable_on_world | apply stable_on_world_total
    | apply stable_modify_self; solve [auto]
    | apply stable_ret; apply on_self_refl
    | apply stable_raise; apply on_self_refl
    | progress cbv zeta
    | apply stable_bind; [apply on_self_trans | | intros]
    | apply stable_try; [apply on_self_trans | | intros]
    | match goal with
      | |- stable _ (match ?x with _ => _ end) => destruct x
      | |- stable _ (let (_, _) := ?x in _) => destruct x
      end ]).

Lemma ensure_browser_stable {E} :
  stable (on_self Rs) (@_ensure_browser W Page Frame E env).
Proof. unfold _ensure_browser. self_go. Qed.

Lemma ensure_api_service_stable {E} :
  stable (on_self Rs) (@_ensure_api_service W Page Frame E env).
Proof. unfold _ensure_api_service, _ensure_browser. self_go. Qed.

Lemma ensure_form_stable {E} : stable (on_self Rs) (@_ensure_form W E).
Proof. unfold _ensure_form. self_go. Qed.

Lemma wait_network_idle_soft_stable {E} p ms :
  stable (on_self Rs) (@_wait_network_idle_soft W Page Frame E env p ms).
Proof. unfold _wait_network_idle_soft. self_go. Qed.

Lemma api_request_json_stable {E} m u b :
  stable (on_self Rs) (@api_request_json W Page Frame E env m u b).
Proof. unfold api_request_json. self_go. Qed.

Hypothesis H_locale : forall pd v, Rs v (locale_override pd v).

Lemma do_precheck_stable {E} :
  stable (on_self Rs) (@_do_precheck W Page Frame E env).
Proof.
  unfold _do_precheck, SheerIDApiService.precheck, SheerIDApiService.request,
    _ensure_api_service, _ensure_browser, api_request_json.
  self_go.
Qed.

Lemma as_dep_stable {A} (m : M (state W) orch_call A) :
  stable (on_self Rs) m -> stable_fn (on_self Rs) (as_dep m).
Proof. intros H s. exact (H s). Qed.

Lemma lift_stable {A} (f : W -> outcome A * W) : stable_fn (on_self Rs) (lift f).
Proof. apply as_dep_stable, stable_on_world. Qed.

Lemma verifier_deps_stable : deps_stable (on_self Rs) (deps env) (host env).
Proof.
  constructor; simpl; intros;
    try apply lift_stable;
    try (apply as_dep_stable;
         first [ apply do_precheck_stable | apply ensure_browser_stable
               | apply ensure_form_stable | apply wait_network_idle_soft_stable ]);
    try (intros ?; apply Rs_refl);
    try apply Rs_refl.
  - apply as_dep_stable. unfold new_page_dep. self_go.
  - match goal with H : Some _ = Some _ |- _ => inversion H; subst end.
    apply lift_stable.
Qed.
End SelfRelation.

Lemma keeps_used_refl v : keeps_used v v.
Proof. intros H; exact H. Qed.

Lemma keeps_used_trans a b c : keeps_used a b -> keeps_used b c -> keeps_used a c.
Proof. unfold keeps_used. auto. Qed.

Lemma keeps_used_locale pd v : keeps_used v (locale_override pd v).
Proof.
  unfold keeps_used, locale_override.
  destruct (or_empty (dict_get pd "locale")); auto.
  destruct (_ && _); auto.
Qed.

Lemma same_locale_refl v : same_locale v v.
Proof. split; reflexivity. Qed.

Lemma same_locale_trans a b c : same_locale a b -> same_locale b c -> same_locale a c.
Proof. intros [A B] [C D]. split; congruence. Qed.

Lemma locale_override_spec pd v :
  (server_locale pd <> "" -> server_locale pd <> locale v ->
     locale (locale_override pd v) = server_locale pd
     /\ accept_language (locale_override pd v) = locale_header (server_locale pd)
     /\ forall api, _api v = Some api ->
          _api (locale_override pd v)
          = Some {| SheerIDClient.accept_language := locale_header (server_locale pd);
                    SheerIDClient.settings := SheerIDClient.settings api |})
  /\ (server_locale pd = "" \/ server_locale pd = locale v -> locale_override pd v = v).
Proof.
  unfold server_locale, locale_override, or_empty.
  destruct (dict_get pd "locale") as [|b|z|s]; simpl.
  - split; [intros H; congruence|reflexivity].
  - destruct b; (split; [intros H; congruence|reflexivity]).
  - destruct (negb (z =? 0)); (split; [intros H; congruence|reflexivity]).
  - destruct s as [|c s]; simpl.
    + split; [intros H; exfalso; apply H; reflexivity|reflexivity].
    + set (srv := strip (String c s)).
      destruct (nonempty srv) eqn:N; simpl.
      * destruct (String.eqb_spec srv (locale v)) as [E|E]; simpl.
        -- split; [intros H H'; congruence|reflexivity].
        -- split.
           ++ intros _ _. split; [reflexivity|]. split; [reflexivity|].
              intros api ->. reflexivity.
           ++ intros [H|H]; [|congruence]. rewrite H in N. discriminate.
      * split; [|reflexivity]. intros H. destruct srv; [congruence|discriminate].
Qed.

(** The locale after one payload: the server's when it declares one. *)
Lemma locale_after_payload pd v :
  locale (locale_override pd v)
  = if nonempty (server_locale pd) then server_locale pd else locale v.
Proof.
  destruct (locale_override_spec pd v) as [Upd Keep].
  destruct (nonempty (server_locale pd)) eqn:N.
  - destruct (String.eqb_spec (server_locale pd) (locale v)) as [E|E].
    + rewrite Keep by auto. symmetry. exact E.
    + apply Upd; [|exact E]. intros Z. rewrite Z in N. discriminate.
  - rewrite Keep; [reflexivity|]. left. destruct (server_locale pd); [reflexivity|discriminate].
Qed.

Lemma last_cons {A} (l : list A) : forall a d, last (a :: l) d = last l a.
Proof.
  induction l as [|b l IH]; intros a d; [reflexivity|].
  change (last (a :: b :: l) d) with (last (b :: l) d).
  rewrite !IH. reflexivity.
Qed.

Lemma locale_after_payloads payloads : forall v,
  locale (after_payloads v payloads)
  = last (filter nonempty (map server_locale payloads)) (locale v).
Proof.
  unfold after_payloads.
  induction payloads as [|pd rest IH]; intros v; simpl; [reflexivity|].
  rewrite IH, locale_after_payload.
  destruct (nonempty (server_locale pd)) eqn:N; [|reflexivity].
  symmetry. apply last_cons.
Qed.

Lemma locale_header_nonempty srv : nonempty (locale_header srv) = true.
Proof. unfold locale_header. destruct srv; reflexivity. Qed.

Section Precheck.
Context {W Page Frame E : Type}.
Variable env : Collaborators W Page Frame.

(** A precheck that returns has gone through the client object, has not
    touched the locale before the payload came back, and ends with the
    override. *)
Lemma do_precheck_self st step pd st' l :
  @_do_precheck W Page Frame E env st = (Ok (step, pd), st', l) ->
  exists v1 api,
    _api v1 = Some api
    /\ same_locale (self st) v1
    /\ self st' = locale_override pd v1.
Proof.
  unfold _do_precheck. unfold bind at 1.
  pose proof (@ensure_api_service_stable W Page Frame env same_locale
                same_locale_refl same_locale_trans
                ltac:(intros; split; reflexivity) ltac:(intros; split; reflexivity)
                ltac:(intros; split; reflexivity) E st) as St.
  unfold state_of, on_self in St.
  destruct (_ensure_api_service env st) as [[[[]|e] sA] lA]; [|discriminate].
  simpl in St.
  unfold bind at 1, get_self at 1.
  unfold SheerIDApiService.precheck, SheerIDApiService.request.
  unfold bind at 1. unfold bind at 1. unfold bind at 1.
  unfold on_world_total at 1. cbn [fst snd].
  unfold api_request_json, bind at 1, get_self at 1. cbn [self].
  destruct (_api (self sA)) as [api|] eqn:A; [|discriminate].
  unfold on_world. cbn [self world].
  destruct (SheerIDClient.request_json _ _ _ _ _ _ _) as [[r w1] lr]. cbn [fst].
  destruct r as [[d z]|e]; [|discriminate].
  unfold ret, bind, modify_self. cbn.
  intros X. inversion X; subst. simpl.
  exists (self sA), api. repeat split; try assumption; apply St.
Qed.
End Precheck.

Section VerifyOnce.
Context {W Page Frame : Type}.
Variable env : Collaborators W Page Frame.

Lemma verify_rejects a1 a2 a3 a4 a5 st :
  _has_run (self st) = true ->
  verify env a1 a2 a3 a4 a5 st
  = (Ok {| success := false;
           message := single_use_message;
           result_verification_id := verification_id (self st);
           status := None;
           form_values := None;
           trace := Some single_use_message |}, st, []).
Proof.
  intros H. unfold verify, try_except, verify_body, bind, get_self.
  rewrite H. reflexivity.
Qed.

Lemma verify_steps_stable a1 a2 a3 a4 a5 :
  stable (on_self keeps_used) (verify_steps env a1 a2 a3 a4 a5).
Proof.
  unfold verify_steps.
  apply stable_bind; [apply on_self_trans, keeps_used_trans| |intros [f l]].
  - destruct (_ || _).
    + apply stable_bind; [apply on_self_trans, keeps_used_trans| |intros].
      * apply stable_on_world, keeps_used_refl.
      * apply stable_ret, on_self_refl, keeps_used_refl.
    + apply stable_ret, on_self_refl, keeps_used_refl.
  - destruct (negb _).
    + apply stable_raise, on_self_refl, keeps_used_refl.
    + cbv zeta. destruct (config.some_nonempty _).
      2:{ apply stable_raise, on_self_refl, keeps_used_refl. }
      apply stable_bind; [apply on_self_trans, keeps_used_trans| |intros].
      { destruct (given a4).
        - apply stable_ret, on_self_refl, keeps_used_refl.
        - apply stable_on_world, keeps_used_refl. }
      apply stable_bind; [apply on_self_trans, keeps_used_trans| |intros].
      { apply ensure_form_stable;
          first [apply keeps_used_refl | apply keeps_used_trans | (intros v H; exact H)]. }
      apply stable_bind; [apply on_self_trans, keeps_used_trans| |intros].
      { apply stable_get_self, keeps_used_refl. }
      apply stable_bind; [apply on_self_trans, keeps_used_trans| |intros].
      { apply run_stable.
        - apply on_self_refl, keeps_used_refl.
        - apply on_self_trans, keeps_used_trans.
        - apply verifier_deps_stable;
            first [apply keeps_used_refl | apply keeps_used_trans | apply keeps_used_locale
                  | (intros; intros H; exact H)]. }
      apply stable_ret, on_self_refl, keeps_used_refl.
Qed.

(** Whatever the first call does, it leaves the instance marked. *)
Lemma verify_marks_used a1 a2 a3 a4 a5 st :
  _has_run (self (state_of (verify env a1 a2 a3 a4 a5 st))) = true.
Proof.
  destruct (_has_run (self st)) eqn:U.
  - rewrite verify_rejects by exact U. exact U.
  - unfold verify, verify_body.
    unfold try_except, bind at 1, get_self at 1. rewrite U.
    unfold bind at 1. unfold modify_self at 1.
    pose proof (verify_steps_stable a1 a2 a3 a4 a5
                  {| self := set_has_run (self st); world := world st |}) as St.
    unfold state_of, on_self, keeps_used in St. simpl in St.
    destruct (verify_steps env a1 a2 a3 a4 a5 _) as [[[r|e] s2] l2]; simpl in *.
    + apply St. reflexivity.
    + apply St. reflexivity.
Qed.
End VerifyOnce.

(** C3, as amended.  Whatever the first call to [verify] did and
    returned, a second call on the same instance fails: it returns the
    structured failure result whose message is the single-use message,
    calls no collaborator and leaves the instance as it was.  The
    failure is returned, not raised. *)
Theorem second_verify_rejected :
  forall (W Page Frame : Type) (env : Collaborators W Page Frame)
         (a1 a2 a3 a4 a5 b1 b2 b3 b4 b5 : option string) (st : state W),
    let st1 := state_of (verify env a1 a2 a3 a4 a5 st) in
    verify env b1 b2 b3 b4 b5 st1
    = (Ok {| success := false;
             message := single_use_message;
             result_verification_id := verification_id (self st1);
             status := None;
             form_values := None;
             trace := Some single_use_message |}, st1, []).
Proof. intros. apply verify_rejects. apply verify_marks_used. Qed.

(** C3 as stated fails: after a first call (here against a service that
    answers [error]), the second call raises nothing to its caller. *)
Lemma second_verify_not_raised :
  ~ exists e,
      result_of (verify SimApi.env None None (Some "ada@example.edu") None None
                   after_first_verify)
      = Raise e.
Proof. intros [e H]. vm_compute in H. discriminate. Qed.

(** C8, as amended.  After a precheck that returns, when the payload
    declares a locale (a non-empty text once stripped) other than the
    current one, the verifier's locale is that locale, its
    [accept_language] is the header derived from it, and the API client
    carries that header in the requests it builds from then on;
    otherwise locale and header stay as they were.  Across a sequence of
    payloads the locale is therefore the last declared one (the
    configured one when none was declared): it follows the server. *)
Theorem locale_follows_server :
  forall (W Page Frame E : Type) (env : Collaborators W Page Frame)
         (st : state W) (step : pyval) (pd : dict) (st' : state W) (l : list E),
    @_do_precheck W Page Frame E env st = (Ok (step, pd), st', l) ->
    (server_locale pd <> "" -> server_locale pd <> locale (self st) ->
       locale (self st') = server_locale pd
       /\ accept_language (self st') = locale_header (server_locale pd)
       /\ exists api,
            _api (self st') = Some api
            /\ In ("Accept-Language", locale_header (server_locale pd))
                  (SheerIDClient.request_headers api))
    /\ (server_locale pd = "" \/ server_locale pd = locale (self st) ->
        same_locale (self st) (self st'))
    /\ (forall v payloads,
          locale (after_payloads v payloads)
          = last (filter nonempty (map server_locale payloads)) (locale v)).
Proof.
  intros W Page Frame E env st step pd st' l H.
  destruct (do_precheck_self env st step pd st' l H) as (v1 & api & A & [L1 L2] & Ev).
  destruct (locale_override_spec pd v1) as [Upd Keep].
  split; [|split].
  - intros N D. rewrite L1 in D. destruct (Upd N D) as (U1 & U2 & U3).
    rewrite Ev. split; [exact U1|]. split; [exact U2|].
    eexists. split; [apply U3; exact A|].
    unfold SheerIDClient.request_headers. apply in_or_app. right.
    cbn [SheerIDClient.accept_language]. rewrite locale_header_nonempty. left. reflexivity.
  - intros C. rewrite L1 in C. rewrite Ev, (Keep C). split; assumption.
  - intros v payloads. apply locale_after_payloads.
Qed.

(** A first precheck answered with locale [fr-FR]. *)
Lemma locale_follows_server_witness :
  locale (self (after_precheck two_prechecks)) = "fr-FR"
  /\ accept_language (self (after_precheck two_prechecks))
     = "fr-FR,fr;q=0.9,en-US;q=0.8,en;q=0.7".
Proof.
  assert (R : @_do_precheck _ _ _ orch_call SimApi.env two_prechecks
              = (Ok (PStr "collectStudentPersonalInfo",
                     [("currentStep", PStr "collectStudentPersonalInfo");
                      ("locale", PStr "fr-FR")]),
                 after_precheck two_prechecks, []))
    by (vm_compute; reflexivity).
  destruct (locale_follows_server _ _ _ _ SimApi.env two_prechecks _ _ _ _ R)
    as (Upd & _ & _).
  destruct Upd as (A & B & _).
  - vm_compute. discriminate.
  - vm_compute. discriminate.
  - rewrite A, B. split; reflexivity.
Defined.

(** C8 as stated fails: with a first payload declaring [fr-FR] and a
    second one declaring [en-US], the locale goes from [en-US] to
    [fr-FR] and back to [en-US]. *)
Lemma locale_reverts :
  ~ ratchet [locale (self two_prechecks);
             locale (self (after_precheck two_prechecks));
             locale (self (after_precheck (after_precheck two_prechecks)))].
Proof.
  intros H.
  refine (H 0%nat 1%nat 2%nat "en-US" "fr-FR" "en-US" _ _ _ _ _ eq_refl).
  - lia.
  - vm_compute. reflexivity.
  - vm_compute. reflexivity.
  - vm_compute. reflexivity.
  - discriminate.
Qed.

(** C10.  A payload without a [currentStep] entry makes [precheck]
    return the step [collectStudentPersonalInfo]; and a run whose
    precheck returns that step does not end there: it goes on to the
    browser stage. *)
Theorem missing_step_is_initial :
  forall (S E : Type)
         (request_json : string -> string -> option dict -> M S E (dict * Z))
         (sleep_between_requests : M S E unit)
         (base_url vid : string) (s : S) (pre_data : dict) (code : Z) (s1 : S)
         (l : list E),
    SheerIDApiService.request request_json sleep_between_requests "GET"
      (base_url ++ "/rest/v2/verification/" ++ vid)%string None s
    = (Ok (pre_data, code), s1, l) ->
    dict_lookup pre_data "currentStep" = None ->
    SheerIDApiService.precheck request_json sleep_between_requests base_url vid s
    = (Ok (PStr "collectStudentPersonalInfo", pre_data), s1, l)
    /\ forall (S' Page Frame : Type) (deps : VerificationDeps S' Page Frame)
              (host : Host S' Page) (profile : VerificationProfile) (s' s1' : S'),
         do_precheck deps s' = (Ok (PStr "collectStudentPersonalInfo", pre_data), s1') ->
         exists rest,
           log_of (run deps host profile s') = DoPrecheck :: EnsureBrowser :: rest.
Proof.
  intros S E request_json sleep_between_requests base_url vid s pre_data code s1 l R L.
  split.
  - unfold SheerIDApiService.precheck, bind. rewrite R.
    unfold dict_get_default. rewrite L. unfold ret. rewrite app_nil_r. reflexivity.
  - intros S' Page Frame deps host profile s' s1' P.
    eapply initial_step_proceeds. exact P.
Qed.

(** The service answers 404 with a body that has no [currentStep]. *)
Lemma missing_step_is_initial_witness :
  SheerIDApiService.precheck
    (SheerIDClient.request_json SimApi.fetch SimApi.uniform01 SimApi.client)
    (ret tt) "https://services.sheerid.com" "vid123"
    [SimApi.json_response 404 [("message", PStr "not found")]]
  = (Ok (PStr "collectStudentPersonalInfo", [("message", PStr "not found")]), [],
     [SheerIDClient.CFetch "GET" "https://services.sheerid.com/rest/v2/verification/vid123"
        (SheerIDClient.request_headers SimApi.client) None
        (SimApi.json_response 404 [("message", PStr "not found")])]).
Proof.
  exact (proj1 (missing_step_is_initial _ _
                  (SheerIDClient.request_json SimApi.fetch SimApi.uniform01 SimApi.client)
                  (ret tt) "https://services.sheerid.com" "vid123"
                  [SimApi.json_response 404 [("message", PStr "not found")]]
                  [("message", PStr "not found")] 404 [] _ eq_refl eq_refl)).
Defined.
End VerifierProofs.

(* --------------------------------------------------------------------- *)
(** ** Organization selector: search terms, typed terms, rounds *)
(* --------------------------------------------------------------------- *)

Section SelectorProofs.
Import FormFiller OrgLog OrgFacts.

Lemma split_no_sep sep s : contains_char sep s = false -> split sep s = [s].
Proof.
induction s as [|c s IH]; simpl; intros H; [reflexivity|].
apply orb_false_iff in H. destruct H as [H1 H2].
rewrite Ascii.eqb_sym in H1. rewrite H1, (IH H2). reflexivity.
Qed.

Lemma compound_has_hyphen org :
compound org = true -> contains_char "-" (raw_name org) = true.
Proof.
unfold compound, segments. intros H.
destruct (contains_char "-" (raw_name org)) eqn:C; [reflexivity|].
rewrite (split_no_sep _ _ C) in H. simpl in H.
destruct (nonempty (strip (raw_name org))); discriminate.
Qed.

Lemma mem_str_In x l : mem_str x l = true <-> In x l.
Proof.
unfold mem_str. rewrite existsb_exists. split.
- intros (y & Hy & E). apply String.eqb_eq in E. subst. exact Hy.
- intros H. exists x. split; [exact H | apply String.eqb_refl].
Qed.

Lemma mem_str_notIn x l : mem_str x l = false <-> ~ In x l.
Proof.
rewrite <- mem_str_In. destruct (mem_str x l); split; intros; congruence.
Qed.

(** What the string functions of the derivation compute. *)
Lemma replace_length a b s : String.length (replace a b s) = String.length s.
Proof. induction s as [|c s IH]; simpl; [reflexivity | rewrite IH; reflexivity]. Qed.

Lemma replace_get a b s : forall i,
  String.get i (replace a b s)
  = match String.get i s with
    | Some c => Some (if Ascii.eqb c a then b else c)
    | None => None
    end.
Proof.
  induction s as [|c s IH]; intros i; simpl; [reflexivity|].
  destruct i as [|i]; [reflexivity | apply IH].
Qed.

Lemma split_not_nil sep s : split sep s <> [].
Proof.
  destruct s as [|c s]; simpl; [discriminate|].
  destruct (Ascii.eqb c sep); [discriminate|].
  destruct (split sep s); discriminate.
Qed.

Lemma split_concat sep s : String.concat (String sep "") (split sep s) = s.
Proof.
  induction s as [|c s IH]; [reflexivity|]. simpl.
  destruct (Ascii.eqb_spec c sep) as [->|N].
  - pose proof (split_not_nil sep s) as Z.
    destruct (split sep s) as [|p ps]; [congruence|].
    simpl in IH |- *. rewrite IH. reflexivity.
  - pose proof (split_not_nil sep s) as Z.
    destruct (split sep s) as [|p ps]; [congruence|].
    simpl in IH |- *. destruct ps as [|q ps]; rewrite <- IH; reflexivity.
Qed.

Lemma split_parts sep s :
  Forall (fun p => ~ In sep (list_ascii_of_string p)) (split sep s).
Proof.
  induction s as [|c s IH]; simpl; [constructor; [simpl; tauto | constructor]|].
  destruct (Ascii.eqb_spec c sep) as [->|N].
  - constructor; [simpl; tauto | exact IH].
  - destruct (split sep s) as [|p ps]; [constructor; [|constructor]|].
    + simpl. intros [H|[]]. congruence.
    + inversion IH as [|x l Hp Hps]; subst. constructor; [|exact Hps].
      simpl. intros [H|H]; [congruence | exact (Hp H)].
Qed.

Lemma lstrip_spec s :
  exists l, s = (l ++ lstrip s)%string
            /\ forallb py_isspace (list_ascii_of_string l) = true
            /\ (forall c rest, lstrip s = String c rest -> py_isspace c = false).
Proof.
  induction s as [|c s (l & E & A & H)]; simpl.
  - exists ""%string. split; [reflexivity|]. split; [reflexivity|]. intros c rest X.
    discriminate X.
  - destruct (py_isspace c) eqn:Sp.
    + exists (String c l). split; [simpl; rewrite <- E; reflexivity|].
      split; [simpl; rewrite Sp, A; reflexivity | exact H].
    + exists ""%string. split; [reflexivity|]. split; [reflexivity|].
      intros c' rest X. inversion X; subst. exact Sp.
Qed.

Lemma rstrip_spec s :
  exists r, s = (rstrip s ++ r)%string
            /\ forallb py_isspace (list_ascii_of_string r) = true
            /\ (forall pre c, rstrip s = (pre ++ String c "")%string -> py_isspace c = false).
Proof.
  induction s as [|c s (r & E & A & H)]; simpl.
  - exists ""%string. split; [reflexivity|]. split; [reflexivity|]. intros pre c X.
    destruct pre; discriminate X.
  - destruct (rstrip s) as [|d t] eqn:R.
    + destruct (py_isspace c) eqn:Sp.
      * exists (String c r). split; [simpl in E |- *; rewrite <- E; reflexivity|].
        split; [simpl; rewrite Sp, A; reflexivity|].
        intros pre c' X. destruct pre; discriminate X.
      * exists r. split; [simpl in E |- *; rewrite <- E; reflexivity|].
        split; [exact A|].
        intros pre c' X. destruct pre as [|p pre]; simpl in X.
        -- inversion X; subst. exact Sp.
        -- inversion X as [[X1 X2]]. destruct pre; discriminate X2.
    + exists r. split; [simpl in E |- *; rewrite <- E; reflexivity|].
      split; [exact A|].
      intros pre c' X. destruct pre as [|p pre]; simpl in X.
      * inversion X.
      * inversion X as [[X1 X2]]. exact (H pre c' X2).
Qed.

Lemma rstrip_first s c rest :
  rstrip s = String c rest -> exists rest', s = String c rest'.
Proof.
  destruct s as [|d s]; simpl; [discriminate|].
  destruct (rstrip s); [destruct (py_isspace d); [discriminate|]|];
    intros X; inversion X; subst; eexists; reflexivity.
Qed.

(** [strip] removes the leading and the trailing whitespace, and
    nothing else. *)
Lemma strip_spec s :
  exists l r,
    s = (l ++ strip s ++ r)%string
    /\ forallb py_isspace (list_ascii_of_string l) = true
    /\ forallb py_isspace (list_ascii_of_string r) = true
    /\ (forall c rest, strip s = String c rest -> py_isspace c = false)
    /\ (forall pre c, strip s = (pre ++ String c "")%string -> py_isspace c = false).
Proof.
  unfold strip.
  destruct (lstrip_spec s) as (l & E & A & H).
  destruct (rstrip_spec (lstrip s)) as (r & E2 & A2 & H2).
  exists l, r. split; [rewrite <- E2; exact E|]. split; [exact A|]. split; [exact A2|].
  split; [|exact H2].
  intros c rest X. destruct (rstrip_first _ _ _ X) as (rest' & Y). exact (H c rest' Y).
Qed.

(** The terms as three optional picks, in this order. *)
Lemma search_terms_picks org :
exists p1 p2 p3,
  search_terms org = p1 ++ p2 ++ p3
  /\ p1 = (if compound org then [trailing_segment org] else [])
  /\ p2 = (if nonempty (spaced_name org) && negb (mem_str (spaced_name org) p1)
           then [spaced_name org] else [])
  /\ p3 = (if nonempty (raw_name org) && negb (mem_str (raw_name org) (p1 ++ p2))
           then [raw_name org] else []).
Proof.
unfold search_terms. fold (raw_name org). fold (spaced_name org).
set (t1 := if contains_char "-" (raw_name org) then _ else _).
assert (T1 : t1 = if compound org then [trailing_segment org] else []).
{ unfold t1. fold (segments org). fold (compound org). fold (trailing_segment org).
  destruct (contains_char "-" (raw_name org)) eqn:C; [reflexivity|].
  destruct (compound org) eqn:K; [|reflexivity].
  apply compound_has_hyphen in K. congruence. }
cbv zeta.
exists t1,
  (if nonempty (spaced_name org) && negb (mem_str (spaced_name org) t1)
   then [spaced_name org] else []).
eexists. split; [|split; [exact T1|split; reflexivity]].
destruct (nonempty (spaced_name org) && negb (mem_str (spaced_name org) t1)).
- destruct (nonempty (raw_name org) && _); rewrite ?app_nil_r, <- ?app_assoc; reflexivity.
- rewrite !app_nil_r.
  destruct (nonempty (raw_name org) && _); rewrite ?app_nil_r; reflexivity.
Qed.

Lemma pick_subseq {A} (b : bool) (x : A) : Subseq (if b then [x] else []) [x].
Proof. destruct b; [apply Subseq_refl | apply Subseq_nil]. Qed.

Lemma search_terms_nodup org : NoDup (search_terms org).
Proof.
destruct (search_terms_picks org) as (p1 & p2 & p3 & E & E1 & E2 & E3).
rewrite E, app_assoc.
assert (N1 : NoDup p1).
{ subst p1. destruct (compound org); repeat constructor; simpl; tauto. }
assert (N2 : NoDup (p1 ++ p2)).
{ subst p2. destruct (nonempty (spaced_name org) && _) eqn:C.
  - apply andb_true_iff in C. destruct C as [_ C].
    apply negb_true_iff, mem_str_notIn in C.
    apply NoDup_app; [exact N1 | repeat constructor; simpl; tauto |].
    intros x Hx [<-|[]]. exact (C Hx).
  - rewrite app_nil_r. exact N1. }
subst p3. destruct (nonempty (raw_name org) && _) eqn:C.
- apply andb_true_iff in C. destruct C as [_ C].
  apply negb_true_iff, mem_str_notIn in C.
  apply NoDup_app; [exact N2 | repeat constructor; simpl; tauto |].
  intros x Hx [<-|[]]. exact (C Hx).
- rewrite app_nil_r. exact N2.
Qed.

Lemma search_terms_order org :
Subseq (search_terms org) [trailing_segment org; spaced_name org; raw_name org].
Proof.
destruct (search_terms_picks org) as (p1 & p2 & p3 & E & E1 & E2 & E3).
rewrite E. subst p1 p2 p3.
change [trailing_segment org; spaced_name org; raw_name org]
  with ([trailing_segment org] ++ [spaced_name org] ++ [raw_name org]).
repeat apply Subseq_app; apply pick_subseq.
Qed.

Lemma search_terms_head org :
compound org = true -> hd_error (search_terms org) = Some (trailing_segment org).
Proof.
intros C. destruct (search_terms_picks org) as (p1 & p2 & p3 & E & E1 & E2 & E3).
rewrite E, E1, C. reflexivity.
Qed.

Lemma search_terms_members org t :
In t (search_terms org)
<-> (compound org = true /\ t = trailing_segment org)
    \/ (t <> ""%string /\ t = spaced_name org)
    \/ (t <> ""%string /\ t = raw_name org).
Proof.
destruct (search_terms_picks org) as (p1 & p2 & p3 & E & E1 & E2 & E3).
assert (Ne : forall s, nonempty s = true <-> s <> ""%string).
{ intros [|c s]; simpl; split; intros; congruence. }
assert (I1 : forall x, In x p1 <-> compound org = true /\ x = trailing_segment org).
{ intros x. subst p1. destruct (compound org); simpl; intuition congruence. }
assert (I2 : forall x, In x (p1 ++ p2)
                       <-> In x p1 \/ (x <> ""%string /\ x = spaced_name org)).
{ intros x. rewrite in_app_iff. subst p2.
  destruct (nonempty (spaced_name org)) eqn:N; simpl.
  - apply Ne in N.
    destruct (mem_str (spaced_name org) p1) eqn:Mm; simpl.
    + apply mem_str_In in Mm. split; [tauto|]. intros [H|[H1 H2]]; [tauto|]. subst. tauto.
    + split; [|intuition congruence]. intros [H|[H|[]]]; [tauto|]. subst. tauto.
  - split; [tauto|]. intros [H|[H1 H2]]; [tauto|]. subst.
    destruct (spaced_name org); [congruence|discriminate]. }
rewrite E, app_assoc, in_app_iff, I2, I1. subst p3.
destruct (nonempty (raw_name org)) eqn:N; simpl.
- apply Ne in N.
  destruct (mem_str (raw_name org) (p1 ++ p2)) eqn:Mm; simpl.
  + apply mem_str_In in Mm. rewrite I2, I1 in Mm.
    split; [tauto|]. intros [H|[H|[H1 H2]]]; [tauto|tauto|]. subst t. tauto.
  + split; [|intuition congruence].
    intros [H|[H|[]]]; [tauto|]. subst. tauto.
- split; [tauto|]. intros [H|[H|[H1 H2]]]; [tauto|tauto|]. subst.
  destruct (raw_name org); [congruence|discriminate].
Qed.

Section Quiet.
Context {S : Type}.

Lemma swallow_run (frame : FrameApi S) {A} (m : M S ui_call A) s :
  swallow m s = (Ok tt, state_of (m s), log_of (m s) ++ []).
Proof.
  unfold swallow, try_except, bind, ret, state_of, log_of.
  destruct (m s) as [[[a|e] s1] l1]; reflexivity.
Qed.

Lemma act_run (frame : FrameApi S) {A} ev (f : S -> outcome A * S) s :
  act ev f s = (fst (f s), snd (f s), [ev]).
Proof. unfold act, bind, emit, call. simpl. destruct (f s); reflexivity. Qed.
End Quiet.

Section Typed.
Context {S : Type}.
Variable frame : FrameApi S.
Variable self : t.

Lemma typed_app a b : typed_terms (a ++ b) = typed_terms a ++ typed_terms b.
Proof. apply flat_map_app. Qed.

Lemma quiet_app (a b : list ui_call) :
  typed_terms a = [] -> typed_terms b = [] -> typed_terms (a ++ b) = [].
Proof. intros Ha Hb. rewrite typed_app, Ha, Hb. reflexivity. Qed.

Ltac qgo := unfold quiet; logs_go ltac:(reflexivity) ltac:(exact quiet_app).

Lemma quiet_sleep q : quiet (_sleep frame q).
Proof. unfold _sleep. qgo. Qed.

Lemma quiet_find cands : quiet (find_first_visible frame cands).
Proof.
  induction cands as [|c r IH]; cbn [find_first_visible]; [qgo|].
  unfold present_and_visible. qgo. exact IH.
Qed.

Lemma quiet_fresh : quiet (_fresh_org_input frame).
Proof. apply quiet_find. Qed.

Lemma quiet_wait_each sels ms : quiet (wait_each frame sels ms).
Proof.
  induction sels as [|x r IH]; cbn [wait_each]; [qgo|].
  unfold act. qgo. exact IH.
Qed.

Lemma quiet_check_candidates cands : quiet (check_candidates frame cands).
Proof.
  induction cands as [|c r IH]; cbn [check_candidates]; [qgo|].
  qgo. exact IH.
Qed.

Lemma quiet_check_id : quiet (_check_org_id_filled frame).
Proof.
  unfold _check_org_id_filled.
  apply logs_bind; [reflexivity | exact quiet_app | apply quiet_check_candidates | intros].
  qgo.
Qed.

Lemma quiet_strict : quiet (_check_org_selected_strict frame).
Proof. unfold _check_org_selected_strict. qgo. Qed.

Lemma quiet_focus loc : quiet (_safe_focus_input frame loc).
Proof. unfold _safe_focus_input, act. qgo. Qed.

Lemma quiet_js sel : quiet (_try_select_org_option_js frame sel).
Proof. unfold _try_select_org_option_js, act. qgo. Qed.

Lemma quiet_force full_text : quiet (_force_select_org_by_exact_text frame full_text).
Proof.
  unfold _force_select_org_by_exact_text, _fresh_org_input, _find_org_combobox_input.
  apply logs_try; [reflexivity | exact quiet_app | | intros; qgo].
  apply logs_bind; [reflexivity | exact quiet_app | apply quiet_find | intros [loc|]]; [|qgo].
  unfold swallow, act.
  repeat first
    [ apply quiet_sleep | apply quiet_focus | apply quiet_check_id
    | apply logs_bind; [reflexivity | exact quiet_app | | intros]
    | apply logs_try; [reflexivity | exact quiet_app | | intros]
    | apply logs_ret; reflexivity
    | apply logs_call; reflexivity
    | apply logs_emit; reflexivity ].
Qed.

Lemma quiet_rounds menu n : quiet (selection_rounds frame menu n).
Proof.
  induction n as [|n IH]; cbn [selection_rounds]; [qgo|].
  unfold keyboard_strategy, pointer_strategy, swallow, act.
  repeat first
    [ apply quiet_sleep | apply quiet_check_id | apply quiet_js | exact IH
    | apply logs_bind; [reflexivity | exact quiet_app | | intros]
    | apply logs_try; [reflexivity | exact quiet_app | | intros]
    | apply logs_ret; reflexivity
    | apply logs_call; reflexivity
    | apply logs_emit; reflexivity
    | match goal with
      | |- logs _ (match ?x with _ => _ end) => destruct x
      end ].
Qed.

Lemma quiet_await n : quiet (await_org_id frame n).
Proof.
  induction n as [|n IH]; cbn [await_org_id]; [qgo|].
  repeat first
    [ apply quiet_sleep | apply quiet_check_id | exact IH
    | apply logs_bind; [reflexivity | exact quiet_app | | intros]
    | apply logs_ret; reflexivity
    | match goal with
      | |- logs _ (match ?x with _ => _ end) => destruct x
      end ].
Qed.
End Typed.

Section TypedTerms.
Context {S : Type}.
Variable frame : FrameApi S.
Variable self : t.

Lemma quiet_act {A} ev (f : S -> outcome A * S) :
  typed_terms [ev] = [] -> quiet (act ev f).
Proof. intros H s. rewrite act_run by exact frame. exact H. Qed.

Lemma quiet_swallow {A} (m : M S ui_call A) : quiet m -> quiet (swallow m).
Proof. intros H s. rewrite swallow_run by exact frame. cbn [log_of snd]. rewrite app_nil_r. apply H. Qed.

Ltac qstep :=
  first
    [ apply quiet_sleep | apply quiet_check_id | apply quiet_js | apply quiet_focus
    | apply quiet_strict | apply quiet_force | apply quiet_rounds | apply quiet_await
    | apply quiet_find | apply quiet_fresh | apply quiet_wait_each
    | apply quiet_act; reflexivity
    | apply quiet_swallow
    | apply logs_bind; [reflexivity | exact quiet_app | | intros]
    | apply logs_try; [reflexivity | exact quiet_app | | intros]
    | apply logs_ret; reflexivity
    | apply logs_raise; reflexivity
    | apply logs_call; reflexivity
    | apply logs_effect; reflexivity
    | apply logs_emit; reflexivity
    | match goal with
      | |- quiet (match ?x with _ => _ end) => destruct x
      | |- quiet (let (_, _) := ?x in _) => destruct x
      | |- logs _ (match ?x with _ => _ end) => destruct x
      | |- logs _ (let (_, _) := ?x in _) => destruct x
      end ].

Lemma within_quiet {A} ts (m : M S ui_call A) : quiet m -> within ts m.
Proof. intros H s. rewrite (H s). apply Subseq_nil. Qed.

Lemma within_bind {A B} ts1 ts2 (m : M S ui_call A) (k : A -> M S ui_call B) :
  within ts1 m -> (forall a, within ts2 (k a)) -> within (ts1 ++ ts2) (bind m k).
Proof.
  intros Hm Hk s. rewrite log_bind, typed_app. apply Subseq_app; [apply Hm|].
  destruct (result_of (m s)); [apply Hk | apply Subseq_nil].
Qed.

Lemma within_try {A} ts1 ts2 (m : M S ui_call A) (h : exn -> M S ui_call A) :
  within ts1 m -> (forall e, within ts2 (h e)) -> within (ts1 ++ ts2) (try_except m h).
Proof.
  intros Hm Hh s. rewrite log_try, typed_app. apply Subseq_app; [apply Hm|].
  destruct (result_of (m s)); [apply Subseq_nil | apply Hh].
Qed.

Lemma within_type {A} loc term (f : S -> outcome A * S) :
  within [term] (act (PressSequentially loc term) f).
Proof. intros s. rewrite act_run by exact frame. apply Subseq_refl. Qed.

Ltac wstep :=
  match goal with
  | |- within _ (bind (act (PressSequentially _ ?t) _) _) =>
      change [t] with ([t] ++ []); apply within_bind;
      [ apply within_type | intros; apply within_quiet; repeat qstep ]
  | |- within ?ts (bind _ _) =>
      change ts with ([] ++ ts); apply within_bind;
      [ apply within_quiet; repeat qstep | intros ]
  | |- within _ (match ?x with _ => _ end) => destruct x
  | |- within _ (ret _) => apply within_quiet; repeat qstep
  end.

(** One pass types its term at most once, and nothing else. *)
Lemma try_term_typed raw term : within [term] (try_term frame raw term).
Proof.
  unfold try_term, _fresh_org_input, _find_org_combobox_input.
  repeat wstep.
Qed.

Lemma try_terms_typed raw terms :
  within (filter long_enough terms) (try_terms frame raw terms).
Proof.
  induction terms as [|term rest IH]; cbn [try_terms filter].
  - apply within_quiet. repeat qstep.
  - unfold long_enough at 1. destruct (String.length term <? 2)%nat; cbn [negb]; [exact IH|].
    change (term :: filter long_enough rest) with ([term] ++ filter long_enough rest).
    apply within_bind.
    + change [term] with ([term] ++ []). apply within_try; [apply try_term_typed|].
      intros e. apply within_quiet. repeat qstep.
    + intros [|]; [exact IH | apply within_quiet; repeat qstep].
Qed.

Lemma fill_org_typed org_name :
  within (filter long_enough (search_terms org_name))
         (fill_org_and_select_first frame self org_name).
Proof.
  unfold fill_org_and_select_first, _is_org_already_selected, _wait_any_selector,
    conclude.
  wstep. wstep; [wstep|].
  wstep. wstep. wstep; [|wstep].
  cbv zeta.
  rewrite <- (app_nil_r (filter _ _)).
  apply within_bind; [apply try_terms_typed|].
  intros _. apply within_quiet. repeat qstep.
Qed.
End TypedTerms.

Section Rounds.
Context {S : Type}.
Variable frame : FrameApi S.
Variable menu : string.

Lemma marks_app a b : marks menu (a ++ b) = marks menu a ++ marks menu b.
Proof. apply flat_map_app. Qed.

Lemma markless_app (a b : list ui_call) :
  marks menu a = [] -> marks menu b = [] -> marks menu (a ++ b) = [].
Proof. intros Ha Hb. rewrite marks_app, Ha, Hb. reflexivity. Qed.

Lemma silent_app (a b : list ui_call) : a = [] -> b = [] -> a ++ b = [].
Proof. intros -> ->. reflexivity. Qed.

Ltac sgo := unfold silent; logs_go ltac:(reflexivity) ltac:(exact silent_app).

Ltac tgo :=
  repeat first
    [ apply total_ret | apply total_emit | apply total_effect
    | apply total_try; intros
    | apply total_bind; [|intros]
    | match goal with
      | |- total (match ?x with _ => _ end) => destruct x
      end ].

Lemma check_candidates_silent cands : silent (check_candidates frame cands).
Proof. induction cands as [|c r IH]; cbn [check_candidates]; sgo. exact IH. Qed.

Lemma check_candidates_total cands : total (check_candidates frame cands).
Proof. induction cands as [|c r IH]; cbn [check_candidates]; tgo. exact IH. Qed.

Lemma check_spec s :
  exists r s1, _check_org_id_filled frame s = (Ok r, s1, [IdCheck r]).
Proof.
  unfold _check_org_id_filled. unfold bind at 1.
  destruct (total_run (check_candidates frame org_id_candidates) s
              (check_candidates_total _)) as (r & E).
  rewrite E, (check_candidates_silent _ s). clear E.
  set (s1 := state_of _). clearbody s1.
  match goal with |- context [bind ?m _ s1] =>
    assert (T : total m) by (destruct r; tgo);
    assert (Z : silent m) by (destruct r; sgo) end.
  unfold bind at 1.
  match goal with |- context [bind ?m _ s1] => fail | _ => idtac end.
  match type of T with total ?m =>
    destruct (total_run m s1 T) as (r' & E'); rewrite E', (Z s1); clear E' end.
  simpl. eexists _, _. reflexivity.
Qed.

Lemma sleep_spec q s :
  exists s1 l, _sleep frame q s = (Ok tt, s1, l) /\ marks menu l = [].
Proof.
  unfold _sleep. destruct (Qle_bool q 0).
  - eexists _, _. split; reflexivity.
  - eexists _, _. split; reflexivity.
Qed.

Lemma markless_sleep q : markless menu (_sleep frame q).
Proof. intros s. destruct (sleep_spec q s) as (s1 & l & E & Hl). rewrite E. exact Hl. Qed.

Lemma keyboard_spec s :
  exists s1 l,
    keyboard_strategy frame s = (Ok tt, s1, l)
    /\ keyboard_marks (marks menu l)
    /\ match keyboard_press frame "ArrowDown" s with
       | (Ok _, _) => l = [KeyboardPress "ArrowDown"; Sleep 0.15; KeyboardPress "Enter"]
       | (Raise _, _) => l = [KeyboardPress "ArrowDown"]
       end.
Proof.
  unfold keyboard_strategy. rewrite swallow_run by exact frame.
  eexists _, _. split; [reflexivity|].
  rewrite app_nil_r, log_bind, act_run by exact frame.
  cbn [log_of result_of state_of fst snd].
  destruct (keyboard_press frame "ArrowDown" s) as [[[]|e] s1]; cbn [fst snd].
  - assert (Z : _sleep frame 0.15 s1
                = (Ok tt, asyncio_sleep frame 0.15 s1, [Sleep 0.15])) by reflexivity.
    rewrite log_bind, Z. cbn [log_of result_of state_of fst snd].
    rewrite act_run by exact frame. cbn [log_of snd app].
    split; [left; reflexivity | reflexivity].
  - split; [right; reflexivity | reflexivity].
Qed.

Lemma append_eqb (p a b : string) :
  String.eqb (p ++ a) (p ++ b) = String.eqb a b.
Proof. induction p as [|c p IH]; simpl; [reflexivity|]. rewrite Ascii.eqb_refl. exact IH. Qed.

Lemma try_js_run sel s :
  exists r s1, _try_select_org_option_js frame sel s = (Ok r, s1, [JsClick sel]).
Proof.
  unfold _try_select_org_option_js, try_except. rewrite act_run by exact frame.
  destruct (evaluate_click frame sel s) as [[b|e] s1]; simpl; eexists _, _; reflexivity.
Qed.

Lemma pointer_spec s :
  exists s1 l,
    pointer_strategy frame menu s = (Ok tt, s1, l) /\ pointer_marks (marks menu l).
Proof.
  unfold pointer_strategy. rewrite swallow_run by exact frame.
  eexists _, _. split; [reflexivity|].
  rewrite app_nil_r, log_bind, marks_app.
  destruct (try_js_run (menu ++ " [role='option']") s) as (r & s1 & E). rewrite E.
  cbn [log_of result_of state_of fst snd marks flat_map mark_of app].
  rewrite String.eqb_refl. cbn [app].
  destruct (negb r); [|left; reflexivity].
  destruct (try_js_run (menu ++ " div[class*='option']") s1) as (r2 & s2 & E2). rewrite E2.
  cbn [log_of snd marks flat_map mark_of app].
  rewrite append_eqb, String.eqb_refl. right. reflexivity.
Qed.

(** The landmarks of the selection loop. *)
Lemma selection_rounds_shape n : forall s,
  rounds_shape n (marks menu (log_of (selection_rounds frame menu n s))).
Proof.
  induction n as [|n IH]; intros s; cbn [selection_rounds].
  - apply rs_none.
  - rewrite log_bind.
    destruct (keyboard_spec s) as (s1 & l1 & E1 & M1 & _). rewrite E1.
    cbn [log_of result_of state_of fst snd]. rewrite marks_app.
    rewrite log_bind.
    destruct (sleep_spec 0.25 s1) as (s2 & l2 & E2 & M2). rewrite E2.
    cbn [log_of result_of state_of fst snd]. rewrite marks_app, M2.
    rewrite log_bind.
    destruct (check_spec s2) as (r3 & s3 & E3). rewrite E3.
    cbn [log_of result_of state_of fst snd]. rewrite marks_app.
    destruct r3 as [v|]; cbn [marks flat_map mark_of app].
    + apply rs_keyboard_hit. exact M1.
    + rewrite log_bind.
      destruct (pointer_spec s3) as (s4 & l4 & E4 & M4). rewrite E4.
      cbn [log_of result_of state_of fst snd]. rewrite marks_app.
      rewrite log_bind.
      destruct (sleep_spec 0.35 s4) as (s5 & l5 & E5 & M5). rewrite E5.
      cbn [log_of result_of state_of fst snd]. rewrite marks_app, M5.
      rewrite log_bind.
      destruct (check_spec s5) as (r6 & s6 & E6). rewrite E6.
      cbn [log_of result_of state_of fst snd]. rewrite marks_app.
      destruct r6 as [v|]; cbn [marks flat_map mark_of app].
      * apply rs_pointer_hit; assumption.
      * apply rs_next; [assumption | assumption | apply IH].
Qed.

(** An identifier check that finds an identifier ends the loop at its
    first check, right after the keyboard strategy. *)
Lemma rounds_stop_at_first_check n :
  (forall s, exists v, result_of (_check_org_id_filled frame s) = Ok (Some v)) ->
  forall s, exists kb,
    keyboard_marks kb
    /\ marks menu (log_of (selection_rounds frame menu (Datatypes.S n) s))
       = kb ++ [MCheck true].
Proof.
  intros H s. cbn [selection_rounds].
  rewrite log_bind.
  destruct (keyboard_spec s) as (s1 & l1 & E1 & M1 & _). rewrite E1.
  cbn [log_of result_of state_of fst snd]. rewrite marks_app.
  rewrite log_bind.
  destruct (sleep_spec 0.25 s1) as (s2 & l2 & E2 & M2). rewrite E2.
  cbn [log_of result_of state_of fst snd]. rewrite marks_app, M2.
  rewrite log_bind.
  destruct (check_spec s2) as (r3 & s3 & E3). destruct (H s2) as (v & Hv).
  rewrite E3 in Hv |- *. cbn [result_of fst] in Hv. inversion Hv; subst r3.
  cbn [log_of result_of state_of fst snd marks flat_map mark_of app].
  exists (marks menu l1). split; [exact M1 | reflexivity].
Qed.

(** What the shape says. *)
Ltac shape_cases :=
  repeat match goal with
         | H : keyboard_marks _ |- _ => destruct H as [->| ->]
         | H : pointer_marks _ |- _ => destruct H as [->| ->]
         end.

Lemma shape_rounds n ms : rounds_shape n ms -> (rounds ms <= n)%nat.
Proof. induction 1; shape_cases; unfold rounds in *; simpl; lia. Qed.

Lemma shape_alternating n ms : rounds_shape n ms -> alternating true (strategies ms) = true.
Proof. induction 1; shape_cases; simpl; auto. Qed.

Lemma shape_hit_only_last n ms : rounds_shape n ms -> hit_only_last ms = true.
Proof. induction 1; shape_cases; simpl; auto. Qed.

Lemma hit_only_last_stops pre : forall ms post,
  hit_only_last ms = true -> ms = pre ++ MCheck true :: post -> post = [].
Proof.
  induction pre as [|a pre IH]; intros ms post H E; subst ms; simpl in H.
  - destruct post; [reflexivity|discriminate].
  - destruct a as [| | | |[|]]; try (eapply IH; [exact H|reflexivity]).
    destruct pre; discriminate.
Qed.

Lemma shape_stops n ms : rounds_shape n ms ->
  forall pre post, ms = pre ++ MCheck true :: post -> post = [].
Proof.
  intros H pre post E. eapply hit_only_last_stops; [|exact E].
  eapply shape_hit_only_last; exact H.
Qed.
End Rounds.

Lemma Subseq_In {A} (l1 l2 : list A) : Subseq l1 l2 -> forall x, In x l1 -> In x l2.
Proof.
  induction 1; intros y Hy; simpl in *.
  - contradiction.
  - right. auto.
  - destruct Hy as [->|Hy]; [left; reflexivity | right; auto].
Qed.

Lemma shape_early n ms :
  rounds_shape n ms -> rounds ms = n \/ exists pre, ms = pre ++ [MCheck true].
Proof.
  induction 1 as [|n kb K|n kb pt K P|n kb pt rest K P H IH].
  - left. reflexivity.
  - right. exists kb. reflexivity.
  - right. exists (kb ++ MCheck false :: pt). rewrite <- app_assoc. reflexivity.
  - destruct IH as [IH|[pre IH]].
    + left. destruct K as [->| ->]; destruct P as [->| ->];
        unfold rounds in *; simpl; rewrite IH; reflexivity.
    + right. exists (kb ++ MCheck false :: pt ++ MCheck false :: pre).
      rewrite IH, <- !app_assoc. cbn [app]. rewrite <- !app_assoc. reflexivity.
Qed.

Section Reports.
Context {S : Type}.
Variable frame : FrameApi S.

(** The first loop of the identifier check only reports the value of a
    candidate field when that value has more than 5 characters. *)
Lemma check_candidates_reports cands : forall s v s' l,
  check_candidates frame cands s = (Ok (Some v), s', l) ->
  exists css s0 raw,
    In css cands
    /\ fst (get_attribute frame css "value" s0) = Ok (Some raw)
    /\ v = strip raw
    /\ (5 < String.length raw)%nat.
Proof.
  induction cands as [|css rest IH]; intros s v s' l; cbn [check_candidates].
  - intros X. inversion X.
  - unfold bind at 1.
    match goal with |- context [try_except ?m ?h s] =>
      destruct (try_except m h s) as [[[r|e] s1] l1] eqn:T end.
    + destruct r as [v'|].
      * intros X. inversion X; subst. clear X.
        unfold try_except, bind, call, ret in T.
        destruct (count frame css s) as [[n|e] s0]; cbn beta iota in T; [|discriminate].
        destruct (0 <? n)%nat; cbn beta iota in T; [|discriminate].
        destruct (get_attribute frame css "value" s0) as [[[raw|]|e] s2] eqn:G;
          cbn beta iota in T; try discriminate.
        destruct (nonempty raw && nonempty (strip raw) && (5 <? String.length raw)%nat)
          eqn:C; cbn beta iota in T; [|discriminate].
        inversion T; subst. exists css, s0, raw.
        apply andb_true_iff in C. destruct C as [_ C]. apply Nat.ltb_lt in C.
        rewrite G. repeat split; [left; reflexivity | exact C].
      * destruct (check_candidates frame rest s1) as [[r2 s2] l2] eqn:K.
        intros X. inversion X; subst.
        destruct (IH _ _ _ _ K) as (c & s0 & raw & I & G & E & L).
        exists c, s0, raw. repeat split; auto. right. exact I.
    + intros X. inversion X.
Qed.

(** The identifier check reports either such a value or a non-empty
    [data-selected-id] attribute of the organization input. *)
Lemma check_reports s v s' l :
  _check_org_id_filled frame s = (Ok (Some v), s', l) ->
  (exists css s0 raw,
      In css org_id_candidates
      /\ fst (get_attribute frame css "value" s0) = Ok (Some raw)
      /\ v = strip raw
      /\ (5 < String.length raw)%nat)
  \/ (exists s0,
        fst (get_attribute frame "#sid-college-name, #sid-college-name"
               "data-selected-id" s0) = Ok (Some v)
        /\ v <> "").
Proof.
  unfold _check_org_id_filled. unfold bind at 1.
  destruct (check_candidates frame org_id_candidates s) as [[[r|e] s1] l1] eqn:K;
    [|intros X; inversion X].
  destruct r as [v'|].
  - pose proof (check_candidates_reports _ _ _ _ _ K) as R.
    unfold bind, ret, emit. cbn. intros X. inversion X; subst. left. exact R.
  - unfold bind, try_except, call, ret, emit.
    destruct (count frame "#sid-college-name, #sid-college-name" s1) as [[n|e] s0];
      cbn beta iota zeta; [|intros X; inversion X].
    destruct (0 <? n)%nat; cbn beta iota zeta; [|intros X; inversion X].
    destruct (get_attribute frame "#sid-college-name, #sid-college-name"
                "data-selected-id" s0) as [[[[|c w]|]|e] s2] eqn:G;
      cbn beta iota zeta; intros X; inversion X; subst.
    right. exists s0. rewrite G. split; [reflexivity | discriminate].
Qed.
(** A candidate field that reads a value of more than 5 characters,
    not blank, whenever it is read, is reported. *)
Lemma check_candidates_finds cands css raw :
  In css cands ->
  (forall s0, exists n, fst (count frame css s0) = Ok n /\ (0 < n)%nat) ->
  (forall s0, fst (get_attribute frame css "value" s0) = Ok (Some raw)) ->
  (5 < String.length raw)%nat -> strip raw <> "" ->
  forall s, exists v, result_of (check_candidates frame cands s) = Ok (Some v).
Proof.
  intros I Hc Hg Len Ne.
  induction cands as [|c rest IH]; intros s; [destruct I|].
  cbn [check_candidates]. rewrite result_bind.
  match goal with |- context [try_except ?m ?h s] =>
    assert (T : total (try_except m h)) by (apply total_try; intros; apply total_ret);
    destruct (total_run _ s T) as (r & R) end.
  rewrite R.
  destruct r as [v|]; [exists v; reflexivity|].
  destruct I as [->|I]; [|apply (IH I)].
  exfalso. revert R.
  unfold try_except, bind, call, ret, result_of.
  destruct (Hc s) as (n & Cn & Pos).
  destruct (count frame css s) as [o s0]. cbn [fst] in Cn. subst o. cbn [fst snd app].
  apply Nat.ltb_lt in Pos. rewrite Pos.
  specialize (Hg s0).
  destruct (get_attribute frame css "value" s0) as [o s1]. cbn [fst] in Hg. subst o.
  cbn [fst snd app].
  assert (N1 : nonempty raw = true) by (destruct raw; [simpl in Len; lia | reflexivity]).
  assert (N2 : nonempty (strip raw) = true) by (destruct (strip raw); [congruence | reflexivity]).
  apply Nat.ltb_lt in Len. rewrite N1, N2, Len. cbn. discriminate.
Qed.

Lemma check_candidates_returns cands : forall s,
  exists r, result_of (check_candidates frame cands s) = Ok r.
Proof.
  induction cands as [|c rest IH]; intros s; cbn [check_candidates].
  - eexists; reflexivity.
  - rewrite result_bind.
    match goal with |- context [try_except ?m ?h s] =>
      assert (T : total (try_except m h)) by (apply total_try; intros; apply total_ret);
      destruct (total_run _ s T) as (r & R) end.
    rewrite R. destruct r as [v|]; [eexists; reflexivity | apply IH].
Qed.

Lemma check_finds_hidden css raw :
  In css org_id_candidates ->
  (forall s0, exists n, fst (count frame css s0) = Ok n /\ (0 < n)%nat) ->
  (forall s0, fst (get_attribute frame css "value" s0) = Ok (Some raw)) ->
  (5 < String.length raw)%nat -> strip raw <> "" ->
  forall s, exists v, result_of (_check_org_id_filled frame s) = Ok (Some v).
Proof.
  intros I Hc Hg Len Ne s.
  destruct (check_candidates_finds _ _ _ I Hc Hg Len Ne s) as (v & E).
  exists v. unfold _check_org_id_filled. rewrite result_bind, E.
  reflexivity.
Qed.

(** So is a [data-selected-id] attribute of the organization input
    that is not empty whenever it is read. *)
Lemma check_finds_attribute v :
  (forall s0, exists n,
      fst (count frame "#sid-college-name, #sid-college-name" s0) = Ok n /\ (0 < n)%nat) ->
  (forall s0, fst (get_attribute frame "#sid-college-name, #sid-college-name"
                     "data-selected-id" s0) = Ok (Some v)) ->
  v <> "" ->
  forall s, exists v', result_of (_check_org_id_filled frame s) = Ok (Some v').
Proof.
  intros Hc Hg Ne s.
  unfold _check_org_id_filled. rewrite result_bind.
  destruct (check_candidates_returns org_id_candidates s) as (r & R). rewrite R.
  destruct r as [v'|]; [exists v'; reflexivity|].
  exists v. rewrite result_bind.
  set (s1 := state_of _). clearbody s1.
  unfold try_except, bind at 1, call at 1.
  destruct (Hc s1) as (n & Cn & Pos).
  destruct (count frame "#sid-college-name, #sid-college-name" s1) as [o s2].
  cbn [fst] in Cn. subst o. cbn [fst snd app].
  apply Nat.ltb_lt in Pos. rewrite Pos.
  unfold bind at 1, call at 1. specialize (Hg s2).
  destruct (get_attribute frame "#sid-college-name, #sid-college-name"
              "data-selected-id" s2) as [o s3].
  cbn [fst] in Hg. subst o. cbn [fst snd app].
  destruct v as [|c v]; [congruence|]. reflexivity.
Qed.
End Reports.

Section Pass.
Context {S : Type}.
Variable frame : FrameApi S.

Lemma gestures_app a b : gestures (a ++ b) = gestures a ++ gestures b.
Proof. apply filter_app. Qed.

Lemma gestureless_app menu (a b : list ui_call) :
  gestures (marks menu a) = [] -> gestures (marks menu b) = [] ->
  gestures (marks menu (a ++ b)) = [].
Proof. intros Ha Hb. rewrite marks_app, gestures_app, Ha, Hb. reflexivity. Qed.

Lemma markless_gestureless {A} menu (m : M S ui_call A) :
  markless menu m -> gestureless menu m.
Proof. intros H s. rewrite (H s). reflexivity. Qed.

Lemma pass_quiet n menu l : marks menu l = [] -> pass_shape n menu l.
Proof.
  intros H. exists l, [], []. rewrite !app_nil_r.
  split; [reflexivity|]. split; [exact H|]. split; [left; reflexivity | reflexivity].
Qed.

Lemma pass_prefix n menu a l :
  marks menu a = [] -> pass_shape n menu l -> pass_shape n menu (a ++ l).
Proof.
  intros H (pre & mid & post & E & P & M & G).
  exists (a ++ pre), mid, post.
  split; [rewrite E, app_assoc; reflexivity|].
  split; [rewrite marks_app, H, P; reflexivity|]. split; assumption.
Qed.

(** A step before the menu is known. *)
Lemma pass_bind {A B} n (m : M S ui_call A) (k : A -> M S ui_call B) :
  (forall menu, markless menu m) ->
  (forall a s, exists menu, pass_shape n menu (log_of (k a s))) ->
  forall s, exists menu, pass_shape n menu (log_of (bind m k s)).
Proof.
  intros Hm Hk s. rewrite log_bind.
  destruct (result_of (m s)) as [a|e].
  - destruct (Hk a (state_of (m s))) as (menu & P).
    exists menu. apply pass_prefix; [apply Hm | exact P].
  - exists "". rewrite app_nil_r. apply pass_quiet. apply Hm.
Qed.

Lemma pass_ret {A} n (a : A) (s : S) :
  exists menu, pass_shape n menu (log_of (@ret S ui_call A a s)).
Proof. exists "". apply pass_quiet. reflexivity. Qed.

Ltac mgo :=
  unfold markless;
  logs_go ltac:(reflexivity) ltac:(apply markless_app).

Lemma markless_find menu cands : markless menu (find_first_visible frame cands).
Proof.
  induction cands as [|c r IH]; cbn [find_first_visible]; [mgo|].
  unfold present_and_visible. mgo. exact IH.
Qed.

Lemma markless_act {A} menu ev (f : S -> outcome A * S) :
  mark_of menu ev = [] -> markless menu (act ev f).
Proof.
  intros H s. rewrite act_run by exact frame.
  cbn [log_of snd marks flat_map]. rewrite H. reflexivity.
Qed.

Lemma gestureless_check menu : gestureless menu (_check_org_id_filled frame).
Proof.
  intros s. destruct (check_spec frame s) as (r & s1 & E). rewrite E.
  destruct r; reflexivity.
Qed.

Lemma gestureless_sleep menu q : gestureless menu (_sleep frame q).
Proof. apply markless_gestureless, markless_sleep. Qed.

Lemma gestureless_act {A} menu ev (f : S -> outcome A * S) :
  gestures (mark_of menu ev) = [] -> gestureless menu (act ev f).
Proof.
  intros H s. rewrite act_run by exact frame.
  cbn [log_of snd marks flat_map]. rewrite app_nil_r. exact H.
Qed.

Ltac gstep menu :=
  first
    [ apply gestureless_check | apply gestureless_sleep
    | apply gestureless_act; reflexivity
    | apply markless_gestureless; apply markless_find
    | apply logs_bind; [reflexivity | apply gestureless_app | | intros]
    | apply logs_try; [reflexivity | apply gestureless_app | | intros]
    | apply logs_ret; reflexivity
    | apply logs_raise; reflexivity
    | apply logs_call; reflexivity
    | apply logs_effect; reflexivity
    | match goal with
      | |- gestureless _ (match ?x with _ => _ end) => destruct x
      | |- gestureless _ (let (_, _) := ?x in _) => destruct x
      | |- logs _ (match ?x with _ => _ end) => destruct x
      | |- logs _ (let (_, _) := ?x in _) => destruct x
      end ].

Lemma gestureless_await menu n : gestureless menu (await_org_id frame n).
Proof.
  induction n as [|n IH]; cbn [await_org_id]; unfold gestureless in *.
  - apply logs_ret. reflexivity.
  - apply logs_bind; [reflexivity | apply gestureless_app | apply gestureless_check|].
    intros [v|]; [apply logs_ret; reflexivity|].
    apply logs_bind; [reflexivity | apply gestureless_app | apply gestureless_sleep|].
    intros _. exact IH.
Qed.

Lemma gestureless_strict menu : gestureless menu (_check_org_selected_strict frame).
Proof. unfold _check_org_selected_strict, gestureless. repeat gstep menu. Qed.

Lemma gestureless_force menu full_text :
  gestureless menu (_force_select_org_by_exact_text frame full_text).
Proof.
  unfold _force_select_org_by_exact_text, _fresh_org_input, _find_org_combobox_input,
    _safe_focus_input, swallow, gestureless.
  repeat gstep menu.
Qed.

(** The rounds and what follows them, for the menu in use. *)
Lemma pass_core {B} menu (b : bool) (k : unit -> M S ui_call B) s :
  (forall a, gestureless menu (k a)) ->
  pass_shape 4 menu
    (log_of (bind (if b
                   then (selection_rounds frame menu 4 ;;;
                         swallow (act (KeyboardPress "Tab") (keyboard_press frame "Tab")))%m
                   else ret tt) k s)).
Proof.
  intros Hk. rewrite log_bind. destruct b.
  - rewrite log_bind.
    exists [], (log_of (selection_rounds frame menu 4 s)).
    eexists. cbn [app]. rewrite <- app_assoc.
    split; [reflexivity|]. split; [reflexivity|].
    split; [right; apply selection_rounds_shape|].
    apply gestureless_app.
    + destruct (result_of (selection_rounds frame menu 4 s)); [|reflexivity].
      rewrite swallow_run by exact frame. cbn [log_of snd].
      rewrite act_run by exact frame. reflexivity.
    + destruct (result_of _); [apply Hk | reflexivity].
  - exists [], []. eexists. cbn [app log_of ret snd].
    split; [reflexivity|]. split; [reflexivity|]. split; [left; reflexivity|].
    cbn [result_of fst state_of]. apply Hk.
Qed.

(** One pass of the loop over the terms. *)
Lemma try_term_shape raw term s :
  exists menu, pass_shape 4 menu (log_of (try_term frame raw term s)).
Proof.
  unfold try_term, _fresh_org_input, _find_org_combobox_input.
  revert s. apply pass_bind; [intros; apply markless_find|].
  intros [loc|]; [|apply pass_ret].
  apply pass_bind; [intros; unfold _safe_focus_input; mgo|]. intros _.
  apply pass_bind; [intros; apply markless_act; reflexivity|]. intros _.
  apply pass_bind; [intros; apply markless_act; reflexivity|]. intros _.
  apply pass_bind; [intros; apply markless_act; reflexivity|]. intros _.
  apply pass_bind; [intros; apply markless_sleep|]. intros _.
  apply pass_bind; [intros; apply markless_act; reflexivity|]. intros _.
  apply pass_bind; [intros; mgo|]. intros menu_id.
  cbv zeta.
  apply pass_bind; [intros; unfold act; mgo|]. intros visible.
  destruct (negb visible); [apply pass_ret|].
  apply pass_bind; [intros; mgo|]. intros n s.
  eexists. apply pass_core. intros _.
  unfold gestureless.
  apply logs_bind; [reflexivity | apply gestureless_app | apply gestureless_await|].
  intros _.
  apply logs_bind; [reflexivity | apply gestureless_app | apply gestureless_strict|].
  intros [[ok reason] txt]. destruct ok; [|apply logs_ret; reflexivity].
  apply logs_bind; [reflexivity | apply gestureless_app | apply gestureless_check|].
  intros filled.
  apply logs_bind; [reflexivity | apply gestureless_app | | intros; apply logs_ret; reflexivity].
  destruct filled as [v|]; [apply logs_ret; reflexivity|].
  unfold swallow.
  apply logs_try; [reflexivity | apply gestureless_app | | intros; apply logs_ret; reflexivity].
  apply logs_bind; [reflexivity | apply gestureless_app | apply gestureless_force|].
  intros; apply logs_ret; reflexivity.
Qed.

(** The arrow-down presses of a log do not depend on the menu. *)
Lemma rounds_any_menu m1 m2 (l : list ui_call) :
  rounds (marks m1 l) = rounds (marks m2 l).
Proof.
  unfold rounds. induction l as [|c l IH]; [reflexivity|].
  cbn [marks flat_map]. rewrite !filter_app, !length_app.
  unfold marks in IH. rewrite IH. f_equal.
  destruct c; try reflexivity. cbn [mark_of].
  destruct (String.eqb selector _); [|destruct (String.eqb selector _)];
    destruct (String.eqb selector _); try reflexivity;
    destruct (String.eqb selector _); reflexivity.
Qed.

Lemma gestureless_rounds ms : gestures ms = [] -> rounds ms = 0%nat.
Proof.
  unfold rounds, gestures. induction ms as [|m ms IH]; [reflexivity|].
  destruct m; simpl; try discriminate. exact IH.
Qed.

Lemma pass_rounds n menu l : pass_shape n menu l -> (rounds (marks menu l) <= n)%nat.
Proof.
  intros (pre & mid & post & E & P & M & G). subst l.
  rewrite !marks_app. unfold rounds. rewrite !filter_app, !length_app.
  fold (rounds (marks menu pre)). fold (rounds (marks menu mid)).
  fold (rounds (marks menu post)).
  rewrite P, (gestureless_rounds _ G).
  destruct M as [->|M]; [unfold rounds; simpl; lia|].
  pose proof (shape_rounds _ _ M). unfold rounds at 1. simpl. lia.
Qed.
End Pass.


(** C7.  The search terms derived from an organization name are, in
    this order: the trailing segment when the name is a hyphenated
    compound with more than one non-empty segment; the name with hyphens
    replaced by spaces, when it is not empty and not already there; the
    raw name, when it is not empty and not already there.  No term is
    repeated.  Here the raw name is the name without its leading and
    trailing whitespace; its segments are what is left, stripped and
    not empty, of the parts between its hyphens; and the name with
    hyphens replaced by spaces has a space wherever the raw name has a
    hyphen and the character of the raw name elsewhere, and is stripped
    again.  When the terms are tried, the terms typed into the
    organization input are among those of at least 2 characters, in
    this order, so that a shorter term is never typed.  For the name
    "California State University-Fullerton" the terms are "Fullerton",
    "California State University Fullerton" and the name itself; for
    "A-B" they are "B", "A B" and "A-B", of which "B" is never typed. *)
Theorem search_terms_order_and_skip :
  forall org_name : string,
    (exists p1 p2 p3,
        search_terms org_name = p1 ++ p2 ++ p3
        /\ p1 = (if compound org_name then [trailing_segment org_name] else [])
        /\ p2 = (if nonempty (spaced_name org_name)
                    && negb (mem_str (spaced_name org_name) p1)
                 then [spaced_name org_name] else [])
        /\ p3 = (if nonempty (raw_name org_name)
                    && negb (mem_str (raw_name org_name) (p1 ++ p2))
                 then [raw_name org_name] else []))
    /\ NoDup (search_terms org_name)
    /\ Subseq (search_terms org_name)
         [trailing_segment org_name; spaced_name org_name; raw_name org_name]
    /\ (forall (S : Type) (frame : FrameApi S) (self : t) (s : S),
          let typed :=
            typed_terms (log_of (fill_org_and_select_first frame self org_name s)) in
          Subseq typed (filter long_enough (search_terms org_name))
          /\ forall term, In term typed -> (2 <= String.length term)%nat)
    /\ (exists l r,
          org_name = (l ++ raw_name org_name ++ r)%string
          /\ forallb py_isspace (list_ascii_of_string l) = true
          /\ forallb py_isspace (list_ascii_of_string r) = true
          /\ (forall c rest, raw_name org_name = String c rest -> py_isspace c = false)
          /\ (forall pre c, raw_name org_name = (pre ++ String c "")%string ->
                py_isspace c = false))
    /\ (exists parts,
          String.concat "-" parts = raw_name org_name
          /\ Forall (fun p => ~ In "-"%char (list_ascii_of_string p)) parts
          /\ compound org_name
             = (1 <? List.length (filter nonempty (map strip parts)))%nat
          /\ trailing_segment org_name = last (filter nonempty (map strip parts)) "")
    /\ (exists spaced,
          spaced_name org_name = strip spaced
          /\ String.length spaced = String.length (raw_name org_name)
          /\ forall i,
               String.get i spaced
               = match String.get i (raw_name org_name) with
                 | Some "-"%char => Some " "%char
                 | other => other
                 end)
    /\ search_terms "California State University-Fullerton"
       = ["Fullerton"; "California State University Fullerton";
          "California State University-Fullerton"]
    /\ search_terms " Acme University " = ["Acme University"]
    /\ search_terms "a - b" = ["b"; "a   b"; "a - b"]
    /\ search_terms "x-" = ["x"; "x-"]
    /\ search_terms "-" = ["-"]
    /\ search_terms "" = []
    /\ search_terms "A-B" = ["B"; "A B"; "A-B"]
    /\ typed_terms
         (log_of (fill_org_and_select_first (SimDoc.frame 99 "110565") SimDoc.filler
                    "A-B" SimDoc.blank))
       = ["A B"; "A-B"].
Proof.
  intros org_name.
  split; [apply search_terms_picks|].
  split; [apply search_terms_nodup|].
  split; [apply search_terms_order|].
  split.
  { intros S frame self s typed.
    assert (W : Subseq typed (filter long_enough (search_terms org_name)))
      by (apply fill_org_typed).
    split; [exact W|].
    intros term I. apply (Subseq_In _ _ W) in I. apply filter_In in I.
    destruct I as [_ L]. unfold long_enough in L.
    apply negb_true_iff, Nat.ltb_ge in L. exact L. }
  split; [apply strip_spec|].
  split.
  { exists (split "-" (raw_name org_name)).
    split; [apply split_concat|]. split; [apply split_parts|].
    split; reflexivity. }
  split.
  { exists (replace "-" " " (raw_name org_name)).
    split; [reflexivity|]. split; [apply replace_length|].
    intros i. rewrite replace_get.
    destruct (String.get i (raw_name org_name)) as [c|]; [|reflexivity].
    destruct (Ascii.eqb_spec c "-") as [->|N]; [reflexivity|].
    destruct c as [[] [] [] [] [] [] [] []]; try reflexivity. congruence. }
  repeat split; vm_compute; reflexivity.
Qed.

(** C6, as amended.  For one search term the protocol makes at most 4
    selection rounds: its log is the calls up to the menu, which are no
    part of a round; then, when the menu shows options, the rounds; then
    calls among which there is no press and no synthetic click of a
    round.  Each round is the keyboard strategy (arrow-down, a pause,
    then enter; arrow-down alone when it raised), an identifier check,
    the synthetic pointer event strategy against the first option node
    and a second identifier check; the loop stops at the first check
    that reports an identifier, and only then stops before its 4th
    round.  The check reports an identifier only for a hidden field
    whose value has more than 5 characters or for a non-empty
    [data-selected-id] attribute, and it does report one when such a
    field, or such an attribute, is there whenever it is read: the loop
    then stops at its first check.  A hidden field populated with a
    shorter value does not stop the loop.  On the simulated document
    whose hidden identifier becomes [110565] at the 3rd round, the
    protocol makes 3 rounds for its first term, types no other term,
    ends with the organization selected and does not fall back to the
    forced write. *)
Theorem selection_rounds_budget :
  forall (S : Type) (frame : FrameApi S) (raw_name term : string) (s : S),
    let log := log_of (try_term frame raw_name term s) in
    (forall menu, (rounds (marks menu log) <= 4)%nat)
    /\ (exists menu pre mid post,
          log = pre ++ mid ++ post
          /\ marks menu pre = []
          /\ gestures (marks menu post) = []
          /\ (mid = []
              \/ (rounds_shape 4 (marks menu mid)
                  /\ alternating true (strategies (marks menu mid)) = true
                  /\ (forall a b, marks menu mid = a ++ MCheck true :: b -> b = [])
                  /\ ((rounds (marks menu mid) < 4)%nat ->
                      exists a, marks menu mid = a ++ [MCheck true]))))
    /\ (forall s0,
          match keyboard_press frame "ArrowDown" s0 with
          | (Ok _, _) =>
              log_of (keyboard_strategy frame s0)
              = [KeyboardPress "ArrowDown"; Sleep 0.15; KeyboardPress "Enter"]
          | (Raise _, _) =>
              log_of (keyboard_strategy frame s0) = [KeyboardPress "ArrowDown"]
          end)
    /\ (forall s0 v s' l,
          _check_org_id_filled frame s0 = (Ok (Some v), s', l) ->
          (exists css s1 raw,
              In css org_id_candidates
              /\ fst (get_attribute frame css "value" s1) = Ok (Some raw)
              /\ v = strip raw
              /\ (5 < String.length raw)%nat)
          \/ (exists s1,
                fst (get_attribute frame "#sid-college-name, #sid-college-name"
                       "data-selected-id" s1) = Ok (Some v)
                /\ v <> ""))
    /\ (forall css raw,
          In css org_id_candidates ->
          (5 < String.length raw)%nat -> strip raw <> "" ->
          (forall s0, exists n, fst (count frame css s0) = Ok n /\ (0 < n)%nat) ->
          (forall s0, fst (get_attribute frame css "value" s0) = Ok (Some raw)) ->
          forall menu n s0,
            (exists v, result_of (_check_org_id_filled frame s0) = Ok (Some v))
            /\ exists kb,
                 keyboard_marks kb
                 /\ marks menu (log_of (selection_rounds frame menu (Datatypes.S n) s0))
                    = kb ++ [MCheck true])
    /\ (forall v,
          v <> "" ->
          (forall s0, exists n,
              fst (count frame "#sid-college-name, #sid-college-name" s0) = Ok n
              /\ (0 < n)%nat) ->
          (forall s0, fst (get_attribute frame "#sid-college-name, #sid-college-name"
                             "data-selected-id" s0) = Ok (Some v)) ->
          forall menu n s0,
            (exists v', result_of (_check_org_id_filled frame s0) = Ok (Some v'))
            /\ exists kb,
                 keyboard_marks kb
                 /\ marks menu (log_of (selection_rounds frame menu (Datatypes.S n) s0))
                    = kb ++ [MCheck true])
    /\ (let run := sim_fill 3 "110565" in
        result_of run = Ok tt
        /\ typed_terms (log_of run) = ["Fullerton"]
        /\ rounds (marks sim_menu (log_of run)) = 3%nat
        /\ marks sim_menu (log_of (sim_rounds 3 "110565" 4))
           = [MKeyboard; MEnter; MCheck false; MPointer; MCheck false;
              MKeyboard; MEnter; MCheck false; MPointer; MCheck false;
              MKeyboard; MEnter; MCheck false; MPointer; MCheck true]
        /\ result_of (_check_org_selected_strict (SimDoc.frame 3 "110565") (state_of run))
           = Ok (true, "hidden_org_id", None)
        /\ SimDoc.forced_write (log_of run) = false).
Proof.
  intros S frame raw_name term s log.
  destruct (try_term_shape frame raw_name term s) as (menu & Sh).
  fold log in Sh.
  split.
  { intros menu'. rewrite (rounds_any_menu menu' menu). exact (pass_rounds _ _ _ Sh). }
  split.
  { destruct Sh as (pre & mid & post & E & P & M & G).
    exists menu, pre, mid, post.
    split; [exact E|]. split; [exact P|]. split; [exact G|].
    destruct M as [M|M]; [left; exact M | right].
    split; [exact M|].
    split; [eapply shape_alternating; exact M|].
    split; [eapply shape_stops; exact M|].
    intros Lt. destruct (shape_early _ _ M) as [X|X]; [lia | exact X]. }
  split.
  { intros s0. destruct (keyboard_spec frame "" s0) as (s1 & l & E & _ & L).
    rewrite E. exact L. }
  split; [apply check_reports|].
  split.
  { intros css raw I Len Ne Hc Hg menu' n s0.
    pose proof (check_finds_hidden frame css raw I Hc Hg Len Ne) as F.
    split; [apply F|]. apply rounds_stop_at_first_check. exact F. }
  split.
  { intros v Ne Hc Hg menu' n s0.
    pose proof (check_finds_attribute frame v Hc Hg Ne) as F.
    split; [apply F|]. apply rounds_stop_at_first_check. exact F. }
  vm_compute. repeat split; reflexivity.
Qed.

(** C6 as stated fails: on the simulated document whose hidden
    identifier becomes [2565] at the 1st round, the hidden field is
    populated after one round, and the loop still makes all 4 rounds,
    none of its checks reporting an identifier. *)
Lemma short_identifier_does_not_stop :
  SimDoc.hidden_value 1 "2565" (state_of (sim_rounds 1 "2565" 1)) = "2565"
  /\ marks sim_menu (log_of (sim_rounds 1 "2565" 4))
     = [MKeyboard; MEnter; MCheck false; MPointer; MCheck false;
        MKeyboard; MEnter; MCheck false; MPointer; MCheck false;
        MKeyboard; MEnter; MCheck false; MPointer; MCheck false;
        MKeyboard; MEnter; MCheck false; MPointer; MCheck false]
  /\ rounds (marks sim_menu (log_of (sim_rounds 1 "2565" 4))) = 4%nat.
Proof. vm_compute. repeat split; reflexivity. Qed.

End SelectorProofs.

(* --------------------------------------------------------------------- *)
(** ** What a computation returns, and how often it makes a call *)
(* --------------------------------------------------------------------- *)

Section ReturnsFacts.
Context {S E : Type}.

Lemma returns_ret {A} (Q : A -> Prop) (a : A) : Q a -> returns Q (@ret S E A a).
Proof. intros H s b X. inversion X; subst. exact H. Qed.

Lemma returns_raise {A} (Q : A -> Prop) e : returns Q (@raise S E A e).
Proof. intros s b X. inversion X. Qed.

Lemma returns_any {A} (m : M S E A) : returns (fun _ => True) m.
Proof. intros s a _. exact I. Qed.

Lemma returns_bind {A B} (Q1 : A -> Prop) (Q : B -> Prop)
    (m : M S E A) (k : A -> M S E B) :
  returns Q1 m -> (forall a, Q1 a -> returns Q (k a)) -> returns Q (bind m k).
Proof.
  intros Hm Hk s b. unfold bind, result_of. specialize (Hm s). unfold result_of in Hm.
  destruct (m s) as [[[a|e] s1] l1]; simpl in *; [|intros X; inversion X].
  specialize (Hk a (Hm a eq_refl) s1 b). unfold result_of in Hk.
  destruct (k a s1) as [[r s2] l2]; simpl in *. exact Hk.
Qed.

Lemma returns_try {A} (Q : A -> Prop) (m : M S E A) (h : exn -> M S E A) :
  returns Q m -> (forall e, returns Q (h e)) -> returns Q (try_except m h).
Proof.
  intros Hm Hh s b. unfold try_except, result_of. specialize (Hm s). unfold result_of in Hm.
  destruct (m s) as [[[a|e] s1] l1]; simpl in *; [apply Hm|].
  specialize (Hh e s1 b). unfold result_of in Hh.
  destruct (h e s1) as [[r s2] l2]; simpl in *. exact Hh.
Qed.
End ReturnsFacts.

(** One step of a proof that every result of a computation satisfies a
    predicate, when the intermediate values do not matter; [fin] proves
    the predicate of the value returned. *)
Ltac returns_go fin :=
  repeat first
    [ apply returns_raise
    | apply returns_ret; fin
    | apply (returns_bind (fun _ => True)); [apply returns_any | intros ? _]
    | apply returns_try; [|intros]
    | match goal with
      | |- returns _ (if ?b then _ else _) => destruct b
      | |- returns _ (match ?x with _ => _ end) => destruct x
      end ].

Section RunContract.
Import VerificationOrchestrator RunLog.
Context {S Page Frame : Type}.
Variable deps : VerificationDeps S Page Frame.
Variable host : Host S Page.
Variable profile : VerificationProfile.

Ltac coherent_fin :=
  solve [ unfold coherent; cbn; repeat split; intros; try congruence; try discriminate ].

Ltac carried_fin :=
  solve [ intros ? X; first [discriminate X | inversion X; subst; coherent_fin] ].

Lemma navigate_coherent cs ps page :
  returns (fun o => forall r, o = Some r -> coherent profile r)
          (navigate deps host profile cs ps page).
Proof.
  unfold navigate, read_url_now, read_title_now, read_html_head.
  returns_go carried_fin.
Qed.

Lemma locate_coherent cs ps page :
  returns (fun x => forall r, x = inr r -> coherent profile r)
          (locate deps host profile cs ps page).
Proof.
  unfold locate, read_url_now, read_title_now, read_html_head.
  returns_go carried_fin.
Qed.

Lemma submit_gate_coherent page f data :
  returns (fun o => forall r, o = Some r -> coherent profile r)
          (submit_gate deps host profile page f data).
Proof.
  unfold submit_gate, gate_body.
  returns_go carried_fin.
Qed.

Lemma submit_and_poll_coherent page f :
  returns (coherent profile) (submit_and_poll deps host profile page f).
Proof. unfold submit_and_poll. returns_go coherent_fin. Qed.

Lemma browser_stage_coherent cs ps page :
  returns (coherent profile) (browser_stage deps host profile cs ps page).
Proof.
  unfold browser_stage.
  eapply returns_bind; [apply navigate_coherent|].
  intros [r|] H; [apply returns_ret; apply H; reflexivity|].
  apply (returns_bind (fun _ => True)); [apply returns_any | intros ? _].
  eapply returns_bind; [apply locate_coherent|].
  intros [f|r] H2; [|apply returns_ret; apply H2; reflexivity].
  apply (returns_bind (fun _ => True)); [apply returns_any | intros ? _].
  apply (returns_bind (fun _ => True)); [apply returns_any | intros data _].
  destruct (dry_run host).
  - unfold dry_run_result. returns_go coherent_fin.
  - unfold submit_stage.
    eapply returns_bind; [apply submit_gate_coherent|].
    intros [r|] H3; [apply returns_ret; apply H3; reflexivity|].
    apply submit_and_poll_coherent.
Qed.

Lemma unhandled_coherent page e : returns (coherent profile) (unhandled host profile page e).
Proof. unfold unhandled. returns_go coherent_fin. Qed.

Lemma run_coherent : returns (coherent profile) (run deps host profile).
Proof.
  unfold run.
  apply returns_try; [|intros; apply unhandled_coherent].
  apply (returns_bind (fun _ => True)); [apply returns_any | intros [cs ps] _].
  destruct (_ && _); [apply returns_ret; coherent_fin|].
  apply (returns_bind (fun _ => True)); [apply returns_any | intros ? _].
  apply (returns_bind (fun _ => True)); [apply returns_any | intros ? _].
  apply (returns_bind (fun _ => True)); [apply returns_any | intros page _].
  apply returns_try; [apply browser_stage_coherent | intros; apply unhandled_coherent].
Qed.

Lemma unhandled_total page : forall e, total (unhandled host profile page e).
Proof.
  intros e. unfold unhandled, swallow.
  apply total_bind; [|intros; apply total_ret].
  apply total_try. intros. apply total_ret.
Qed.

Lemma run_total : total (run deps host profile).
Proof. unfold run. apply total_try. apply unhandled_total. Qed.
End RunContract.

Section CallFacts.
Import VerificationOrchestrator RunLog.

Lemma calls_app p l1 l2 : calls p (l1 ++ l2) = (calls p l1 + calls p l2)%nat.
Proof. unfold calls. rewrite filter_app, length_app. reflexivity. Qed.

Lemma follow_nil : polls_follow_submit [].
Proof. unfold polls_follow_submit, calls. simpl. lia. Qed.

Lemma follow_app a b :
  polls_follow_submit a -> polls_follow_submit b -> polls_follow_submit (a ++ b).
Proof. unfold polls_follow_submit. rewrite !calls_app. lia. Qed.

Lemma no_submit_app a b :
  calls is_submit a = 0%nat -> calls is_submit b = 0%nat -> calls is_submit (a ++ b) = 0%nat.
Proof. rewrite calls_app. lia. Qed.

End CallFacts.

(** Steps of a proof that a computation never invokes the submit
    control, and of a proof that its polls follow a submit. *)
Ltac quiet_step nil_tac app_tac emit_tac :=
  first
    [ apply logs_ret; nil_tac
    | apply logs_raise; nil_tac
    | apply logs_call; nil_tac
    | apply logs_effect; nil_tac
    | apply logs_emit; emit_tac
    | apply logs_bind; [nil_tac | app_tac | | intros]
    | apply logs_try; [nil_tac | app_tac | | intros]
    | match goal with
      | |- logs _ (if ?b then _ else _) => destruct b
      | |- logs _ (match ?x with _ => _ end) => destruct x
      | |- logs _ (let (_, _) := ?x in _) => destruct x
      end ].

Ltac no_submit_go :=
  repeat quiet_step ltac:(reflexivity) ltac:(exact no_submit_app) ltac:(reflexivity).

Ltac follow_go :=
  repeat quiet_step ltac:(exact follow_nil) ltac:(exact follow_app)
                    ltac:(unfold RunLog.polls_follow_submit, RunLog.calls; cbn; lia).

Section CallCounts.
Import VerificationOrchestrator RunLog.
Context {S Page Frame : Type}.
Variable deps : VerificationDeps S Page Frame.
Variable host : Host S Page.
Variable profile : VerificationProfile.

Lemma at_most_zero {A} p (m : M S orch_call A) :
  logs (fun l => calls p l = 0%nat) m -> at_most p 0 m.
Proof. intros H s. rewrite (H s). lia. Qed.

Lemma at_most_weaken {A} p n n' (m : M S orch_call A) :
  (n <= n')%nat -> at_most p n m -> at_most p n' m.
Proof. intros L H s. specialize (H s). lia. Qed.

Lemma at_most_bind {A B} p n1 n2 (m : M S orch_call A) (k : A -> M S orch_call B) :
  at_most p n1 m -> (forall a, at_most p n2 (k a)) -> at_most p (n1 + n2) (bind m k).
Proof.
  intros Hm Hk s. rewrite log_bind, calls_app. specialize (Hm s).
  destruct (result_of (m s));
    [specialize (Hk a (state_of (m s))); lia | change (calls p []) with 0%nat; lia].
Qed.

Lemma at_most_try {A} p n1 n2 (m : M S orch_call A) (h : exn -> M S orch_call A) :
  at_most p n1 m -> (forall e, at_most p n2 (h e)) -> at_most p (n1 + n2) (try_except m h).
Proof.
  intros Hm Hh s. rewrite log_try, calls_app. specialize (Hm s).
  destruct (result_of (m s));
    [change (calls p []) with 0%nat; lia | specialize (Hh e (state_of (m s))); lia].
Qed.

Local Abbreviation no_submit := (logs (fun l => calls is_submit l = 0%nat)).
Local Abbreviation follows := (logs polls_follow_submit).

Lemma poll_no_submit page n : forall a b, no_submit (poll deps host page n a b).
Proof.
  induction n as [|n IH]; intros a b; cbn [poll]; unfold dep, swallow.
  - no_submit_go.
  - no_submit_go. apply IH.
Qed.

Lemma poll_at_most page n : forall a b, at_most is_precheck n (poll deps host page n a b).
Proof.
  induction n as [|n IH]; intros a b; cbn [poll].
  - apply at_most_zero. repeat quiet_step ltac:(reflexivity) ltac:(idtac) ltac:(reflexivity).
  - change (Datatypes.S n) with (1 + n)%nat.
    apply at_most_bind.
    + intros s. rewrite dep_run. unfold log_of, calls. simpl. lia.
    + intros [cs st]. destruct (ne_str cs _).
      * apply (at_most_weaken _ 0); [lia|]. apply at_most_zero.
        apply logs_ret. reflexivity.
      * change n with (0 + n)%nat. apply at_most_bind; [|intros _].
        { apply at_most_zero. unfold swallow, dep.
          repeat quiet_step ltac:(reflexivity)
            ltac:(intros x y Hx Hy; rewrite calls_app, Hx, Hy; reflexivity)
            ltac:(reflexivity). }
        change n with (0 + n)%nat. apply at_most_bind; [|intros _].
        { apply at_most_zero. apply logs_emit. reflexivity. }
        change n with (0 + n)%nat. apply at_most_bind; [|intros _].
        { apply at_most_zero. apply logs_effect. reflexivity. }
        apply IH.
Qed.

(** The submit stage proper always invokes the submit control, once. *)
Lemma submit_and_poll_once page f s :
  calls is_submit (log_of (submit_and_poll deps host profile page f s)) = 1%nat.
Proof.
  unfold submit_and_poll. rewrite log_bind, delay_run.
  cbn [log_of result_of state_of fst snd]. rewrite calls_app.
  change (calls is_submit [HumanDelay 0.2 0.6]) with 0%nat.
  rewrite log_bind, dep_run. cbn [log_of result_of state_of fst snd].
  rewrite calls_app. change (calls is_submit [ClickSubmit]) with 1%nat.
  match goal with |- (0 + (1 + ?x))%nat = _ => assert (Z2 : x = 0%nat) end.
  { destruct (fst _); [|reflexivity].
    match goal with |- calls _ (log_of (?m ?s0)) = _ =>
      assert (Q : no_submit m) end.
    { unfold dep, dump_page.
      repeat first [ apply poll_no_submit
                   | quiet_step ltac:(reflexivity) ltac:(exact no_submit_app) ltac:(reflexivity) ]. }
    apply Q. }
  rewrite Z2. reflexivity.
Qed.

Lemma submit_and_poll_polls page f :
  at_most is_precheck 6 (submit_and_poll deps host profile page f).
Proof.
  unfold submit_and_poll.
  change 6%nat with (0 + (0 + (0 + (0 + (6 + 0)))))%nat.
  apply at_most_bind; [|intros _].
  { apply at_most_zero. unfold delay.
    repeat quiet_step ltac:(reflexivity) ltac:(idtac) ltac:(reflexivity). }
  apply at_most_bind; [|intros _].
  { apply at_most_zero. unfold dep.
    repeat quiet_step ltac:(reflexivity)
      ltac:(intros x y Hx Hy; rewrite calls_app, Hx, Hy; reflexivity) ltac:(reflexivity). }
  apply at_most_bind; [|intros _].
  { apply at_most_zero. unfold dep.
    repeat quiet_step ltac:(reflexivity)
      ltac:(intros x y Hx Hy; rewrite calls_app, Hx, Hy; reflexivity) ltac:(reflexivity). }
  apply at_most_bind; [|intros _].
  { apply at_most_zero. unfold dump_page.
    repeat quiet_step ltac:(reflexivity)
      ltac:(intros x y Hx Hy; rewrite calls_app, Hx, Hy; reflexivity) ltac:(reflexivity). }
  apply at_most_bind; [apply poll_at_most|].
  intros [cs st]. apply at_most_zero. unfold dump_page.
  repeat quiet_step ltac:(reflexivity)
    ltac:(intros x y Hx Hy; rewrite calls_app, Hx, Hy; reflexivity) ltac:(reflexivity).
Qed.

Lemma submit_and_poll_follows page f :
  follows (submit_and_poll deps host profile page f).
Proof.
  intros s. unfold polls_follow_submit.
  rewrite submit_and_poll_once. pose proof (submit_and_poll_polls page f s). lia.
Qed.

Lemma submit_and_poll_at_most page f :
  at_most is_submit 1 (submit_and_poll deps host profile page f).
Proof. intros s. rewrite submit_and_poll_once. lia. Qed.

(** Everything before the submit stage proper, and every handler. *)
Lemma unhandled_no_submit page e : no_submit (unhandled host profile page e).
Proof. unfold unhandled, swallow, dump_page. no_submit_go. Qed.

Lemma unhandled_no_precheck page e :
  logs (fun l => calls is_precheck l = 0%nat) (unhandled host profile page e).
Proof.
  unfold unhandled, swallow, dump_page.
  repeat quiet_step ltac:(reflexivity)
    ltac:(intros x y Hx Hy; rewrite calls_app, Hx, Hy; reflexivity) ltac:(reflexivity).
Qed.

Lemma unhandled_follows page e : follows (unhandled host profile page e).
Proof.
  intros s. unfold polls_follow_submit. rewrite (unhandled_no_precheck page e s). lia.
Qed.

Lemma browser_stage_follows cs ps page :
  follows (browser_stage deps host profile cs ps page).
Proof.
  unfold browser_stage, navigate, locate, fill_fields, take_snapshot, dry_run_result,
    submit_stage, submit_gate, gate_body, remediate, read_url_now, read_title_now,
    read_html_head, or_default, swallow, dump_page, delay, dep.
  repeat first [ apply submit_and_poll_follows
               | quiet_step ltac:(exact follow_nil) ltac:(exact follow_app)
                            ltac:(unfold polls_follow_submit, calls; cbn; lia) ].
Qed.

Lemma browser_stage_at_most_one_submit cs ps page :
  at_most is_submit 1 (browser_stage deps host profile cs ps page).
Proof.
  unfold browser_stage.
  change 1%nat with (0 + 1)%nat.
  apply at_most_bind.
  { apply at_most_zero.
    unfold navigate, read_url_now, read_title_now, read_html_head, or_default, swallow,
      dump_page, dep.
    no_submit_go. }
  intros [r|]; [apply (at_most_weaken _ 0); [lia|]; apply at_most_zero; no_submit_go|].
  change 1%nat with (0 + 1)%nat.
  apply at_most_bind; [apply at_most_zero; unfold dep; no_submit_go | intros _].
  change 1%nat with (0 + 1)%nat.
  apply at_most_bind.
  { apply at_most_zero.
    unfold locate, read_url_now, read_title_now, read_html_head, or_default, swallow,
      dump_page, dep.
    no_submit_go. }
  intros [f|r]; [|apply (at_most_weaken _ 0); [lia|]; apply at_most_zero; no_submit_go].
  change 1%nat with (0 + 1)%nat.
  apply at_most_bind.
  { apply at_most_zero. unfold fill_fields, swallow, dump_page, delay, dep. no_submit_go. }
  intros _.
  change 1%nat with (0 + 1)%nat.
  apply at_most_bind.
  { apply at_most_zero. unfold take_snapshot, or_default, dep. no_submit_go. }
  intros data.
  destruct (dry_run host).
  - apply (at_most_weaken _ 0); [lia|]. apply at_most_zero.
    unfold dry_run_result, swallow, dump_page, dep. no_submit_go.
  - unfold submit_stage. change 1%nat with (0 + 1)%nat.
    apply at_most_bind.
    { apply at_most_zero.
      unfold submit_gate, gate_body, remediate, dump_page, delay, dep. no_submit_go. }
    intros [r|]; [apply (at_most_weaken _ 0); [lia|]; apply at_most_zero; no_submit_go|].
    apply submit_and_poll_at_most.
Qed.

Lemma polls_within_follows {A} (m : M S orch_call A) : follows m -> polls_within 0 m.
Proof. intros H s. exact (H s). Qed.

Lemma polls_within_bind {A B} c1 c2 (m : M S orch_call A) (k : A -> M S orch_call B) :
  polls_within c1 m -> (forall a, polls_within c2 (k a)) ->
  polls_within (c1 + c2) (bind m k).
Proof.
  intros Hm Hk s. rewrite log_bind, !calls_app. specialize (Hm s).
  destruct (result_of (m s));
    [specialize (Hk a (state_of (m s))); lia
    | change (calls is_precheck []) with 0%nat; change (calls is_submit []) with 0%nat; lia].
Qed.

Lemma polls_within_try {A} c1 c2 (m : M S orch_call A) (h : exn -> M S orch_call A) :
  polls_within c1 m -> (forall e, polls_within c2 (h e)) ->
  polls_within (c1 + c2) (try_except m h).
Proof.
  intros Hm Hh s. rewrite log_try, !calls_app. specialize (Hm s).
  destruct (result_of (m s));
    [change (calls is_precheck []) with 0%nat; change (calls is_submit []) with 0%nat; lia
    | specialize (Hh e (state_of (m s))); lia].
Qed.

Lemma run_polls_within : polls_within 1 (run deps host profile).
Proof.
  unfold run. change 1%nat with (1 + 0 + 0)%nat.
  apply polls_within_try; [|intros; apply polls_within_follows, unhandled_follows].
  apply polls_within_bind.
  - intros s. rewrite dep_run. unfold log_of, calls. simpl. lia.
  - intros [cs ps]. apply polls_within_follows.
    unfold dep.
    repeat first [ apply browser_stage_follows | apply unhandled_follows
                 | quiet_step ltac:(exact follow_nil) ltac:(exact follow_app)
                              ltac:(unfold polls_follow_submit, calls; cbn; lia) ].
Qed.

Lemma run_at_most_one_submit : at_most is_submit 1 (run deps host profile).
Proof.
  unfold run. change 1%nat with (0 + 1 + 0)%nat.
  apply at_most_try; [|intros; apply at_most_zero, unhandled_no_submit].
  apply at_most_bind; [apply at_most_zero; unfold dep; no_submit_go|].
  intros [cs ps]. destruct (_ && _).
  - apply (at_most_weaken _ 0); [lia|]. apply at_most_zero. no_submit_go.
  - change 1%nat with (0 + (0 + (0 + (1 + 0))))%nat.
    apply at_most_bind; [apply at_most_zero; unfold dep; no_submit_go | intros _].
    apply at_most_bind; [apply at_most_zero; unfold dep; no_submit_go | intros _].
    apply at_most_bind; [apply at_most_zero; unfold dep; no_submit_go | intros page].
    apply at_most_try; [apply browser_stage_at_most_one_submit|].
    intros; apply at_most_zero, unhandled_no_submit.
Qed.

Lemma run_starts_with_precheck s :
  exists rest, log_of (run deps host profile s) = DoPrecheck :: rest.
Proof.
  unfold run. rewrite log_try, log_bind, dep_run.
  cbn [log_of result_of state_of fst snd app]. eexists; reflexivity.
Qed.

End CallCounts.

Section YieldsFacts.
Context {S E : Type}.

Lemma yields_ret {A} (P : A -> list E -> Prop) (a : A) : P a [] -> yields P (@ret S E A a).
Proof. intros H s b X. inversion X; subst. exact H. Qed.

Lemma yields_raise {A} (P : A -> list E -> Prop) e : yields P (@raise S E A e).
Proof. intros s b X. inversion X. Qed.

Lemma yields_returns {A} (P : A -> list E -> Prop) (m : M S E A) :
  returns (fun a => forall l, P a l) m -> yields P m.
Proof. intros H s a X. apply (H s a X). Qed.

Section Monotone.
Context {B : Type}.
Variable P : B -> list E -> Prop.
Hypothesis P_mono : forall b l1 l2, P b l2 -> P b (l1 ++ l2).

Lemma yields_bind {A} (Q1 : A -> Prop) (m : M S E A) (k : A -> M S E B) :
  returns Q1 m -> (forall a, Q1 a -> yields P (k a)) -> yields P (bind m k).
Proof.
  intros Hm Hk s b. unfold bind, result_of, log_of.
  specialize (Hm s). unfold result_of in Hm.
  destruct (m s) as [[[a|e] s1] l1]; simpl in *; [|intros X; inversion X].
  specialize (Hk a (Hm a eq_refl) s1 b). unfold result_of, log_of in Hk.
  destruct (k a s1) as [[r s2] l2]; simpl in *. intros X. apply P_mono. apply Hk. exact X.
Qed.

Lemma yields_try (m : M S E B) (h : exn -> M S E B) :
  yields P m -> (forall e, yields P (h e)) -> yields P (try_except m h).
Proof.
  intros Hm Hh s b. unfold try_except, result_of, log_of.
  specialize (Hm s). unfold result_of, log_of in Hm.
  destruct (m s) as [[[a|e] s1] l1]; simpl in *; [apply Hm|].
  specialize (Hh e s1 b). unfold result_of, log_of in Hh.
  destruct (h e s1) as [[r s2] l2]; simpl in *. intros X. apply P_mono. apply Hh. exact X.
Qed.
End Monotone.
End YieldsFacts.

Section RunVerdicts.
Import VerificationOrchestrator RunLog.
Context {S Page Frame : Type}.
Variable deps : VerificationDeps S Page Frame.
Variable host : Host S Page.
Variable profile : VerificationProfile.

Ltac failed_fin :=
  solve [ unfold failed; cbn; split; [reflexivity | split; intros; discriminate] ].

Ltac carried_failed :=
  solve [ intros ? X; first [discriminate X | inversion X; subst; failed_fin] ].

Lemma navigate_failed cs ps page :
  returns (fun o => forall r, o = Some r -> failed host r)
          (navigate deps host profile cs ps page).
Proof.
  unfold navigate, read_url_now, read_title_now, read_html_head.
  returns_go carried_failed.
Qed.

Lemma locate_failed cs ps page :
  returns (fun x => forall r, x = inr r -> failed host r)
          (locate deps host profile cs ps page).
Proof.
  unfold locate, read_url_now, read_title_now, read_html_head.
  returns_go carried_failed.
Qed.

Lemma submit_gate_failed page f data :
  returns (fun o => forall r, o = Some r -> failed host r)
          (submit_gate deps host profile page f data).
Proof. unfold submit_gate, gate_body. returns_go carried_failed. Qed.

Lemma unhandled_failed page e : returns (failed host) (unhandled host profile page e).
Proof. unfold unhandled. returns_go failed_fin. Qed.

(** The verdicts after a submit carry the status polled last. *)
Lemma submit_and_poll_verdict page f :
  returns (fun r => exists status2, status r = Some (StRaw status2))
          (submit_and_poll deps host profile page f).
Proof.
  unfold submit_and_poll.
  returns_go ltac:(solve [cbn; eexists; reflexivity]).
Qed.

Lemma earned_mono (r : run_result) l1 l2 :
  failed host r \/ earned host r l2 -> failed host r \/ earned host r (l1 ++ l2).
Proof.
  intros [D|[G|[D|(N & I & X)]]]; [left; exact D | right; left; exact G
                                  | right; right; left; exact D|].
  right; right; right. split; [exact N|]. split; [|exact X].
  apply in_or_app. right. exact I.
Qed.

Lemma submit_and_poll_earned page f :
  dry_run host = false ->
  yields (fun r l => failed host r \/ earned host r l)
         (submit_and_poll deps host profile page f).
Proof.
  intros N s r X. right; right; right. split; [exact N|]. split.
  - destruct (submit_and_poll_log deps host profile page f s) as (l & E).
    rewrite E. right. left. reflexivity.
  - exact (submit_and_poll_verdict page f s r X).
Qed.

Ltac pass_failed H :=
  apply yields_ret; left; apply H; reflexivity.

Lemma browser_stage_earned cs ps page :
  yields (fun r l => failed host r \/ earned host r l)
         (browser_stage deps host profile cs ps page).
Proof.
  unfold browser_stage.
  eapply (yields_bind _ earned_mono); [apply navigate_failed|].
  intros [r|] H; [pass_failed H|].
  apply (yields_bind _ earned_mono (fun _ => True)); [apply returns_any | intros ? _].
  eapply (yields_bind _ earned_mono); [apply locate_failed|].
  intros [f|r] H2; [|pass_failed H2].
  apply (yields_bind _ earned_mono (fun _ => True)); [apply returns_any | intros ? _].
  apply (yields_bind _ earned_mono (fun _ => True)); [apply returns_any | intros data _].
  destruct (dry_run host) eqn:Dry.
  - unfold dry_run_result.
    apply (yields_bind _ earned_mono (fun _ => True)); [apply returns_any | intros ? _].
    apply (yields_bind _ earned_mono (fun _ => True)); [apply returns_any | intros ? _].
    apply yields_ret. right; right; left.
    split; [exact Dry | split; [reflexivity | cbn; eexists _, _; reflexivity]].
  - unfold submit_stage.
    eapply (yields_bind _ earned_mono); [apply submit_gate_failed|].
    intros [r|] H3; [pass_failed H3|].
    apply submit_and_poll_earned. exact Dry.
Qed.

Lemma unhandled_earned page e :
  yields (fun r l => failed host r \/ earned host r l) (unhandled host profile page e).
Proof.
  apply yields_returns. intros s r X l. left. exact (unhandled_failed page e s r X).
Qed.

Lemma run_earned :
  yields (fun r l => failed host r \/ earned host r l) (run deps host profile).
Proof.
  unfold run.
  apply (yields_try _ earned_mono); [|intros; apply unhandled_earned].
  apply (yields_bind _ earned_mono (fun _ => True)); [apply returns_any | intros [cs ps] _].
  destruct (ne_str cs "collectStudentPersonalInfo") eqn:N1;
    destruct (force_ui host) eqn:F; cbn [andb negb].
  2:{ apply yields_ret. destruct (ne_str cs "error") eqn:N2.
      - right; left. exists cs, ps. cbn. auto.
      - left. split; [reflexivity|]. split; [intros; discriminate|].
        intros X. congruence. }
  all: apply (yields_bind _ earned_mono (fun _ => True)); [apply returns_any | intros ? _];
    apply (yields_bind _ earned_mono (fun _ => True)); [apply returns_any | intros ? _];
    apply (yields_bind _ earned_mono (fun _ => True)); [apply returns_any | intros page _];
    apply (yields_try _ earned_mono);
    [apply browser_stage_earned | intros; apply unhandled_earned].
Qed.

(** With the dry-run flag set nothing is submitted. *)
Lemma run_dry_no_submit :
  dry_run host = true ->
  logs (fun l => calls is_submit l = 0%nat) (run deps host profile).
Proof.
  intros Dry.
  unfold run, browser_stage. rewrite Dry.
  unfold unhandled, navigate, locate, fill_fields, take_snapshot, dry_run_result,
    read_url_now, read_title_now, read_html_head, or_default, swallow, dump_page,
    delay, dep.
  repeat quiet_step ltac:(reflexivity) ltac:(exact no_submit_app) ltac:(reflexivity).
Qed.

Lemma calls_zero_not_in l : calls is_submit l = 0%nat -> ~ In ClickSubmit l.
Proof.
  unfold calls. induction l as [|c l IH]; simpl; intros H I; [exact I|].
  destruct I as [->|I]; [simpl in H; discriminate|].
  destruct (is_submit c); [discriminate | exact (IH H I)].
Qed.
End RunVerdicts.

Section SubmitOrder.
Import VerificationOrchestrator RunLog.
Context {S Page Frame : Type}.
Variable deps : VerificationDeps S Page Frame.
Variable host : Host S Page.
Variable profile : VerificationProfile.

Local Abbreviation no_submit := (logs (fun l => calls is_submit l = 0%nat)).

Lemma in_submit_app l1 l2 :
  calls is_submit l1 = 0%nat -> In ClickSubmit (l1 ++ l2) -> In ClickSubmit l2.
Proof.
  intros Z I. apply in_app_or in I. destruct I as [I|I]; [|exact I].
  exfalso. exact (calls_zero_not_in l1 Z I).
Qed.

Lemma submit_after_quiet {A} pre (m : M S orch_call A) : no_submit m -> submit_after pre m.
Proof. intros H s I. exfalso. exact (calls_zero_not_in _ (H s) I). Qed.

(** A stage with a fixed log on its good outcomes, after which the run
    submits only on a good outcome. *)
Lemma submit_after_stage {A B} pre1 pre2 (good : A -> bool)
    (m : M S orch_call A) (k : A -> M S orch_call B) :
  no_submit m ->
  (forall s a, result_of (m s) = Ok a -> good a = true -> log_of (m s) = pre1) ->
  (forall a, good a = true -> submit_after pre2 (k a)) ->
  (forall a, good a = false -> no_submit (k a)) ->
  submit_after (pre1 ++ pre2) (bind m k).
Proof.
  intros Q L G B0 s I. rewrite log_bind in I |- *.
  apply (in_submit_app _ _ (Q s)) in I.
  destruct (result_of (m s)) as [a|e] eqn:R; [|contradiction].
  destruct (good a) eqn:Ga.
  - rewrite (L s a R Ga). destruct (G a Ga _ I) as (rest & E). rewrite E.
    exists rest. rewrite app_assoc. reflexivity.
  - exfalso. exact (calls_zero_not_in _ (B0 a Ga _) I).
Qed.

(** A stage whose log begins with [pre1] whenever it returns. *)
Lemma submit_after_loose {A B} pre1 (m : M S orch_call A) (k : A -> M S orch_call B) :
  no_submit m ->
  (forall s a, result_of (m s) = Ok a -> exists r, log_of (m s) = pre1 ++ r) ->
  submit_after pre1 (bind m k).
Proof.
  intros Q L s I. rewrite log_bind in I |- *.
  apply (in_submit_app _ _ (Q s)) in I.
  destruct (result_of (m s)) as [a|e] eqn:R; [|contradiction].
  destruct (L s a R) as (r & E). rewrite E. rewrite <- app_assoc. eexists; reflexivity.
Qed.

Lemma submit_after_try {A} pre (m : M S orch_call A) (h : exn -> M S orch_call A) :
  submit_after pre m -> (forall e, no_submit (h e)) -> submit_after pre (try_except m h).
Proof.
  intros Hm Hh s I. rewrite log_try in I |- *.
  destruct (result_of (m s)) as [a|e] eqn:R.
  - rewrite app_nil_r in *. exact (Hm s I).
  - apply in_app_or in I. destruct I as [I|I].
    + destruct (Hm s I) as (rest & E). rewrite E, <- app_assoc. eexists; reflexivity.
    + exfalso. exact (calls_zero_not_in _ (Hh e _) I).
Qed.

Lemma dep_no_submit {A} ev (f : S -> outcome A * S) :
  is_submit ev = false -> no_submit (dep ev f).
Proof. intros H s. rewrite dep_run. unfold log_of, calls. simpl. rewrite H. reflexivity. Qed.

Lemma submit_after_dep {A B} ev pre (f : S -> outcome A * S) (k : A -> M S orch_call B) :
  is_submit ev = false ->
  (forall a, submit_after pre (k a)) ->
  submit_after (ev :: pre) (bind (dep ev f) k).
Proof.
  intros H G.
  apply (submit_after_stage [ev] pre (fun _ => true)).
  - apply dep_no_submit. exact H.
  - intros s a _ _. rewrite dep_run. reflexivity.
  - intros a _. apply G.
  - intros a X. discriminate.
Qed.

Lemma navigate_no_submit cs ps page : no_submit (navigate deps host profile cs ps page).
Proof.
  unfold navigate, read_url_now, read_title_now, read_html_head, or_default, swallow,
    dump_page, dep.
  no_submit_go.
Qed.

Lemma locate_no_submit cs ps page : no_submit (locate deps host profile cs ps page).
Proof.
  unfold locate, read_url_now, read_title_now, read_html_head, or_default, swallow,
    dump_page, dep.
  no_submit_go.
Qed.

Lemma fill_fields_no_submit page f : no_submit (fill_fields deps host profile page f).
Proof. unfold fill_fields, swallow, dump_page, delay, dep. no_submit_go. Qed.

Lemma navigate_none_log cs ps page s :
  result_of (navigate deps host profile cs ps page s) = Ok None ->
  log_of (navigate deps host profile cs ps page s)
  = [Goto (build_verify_url deps (verification_id profile)); WaitForTimeout 800].
Proof.
  unfold navigate. intros X.
  apply try_ok_body in X.
  - destruct X as [R ->]. revert R.
    rewrite result_bind, log_bind, dep_run. cbn [result_of log_of state_of fst snd].
    destruct (fst (page_goto host page _ s)); [|intros X; discriminate X].
    rewrite result_bind, log_bind, dep_run. cbn [result_of log_of state_of fst snd].
    destruct (fst (page_wait_for_timeout host page 800 _)); [|intros X; discriminate X].
    reflexivity.
  - intros e s' Y. revert Y.
    destruct (negb (force_ui host)); [intros Y; discriminate Y|].
    match goal with |- result_of (?m s') = _ -> _ =>
      assert (R : returns (fun o => o <> None) m) by (returns_go ltac:(discriminate)) end.
    intros Y. exact (R s' None Y eq_refl).
Qed.

Lemma locate_inl_log cs ps page s f :
  result_of (locate deps host profile cs ps page s) = Ok (inl f) ->
  log_of (locate deps host profile cs ps page s) = [LocateFormFrame].
Proof.
  unfold locate. intros X.
  apply try_ok_body in X.
  - destruct X as [R ->]. revert R.
    rewrite result_bind, log_bind, dep_run. cbn [result_of log_of state_of fst snd].
    destruct (fst (locate_form_frame deps page s)); [|intros X; discriminate X].
    reflexivity.
  - intros e s' Y. revert Y.
    match goal with |- result_of (?m s') = _ -> _ =>
      assert (R : returns (fun o => forall g, o <> inl g) m)
        by (unfold dump_page; returns_go ltac:(intros; discriminate)) end.
    intros Y. exact (R s' (inl f) Y f eq_refl).
Qed.

Lemma fill_fields_log page f s a :
  result_of (fill_fields deps host profile page f s) = Ok a ->
  exists r,
    log_of (fill_fields deps host profile page f s)
    = [HumanDelay 0.2 0.6; FillText "first_name" (first_name profile);
       HumanDelay 0.2 0.6; FillText "last_name" (last_name profile);
       HumanDelay 0.2 0.6; FillText "email" (email profile)] ++ r.
Proof.
  unfold fill_fields.
  rewrite result_bind, log_bind, delay_run. cbn [result_of log_of state_of fst snd].
  rewrite result_bind, log_bind, dep_run. cbn [result_of log_of state_of fst snd].
  destruct (fst (fill_text deps f "first_name" _ _)); [|intros X; discriminate X].
  rewrite result_bind, log_bind, delay_run. cbn [result_of log_of state_of fst snd].
  rewrite result_bind, log_bind, dep_run. cbn [result_of log_of state_of fst snd].
  destruct (fst (fill_text deps f "last_name" _ _)); [|intros X; discriminate X].
  rewrite result_bind, log_bind, delay_run. cbn [result_of log_of state_of fst snd].
  rewrite result_bind, log_bind, dep_run. cbn [result_of log_of state_of fst snd].
  destruct (fst (fill_text deps f "email" _ _)); [|intros X; discriminate X].
  intros _. cbn [app]. eexists; reflexivity.
Qed.

Lemma browser_stage_order cs ps page :
  submit_after
    [Goto (build_verify_url deps (verification_id profile)); WaitForTimeout 800;
     WaitNetworkIdleSoft 15000; LocateFormFrame;
     HumanDelay 0.2 0.6; FillText "first_name" (first_name profile);
     HumanDelay 0.2 0.6; FillText "last_name" (last_name profile);
     HumanDelay 0.2 0.6; FillText "email" (email profile)]
    (browser_stage deps host profile cs ps page).
Proof.
  unfold browser_stage.
  apply (submit_after_stage [_; _] _
           (fun o : option run_result => match o with None => true | Some _ => false end)).
  - apply navigate_no_submit.
  - intros s [r|] R G; [discriminate G|]. apply navigate_none_log. exact R.
  - intros [r|] G; [discriminate G|].
    apply submit_after_dep; [reflexivity | intros _].
    apply (submit_after_stage [_] _
             (fun x : Frame + run_result => match x with inl _ => true | inr _ => false end)).
    + apply locate_no_submit.
    + intros s [f|r] R G2; [|discriminate G2]. eapply locate_inl_log. exact R.
    + intros [f|r] G2; [|discriminate G2].
      apply submit_after_loose; [apply fill_fields_no_submit|].
      intros s a R. eapply fill_fields_log. exact R.
    + intros [f|r] G2; [discriminate G2|]. no_submit_go.
  - intros [r|] G; [|discriminate G]. no_submit_go.
Qed.

Lemma run_order : submit_after (opening deps profile) (run deps host profile).
Proof.
  unfold run, opening.
  apply submit_after_try; [|intros; apply unhandled_no_submit].
  apply submit_after_dep; [reflexivity | intros [cs ps]].
  destruct (_ && _); [apply submit_after_quiet; no_submit_go|].
  apply submit_after_dep; [reflexivity | intros _].
  apply submit_after_dep; [reflexivity | intros _].
  apply submit_after_dep; [reflexivity | intros page].
  apply submit_after_try; [|intros; apply unhandled_no_submit].
  apply browser_stage_order.
Qed.
End SubmitOrder.

Section ProducesFacts.
Context {S E : Type}.

Lemma produces_ret {A} (P : A -> S -> list E -> Prop) (a : A) :
  (forall s, P a s []) -> produces P (@ret S E A a).
Proof. intros H s b X. inversion X; subst. apply H. Qed.

Lemma produces_returns {A} (P : A -> S -> list E -> Prop) (m : M S E A) :
  returns (fun a => forall s l, P a s l) m -> produces P m.
Proof. intros H s a X. apply (H s a X). Qed.

Section Monotone.
Context {B : Type}.
Variable P : B -> S -> list E -> Prop.
Hypothesis P_mono : forall b s l1 l2, P b s l2 -> P b s (l1 ++ l2).

Lemma produces_bind {A} (Q1 : A -> Prop) (m : M S E A) (k : A -> M S E B) :
  returns Q1 m -> (forall a, Q1 a -> produces P (k a)) -> produces P (bind m k).
Proof.
  intros Hm Hk s b. unfold bind, result_of, log_of, state_of.
  specialize (Hm s). unfold result_of in Hm.
  destruct (m s) as [[[a|e] s1] l1]; simpl in *; [|intros X; inversion X].
  specialize (Hk a (Hm a eq_refl) s1 b). unfold result_of, log_of, state_of in Hk.
  destruct (k a s1) as [[r s2] l2]; simpl in *. intros X. apply P_mono. apply Hk. exact X.
Qed.

Lemma produces_try (m : M S E B) (h : exn -> M S E B) :
  produces P m -> (forall e, produces P (h e)) -> produces P (try_except m h).
Proof.
  intros Hm Hh s b. unfold try_except, result_of, log_of, state_of.
  specialize (Hm s). unfold result_of, log_of, state_of in Hm.
  destruct (m s) as [[[a|e] s1] l1]; simpl in *; [apply Hm|].
  specialize (Hh e s1 b). unfold result_of, log_of, state_of in Hh.
  destruct (h e s1) as [[r s2] l2]; simpl in *. intros X. apply P_mono. apply Hh. exact X.
Qed.
End Monotone.
End ProducesFacts.

Section PollFacts.
Import VerificationOrchestrator RunLog.
Context {S Page Frame : Type}.
Variable deps : VerificationDeps S Page Frame.
Variable host : Host S Page.
Variable profile : VerificationProfile.

Local Abbreviation no_submit := (logs (fun l => calls is_submit l = 0%nat)).

(** The polling loop returns what its last call of the status poller
    answered, and that call is its last call when the step has left the
    initial one. *)
Lemma poll_last page n : forall a b s step st,
  result_of (poll deps host page n a b s) = Ok (step, st) ->
  ne_str step "collectStudentPersonalInfo" = true ->
  (n = 0%nat /\ step = a /\ st = b)
  \/ exists s0 pre,
       do_precheck deps s0 = (Ok (step, st), state_of (poll deps host page n a b s))
       /\ log_of (poll deps host page n a b s) = pre ++ [DoPrecheck].
Proof.
  induction n as [|n IH]; intros a b s step st; cbn [poll].
  - intros X _. inversion X; subst. left. auto.
  - rewrite result_bind, state_bind, log_bind, dep_run.
    cbn [result_of log_of state_of fst snd].
    destruct (do_precheck deps s) as [[[cs st2]|e] s1] eqn:P; cbn [fst snd];
      [|intros X; discriminate X]. cbv beta iota.
    destruct (ne_str cs "collectStudentPersonalInfo") eqn:N.
    + intros X _. inversion X; subst. right. exists s, []. split; [exact P | reflexivity].
    + rewrite !result_bind, !state_bind, !log_bind.
      set (w := swallow (dep (WaitNetworkIdleSoft 6000)
                             (wait_network_idle_soft deps page 6000)) s1).
      assert (W : exists u, result_of w = Ok u).
      { unfold w, swallow, try_except, bind, ret, result_of.
        destruct (dep _ _ s1) as [[[x|e] s2] l2]; simpl; eauto. }
      destruct W as (u & W). rewrite W.
      rewrite ?result_bind, ?state_bind, ?log_bind.
      cbn [emit effect result_of state_of log_of fst snd].
      intros X Ne.
      destruct (IH _ _ _ _ _ X Ne) as [(_ & -> & _)|(s0 & pre & D & L)].
      * rewrite N in Ne. discriminate Ne.
      * right. exists s0. eexists. split; [exact D|].
        rewrite L. rewrite !app_assoc. reflexivity.
Qed.

Lemma polled_mono (r : run_result) (s : S) l1 l2 :
  polled_last deps r s l2 -> polled_last deps r s (l1 ++ l2).
Proof.
  intros H st E Sx. destruct (H st E Sx) as (step2 & s0 & pre & D & L & Rest).
  exists step2, s0, (l1 ++ pre). split; [exact D|]. split; [|exact Rest].
  rewrite L, app_assoc. reflexivity.
Qed.

Lemma failed_polled (r : run_result) :
  failed host r -> forall (s : S) l, polled_last deps r s l.
Proof. intros (F & _) s l st _ Sx. congruence. Qed.

Lemma submit_and_poll_polled page f :
  produces (polled_last deps) (submit_and_poll deps host profile page f).
Proof.
  unfold submit_and_poll.
  apply (produces_bind _ polled_mono (fun _ => True)); [apply returns_any | intros ? _].
  apply (produces_bind _ polled_mono (fun _ => True)); [apply returns_any | intros ? _].
  apply (produces_bind _ polled_mono (fun _ => True)); [apply returns_any | intros ? _].
  apply (produces_bind _ polled_mono (fun _ => True)); [apply returns_any | intros ? _].
  intros s r. rewrite result_bind, state_bind, log_bind.
  destruct (result_of (poll deps host page 6 PNone [] s)) as [[step2 status2]|e] eqn:R;
    [|intros X; discriminate X].
  destruct (negb (ne_str step2 "error")) eqn:N1.
  { rewrite result_bind. unfold dump_page.
    destruct (screenshot_on_error host); cbn; intros X; inversion X; subst;
      intros st _ Sx; discriminate Sx. }
  destruct (negb (ne_str step2 "collectStudentPersonalInfo")) eqn:N2.
  { rewrite result_bind. unfold dump_page.
    destruct (screenshot_on_error host); cbn; intros X; inversion X; subst;
      intros st _ Sx; discriminate Sx. }
  intros X. inversion X; subst r. clear X.
  intros st E _. cbn in E. inversion E; subst st. clear E.
  apply negb_false_iff in N1. apply negb_false_iff in N2.
  destruct (poll_last page 6 _ _ s _ _ R N2) as [(Z & _)|(s0 & pre & D & L)];
    [discriminate Z|].
  exists step2, s0, pre. cbn [ret state_of log_of fst snd message].
  rewrite app_nil_r. split; [exact D|]. split; [exact L|]. auto.
Qed.

Lemma polled_pass (o : option run_result) :
  (forall r, o = Some r -> failed host r) ->
  forall r, o = Some r -> produces (polled_last deps) (@ret S orch_call _ r).
Proof.
  intros H r E. apply produces_ret. intros s. apply failed_polled. apply H. exact E.
Qed.

Lemma browser_stage_polled cs ps page :
  produces (polled_last deps) (browser_stage deps host profile cs ps page).
Proof.
  unfold browser_stage.
  eapply (produces_bind _ polled_mono); [apply navigate_failed|].
  intros [r|] H; [apply (polled_pass _ H); reflexivity|].
  apply (produces_bind _ polled_mono (fun _ => True)); [apply returns_any | intros ? _].
  eapply (produces_bind _ polled_mono); [apply locate_failed|].
  intros [f|r] H2;
    [|apply produces_ret; intros s; apply failed_polled; apply H2; reflexivity].
  apply (produces_bind _ polled_mono (fun _ => True)); [apply returns_any | intros ? _].
  apply (produces_bind _ polled_mono (fun _ => True)); [apply returns_any | intros data _].
  destruct (dry_run host) eqn:Dry.
  - unfold dry_run_result.
    apply (produces_bind _ polled_mono (fun _ => True)); [apply returns_any | intros ? _].
    apply (produces_bind _ polled_mono (fun _ => True)); [apply returns_any | intros ? _].
    apply produces_ret. intros s st E. discriminate E.
  - unfold submit_stage.
    eapply (produces_bind _ polled_mono); [apply submit_gate_failed|].
    intros [r|] H3; [apply (polled_pass _ H3); reflexivity|].
    apply submit_and_poll_polled.
Qed.

Lemma unhandled_polled page e :
  produces (polled_last deps) (unhandled host profile page e).
Proof.
  apply produces_returns. intros s r X s' l.
  apply failed_polled. exact (unhandled_failed host profile page e s r X).
Qed.

Lemma run_polled : produces (polled_last deps) (run deps host profile).
Proof.
  unfold run.
  apply (produces_try _ polled_mono); [|intros; apply unhandled_polled].
  apply (produces_bind _ polled_mono (fun _ => True)); [apply returns_any | intros [cs ps] _].
  destruct (ne_str cs "collectStudentPersonalInfo" && negb (force_ui host)).
  { apply produces_ret. intros s st E. discriminate E. }
  apply (produces_bind _ polled_mono (fun _ => True)); [apply returns_any | intros ? _].
  apply (produces_bind _ polled_mono (fun _ => True)); [apply returns_any | intros ? _].
  apply (produces_bind _ polled_mono (fun _ => True)); [apply returns_any | intros page _].
  apply (produces_try _ polled_mono);
    [apply browser_stage_polled | intros; apply unhandled_polled].
Qed.

(** Polls after a submit. *)
Lemma after_nil : polls_after_submit [].
Proof. intros [|x pre] post E; discriminate E. Qed.

Lemma after_app a b :
  polls_after_submit a -> polls_after_submit b -> polls_after_submit (a ++ b).
Proof.
  intros Ha Hb pre post E.
  apply app_eq_app in E. destruct E as (l & [[E1 E2]|[E1 E2]]).
  - destruct l as [|x l].
    + rewrite app_nil_r in E1. subst a. simpl in E2.
      destruct (Hb [] post (eq_sym E2)).
    + simpl in E2. inversion E2; subst x.
      apply (Ha pre l). exact E1.
  - subst pre. apply in_or_app. right.
    apply (Hb l post). exact E2.
Qed.

Lemma after_quiet l : calls is_precheck l = 0%nat -> polls_after_submit l.
Proof.
  intros Z pre post E. exfalso. subst l. rewrite calls_app in Z.
  unfold calls in Z. simpl in Z. lia.
Qed.

Lemma after_submit_cons a l : polls_after_submit (a :: ClickSubmit :: l) \/ a = DoPrecheck.
Proof.
  destruct a; try (right; reflexivity); left; intros pre post E;
    (destruct pre as [|x [|y pre]]; [discriminate E | discriminate E |];
     inversion E; subst; right; left; reflexivity).
Qed.

Lemma submit_and_poll_after page f :
  logs polls_after_submit (submit_and_poll deps host profile page f).
Proof.
  intros s. destruct (submit_and_poll_log deps host profile page f s) as (l & E).
  rewrite E. destruct (after_submit_cons (HumanDelay 0.2 0.6) l) as [H|H];
    [exact H | discriminate H].
Qed.

Ltac after_go :=
  repeat first [ apply submit_and_poll_after
               | quiet_step ltac:(exact after_nil) ltac:(exact after_app)
                            ltac:(apply after_quiet; reflexivity) ].

Lemma unhandled_after page e : logs polls_after_submit (unhandled host profile page e).
Proof. unfold unhandled, swallow, dump_page. after_go. Qed.

Lemma browser_stage_after cs ps page :
  logs polls_after_submit (browser_stage deps host profile cs ps page).
Proof.
  unfold browser_stage, navigate, locate, fill_fields, take_snapshot, dry_run_result,
    submit_stage, submit_gate, gate_body, remediate, read_url_now, read_title_now,
    read_html_head, or_default, swallow, dump_page, delay, dep.
  after_go.
Qed.

(** A run begins with a call of the status poller, and every later call
    of the status poller comes after the submit. *)
Lemma run_polls_after_submit s :
  exists rest,
    log_of (run deps host profile s) = DoPrecheck :: rest
    /\ polls_after_submit rest.
Proof.
  unfold run. rewrite log_try, log_bind, dep_run.
  cbn [log_of result_of state_of fst snd app].
  eexists. split; [reflexivity|].
  apply after_app.
  - destruct (fst (do_precheck deps s)) as [[cs ps]|e]; [|apply after_nil].
    match goal with |- polls_after_submit (log_of (?m ?s0)) =>
      assert (Q : logs polls_after_submit m); [|apply Q] end.
    unfold dep.
    repeat first [ apply browser_stage_after | apply unhandled_after
                 | quiet_step ltac:(exact after_nil) ltac:(exact after_app)
                              ltac:(apply after_quiet; reflexivity) ].
  - match goal with |- polls_after_submit (match ?r with _ => _ end) => destruct r end;
      [apply after_nil | apply unhandled_after].
Qed.


Lemma carried_none {A} (m : M S orch_call A) (k : A -> M S orch_call run_result) :
  (forall a, returns (fun r => form_values r = None) (k a)) ->
  yields carried_unsubmitted (bind m k).
Proof.
  intros Hk s r. rewrite result_bind.
  destruct (result_of (m s)) as [a|e]; [|intros X; discriminate X].
  intros X C. exfalso. apply C. exact (Hk a _ r X).
Qed.






End PollFacts.

Section RunTheorems.
Import VerificationOrchestrator RunLog.

Section Forced.
Context {S Page Frame : Type}.
Variable deps : VerificationDeps S Page Frame.
Variable host : Host S Page.
Variable profile : VerificationProfile.

Lemma forced_proceeds s step ps s1 :
  force_ui host = true ->
  do_precheck deps s = (Ok (step, ps), s1) ->
  exists rest, log_of (run deps host profile s) = DoPrecheck :: EnsureBrowser :: rest.
Proof.
  intros F P. unfold run. rewrite log_try, log_bind, dep_run, P.
  cbn [log_of result_of state_of fst snd app]. rewrite F, andb_false_r.
  rewrite log_bind, dep_run. cbn [log_of result_of state_of fst snd app].
  eexists; reflexivity.
Qed.

Lemma forced_no_verdict :
  force_ui host = true ->
  returns (fun r => forall step ps, status r <> Some (StPrecheck step ps))
          (run deps host profile).
Proof.
  intros F s r R step ps X.
  destruct (run_earned deps host profile s r R)
    as [(_ & _ & D)|[(st & p & _ & _ & _ & N)|[(_ & _ & st & p & E)|(_ & _ & st & E)]]].
  - exact (D F step ps X).
  - congruence.
  - congruence.
  - congruence.
Qed.
End Forced.

Section GateTheorem.
Import form_ready_dump RunFacts.



End GateTheorem.

(** X1.  [run] never raises: whatever its collaborators do, it returns
    a result dictionary.  The dictionary carries the verification id of
    the profile; it carries a trace only when it is a failure without
    status and without form values, and a status otherwise. *)
Theorem run_never_raises :
  forall (S Page Frame : Type) (deps : VerificationDeps S Page Frame)
         (host : Host S Page) (profile : VerificationProfile) (s : S),
    exists r,
      result_of (run deps host profile s) = Ok r
      /\ result_verification_id r = verification_id profile
      /\ (trace r <> None -> success r = false /\ status r = None /\ form_values r = None)
      /\ (trace r = None -> status r <> None).
Proof.
  intros S Page Frame deps host profile s.
  destruct (run_total deps host profile s) as (r & R).
  exists r. split; [exact R|]. exact (run_coherent deps host profile s r R).
Qed.

(** X2.  A run invokes the submit control at most once.  It begins by
    calling the status poller, once; it polls the status again only
    after the submit, at most 6 times: every call of the status poller
    but the first call of the run has the submit before it in the
    log. *)
Theorem run_call_budget :
  forall (S Page Frame : Type) (deps : VerificationDeps S Page Frame)
         (host : Host S Page) (profile : VerificationProfile) (s : S),
    let log := log_of (run deps host profile s) in
    hd_error log = Some DoPrecheck
    /\ (calls is_submit log <= 1)%nat
    /\ (1 <= calls is_precheck log)%nat
    /\ (calls is_precheck log <= 1 + 6 * calls is_submit log)%nat
    /\ (forall pre post,
          log = pre ++ DoPrecheck :: post -> pre = [] \/ In ClickSubmit pre).
Proof.
  intros S Page Frame deps host profile s log.
  destruct (run_starts_with_precheck deps host profile s) as (rest & E).
  split; [unfold log; rewrite E; reflexivity|].
  split; [apply run_at_most_one_submit|].
  split; [unfold log; rewrite E; unfold calls; simpl; lia|].
  split; [apply run_polls_within|].
  intros pre post X.
  destruct (run_polls_after_submit deps host profile s) as (rest' & E' & A).
  fold log in E'. rewrite E' in X.
  destruct pre as [|c pre]; [left; reflexivity|].
  right. simpl in X. inversion X; subst c. right. exact (A pre post H1).
Qed.

(** X3.  With the dry-run flag set, a run never invokes the submit
    control and never polls the status after the precheck; when it
    reports a success, that is the dry-run result or a verdict of the
    precheck. *)
Theorem dry_run_never_submits :
  forall (S Page Frame : Type) (deps : VerificationDeps S Page Frame)
         (host : Host S Page) (profile : VerificationProfile) (s : S),
    dry_run host = true ->
    let x := run deps host profile s in
    ~ In ClickSubmit (log_of x)
    /\ calls is_precheck (log_of x) = 1%nat
    /\ forall r, result_of x = Ok r -> success r = true ->
         message r = "DRY_RUN: 仅填表未提交（用于校验前端绑定）"
         \/ exists step pre_status, status r = Some (StPrecheck step pre_status).
Proof.
  intros S Page Frame deps host profile s Dry x. subst x.
  pose proof (run_dry_no_submit deps host profile Dry s) as Z. cbv beta in Z.
  split; [apply calls_zero_not_in; exact Z|].
  split.
  - pose proof (run_polls_within deps host profile s) as B.
    destruct (run_starts_with_precheck deps host profile s) as (rest & E).
    assert (1 <= calls is_precheck (log_of (run deps host profile s)))%nat
      by (rewrite E; unfold calls; simpl; lia).
    lia.
  - intros r R Sx.
    destruct (run_earned deps host profile s r R) as [[D _]|[G|[(_ & M & _)|[N _]]]].
    + congruence.
    + right. destruct G as (step & ps & E & _). exists step, ps. exact E.
    + left. exact M.
    + congruence.
Qed.

(** A dry run on the simulated form: it ends with the dry-run result. *)
Lemma dry_run_never_submits_witness :
  dry_run (SimEnv.host SimEnv.dry) = true
  /\ ~ In ClickSubmit
         (log_of (run (SimRun.deps true) (SimEnv.host SimEnv.dry) SimRun.profile
                    (RunFacts.world_with
                       [RunFacts.snapshot_of form_ready_dump.snapshot_text_only]))).
Proof.
  split; [reflexivity|].
  exact (proj1 (dry_run_never_submits _ _ _ (SimRun.deps true) (SimEnv.host SimEnv.dry)
                  SimRun.profile
                  (RunFacts.world_with
                     [RunFacts.snapshot_of form_ready_dump.snapshot_text_only])
                  eq_refl)).
Defined.

(** X4.  The submit control is invoked only at the end of the fixed
    opening: precheck, browser, form, page, navigation, location of the
    form, then the first name, the last name and the email filled in
    this order. *)
Theorem submit_only_after_fields :
  forall (S Page Frame : Type) (deps : VerificationDeps S Page Frame)
         (host : Host S Page) (profile : VerificationProfile) (s : S),
    In ClickSubmit (log_of (run deps host profile s)) ->
    exists rest,
      log_of (run deps host profile s) = opening deps profile ++ rest
      /\ In ClickSubmit rest.
Proof.
  intros S Page Frame deps host profile s I.
  destruct (run_order deps host profile s I) as (rest & E).
  exists rest. split; [exact E|].
  rewrite E in I. apply in_app_or in I. destruct I as [I|I]; [|exact I].
  exfalso. unfold opening in I. simpl in I.
  repeat (destruct I as [I|I]; [discriminate I|]). exact I.
Qed.

(** The simulated run that submits. *)
Lemma submit_only_after_fields_witness :
  exists rest,
    log_of (RunFacts.sim_run true [RunFacts.snapshot_of form_ready_dump.snapshot_text_only])
    = opening (SimRun.deps true) SimRun.profile ++ rest
    /\ In ClickSubmit rest.
Proof.
  apply (submit_only_after_fields _ _ _ (SimRun.deps true) SimRun.host SimRun.profile).
  vm_compute. do 24 (try (left; reflexivity); right). 
Defined.

(** X5.  A run reports a success only on a verdict of the precheck (a
    step that is neither the initial one nor [error], without the
    force-continue override), on a dry run, or after it has invoked the
    submit control; the result then carries the status payload answered
    by the last call of the run, a call of the status poller made after
    the submit, whose step is neither the initial one nor [error] and is
    named in the message. *)
Theorem success_is_earned :
  forall (S Page Frame : Type) (deps : VerificationDeps S Page Frame)
         (host : Host S Page) (profile : VerificationProfile) (s : S)
         (r : run_result),
    result_of (run deps host profile s) = Ok r ->
    success r = true ->
    (exists step pre_status,
        status r = Some (StPrecheck step pre_status)
        /\ ne_str step "error" = true
        /\ ne_str step "collectStudentPersonalInfo" = true
        /\ force_ui host = false)
    \/ (dry_run host = true
        /\ message r = "DRY_RUN: 仅填表未提交（用于校验前端绑定）"
        /\ exists step pre_status, status r = Some (StDryRun step pre_status))
    \/ (dry_run host = false
        /\ exists step2 status2 s0 pre,
             do_precheck deps s0
             = (Ok (step2, status2), state_of (run deps host profile s))
             /\ log_of (run deps host profile s) = pre ++ [DoPrecheck]
             /\ In ClickSubmit pre
             /\ status r = Some (StRaw status2)
             /\ message r = ("表单已提交，当前步骤: " ++ py_str step2)%string
             /\ ne_str step2 "error" = true
             /\ ne_str step2 "collectStudentPersonalInfo" = true).
Proof.
  intros S Page Frame deps host profile s r R Sx.
  destruct (run_earned deps host profile s r R) as [[D _]|[G|[D|(N & I & st & E)]]];
    [congruence | left; exact G | right; left; exact D |].
  right; right. split; [exact N|].
  destruct (run_polled deps host profile s r R st E Sx)
    as (step2 & s0 & pre & P & L & M & N1 & N2).
  exists step2, st, s0, pre.
  split; [exact P|]. split; [exact L|]. split; [|auto].
  rewrite L in I. apply in_app_or in I. destruct I as [I|I]; [exact I|].
  simpl in I. destruct I as [I|[]]. discriminate I.
Qed.

(** The simulated run that submits and then polls [pending]. *)
Lemma success_is_earned_witness :
  exists pre,
    log_of (RunFacts.sim_run true
              [RunFacts.snapshot_of form_ready_dump.snapshot_text_only])
    = pre ++ [DoPrecheck]
    /\ In ClickSubmit pre.
Proof.
  destruct (success_is_earned _ _ _ (SimRun.deps true) SimRun.host SimRun.profile
              (RunFacts.world_with
                 [RunFacts.snapshot_of form_ready_dump.snapshot_text_only])
              {| success := true;
                 message := "表单已提交，当前步骤: pending";
                 result_verification_id := "vid123";
                 status := Some (StRaw [("currentStep", PStr "pending")]);
                 form_values := None;
                 trace := None |}
              eq_refl eq_refl)
    as [(step & ps & E & _)|[[D _]|(_ & step2 & status2 & s0 & pre & _ & L & I & _)]].
  - discriminate E.
  - discriminate D.
  - exists pre. split; [exact L | exact I].
Defined.

(** X6.  With the force-continue override set, a run whose precheck
    returns goes on to the browser stage whatever the step, [error]
    included, and never ends on a verdict of the precheck. *)
Theorem force_ui_proceeds :
  forall (S Page Frame : Type) (deps : VerificationDeps S Page Frame)
         (host : Host S Page) (profile : VerificationProfile) (s : S),
    force_ui host = true ->
    (forall step pre_status s1,
        do_precheck deps s = (Ok (step, pre_status), s1) ->
        exists rest,
          log_of (run deps host profile s) = DoPrecheck :: EnsureBrowser :: rest)
    /\ (forall r, result_of (run deps host profile s) = Ok r ->
          forall step pre_status, status r <> Some (StPrecheck step pre_status)).
Proof.
  intros S Page Frame deps host profile s F. split.
  - intros step ps s1 P. eapply forced_proceeds; eassumption.
  - intros r R. exact (forced_no_verdict deps host profile F s r R).
Qed.

(** The status poller answers [error] and the override is set. *)
Lemma force_ui_proceeds_witness :
  exists rest,
    log_of (run (SimRun.deps true) (SimEnv.host SimEnv.forced) SimRun.profile
              RunFacts.world_error)
    = DoPrecheck :: EnsureBrowser :: rest.
Proof.
  exact (proj1 (force_ui_proceeds _ _ _ (SimRun.deps true) (SimEnv.host SimEnv.forced)
                  SimRun.profile RunFacts.world_error eq_refl)
           (PStr "error") [("currentStep", PStr "error")]
           {| SimRun.prechecks := []; SimRun.dumps := [] |} eq_refl).
Defined.
End RunTheorems.

Section VerifierContract.
Import VerificationOrchestrator SheerIDVerifier VerifierLog RunFacts Lifecycle.

Lemma same_id_refl v : same_id v v.
Proof. reflexivity. Qed.

Lemma same_id_trans a b c : same_id a b -> same_id b c -> same_id a c.
Proof. unfold same_id. congruence. Qed.

Lemma same_id_locale pd v : same_id v (locale_override pd v).
Proof.
  unfold same_id, locale_override.
  destruct (or_empty (dict_get pd "locale")); auto.
  destruct (_ && _); auto.
Qed.

Section Steps.
Context {W Page Frame : Type}.
Variable env : Collaborators W Page Frame.
Variable Rs : t -> t -> Prop.
Hypothesis Rs_refl : forall v, Rs v v.
Hypothesis Rs_trans : forall a b c, Rs a b -> Rs b c -> Rs a c.
Hypothesis H_mgr : forall v, Rs v (set_browser_mgr v).
Hypothesis H_handles : forall v, Rs v (set_handles v).
Hypothesis H_api : forall v api svc, Rs v (set_api v api svc).
Hypothesis H_form : forall v, Rs v (set_form v).
Hypothesis H_locale : forall pd v, Rs v (locale_override pd v).

(** Every step of [verify] after the guard respects a relation that the
    setters and the locale override respect. *)
Lemma verify_steps_respects a1 a2 a3 a4 a5 :
  stable (on_self Rs) (verify_steps env a1 a2 a3 a4 a5).
Proof.
  assert (T : forall a b c : state W, on_self Rs a b -> on_self Rs b c -> on_self Rs a c)
    by (intros a b c; apply Rs_trans).
  assert (R0 : forall a : state W, on_self Rs a a) by (intros a; apply Rs_refl).
  unfold verify_steps.
  apply stable_bind; [exact T| |intros [f l]].
  - destruct (_ || _).
    + apply stable_bind; [exact T| |intros].
      * apply stable_on_world, Rs_refl.
      * apply stable_ret, R0.
    + apply stable_ret, R0.
  - destruct (negb _).
    + apply stable_raise, R0.
    + cbv zeta. destruct (config.some_nonempty _).
      2:{ apply stable_raise, R0. }
      apply stable_bind; [exact T| |intros].
      { destruct (given a4).
        - apply stable_ret, R0.
        - apply stable_on_world, Rs_refl. }
      apply stable_bind; [exact T| |intros].
      { apply ensure_form_stable; assumption. }
      apply stable_bind; [exact T| |intros].
      { apply stable_get_self, Rs_refl. }
      apply stable_bind; [exact T| |intros].
      { apply run_stable; [exact R0 | exact T|].
        apply verifier_deps_stable; assumption. }
      apply stable_ret, R0.
Qed.
End Steps.

(** A property of the result relative to the state a computation
    starts from, through a first step that respects [R]. *)
Lemma from_bind {S E A B} (R : S -> S -> Prop) (P : S -> B -> Prop)
    (m : M S E A) (k : A -> M S E B) :
  stable R m ->
  (forall s s1 b, R s s1 -> P s1 b -> P s b) ->
  (forall a s1 b, result_of (k a s1) = Ok b -> P s1 b) ->
  forall s b, result_of (bind m k s) = Ok b -> P s b.
Proof.
  intros St Tr Hk s b. rewrite result_bind.
  destruct (result_of (m s)) as [a|e]; [|intros X; discriminate X].
  intros X. apply (Tr s (state_of (m s))); [apply St|]. eapply Hk. exact X.
Qed.

Section Verify.
Context {W Page Frame : Type}.
Variable env : Collaborators W Page Frame.

Lemma verify_total a1 a2 a3 a4 a5 : total (verify env a1 a2 a3 a4 a5).
Proof.
  unfold verify. apply total_try. intros e.
  apply total_bind; [|intros; apply total_ret].
  intros s. eexists. reflexivity.
Qed.

Lemma verify_body_same_id a1 a2 a3 a4 a5 :
  stable (on_self same_id) (verify_body env a1 a2 a3 a4 a5).
Proof.
  unfold verify_body.
  apply stable_bind; [intros a b c; apply same_id_trans| |intros v].
  - apply stable_get_self, same_id_refl.
  - destruct (_has_run v).
    + apply stable_raise. intros s. apply same_id_refl.
    + apply stable_bind; [intros a b c; apply same_id_trans| |intros _].
      * apply stable_modify_self. intros x. reflexivity.
      * apply verify_steps_respects;
          first [ exact same_id_refl | exact same_id_trans | exact same_id_locale
                | intros; reflexivity ].
Qed.

Lemma reword_id out : result_verification_id (reword env out) = result_verification_id out.
Proof. unfold reword. destruct (_ && _); reflexivity. Qed.

Lemma reword_failure out : success out = false -> success (reword env out) = false.
Proof. unfold reword. destruct (_ && _); auto. Qed.

(** What [verify] returns carries the id of the instance. *)
Lemma verify_steps_id a1 a2 a3 a4 a5 :
  forall st r, result_of (verify_steps env a1 a2 a3 a4 a5 st) = Ok r ->
               result_verification_id r = verification_id (self st).
Proof.
  assert (Tr : forall (s s1 : state W) (b : run_result),
             on_self same_id s s1 ->
             result_verification_id b = verification_id (self s1) ->
             result_verification_id b = verification_id (self s)).
  { intros s s1 b H E. rewrite E. symmetry. exact H. }
  unfold verify_steps.
  apply (from_bind (on_self same_id)); [|exact Tr|intros [f l]].
  { destruct (_ || _).
    - apply stable_bind; [intros a b c; apply same_id_trans| |intros].
      + apply stable_on_world, same_id_refl.
      + apply stable_ret. intros s. apply same_id_refl.
    - apply stable_ret. intros s. apply same_id_refl. }
  destruct (negb _); [intros s b X; discriminate X|].
  cbv zeta. destruct (config.some_nonempty _); [|intros s b X; discriminate X].
  apply (from_bind (on_self same_id)); [|exact Tr|intros bd].
  { destruct (given a4).
    - apply stable_ret. intros s. apply same_id_refl.
    - apply stable_on_world, same_id_refl. }
  apply (from_bind (on_self same_id)); [|exact Tr|intros _].
  { apply ensure_form_stable;
      first [exact same_id_refl | exact same_id_trans | intros; reflexivity]. }
  intros s b. unfold bind at 1, get_self at 1.
  match goal with |- context [run ?d ?h ?p] => set (profile := p) end.
  destruct (bind _ _ s) as [[rb sb] lb] eqn:X. unfold result_of. cbn [fst].
  intros ->. revert X. unfold bind.
  pose proof (run_coherent (deps env) (host env) profile s) as C.
  unfold result_of in C.
  destruct (run (deps env) (host env) profile s) as [[[out|e] s2] l2]; cbn [fst] in C.
  - unfold ret. intros X. inversion X; subst.
    rewrite reword_id. destruct (C out eq_refl) as [E _]. exact E.
  - intros X. inversion X.
Qed.

Lemma verify_same_id a1 a2 a3 a4 a5 st :
  same_id (self st) (self (state_of (verify env a1 a2 a3 a4 a5 st))).
Proof.
  unfold verify.
  assert (St : stable (on_self same_id)
                 (try_except (verify_body env a1 a2 a3 a4 a5)
                    (fun e => (v <- get_self ;;
                               ret {| success := false; message := e;
                                      result_verification_id := verification_id v;
                                      status := None; form_values := None;
                                      trace := Some e |})%m))).
  { apply stable_try; [intros a b c; apply same_id_trans | apply verify_body_same_id|].
    intros e. apply stable_bind; [intros a b c; apply same_id_trans| |intros].
    - apply stable_get_self, same_id_refl.
    - apply stable_ret. intros s. apply same_id_refl. }
  exact (St st).
Qed.

Lemma verify_id a1 a2 a3 a4 a5 st r :
  result_of (verify env a1 a2 a3 a4 a5 st) = Ok r ->
  result_verification_id r = verification_id (self st).
Proof.
  unfold verify, try_except.
  pose proof (verify_body_same_id a1 a2 a3 a4 a5 st) as St.
  unfold state_of, on_self, same_id in St.
  assert (B : forall b, result_of (verify_body env a1 a2 a3 a4 a5 st) = Ok b ->
                        result_verification_id b = verification_id (self st)).
  { unfold verify_body. intros b. rewrite result_bind. cbn [get_self result_of state_of fst snd].
    destruct (_has_run (self st)); [intros X; discriminate X|].
    rewrite result_bind. cbn [modify_self result_of state_of fst snd].
    intros X. apply verify_steps_id in X. exact X. }
  unfold result_of in B.
  destruct (verify_body env a1 a2 a3 a4 a5 st) as [[[b|e] s1] l1]; cbn [fst snd] in *.
  - intros X. inversion X; subst. apply B. reflexivity.
  - unfold bind, get_self, ret. cbn. intros X. inversion X; subst. cbn. symmetry. exact St.
Qed.

Lemma verify_no_email a1 a2 a3 a4 a5 st :
  _has_run (self st) = false ->
  given a3 = false ->
  exists r,
    result_of (verify env a1 a2 a3 a4 a5 st) = Ok r
    /\ success r = false
    /\ log_of (verify env a1 a2 a3 a4 a5 st) = []
    /\ (given a1 = true -> given a2 = true ->
        message r = "未提供邮箱"
        /\ state_of (verify env a1 a2 a3 a4 a5 st)
           = {| self := set_has_run (self st); world := world st |}).
Proof.
  intros U G.
  unfold verify, verify_body, verify_steps, try_except, bind, get_self, modify_self, ret,
    raise, on_world.
  rewrite U. cbn [self world]. rewrite G. cbn [negb].
  destruct (negb (given a1) || negb (given a2)) eqn:N.
  - cbn [self world].
    destruct (NameGenerator_generate env (world st)) as [[[g1 g2]|e] w1]; cbn;
      (eexists; split; [reflexivity|]; split; [reflexivity|]; split; [reflexivity|]);
      intros G1 G2; rewrite G1, G2 in N; discriminate N.
  - cbn. eexists; split; [reflexivity|]; split; [reflexivity|]; split; [reflexivity|].
    intros _ _. split; reflexivity.
Qed.
End Verify.

(** X7.  [verify] never raises: it returns a result dictionary that
    carries the verification id of the instance, and it leaves the
    instance marked as used. *)
Theorem verify_never_raises :
  forall (W Page Frame : Type) (env : Collaborators W Page Frame)
         (first_name last_name email birth_date school_id : option string)
         (st : state W),
    let x := verify env first_name last_name email birth_date school_id st in
    exists r,
      result_of x = Ok r
      /\ result_verification_id r = verification_id (self st)
      /\ verification_id (self (state_of x)) = verification_id (self st)
      /\ _has_run (self (state_of x)) = true.
Proof.
  intros W Page Frame env a1 a2 a3 a4 a5 st x. subst x.
  destruct (verify_total env a1 a2 a3 a4 a5 st) as (r & R).
  exists r. split; [exact R|]. split; [apply (verify_id env a1 a2 a3 a4 a5 st r R)|].
  split; [|apply verify_marks_used].
  symmetry. apply verify_same_id.
Qed.

(** X8.  Called on a fresh instance without an email, [verify] returns
    a failure without running the orchestrator; when both names are
    given its message is the missing-email message and the only change
    is that the instance is now used. *)
Theorem verify_requires_email :
  forall (W Page Frame : Type) (env : Collaborators W Page Frame)
         (first_name last_name email birth_date school_id : option string)
         (st : state W),
    _has_run (self st) = false ->
    given email = false ->
    let x := verify env first_name last_name email birth_date school_id st in
    exists r,
      result_of x = Ok r
      /\ success r = false
      /\ log_of x = []
      /\ (given first_name = true -> given last_name = true ->
          message r = "未提供邮箱"
          /\ state_of x = {| self := set_has_run (self st); world := world st |}).
Proof. intros. apply verify_no_email; assumption. Qed.

(** A fresh verifier called with names and an empty email. *)
Lemma verify_requires_email_witness :
  exists r,
    result_of (verify SimApi.env (Some "Ada") (Some "Lovelace") (Some "") None None
                 (SimApi.fresh []))
    = Ok r
    /\ success r = false.
Proof.
  destruct (verify_requires_email _ _ _ SimApi.env (Some "Ada") (Some "Lovelace")
              (Some "") None None (SimApi.fresh []) eq_refl eq_refl)
    as (r & R & F & _).
  exists r. split; assumption.
Defined.
End VerifierContract.

Section VerifierState.
Import VerificationOrchestrator SheerIDVerifier VerifierLog RunFacts Lifecycle.

Lemma nonempty_neq s : nonempty s = true -> s <> "".
Proof. destruct s; simpl; intros; congruence. Qed.

(** X9.  A new verifier is unused and holds no handle; its locale and
    its [Accept-Language] header are never empty, whatever the
    environment; and unless [ONE_SHEERID_FORCE_EN_US] is set to
    something else than an affirmative value, they are the English
    ones. *)
Theorem init_locale_configured :
  forall (getenv : string -> option string) (verification_id : string),
    let v := init getenv verification_id in
    SheerIDVerifier.verification_id v = verification_id
    /\ _has_run v = false
    /\ context v = false /\ http_client v = false /\ _api v = None /\ _api_svc v = false
    /\ locale v <> ""
    /\ accept_language v <> ""
    /\ (env_flag (match getenv "ONE_SHEERID_FORCE_EN_US" with
                  | Some (String _ _ as f) => Some f
                  | _ => Some "1"
                  end) = true ->
        locale v = "en-US" /\ accept_language v = "en-US,en;q=0.9")
    /\ (getenv "ONE_SHEERID_FORCE_EN_US" = None ->
        locale v = "en-US" /\ accept_language v = "en-US,en;q=0.9").
Proof.
  intros getenv vid v. subst v. unfold init. cbn [SheerIDVerifier.verification_id _has_run context http_client
    _api _api_svc locale accept_language].
  repeat (split; [reflexivity|]).
  set (force := env_flag _).
  split; [|split; [|split]].
  - destruct force; [discriminate|].
    destruct (nonempty (strip (match getenv "ONE_SHEERID_LOCALE" with
                               | Some v => v | None => "" end))) eqn:L;
      [apply nonempty_neq; exact L|].
    match goal with |- (if ?b then _ else _) <> _ => destruct b eqn:F end;
      [apply nonempty_neq; exact F | discriminate].
  - destruct force; [discriminate|].
    match goal with |- (if ?b then _ else _) <> _ => destruct b eqn:F end;
      [apply nonempty_neq; exact F | discriminate].
  - intros ->. split; reflexivity.
  - intros N. unfold force. rewrite N. split; reflexivity.
Qed.

(** The default environment. *)
Lemma init_locale_configured_witness :
  locale (init (fun _ => None) "vid123") = "en-US".
Proof.
  exact (proj1 (proj2 (proj2 (proj2 (proj2 (proj2 (proj2 (proj2 (proj2 (proj2
           (init_locale_configured (fun _ => None) "vid123"))))))))) eq_refl)).
Defined.

Section Ensure.
Context {W Page Frame E : Type}.
Variable env : Collaborators W Page Frame.

Lemma ensure_browser_post st st1 l :
  @_ensure_browser W Page Frame E env st = (Ok tt, st1, l) ->
  context (self st1) && http_client (self st1) = true.
Proof.
  unfold _ensure_browser, bind, get_self, modify_self, on_world, ret.
  destruct (context (self st) && http_client (self st)) eqn:C.
  - intros X. inversion X; subst. exact C.
  - cbn [self world]. destruct (browser_mgr_ensure env (world st)) as [[[]|e] w1]; cbn.
    + intros X. inversion X; subst. reflexivity.
    + intros X. inversion X.
Qed.

Lemma ensure_browser_again st :
  context (self st) && http_client (self st) = true ->
  @_ensure_browser W Page Frame E env st = (Ok tt, st, []).
Proof. intros C. unfold _ensure_browser, bind, get_self. rewrite C. reflexivity. Qed.

Lemma ensure_api_service_again st :
  _api_svc (self st) = true ->
  @_ensure_api_service W Page Frame E env st = (Ok tt, st, []).
Proof. intros C. unfold _ensure_api_service, bind, get_self. rewrite C. reflexivity. Qed.

Lemma ensure_api_service_post st st1 l :
  @_ensure_api_service W Page Frame E env st = (Ok tt, st1, l) ->
  _api_svc (self st1) = true
  /\ (_api_svc (self st) = false ->
      (exists api, _api (self st1) = Some api)
      /\ context (self st1) && http_client (self st1) = true).
Proof.
  unfold _ensure_api_service. unfold bind at 1, get_self at 1.
  destruct (_api_svc (self st)) eqn:C.
  - unfold ret. intros X. inversion X; subst. split; [exact C | intros; congruence].
  - unfold bind at 1.
    destruct (_ensure_browser env st) as [[[[]|e] s1] l1] eqn:B; [|intros X; inversion X].
    apply ensure_browser_post in B.
    unfold bind, get_self, modify_self, raise. cbn.
    destruct (_api (self s1)) as [a|] eqn:A.
    + intros X. inversion X; subst. cbn. split; [reflexivity|]. intros _.
      split; [eexists; reflexivity | exact B].
    + destruct (http_client (self s1)) eqn:H.
      * intros X. inversion X; subst. cbn. split; [reflexivity|]. intros _.
        split; [eexists; reflexivity|]. rewrite H. exact B.
      * intros X. inversion X.
Qed.
End Ensure.

(** X10.  Assembling the API service is idempotent: once
    [_ensure_api_service] has returned, the service is assembled with a
    client, over a browser whose handles are set, and a further call
    does nothing: no collaborator is called and the instance is
    unchanged.  The same holds of [_ensure_browser]. *)
Theorem ensure_api_service_idempotent :
  forall (W Page Frame E : Type) (env : Collaborators W Page Frame)
         (st st1 : state W) (l : list E),
    @_ensure_api_service W Page Frame E env st = (Ok tt, st1, l) ->
    _api_svc (self st1) = true
    /\ @_ensure_api_service W Page Frame E env st1 = (Ok tt, st1, [])
    /\ (_api_svc (self st) = false ->
        (exists api, _api (self st1) = Some api)
        /\ context (self st1) && http_client (self st1) = true
        /\ @_ensure_browser W Page Frame E env st1 = (Ok tt, st1, [])).
Proof.
  intros W Page Frame E env st st1 l X.
  destruct (ensure_api_service_post env st st1 l X) as [A B].
  split; [exact A|]. split; [apply ensure_api_service_again; exact A|].
  intros C. destruct (B C) as [B1 B2].
  split; [exact B1|]. split; [exact B2|]. apply ensure_browser_again. exact B2.
Qed.

(** A fresh verifier whose browser starts. *)
Lemma ensure_api_service_idempotent_witness :
  _api_svc (self (state_of (@_ensure_api_service _ _ _ orch_call SimApi.env
                              (SimApi.fresh [])))) = true.
Proof.
  exact (proj1 (ensure_api_service_idempotent _ _ _ orch_call SimApi.env
                  (SimApi.fresh []) _ _ eq_refl)).
Defined.

Section Closing.
Context {W Page Frame : Type}.
Variable env : Collaborators W Page Frame.
Variable browser_mgr_close : W -> outcome unit * W.

Lemma close_run (E : Type) st :
  exists w,
    @close W E browser_mgr_close st
    = (Ok tt, {| self := clear_handles (self st); world := w |}, [])
    /\ (_browser_mgr (self st) = false -> w = world st)
    /\ (_browser_mgr (self st) = true -> w = snd (browser_mgr_close (world st))).
Proof.
  unfold close, try_except, bind, get_self, modify_self, on_world, ret.
  destruct (_browser_mgr (self st)) eqn:B.
  - cbn [self world]. destruct (browser_mgr_close (world st)) as [[[]|e] w1]; cbn;
      (eexists; split; [reflexivity|]; split; [intros; congruence | reflexivity]).
  - cbn. eexists; split; [reflexivity|]. split; [reflexivity | intros; congruence].
Qed.
End Closing.

(** X11.  [close] never raises, whatever the browser manager does on
    closing.  It clears the three browser handles and leaves the rest
    of the instance alone: a used instance stays used, so [verify]
    still rejects it, and an assembled API service stays assembled, so
    that a later [_ensure_api_service] does not start the browser
    again. *)
Theorem close_clears_handles_only :
  forall (W Page Frame : Type) (env : Collaborators W Page Frame)
         (browser_mgr_close : W -> outcome unit * W) (st : state W),
    let x := @close W orch_call browser_mgr_close st in
    let v' := self (state_of x) in
    result_of x = Ok tt
    /\ log_of x = []
    /\ _browser_mgr v' = false /\ context v' = false /\ http_client v' = false
    /\ same_session (self st) v'
    /\ (_browser_mgr (self st) = false -> state_of x
                                         = {| self := clear_handles (self st);
                                              world := world st |})
    /\ (_has_run (self st) = true ->
        forall a1 a2 a3 a4 a5,
          exists r, result_of (verify env a1 a2 a3 a4 a5 (state_of x)) = Ok r
                    /\ success r = false /\ message r = single_use_message)
    /\ (_api_svc (self st) = true ->
        @_ensure_api_service W Page Frame orch_call env (state_of x)
        = (Ok tt, state_of x, [])).
Proof.
  intros W Page Frame env bmc st x v'. subst v' x.
  destruct (close_run bmc orch_call st) as (w & E & W0 & _).
  rewrite E. cbn [result_of log_of state_of fst snd self].
  split; [reflexivity|]. split; [reflexivity|].
  split; [reflexivity|]. split; [reflexivity|]. split; [reflexivity|].
  split; [repeat split|].
  split; [intros B; rewrite (W0 B); reflexivity|].
  split.
  - intros U a1 a2 a3 a4 a5. eexists. rewrite verify_rejects by exact U.
    cbn. repeat split.
  - intros A. apply ensure_api_service_again. exact A.
Qed.

Section SchoolFacts.
Import Schools.

Lemma schools_get_only k d : config.schools_get config.SCHOOLS k = Some d -> d = fullerton.
Proof.
  unfold config.SCHOOLS. cbn [config.schools_get].
  destruct (String.eqb k "110565"); intros X; inversion X. reflexivity.
Qed.

Lemma some_nonempty_only o d :
  config.some_nonempty o = Some d -> o = Some d.
Proof. destruct o as [[|x l]|]; simpl; intros X; inversion X; reflexivity. Qed.

Lemma schools_lookup k :
  config.some_nonempty (config.schools_get config.SCHOOLS k) = Some fullerton
  \/ config.some_nonempty (config.schools_get config.SCHOOLS k) = None.
Proof.
  destruct (config.some_nonempty (config.schools_get config.SCHOOLS k)) as [d|] eqn:A;
    [left | right; reflexivity].
  apply some_nonempty_only, schools_get_only in A. subst. reflexivity.
Qed.

Lemma get_school_fullerton getenv school_id :
  config.get_school getenv school_id = Some fullerton.
Proof.
  unfold config.get_school.
  destruct (schools_lookup
              (strip (if nonempty school_id then school_id
                      else config.DEFAULT_SCHOOL_ID getenv))) as [A|A]; rewrite A;
    [reflexivity|].
  destruct (schools_lookup (config.DEFAULT_SCHOOL_ID getenv)) as [B|B]; rewrite B;
    reflexivity.
Qed.
End SchoolFacts.

(** X12.  Every school id, known or not, empty or not, and whatever
    the default configured in the environment, resolves to the one
    configured school: [get_school] never returns [None], and
    [get_school_domain] is always [FULLERTON.EDU]. *)
Theorem get_school_always_resolves :
  forall (getenv : string -> option string) (school_id : string),
    config.get_school getenv school_id = Some Schools.fullerton
    /\ config.some_nonempty (config.get_school getenv school_id) = Some Schools.fullerton
    /\ dict_get Schools.fullerton "name" = PStr "California State University-Fullerton"
    /\ Schools.get_school_domain getenv school_id = "FULLERTON.EDU".
Proof.
  intros getenv school_id.
  split; [apply get_school_fullerton|].
  split; [rewrite get_school_fullerton; reflexivity|].
  split; [reflexivity|].
  unfold Schools.get_school_domain. rewrite get_school_fullerton. reflexivity.
Qed.
End VerifierState.

Section LanguageSync.
Import VerificationOrchestrator SheerIDVerifier VerifierLog RunFacts Lifecycle.

Lemma keeps_sync_refl v : keeps_sync v v.
Proof. intros H. exact H. Qed.

Lemma keeps_sync_trans a b c : keeps_sync a b -> keeps_sync b c -> keeps_sync a c.
Proof. unfold keeps_sync. auto. Qed.

Lemma sync_same a b :
  _api a = _api b -> accept_language a = accept_language b -> keeps_sync a b.
Proof. unfold keeps_sync, language_in_sync. intros A L H api. rewrite <- A, <- L. apply H. Qed.

Lemma sync_locale pd v : keeps_sync v (locale_override pd v).
Proof.
  unfold locale_override.
  destruct (or_empty (dict_get pd "locale")); try apply keeps_sync_refl.
  destruct (_ && _); [|apply keeps_sync_refl].
  intros H api. cbn. destruct (_api v); intros [= <-]. reflexivity.
Qed.

Lemma sync_init getenv vid : language_in_sync (init getenv vid).
Proof. intros api X. discriminate X. Qed.

Section Methods.
Context {W Page Frame : Type}.
Variable env : Collaborators W Page Frame.

Local Abbreviation Sync := (on_self (W:=W) keeps_sync).

Lemma sync_T : forall a b c : state W, Sync a b -> Sync b c -> Sync a c.
Proof. intros a b c. apply keeps_sync_trans. Qed.

Lemma sync_R : forall a : state W, Sync a a.
Proof. intros a. apply keeps_sync_refl. Qed.

Lemma ensure_browser_sync {E} : stable Sync (@_ensure_browser W Page Frame E env).
Proof.
  apply ensure_browser_stable;
    first [ exact keeps_sync_refl | exact keeps_sync_trans
          | intros; apply sync_same; reflexivity ].
Qed.

Lemma ensure_api_service_sync {E} : stable Sync (@_ensure_api_service W Page Frame E env).
Proof.
  intros st. unfold _ensure_api_service. unfold bind at 1, get_self at 1.
  destruct (_api_svc (self st)); [apply keeps_sync_refl|].
  pose proof (@ensure_browser_sync E st) as B.
  unfold bind at 1. unfold state_of in *.
  destruct (_ensure_browser env st) as [[[[]|e] s1] l1]; cbn [fst snd] in *; [|exact B].
  unfold bind, get_self, modify_self, raise. cbn.
  destruct (_api (self s1)) as [a|] eqn:A; cbn.
  - eapply keeps_sync_trans; [exact B|]. apply sync_same; [cbn; auto | reflexivity].
  - destruct (http_client (self s1)); cbn; [|exact B].
    intros H api. cbn. intros [= <-]. reflexivity.
Qed.

Lemma do_precheck_sync {E} : stable Sync (@_do_precheck W Page Frame E env).
Proof.
  unfold _do_precheck.
  apply stable_bind; [exact sync_T | apply ensure_api_service_sync | intros _].
  apply stable_bind; [exact sync_T | apply stable_get_self, keeps_sync_refl | intros v].
  apply stable_bind; [exact sync_T | | intros [step pd]].
  - unfold SheerIDApiService.precheck, SheerIDApiService.request.
    apply stable_bind; [exact sync_T | | intros [d z]; apply stable_ret, sync_R].
    apply stable_bind; [exact sync_T | | intros _].
    + apply stable_on_world_total, keeps_sync_refl.
    + apply api_request_json_stable; [exact keeps_sync_refl | exact keeps_sync_trans].
  - apply stable_bind; [exact sync_T | | intros _; apply stable_ret, sync_R].
    apply stable_modify_self. apply sync_locale.
Qed.

Lemma deps_sync : deps_stable Sync (deps env) (host env).
Proof.
  constructor; simpl; intros;
    try apply lift_stable;
    try (apply as_dep_stable;
         first [ apply do_precheck_sync | apply ensure_browser_sync
               | apply ensure_form_stable | apply wait_network_idle_soft_stable ]);
    try (intros ?; apply keeps_sync_refl);
    try exact keeps_sync_refl; try exact keeps_sync_trans;
    try (intros; apply sync_same; reflexivity);
    try (unfold lift_total; cbn [self]; assumption).
  - apply as_dep_stable. unfold new_page_dep.
    apply stable_bind; [exact sync_T | apply stable_get_self, keeps_sync_refl | intros v].
    destruct (context v); [apply stable_on_world, keeps_sync_refl | apply stable_raise, sync_R].
  - match goal with H : Some _ = Some _ |- _ => inversion H; subst end.
    apply lift_stable. exact keeps_sync_refl.
Qed.

Lemma verify_steps_sync a1 a2 a3 a4 a5 : stable Sync (verify_steps env a1 a2 a3 a4 a5).
Proof.
  unfold verify_steps.
  apply stable_bind; [exact sync_T| |intros [f l]].
  - destruct (_ || _).
    + apply stable_bind; [exact sync_T| |intros].
      * apply stable_on_world, keeps_sync_refl.
      * apply stable_ret, sync_R.
    + apply stable_ret, sync_R.
  - destruct (negb _).
    + apply stable_raise, sync_R.
    + cbv zeta. destruct (config.some_nonempty _).
      2:{ apply stable_raise, sync_R. }
      apply stable_bind; [exact sync_T| |intros].
      { destruct (given a4).
        - apply stable_ret, sync_R.
        - apply stable_on_world, keeps_sync_refl. }
      apply stable_bind; [exact sync_T| |intros].
      { apply ensure_form_stable;
          first [ exact keeps_sync_refl | exact keeps_sync_trans
                | intros; apply sync_same; reflexivity ]. }
      apply stable_bind; [exact sync_T| |intros].
      { apply stable_get_self, keeps_sync_refl. }
      apply stable_bind; [exact sync_T| |intros].
      { apply run_stable; [exact sync_R | exact sync_T | apply deps_sync]. }
      apply stable_ret, sync_R.
Qed.

Lemma verify_sync a1 a2 a3 a4 a5 : stable Sync (verify env a1 a2 a3 a4 a5).
Proof.
  unfold verify, verify_body.
  apply stable_try; [exact sync_T | | intros e].
  - apply stable_bind; [exact sync_T | apply stable_get_self, keeps_sync_refl | intros v].
    destruct (_has_run v); [apply stable_raise, sync_R|].
    apply stable_bind; [exact sync_T | | intros _; apply verify_steps_sync].
    apply stable_modify_self. intros x. apply sync_same; reflexivity.
  - apply stable_bind; [exact sync_T | apply stable_get_self, keeps_sync_refl | intros v].
    apply stable_ret, sync_R.
Qed.

Lemma close_sync (browser_mgr_close : W -> outcome unit * W) :
  stable Sync (@close W orch_call browser_mgr_close).
Proof.
  intros st. destruct (close_run browser_mgr_close orch_call st) as (w & -> & _).
  apply sync_same; reflexivity.
Qed.
End Methods.
End LanguageSync.

Section UploadProofs.
Import SheerIDClient Upload.

Lemma min10_comp x y : (x == y)%Q -> (Qmin 10 x == Qmin 10 y)%Q.
Proof.
  intros E.
  destruct (Q.min_spec 10 x) as [[A1 A2]|[A1 A2]];
    destruct (Q.min_spec 10 y) as [[B1 B2]|[B1 B2]];
    rewrite A2, B2; lra.
Qed.

(** Up to attempt 1023 the pause is [min(10, 2^k / 2)], computed
    without rounding. *)
Lemma upload_backoff_ok k :
  0 <= k < 1024 ->
  exists q, upload_backoff_sec k = Ok q
            /\ (q == Qmin 10 ((1 # 2) * inject_Z (2 ^ k)))%Q.
Proof.
  intros Hk. unfold upload_backoff_sec.
  destruct (float_of_pow2 k ltac:(lia)) as [A _].
  destruct (A ltac:(lia)) as (b & E & B). rewrite E.
  eexists. split; [reflexivity|]. apply min10_comp. unfold PyFloat.mul.
  assert (P : ((1 # 2) * b == inject_Z (2 ^ k) * (1 # 2))%Q)
    by (rewrite B, (pow2_inject k) by lia; ring).
  destruct (Z.eq_dec k 0) as [->|Nz].
  - rewrite (nearest_comp _ (1 # 2)) by (rewrite P; reflexivity).
    vm_compute. reflexivity.
  - assert (H : ((1 # 2) * b == PyFloat.pow2 (k - 1))%Q).
    { replace (k - 1) with (k + -1) by lia. rewrite pow2_plus, B. 
      change (PyFloat.pow2 (-1)) with (/ 2)%Q. field. }
    rewrite (nearest_exact _ (k - 1) ltac:(lia) H).
    rewrite <- H, B, (pow2_inject k) by lia. reflexivity.
Qed.

(** From attempt 1024 on it raises. *)
Lemma upload_backoff_overflow k :
  1024 <= k -> upload_backoff_sec k = Raise PyFloat.overflow_error.
Proof.
  intros Hk. unfold upload_backoff_sec.
  destruct (float_of_pow2 k ltac:(lia)) as [_ A].
  rewrite (A Hk). reflexivity.
Qed.

Lemma env_int_raises getenv k d e :
  env_int getenv k d = Raise e -> e = value_error.
Proof.
  unfold env_int. destruct (VerificationOrchestrator.int_of_string _); [discriminate|].
  intros X; inversion X; reflexivity.
Qed.

Section Loop.
Context {S : Type}.
Variable put : string -> list (string * string) -> string -> Z ->
               S -> outcome response * S.
Variables (url data ct : string) (timeout : Z).

Lemma upload_loop_spec n : forall k s,
  exists res s' l,
    upload_loop put url data ct timeout n k s = (res, s', l)
    /\ upload_log url data ct timeout k n res l.
Proof.
  induction n as [|n IH]; intros k s; cbn [upload_loop].
  - eexists _, _, _. split; [reflexivity | apply ul_exhausted].
  - unfold bind at 1, try_except, do_put. unfold bind at 1.
    destruct (put url [("Content-Type", ct)] data timeout s) as [[resp|e] s1] eqn:P.
    + unfold ret at 1. cbn [app].
      destruct (is_2xx (status resp)) eqn:A.
      * unfold ret. cbn. eexists _, _, _. split; [reflexivity|].
        apply ul_accepted. exact A.
      * destruct (upload_backoff_sec k) as [q|e] eqn:Q.
        -- unfold bind, emit.
           destruct (IH (k + 1) s1) as (res & s' & l & E & L). rewrite E. cbn.
           eexists _, _, _. split; [reflexivity|].
           apply ul_refused; [exact A | exact Q | exact L].
        -- unfold raise. cbn. eexists _, _, _. split; [reflexivity|].
           apply ul_overflow; [exact A | exact Q].
    + unfold ret at 1.
      destruct (upload_backoff_sec k) as [q|e'] eqn:Q.
      * unfold bind, emit.
        destruct (IH (k + 1) s1) as (res & s' & l & E & L). rewrite E. cbn.
        eexists _, _, _. split; [reflexivity|].
        apply ul_refused; [reflexivity | exact Q | exact L].
      * unfold raise. cbn. eexists _, _, _. split; [reflexivity|].
        apply ul_overflow; [reflexivity | exact Q].
Qed.
End Loop.

(** What the shape of the log says. *)
Lemma upload_log_facts url data ct timeout k n res l :
  upload_log url data ct timeout k n res l -> 0 <= k ->
  (List.length (puts l) <= n)%nat
  /\ Forall (fun r => accepted r = false) (removelast (puts l))
  /\ (res = Ok true ->
      accepted (last (puts l) (Raise "")) = true
      /\ Datatypes.S (List.length (pauses l)) = List.length (puts l))
  /\ (res = Ok false ->
      accepted (last (puts l) (Raise "")) = false
      /\ List.length (puts l) = n /\ List.length (pauses l) = n)
  /\ (forall e, res = Raise e ->
      e = PyFloat.overflow_error
      /\ accepted (last (puts l) (Raise "")) = false
      /\ Datatypes.S (List.length (pauses l)) = List.length (puts l)
      /\ 1024 <= k + Z.of_nat (List.length (pauses l)))
  /\ k + Z.of_nat (List.length (pauses l)) <= Z.max k 1024
  /\ (forall i q, nth_error (pauses l) i = Some q ->
        (q == Qmin 10 ((1 # 2) * inject_Z (2 ^ (k + Z.of_nat i))))%Q).
Proof.
  induction 1 as [k|k n r A|k n r q res rest A Q L IH|k n r e A Q]; intros Hk.
  - simpl. split; [lia|]. split; [apply Forall_nil|].
    split; [intros X; discriminate X|].
    split; [intros _; repeat split; reflexivity|].
    split; [intros e X; discriminate X|]. split; [lia|].
    intros [|i] q X; discriminate X.
  - simpl. split; [lia|]. split; [apply Forall_nil|].
    split; [intros _; split; [exact A | reflexivity]|].
    split; [intros X; discriminate X|].
    split; [intros e X; discriminate X|]. split; [lia|].
    intros [|i] q X; discriminate X.
  - assert (Lt : k < 1024).
    { destruct (Z_lt_le_dec k 1024) as [X|X]; [exact X|].
      rewrite (upload_backoff_overflow k X) in Q. discriminate Q. }
    destruct (upload_backoff_ok k ltac:(lia)) as (q' & Q' & Eq).
    rewrite Q in Q'. inversion Q'; subst q'. clear Q'.
    destruct (IH ltac:(lia)) as (I1 & I2 & I3 & I4 & I5 & I6 & I7).
    change (puts (_ :: _ :: rest)) with (r :: puts rest).
    change (pauses (_ :: _ :: rest)) with (q :: pauses rest).
    assert (Last : forall b, (res = Ok b \/ exists e, res = Raise e) ->
              puts rest <> [] \/ res = Ok false).
    { intros b _. destruct (puts rest) as [|p ps] eqn:E; [|left; discriminate].
      right. inversion L; subst; try discriminate E; reflexivity. }
    assert (LastEq : puts rest <> [] ->
              last (r :: puts rest) (Raise "") = last (puts rest) (Raise "")).
    { destruct (puts rest); [congruence | reflexivity]. }
    split; [simpl; lia|].
    split.
    { destruct (puts rest) as [|p ps] eqn:E; [constructor|].
      change (removelast (r :: p :: ps)) with (r :: removelast (p :: ps)).
      constructor; assumption. }
    split.
    { intros T. destruct (I3 T) as [T1 T2].
      destruct (Last true (or_introl T)) as [N|N]; [|congruence].
      rewrite (LastEq N). split; [exact T1 | simpl; lia]. }
    split.
    { intros F. destruct (I4 F) as (F1 & F2 & F3).
      split; [|simpl; lia].
      destruct (puts rest) as [|p ps] eqn:E; [exact A | exact F1]. }
    split.
    { intros e X. destruct (I5 e X) as (X1 & X2 & X3 & X4).
      split; [exact X1|].
      destruct (Last true (or_intror (ex_intro _ e X))) as [N|N]; [|congruence].
      rewrite (LastEq N). split; [exact X2|]. split; [simpl; lia|].
      cbn [List.length]. lia. }
    split; [cbn [List.length]; lia|].
    intros [|i] q0 X.
    + simpl in X. inversion X; subst q0. rewrite Z.add_0_r. exact Eq.
    + simpl in X. rewrite (I7 i q0 X).
      replace (k + 1 + Z.of_nat i) with (k + Z.of_nat (Datatypes.S i)) by lia.
      reflexivity.
  - assert (Ge : 1024 <= k).
    { destruct (Z_lt_le_dec k 1024) as [X|X]; [|exact X].
      destruct (upload_backoff_ok k ltac:(lia)) as (q' & Q' & _). congruence. }
    rewrite (upload_backoff_overflow k Ge) in Q. inversion Q; subst e.
    simpl. split; [lia|]. split; [apply Forall_nil|].
    split; [intros X; discriminate X|].
    split; [intros X; discriminate X|].
    split; [intros e' X; inversion X; subst e'; repeat split; [exact A | lia]|].
    split; [lia|].
    intros [|i] q X; discriminate X.
Qed.
End UploadProofs.

(** X13.  [upload_to_s3] reads its two numbers from the environment
    before anything else ([ONE_SHEERID_S3_UPLOAD_MAX_ATTEMPTS], 2 when
    unset or empty, and [ONE_SHEERID_S3_UPLOAD_TIMEOUT_MS], 60000): a
    text that is not a number raises [ValueError] before any attempt.
    Otherwise it makes at least one and at most [max(1, max_attempts)]
    attempts, and never more than 1025, each the same [PUT]; an attempt
    is accepted when it answered a status of [200, 300); it returns
    [True] exactly when its last attempt was accepted, every earlier
    attempt having been refused or having failed; after every refused
    or failed attempt, the last one included, it pauses
    [min(10, 0.5 * 2^k)] seconds, [k] being the index of the attempt, so
    that an upload that returns [False] has paused as many times as it
    has tried.  It raises only when the attempt of index 1024 is
    refused, the pause being then beyond the floats: with at most 1024
    attempts it returns. *)
Theorem upload_to_s3_contract :
  forall (S : Type)
         (put : string -> list (string * string) -> string -> Z ->
                S -> outcome SheerIDClient.response * S)
         (getenv : string -> option string)
         (upload_url file_data content_type : string) (s : S),
    let x := Upload.upload_to_s3 put getenv upload_url file_data content_type s in
    let log := log_of x in
    let env_attempts := Upload.env_int getenv "ONE_SHEERID_S3_UPLOAD_MAX_ATTEMPTS" "2" in
    let env_timeout := Upload.env_int getenv "ONE_SHEERID_S3_UPLOAD_TIMEOUT_MS" "60000" in
    ((exists e, env_attempts = Raise e \/ env_timeout = Raise e) ->
     result_of x = Raise Upload.value_error /\ log = [] /\ state_of x = s)
    /\ (forall m timeout,
          env_attempts = Ok m -> env_timeout = Ok timeout ->
          let n := Z.to_nat (Z.max 1 m) in
          Upload.upload_log upload_url file_data content_type timeout 0 n (result_of x) log
          /\ (1 <= List.length (Upload.puts log) <= n)%nat
          /\ (List.length (Upload.puts log) <= 1025)%nat
          /\ Forall (fun r => Upload.accepted r = false) (removelast (Upload.puts log))
          /\ (result_of x = Ok true <->
              Upload.accepted (last (Upload.puts log) (Raise "")) = true)
          /\ (result_of x = Ok false ->
              List.length (Upload.puts log) = n /\ List.length (Upload.pauses log) = n)
          /\ (result_of x = Ok true ->
              Datatypes.S (List.length (Upload.pauses log))
              = List.length (Upload.puts log))
          /\ (forall e, result_of x = Raise e ->
                e = PyFloat.overflow_error
                /\ List.length (Upload.puts log) = 1025%nat
                /\ List.length (Upload.pauses log) = 1024%nat)
          /\ ((n <= 1024)%nat -> exists b, result_of x = Ok b)
          /\ (forall i q, nth_error (Upload.pauses log) i = Some q ->
                (q == Qmin 10 ((1 # 2) * inject_Z (2 ^ Z.of_nat i)))%Q
                /\ (q <= 10)%Q))
    /\ (forall r, Upload.accepted r = true <->
                  exists resp, r = Ok resp
                               /\ 200 <= SheerIDClient.status resp < 300)
    /\ Upload.env_int (fun _ => None) "ONE_SHEERID_S3_UPLOAD_MAX_ATTEMPTS" "2" = Ok 2
    /\ Upload.env_int (fun _ => Some "") "ONE_SHEERID_S3_UPLOAD_MAX_ATTEMPTS" "2" = Ok 2
    /\ Upload.env_int (fun _ => None) "ONE_SHEERID_S3_UPLOAD_TIMEOUT_MS" "60000" = Ok 60000
    /\ Upload.env_int (fun _ => Some "two") "ONE_SHEERID_S3_UPLOAD_MAX_ATTEMPTS" "2"
       = Raise Upload.value_error.
Proof.
  intros S put getenv url data ct s x log ea et.
  split.
  { intros (e & Raised). subst ea et log x.
    unfold Upload.upload_to_s3.
    destruct (Upload.env_int getenv "ONE_SHEERID_S3_UPLOAD_MAX_ATTEMPTS" "2")
      as [m|e1] eqn:Ea.
    - destruct (Upload.env_int getenv "ONE_SHEERID_S3_UPLOAD_TIMEOUT_MS" "60000")
        as [t0|e2] eqn:Et.
      + exfalso. destruct Raised as [X|X]; discriminate X.
      + rewrite (env_int_raises _ _ _ _ Et). repeat split; reflexivity.
    - rewrite (env_int_raises _ _ _ _ Ea). repeat split; reflexivity. }
  split.
  { intros m timeout Em Et n.
    assert (X : x = Upload.upload_loop put url data ct timeout n 0 s).
    { unfold x, Upload.upload_to_s3. subst ea et. rewrite Em, Et. reflexivity. }
    destruct (upload_loop_spec put url data ct timeout n 0 s) as (res & s' & l & E & L).
    assert (R : result_of x = res) by (rewrite X, E; reflexivity).
    assert (Lg : log = l) by (unfold log; rewrite X, E; reflexivity).
    rewrite R, Lg. clear R Lg X.
    split; [exact L|].
    destruct (upload_log_facts _ _ _ _ _ _ _ _ L ltac:(lia))
      as (F1 & F2 & F3 & F4 & F5 & F6 & F7).
    assert (Hn : (1 <= n)%nat) by (unfold n; lia).
    assert (Len : (1 <= List.length (Upload.puts l) <= n)%nat
                  /\ (List.length (Upload.puts l) <= 1025)%nat).
    { destruct res as [[|]|e].
      - destruct (F3 eq_refl). lia.
      - destruct (F4 eq_refl) as (_ & A & B). lia.
      - destruct (F5 e eq_refl) as (_ & _ & A & _). lia. }
    destruct Len as [Len1 Len2].
    split; [exact Len1|]. split; [exact Len2|]. split; [exact F2|].
    split.
    { split.
      - intros T. apply (F3 T).
      - intros A. destruct res as [[|]|e]; [reflexivity | |].
        + destruct (F4 eq_refl) as (B & _). congruence.
        + destruct (F5 e eq_refl) as (_ & B & _). congruence. }
    split; [intros F; apply (F4 F)|].
    split; [intros T; apply (F3 T)|].
    split.
    { intros e E'. destruct (F5 e E') as (A & _ & B & C). split; [exact A|]. lia. }
    split.
    { intros Small. destruct res as [b|e]; [exists b; reflexivity|].
      destruct (F5 e eq_refl) as (_ & _ & B & C). lia. }
    intros i q N. pose proof (F7 i q N) as Q. rewrite Z.add_0_l in Q.
    split; [exact Q|]. rewrite Q. apply Q.le_min_l. }
  split.
  { intros r. unfold Upload.accepted, Upload.is_2xx. split.
    - destruct r as [resp|e]; [|discriminate]. intros A.
      apply andb_true_iff in A. destruct A as [A B].
      apply Z.leb_le in A. apply Z.ltb_lt in B. exists resp. split; [reflexivity | lia].
    - intros (resp & -> & A & B). apply andb_true_iff.
      split; [apply Z.leb_le | apply Z.ltb_lt]; assumption. }
  repeat split.
Qed.

Section PacingProofs.
Import SheerIDClient ClientLog Pacing.

Lemma paced_facts self method url data k l :
  paced self method url data k l -> 0 <= k ->
  List.length (fetches l) = Datatypes.S (List.length (sleeps l))
  /\ Forall (fun q => (q <= backoff_cap_sec (settings self))%Q) (sleeps l)
  /\ k + Z.of_nat (List.length (sleeps l)) <= Z.max k 1024
  /\ (forall i q, nth_error (sleeps l) i = Some q ->
        exists j, _compute_backoff_sec self (k + Z.of_nat i) j = Ok q)
  /\ exists r rest, l = CFetch method url (request_headers self) data r :: rest.
Proof.
  induction 1 as [k r|k r j q rest Q P IH]; intros Hk.
  - simpl. split; [reflexivity|]. split; [constructor|]. split; [lia|].
    split; [intros [|i] q X; discriminate X|]. eexists _, _; reflexivity.
  - destruct (IH ltac:(lia)) as (I1 & I2 & I3 & I4 & _).
    assert (Lt : k < 1024).
    { destruct (Z_lt_le_dec k 1024) as [X|X]; [exact X|].
      rewrite (backoff_overflow self k j X) in Q. discriminate Q. }
    change (fetches (_ :: _ :: rest)) with (r :: fetches rest).
    change (sleeps (_ :: _ :: rest)) with (q :: sleeps rest).
    split; [simpl; lia|].
    split; [constructor; [apply (backoff_le_cap self k j q Q) | exact I2]|].
    split; [cbn [List.length]; lia|].
    split; [|eexists _, _; reflexivity].
    intros [|i] q0 X.
    + simpl in X. inversion X; subst q0. exists j. rewrite Z.add_0_r. exact Q.
    + simpl in X. destruct (I4 i q0 X) as (j0 & E). exists j0.
      replace (k + Z.of_nat (Datatypes.S i)) with (k + 1 + Z.of_nat i) by lia. exact E.
Qed.

Section Loop.
Context {S : Type}.
Variable fetch : string -> string -> list (string * string) -> option dict ->
                 S -> outcome response * S.
Variable uniform01 : S -> Q * S.
Variable self : t.
Variables (method url : string) (body : option dict).

Lemma request_loop_paced n : forall attempt v s,
  (1 <= n)%nat -> attempt + Z.of_nat n = max_retries (settings self) + 1 ->
  paced self method url (json_body body) attempt
        (log_of (request_loop fetch uniform01 self method url body n attempt v s)).
Proof.
  induction n as [|n IH]; intros attempt v s Hn Hsum; [lia|].
  cbn [request_loop]. rewrite log_bind.
  destruct (iteration_spec fetch uniform01 self method url body attempt v s)
    as (r & s1 & l & out & E & Cases).
  rewrite E. unfold log_of at 1, result_of, state_of. cbn [fst snd].
  destruct Cases as [(C & L & O)|[(R & Lt & Lo & v' & j & q & O & Q & L)
                                 |(R & Lt & Hi & O & L)]]; subst out l.
  - destruct (attempt_result r) as [a|e]; cbn; apply paced_last.
  - cbn [app]. apply paced_retry with (j := j); [exact Q|]. apply IH; lia.
  - cbn. apply paced_last.
Qed.
End Loop.
End PacingProofs.

(** X14.  [request_json] sends the same request at every attempt
    (method, URL, the headers of the client, the body, no data when
    the body is empty), and pauses only between two attempts: each
    attempt that is retried is followed by the backoff pause of its
    index, which never exceeds the cap, and the last attempt by
    nothing; there are at most 1024 pauses, the pause of a later index
    being beyond the floats. *)
Theorem request_json_pacing :
  forall (S : Type)
         (fetch : string -> string -> list (string * string) -> option dict ->
                  S -> outcome SheerIDClient.response * S)
         (uniform01 : S -> Q * S) (self : SheerIDClient.t) (method url : string)
         (body : option dict) (s : S),
    0 <= SheerIDClient.max_retries (SheerIDClient.settings self) ->
    let log := log_of (SheerIDClient.request_json fetch uniform01 self method url body s) in
    Pacing.paced self method url (SheerIDClient.json_body body) 0 log
    /\ List.length (ClientLog.fetches log) = Datatypes.S (List.length (Pacing.sleeps log))
    /\ Forall (fun q => (q <= SheerIDClient.backoff_cap_sec (SheerIDClient.settings self))%Q)
              (Pacing.sleeps log)
    /\ (List.length (Pacing.sleeps log) <= 1024)%nat
    /\ (forall i q, nth_error (Pacing.sleeps log) i = Some q ->
          exists j, SheerIDClient._compute_backoff_sec self (Z.of_nat i) j = Ok q)
    /\ SheerIDClient.json_body (Some []) = None
    /\ (forall kv d, SheerIDClient.json_body (Some (kv :: d)) = Some (kv :: d)).
Proof.
  intros S fetch uniform01 self method url body s H log.
  assert (P : Pacing.paced self method url (SheerIDClient.json_body body) 0 log).
  { unfold log, SheerIDClient.request_json. apply request_loop_paced; lia. }
  split; [exact P|].
  destruct (paced_facts _ _ _ _ _ _ P ltac:(lia)) as (A & B & C & D & _).
  split; [exact A|]. split; [exact B|]. split; [lia|].
  split; [intros i q N; destruct (D i q N) as (j & E); exists j; exact E|].
  split; reflexivity.
Qed.

(** A transport that answers 503 and then 200: two attempts and one
    pause, of 1.5 seconds, between them. *)
Lemma request_json_pacing_witness :
  let log := log_of (SheerIDClient.request_json SimApi.fetch SimApi.uniform01 SimApi.client
                       "GET" "u" None
                       [SimApi.json_response 503 []; SimApi.json_response 200 []]) in
  0 <= SheerIDClient.max_retries (SheerIDClient.settings SimApi.client)
  /\ List.length (ClientLog.fetches log) = 2%nat
  /\ exists q, Pacing.sleeps log = [q] /\ (q == 3 # 2)%Q.
Proof.
  assert (H : 0 <= SheerIDClient.max_retries (SheerIDClient.settings SimApi.client))
    by (vm_compute; discriminate).
  pose proof (request_json_pacing _ SimApi.fetch SimApi.uniform01 SimApi.client "GET" "u"
                None [SimApi.json_response 503 []; SimApi.json_response 200 []] H) as P.
  cbv zeta in P |- *. destruct P as (_ & L & _).
  split; [exact H|]. split; [rewrite L; vm_compute; reflexivity|].
  eexists. split; [vm_compute; reflexivity | vm_compute; reflexivity].
Defined.

Section BindFacts.
Context {S E : Type}.

Lemma bind_ret_l {A B} (a : A) (k : A -> M S E B) s : bind (ret a) k s = k a s.
Proof. unfold bind, ret. destruct (k a s) as [[r s2] l2]. reflexivity. Qed.

Lemma try_cong {A} (m m' : M S E A) (h : exn -> M S E A) s :
  m s = m' s -> try_except m h s = try_except m' h s.
Proof. unfold try_except. intros ->. reflexivity. Qed.
End BindFacts.

Section FieldProofs.
Import FormFiller FormFields.

Section Fields.
Context {S : Type}.
Variable frame : FrameApi S.
Variable ops : FieldOps S.
Variable self : t.

Lemma human_delay_run s :
  exists s', _human_delay_if_needed ops s = (Ok tt, s', @nil ui_call).
Proof.
  unfold _human_delay_if_needed. destruct (human_delay_fn ops) as [fn|].
  - unfold try_except, call, ret. destruct (fn s) as [[[]|e] s1]; eexists; reflexivity.
  - eexists; reflexivity.
Qed.

Lemma sleep_run q s :
  exists s', _sleep frame q s = (Ok tt, s', if Qle_bool q 0 then [] else [Sleep q]).
Proof.
  unfold _sleep. destruct (Qle_bool q 0); eexists; reflexivity.
Qed.

(** The steps common to the end of [fill_text] and of [click_submit]. *)
Lemma settle_run q s :
  exists s',
    bind (_human_delay_if_needed ops) (fun _ => _sleep frame q) s
    = (Ok tt, s', if Qle_bool q 0 then [] else [Sleep q]).
Proof.
  unfold bind. destruct (human_delay_run s) as (s1 & H). rewrite H.
  destruct (sleep_run q s1) as (s2 & Z). rewrite Z. eexists; reflexivity.
Qed.

Lemma guarded_fill loc value s :
  exists s' log,
    try_except
      (act (Click loc) (click frame loc) ;;;
       act (Fill loc "") (fill frame loc "") ;;;
       act (TypeText loc value) (type_text frame loc value) ;;;
       _human_delay_if_needed ops ;;;
       _sleep frame (after_field_sec (delays self)))%m
      (fun _ => ret tt) s
    = (Ok tt, s', log)
    /\ match click frame loc s with
       | (Raise _, s1) => log = [Click loc] /\ s' = s1
       | (Ok _, s1) =>
           match fill frame loc "" s1 with
           | (Raise _, s2) => log = [Click loc; Fill loc ""] /\ s' = s2
           | (Ok _, s2) =>
               match type_text frame loc value s2 with
               | (Raise _, s3) =>
                   log = [Click loc; Fill loc ""; TypeText loc value] /\ s' = s3
               | (Ok _, _) =>
                   log = [Click loc; Fill loc ""; TypeText loc value]
                         ++ (if Qle_bool (after_field_sec (delays self)) 0 then []
                             else [Sleep (after_field_sec (delays self))])
               end
           end
       end.
Proof.
  unfold try_except.
  unfold bind at 1. rewrite act_run by exact frame.
  destruct (click frame loc s) as [[[]|e] s1]; cbn [fst snd];
    [|eexists _, _; split; [reflexivity | split; reflexivity]].
  unfold bind at 1. rewrite act_run by exact frame.
  destruct (fill frame loc "" s1) as [[[]|e] s2]; cbn [fst snd];
    [|eexists _, _; split; [reflexivity | split; reflexivity]].
  unfold bind at 1. rewrite act_run by exact frame.
  destruct (type_text frame loc value s2) as [[[]|e] s3]; cbn [fst snd];
    [|eexists _, _; split; [reflexivity | split; reflexivity]].
  destruct (settle_run (after_field_sec (delays self)) s3) as (s4 & Z). rewrite Z.
  eexists _, _. split; reflexivity.
Qed.

Lemma fill_text_spec key value s :
  exists s' log,
    fill_text frame ops self key value s = (Ok tt, s', log)
    /\ match field_selector (selectors ops key) with
       | None => log = [] /\ s' = s
       | Some loc =>
           match click frame loc s with
           | (Raise _, s1) => log = [Click loc] /\ s' = s1
           | (Ok _, s1) =>
               match fill frame loc "" s1 with
               | (Raise _, s2) => log = [Click loc; Fill loc ""] /\ s' = s2
               | (Ok _, s2) =>
                   match type_text frame loc value s2 with
                   | (Raise _, s3) =>
                       log = [Click loc; Fill loc ""; TypeText loc value] /\ s' = s3
                   | (Ok _, _) =>
                       log = [Click loc; Fill loc ""; TypeText loc value]
                             ++ (if Qle_bool (after_field_sec (delays self)) 0 then []
                                 else [Sleep (after_field_sec (delays self))])
                   end
               end
           end
       end.
Proof.
  unfold fill_text, _locator.
  destruct (selectors ops key) as [|raw|[|sel rest]]; cbn [field_selector].
  - rewrite (try_cong _ _ _ _ (bind_ret_l _ _ _)). apply guarded_fill.
  - rewrite (try_cong _ _ _ _ (bind_ret_l _ _ _)). apply guarded_fill.
  - unfold try_except, bind, raise, ret. cbn.
    eexists _, _. split; [reflexivity | split; reflexivity].
  - rewrite (try_cong _ _ _ _ (bind_ret_l _ _ _)). apply guarded_fill.
Qed.

(** One checkbox: it never raises out of its [try], clicks at most its
    own box, and counts only a click. *)
Lemma tick_spec sel s :
  exists r s' l,
    try_except (tick frame ops sel) (fun _ => ret false) s = (Ok r, s', l)
    /\ (l = [] \/ l = [Click sel])
    /\ (r = true -> l = [Click sel]).
Proof.
  unfold try_except, tick, bind at 1, call at 1.
  destruct (count frame sel s) as [[n|e] s1]; cbn [fst snd app];
    [|eexists _, _, _; split; [reflexivity|]; split; [left; reflexivity | discriminate]].
  destruct (0 <? n)%nat;
    [|eexists _, _, _; split; [reflexivity|]; split; [left; reflexivity | discriminate]].
  unfold bind at 1, call at 1.
  destruct (is_visible frame sel s1) as [[v|e] s2]; cbn [fst snd app];
    [|eexists _, _, _; split; [reflexivity|]; split; [left; reflexivity | discriminate]].
  destruct v;
    [|eexists _, _, _; split; [reflexivity|]; split; [left; reflexivity | discriminate]].
  unfold bind at 1, call at 1.
  destruct (is_checked ops sel s2) as [[c|e] s3]; cbn [fst snd app];
    [|eexists _, _, _; split; [reflexivity|]; split; [left; reflexivity | discriminate]].
  destruct c; cbn [negb];
    [eexists _, _, _; split; [reflexivity|]; split; [left; reflexivity | discriminate]|].
  unfold bind at 1. rewrite act_run by exact frame.
  destruct (click frame sel s3) as [[[]|e] s4]; cbn [fst snd app];
    eexists _, _, _; (split; [reflexivity|]); split; try (right; reflexivity);
    try discriminate; intros; reflexivity.
Qed.

Lemma clicks_app a b : clicks (a ++ b) = clicks a ++ clicks b.
Proof. apply flat_map_app. Qed.

Lemma tick_all_spec cands : forall checked s,
  exists c s' l,
    tick_all frame ops cands checked s = (Ok c, s', l)
    /\ checked <= c <= checked + Z.of_nat (List.length (clicks l))
    /\ Subseq (clicks l) cands
    /\ l = map Click (clicks l).
Proof.
  induction cands as [|sel rest IH]; intros checked s; cbn [tick_all].
  - eexists _, _, _. split; [reflexivity|]. simpl.
    split; [lia|]. split; [apply Subseq_nil | reflexivity].
  - unfold bind at 1.
    destruct (tick_spec sel s) as (r & s1 & l1 & E & L & R). rewrite E.
    destruct (IH (if r then checked + 1 else checked) s1) as (c & s2 & l2 & E2 & B & Q & M).
    rewrite E2. eexists _, _, _. split; [reflexivity|].
    rewrite clicks_app.
    destruct L as [->| ->].
    + cbn [clicks flat_map app List.length].
      destruct r; [specialize (R eq_refl); discriminate R|].
      split; [lia|]. split; [apply Subseq_skip; exact Q | exact M].
    + change (clicks [Click sel]) with [sel]. cbn [app List.length map].
      split; [destruct r; lia|]. split; [apply Subseq_take; exact Q|].
      f_equal. exact M.
Qed.

Lemma check_all_spec s :
  exists c s' l,
    check_all_visible_checkboxes frame ops s = (Ok c, s', l)
    /\ 0 <= c <= Z.of_nat (List.length (clicks l))
    /\ c <= 7
    /\ Subseq (clicks l) (consent_candidates ++ [consent_fallback])
    /\ l = map Click (clicks l)
    /\ (In consent_fallback (clicks l) -> c <= 1).
Proof.
  unfold check_all_visible_checkboxes, bind at 1.
  destruct (tick_all_spec consent_candidates 0 s) as (c & s1 & l1 & E & B & Q & M).
  rewrite E.
  assert (Len : (List.length (clicks l1) <= 7)%nat).
  { clear -Q. assert (G : forall (a b : list string), Subseq a b ->
                                                       (List.length a <= List.length b)%nat)
      by (induction 1; simpl; lia).
    apply G in Q. exact Q. }
  assert (NotIn : ~ In consent_fallback (clicks l1)).
  { intros I. apply (Subseq_In _ _ Q) in I. vm_compute in I.
    repeat (destruct I as [I|I]; [discriminate I|]). exact I. }
  destruct (c =? 0) eqn:Z0.
  - apply Z.eqb_eq in Z0. subst c. unfold bind at 1.
    destruct (tick_spec consent_fallback s1) as (r & s2 & l2 & E2 & L & R). rewrite E2.
    unfold ret. eexists _, _, _. split; [reflexivity|].
    destruct L as [->| ->]; cbn [app]; rewrite clicks_app, map_app, <- M.
    + cbn [clicks flat_map app map]. rewrite !app_nil_r.
      destruct r; [specialize (R eq_refl); discriminate R|].
      split; [lia|]. split; [lia|].
      split; [rewrite <- (app_nil_r (clicks l1)); apply Subseq_app;
              [exact Q | apply Subseq_nil]|].
      split; [reflexivity | intros; lia].
    + change (clicks [Click consent_fallback]) with [consent_fallback].
      rewrite length_app. cbn [List.length map].
      split; [destruct r; lia|]. split; [destruct r; lia|].
      split; [apply Subseq_app; [exact Q | apply Subseq_refl]|].
      split; [reflexivity | intros; destruct r; lia].
  - unfold ret. eexists _, _, _. split; [reflexivity|]. rewrite app_nil_r.
    split; [lia|]. split; [lia|].
    split; [rewrite <- (app_nil_r (clicks l1)); apply Subseq_app;
            [exact Q | apply Subseq_nil]|].
    split; [exact M|]. intros I. contradiction.
Qed.

Lemma submit_tail target s :
  exists r s' l,
    (act (Click target) (click frame target) ;;;
     _human_delay_if_needed ops ;;;
     _sleep frame (after_submit_sec (delays self)))%m s = (r, s', l)
    /\ clicks l = [target].
Proof.
  unfold bind at 1. rewrite act_run by exact frame.
  destruct (click frame target s) as [[[]|e] s3]; cbn [fst snd app log_of state_of].
  - destruct (settle_run (after_submit_sec (delays self)) s3) as (s4 & Z). rewrite Z.
    eexists _, _, _. split; [reflexivity|].
    destruct (Qle_bool _ 0); reflexivity.
  - eexists _, _, _. split; [reflexivity | reflexivity].
Qed.

Lemma click_submit_spec s :
  exists s' l,
    click_submit frame ops self s = (Ok tt, s', l)
    /\ hd_error l = Some (Press "body" "PageDown")
    /\ (clicks l = []
        \/ exists btn, clicks l = [btn]
                       /\ In btn [submit_testid_sel; submit_type_sel; submit_text_sel]).
Proof.
  unfold click_submit, try_except.
  unfold bind at 1. rewrite swallow_run by exact frame.
  rewrite act_run by exact frame. cbn [log_of state_of fst snd app].
  set (s0 := snd (press frame "body" "PageDown" s)).
  unfold bind at 1, call at 1.
  destruct (count frame submit_testid_sel s0) as [[n1|e] s1]; cbn [fst snd app];
    [|eexists _, _; split; [reflexivity|]; split; [reflexivity | left; reflexivity]].
  set (btn := if (n1 =? 0)%nat then submit_type_sel else submit_testid_sel).
  assert (Hb : In btn [submit_testid_sel; submit_type_sel; submit_text_sel])
    by (unfold btn; destruct (n1 =? 0)%nat; simpl; auto).
  unfold bind at 1, call at 1.
  destruct (count frame btn s1) as [[n2|e] s2]; cbn [fst snd app];
    [|eexists _, _; split; [reflexivity|]; split; [reflexivity | left; reflexivity]].
  assert (Hc : In submit_text_sel [submit_testid_sel; submit_type_sel; submit_text_sel])
    by (simpl; auto).
  destruct (negb (n2 =? 0)%nat);
    [destruct (submit_tail btn s2) as (r & s3 & l & E & C)
    |destruct (submit_tail submit_text_sel s2) as (r & s3 & l & E & C)];
    rewrite E; destruct r as [[]|e]; unfold ret;
    eexists _, _; (split; [reflexivity|]); (split; [reflexivity|]);
    right; eexists;
    (split; [cbn [app]; rewrite ?app_nil_r;
             change (clicks (Press "body" "PageDown" :: l)) with (clicks l); exact C
            | assumption]).
Qed.

End Fields.
End FieldProofs.

Section FrameProofs.
Import FormFields.
Context {S E Frame : Type}.
Variable Frame_eq_dec : forall a b : Frame, {a = b} + {a <> b}.
Variable main_frame : Frame.
Variable page_frames : S -> list Frame.
Variable locator_count : Frame -> string -> S -> outcome nat * S.

Lemma has_selector_run f sel s :
  exists b,
    has_selector (E:=E) locator_count f sel s = (Ok b, snd (locator_count f sel s), [])
    /\ (b = true <-> counted locator_count f sel s).
Proof.
  unfold has_selector, try_except, bind, call, ret, counted.
  destruct (locator_count f sel s) as [[n|e] s1]; cbn [fst snd app].
  - exists (0 <? n)%nat. split; [reflexivity|]. split.
    + intros H. exists n. split; [reflexivity | apply Nat.ltb_lt; exact H].
    + intros (m & [= <-] & H). apply Nat.ltb_lt. exact H.
  - exists false. split; [reflexivity|]. split; [discriminate|].
    intros (m & D & _). discriminate D.
Qed.

Hypothesis read_only : forall f sel s, snd (locator_count f sel s) = s.

Lemma first_frame_with_run sel s : forall fs,
  exists o,
    first_frame_with (E:=E) locator_count fs sel s = (Ok o, s, [])
    /\ match o with
       | Some f => In f fs /\ counted locator_count f sel s
       | None => forall f, In f fs -> ~ counted locator_count f sel s
       end.
Proof.
  induction fs as [|f rest IH]; cbn [first_frame_with].
  - exists None. split; [reflexivity|]. intros f [].
  - unfold bind at 1.
    destruct (has_selector_run f sel s) as (b & -> & Hb). rewrite read_only.
    destruct b.
    + exists (Some f). split; [reflexivity|]. split; [left; reflexivity | apply Hb; reflexivity].
    + destruct IH as (o & -> & Ho). exists o. split; [reflexivity|].
      destruct o as [g|].
      * destruct Ho. split; [right|]; assumption.
      * intros g [<-|G]; [|apply Ho; exact G].
        intros C. apply Hb in C. discriminate C.
Qed.

Lemma find_frame_run sel s :
  exists f,
    _find_frame_with_selector (E:=E) main_frame page_frames locator_count sel s
    = (Ok f, s, [])
    /\ (f = main_frame
        \/ (In f (page_frames s) /\ counted locator_count f sel s /\ ~ counted locator_count main_frame sel s)).
Proof.
  unfold _find_frame_with_selector, bind at 1.
  destruct (has_selector_run main_frame sel s) as (b & -> & Hb). rewrite read_only.
  destruct b.
  - exists main_frame. split; [reflexivity | left; reflexivity].
  - unfold bind at 1, effect at 1. cbn [app].
    unfold bind at 1.
    destruct (first_frame_with_run sel s (page_frames s)) as (o & -> & Ho).
    unfold ret. destruct o as [f|].
    + exists f. split; [reflexivity|]. right. destruct Ho as [I C].
      split; [exact I|]. split; [exact C|].
      intros C'. apply Hb in C'. discriminate C'.
    + exists main_frame. split; [reflexivity | left; reflexivity].
Qed.

Lemma locate_among_run s : forall cands,
  exists f,
    locate_among (E:=E) Frame_eq_dec main_frame page_frames locator_count cands s
    = (Ok f, s, [])
    /\ (f = main_frame
        \/ (f <> main_frame /\ In f (page_frames s)
            /\ exists sel, In sel cands /\ counted locator_count f sel s
                           /\ ~ counted locator_count main_frame sel s)).
Proof.
  induction cands as [|sel rest IH]; cbn [locate_among].
  - exists main_frame. split; [reflexivity | left; reflexivity].
  - unfold bind at 1. destruct (find_frame_run sel s) as (f & -> & Hf).
    destruct (Frame_eq_dec f main_frame) as [->|N].
    + destruct IH as (g & -> & Hg). exists g. split; [reflexivity|].
      destruct Hg as [->|(N & I & sel' & I' & C)]; [left; reflexivity|].
      right. split; [exact N|]. split; [exact I|].
      exists sel'. split; [right; exact I' | exact C].
    + exists f. split; [reflexivity|]. right.
      destruct Hf as [->|(I & C & C')]; [contradiction N; reflexivity|].
      split; [exact N|]. split; [exact I|]. exists sel.
      split; [left; reflexivity|]. split; assumption.
Qed.

(** When every candidate that some other frame holds is also in the
    main frame (or no frame holds any), the main frame is the answer. *)
Lemma locate_among_main s cands :
  (forall sel f, In sel cands -> In f (page_frames s) -> f <> main_frame ->
                 counted locator_count f sel s -> counted locator_count main_frame sel s) ->
  locate_among (E:=E) Frame_eq_dec main_frame page_frames locator_count cands s
  = (Ok main_frame, s, []).
Proof.
  intros H. destruct (locate_among_run s cands) as (f & -> & [->|(N & I & sel & J & C & C')]).
  - reflexivity.
  - contradiction C'. exact (H sel f J I N C).
Qed.
End FrameProofs.

Section BirthDateProofs.
Import FormFiller FormFields.
Context {S : Type}.
Variable frame : FrameApi S.
Variable ops : FieldOps S.
Variable self : t.

Local Abbreviation on_date := (logs (fun l : list ui_call => forallb birth_event l = true)).

Lemma on_date_app (a b : list ui_call) :
  forallb birth_event a = true -> forallb birth_event b = true ->
  forallb birth_event (a ++ b) = true.
Proof. intros A B. rewrite forallb_app, A, B. reflexivity. Qed.

Ltac date_go :=
  repeat first
    [ apply logs_ret; reflexivity
    | apply logs_raise; reflexivity
    | apply logs_call; reflexivity
    | apply logs_effect; reflexivity
    | apply logs_bind; [reflexivity | exact on_date_app | | intros]
    | apply logs_try; [reflexivity | exact on_date_app | | intros]
    | match goal with
      | |- logs _ (if ?b then _ else _) => destruct b
      end ].

Lemma on_date_sleep q : on_date (_sleep frame q).
Proof.
  unfold _sleep. destruct (Qle_bool q 0); [apply logs_ret; reflexivity|].
  apply logs_bind; [reflexivity | exact on_date_app | | intros; apply logs_effect; reflexivity].
  apply logs_emit. reflexivity.
Qed.

Lemma on_date_delay : on_date (_human_delay_if_needed ops).
Proof.
  unfold _human_delay_if_needed. destruct (human_delay_fn ops); date_go.
Qed.

Lemma on_date_act {A} ev (f : S -> outcome A * S) :
  birth_event ev = true -> on_date (act ev f).
Proof.
  intros H. unfold act.
  apply logs_bind; [reflexivity | exact on_date_app | | intros; apply logs_call; reflexivity].
  apply logs_emit. cbn [forallb]. rewrite H. reflexivity.
Qed.

Lemma month_name_known k :
  (0 <=? k - 1) && (k - 1 <? 12) = true ->
  mem_str (nth (Z.to_nat (k - 1)) months "") months = true.
Proof.
  intros H. apply andb_true_iff in H. destruct H as [H1 H2].
  apply Z.leb_le in H1. apply Z.ltb_lt in H2.
  assert (L : (Z.to_nat (k - 1) < 12)%nat) by lia.
  destruct (Z.to_nat (k - 1)) as [|[|[|[|[|[|[|[|[|[|[|[|n]]]]]]]]]]]]; try reflexivity; lia.
Qed.

Lemma on_date_check sel val_str is_month :
  mem_str sel [birth_month_sel; birth_day_sel; birth_year_sel] = true ->
  (is_month = true -> sel = birth_month_sel) ->
  on_date (_check_and_fill frame sel val_str is_month).
Proof.
  intros F Mo. unfold _check_and_fill.
  apply logs_bind; [reflexivity | exact on_date_app | apply logs_call; reflexivity | intros n].
  apply logs_bind; [reflexivity | exact on_date_app | date_go | intros shown].
  destruct (negb shown); [apply logs_ret; reflexivity|].
  apply logs_bind; [reflexivity | exact on_date_app | | intros typed].
  - destruct is_month; [|apply logs_ret; reflexivity].
    specialize (Mo eq_refl). subst sel.
    apply logs_try; [reflexivity | exact on_date_app | | intros; apply logs_ret; reflexivity].
    destruct (VerificationOrchestrator.int_of_string val_str) as [k|];
      [|apply logs_raise; reflexivity].
    cbv zeta. destruct ((0 <=? k - 1) && (k - 1 <? 12)) eqn:R; [|apply logs_ret; reflexivity].
    apply logs_bind; [reflexivity | exact on_date_app | apply on_date_act; reflexivity | intros _].
    apply logs_bind; [reflexivity | exact on_date_app | apply on_date_act; reflexivity | intros _].
    apply logs_bind; [reflexivity | exact on_date_app | | intros _].
    { apply on_date_act. cbn [birth_event]. rewrite String.eqb_refl.
      apply (month_name_known k R). }
    apply logs_bind; [reflexivity | exact on_date_app | apply on_date_sleep | intros _].
    apply logs_bind; [reflexivity | exact on_date_app | apply on_date_act; reflexivity | intros _].
    apply logs_ret; reflexivity.
  - destruct typed; [apply logs_ret; reflexivity|].
    apply logs_bind; [reflexivity | exact on_date_app | apply logs_call; reflexivity | intros v].
    destruct (is_substring val_str v); [apply logs_ret; reflexivity|].
    unfold swallow.
    apply logs_try; [reflexivity | exact on_date_app | | intros; apply logs_ret; reflexivity].
    apply logs_bind; [reflexivity | exact on_date_app | | intros; apply logs_ret; reflexivity].
    apply logs_bind; [reflexivity | exact on_date_app | apply on_date_act; exact F | intros _].
    apply logs_bind; [reflexivity | exact on_date_app | apply on_date_act; exact F | intros _].
    apply on_date_act; exact F.
Qed.

Lemma script_log d y s :
  log_of (swallow (act (SetBirthDateScript d y) (evaluate_birth_date ops d y)) s)
  = [SetBirthDateScript d y].
Proof.
  unfold swallow, try_except, act, bind, emit, call, ret, log_of.
  destruct (evaluate_birth_date ops d y s) as [[[]|e] s1]; reflexivity.
Qed.

Lemma birth_date_log birth_date y mo d s :
  parse_birth_date birth_date = Some (y, mo, d) ->
  exists rest,
    log_of (fill_birth_date_combobox frame ops birth_date s)
    = SetBirthDateScript d y :: rest
    /\ forallb birth_event rest = true.
Proof.
  intros P. unfold fill_birth_date_combobox. rewrite P.
  destruct (negb (nonempty birth_date)) eqn:N.
  { destruct birth_date; [vm_compute in P; discriminate P | discriminate N]. }
  rewrite log_bind, script_log. cbn [app]. eexists. split; [reflexivity|].
  destruct (result_of _); [|reflexivity].
  match goal with |- forallb _ (log_of (?m ?s0)) = _ =>
    assert (Q : on_date m); [|apply Q] end.
  apply logs_bind; [reflexivity | exact on_date_app | | intros _].
  { apply on_date_check; [reflexivity | reflexivity]. }
  apply logs_bind; [reflexivity | exact on_date_app | | intros _].
  { apply on_date_check; [reflexivity | discriminate]. }
  apply logs_bind; [reflexivity | exact on_date_app | | intros _].
  { apply on_date_check; [reflexivity | discriminate]. }
  apply logs_bind; [reflexivity | exact on_date_app | apply on_date_delay | intros _].
  apply logs_bind; [reflexivity | exact on_date_app | apply on_date_sleep | intros _].
  apply logs_ret; reflexivity.
Qed.

Lemma birth_date_returns birth_date :
  returns (fun b => b = match parse_birth_date birth_date with
                        | Some _ => true
                        | None => false
                        end)
          (fill_birth_date_combobox frame ops birth_date).
Proof.
  unfold fill_birth_date_combobox.
  destruct (negb (nonempty birth_date)) eqn:N.
  - apply returns_ret. destruct birth_date; [reflexivity | discriminate N].
  - destruct (parse_birth_date birth_date) as [[[y mo] d]|]; [|apply returns_ret; reflexivity].
    returns_go ltac:(reflexivity).
Qed.

Lemma birth_date_rejected birth_date s :
  parse_birth_date birth_date = None ->
  fill_birth_date_combobox frame ops birth_date s = (Ok false, s, []).
Proof.
  intros P. unfold fill_birth_date_combobox. rewrite P.
  destruct (negb (nonempty birth_date)); reflexivity.
Qed.
End BirthDateProofs.

Section MainProofs.
Import VerificationOrchestrator SheerIDVerifier Lifecycle Main.

Lemma after_prefix_spec p : forall s t,
  after_prefix p s = Some t <-> s = (p ++ t)%string.
Proof.
  induction p as [|a p IH]; intros s t; cbn [after_prefix String.append].
  - split; [intros [= ->]; reflexivity | intros ->; reflexivity].
  - destruct s as [|b s]; [split; intros X; discriminate X|].
    destruct (Ascii.eqb a b) eqn:Eab.
    + apply Ascii.eqb_eq in Eab. subst b. rewrite IH.
      split; [intros ->; reflexivity | intros [= ->]; reflexivity].
    + split; [intros X; discriminate X|].
      intros [= -> _]. rewrite Ascii.eqb_refl in Eab. discriminate Eab.
Qed.

Lemma id_run_sep_free s : sep_free (id_run s) = true.
Proof.
  induction s as [|c s IH]; [reflexivity|]. cbn [id_run].
  destruct (is_sep c) eqn:Ec; [reflexivity|]. cbn [sep_free]. rewrite Ec. exact IH.
Qed.

Lemma id_run_split s :
  exists post, s = (id_run s ++ post)%string
               /\ (post = "" \/ exists c r, post = String c r /\ is_sep c = true).
Proof.
  induction s as [|c s (post & E & P)].
  - exists "". split; [reflexivity | left; reflexivity].
  - cbn [id_run]. destruct (is_sep c) eqn:Ec.
    + exists (String c s). split; [reflexivity|]. right. exists c, s. split; [reflexivity | exact Ec].
    + exists post. split; [cbn [String.append]; rewrite <- E; reflexivity | exact P].
Qed.

Lemma id_run_id s : sep_free s = true -> id_run s = s.
Proof.
  induction s as [|c s IH]; [reflexivity|]. cbn [sep_free id_run].
  intros H. apply andb_true_iff in H. destruct H as [H1 H2].
  apply negb_true_iff in H1. rewrite H1, (IH H2). reflexivity.
Qed.

Lemma append_assoc (a b c : string) : ((a ++ b) ++ c = a ++ (b ++ c))%string.
Proof. induction a as [|x a IH]; [reflexivity|]. cbn [String.append]. rewrite IH. reflexivity. Qed.

Lemma search_vid_found url : forall v,
  search_vid url = Some v ->
  v <> "" /\ sep_free v = true
  /\ exists pre post,
       url = (pre ++ vid_key ++ v ++ post)%string
       /\ (post = "" \/ exists c r, post = String c r /\ is_sep c = true).
Proof.
  induction url as [|a rest IH]; intros v; [intros X; discriminate X|].
  assert (Next : search_vid rest = Some v ->
                 v <> "" /\ sep_free v = true
                 /\ exists pre post,
                      String a rest = (pre ++ vid_key ++ v ++ post)%string
                      /\ (post = "" \/ exists c r, post = String c r /\ is_sep c = true)).
  { intros X. destruct (IH v X) as (N & F & pre & post & E & P).
    split; [exact N|]. split; [exact F|].
    exists (String a pre), post. split; [cbn [String.append]; rewrite <- E; reflexivity | exact P]. }
  cbn [search_vid].
  destruct (after_prefix vid_key (String a rest)) as [tail|] eqn:Ea; [|exact Next].
  destruct (id_run tail) as [|c r] eqn:Er; [exact Next|].
  intros [= <-]. split; [discriminate|].
  split; [rewrite <- Er; apply id_run_sep_free|].
  apply after_prefix_spec in Ea.
  destruct (id_run_split tail) as (post & E & P). rewrite Er in E.
  exists "", post. split; [|exact P].
  rewrite Ea, E. reflexivity.
Qed.

Lemma search_vid_none url :
  search_vid url = None ->
  forall pre c post, url = (pre ++ vid_key ++ String c post)%string -> is_sep c = true.
Proof.
  induction url as [|a rest IH]; intros X pre c post E.
  - destruct pre; discriminate E.
  - cbn [search_vid] in X.
    destruct pre as [|b pre].
    + cbn [String.append] in E.
      assert (Ea : after_prefix vid_key (String a rest) = Some (String c post))
        by (apply after_prefix_spec; exact E).
      rewrite Ea in X. cbn [id_run] in X.
      destruct (is_sep c); [reflexivity | discriminate X].
    + cbn [String.append] in E. injection E as _ E.
      apply (IH) with (pre := pre) (post := post); [|exact E].
      destruct (after_prefix vid_key (String a rest)); [|exact X].
      destruct (id_run s); [exact X | discriminate X].
Qed.

Lemma search_verify_url vid :
  vid <> "" -> sep_free vid = true ->
  search_vid (config.VERIFY_URL vid) = Some vid.
Proof.
  intros N F. unfold config.VERIFY_URL, SheerIDClient.SHEERID_BASE_URL.
  cbn. rewrite (id_run_id vid F).
  destruct vid; [contradiction N; reflexivity | reflexivity].
Qed.

Section Amain.
Context {W Page Frame : Type}.
Variable env : Collaborators W Page Frame.
Variable browser_mgr_close : W -> outcome unit * W.
Variable input : string -> W -> outcome string * W.

End Amain.
End MainProofs.

Section InspectorProofs.
Import StatusInspector.
Context {W Page : Type}.
Variable env : Env W Page.

Lemma closes_app a b : closes (a ++ b) = (closes a + closes b)%nat.
Proof. unfold closes. rewrite filter_app, length_app. reflexivity. Qed.

Local Abbreviation no_close := (logs (fun l : list inspect_call => closes l = 0%nat)).

Lemma logs_reading {A} (P : list inspect_call -> Prop) (ev : outcome A -> inspect_call)
    (f : W -> outcome A * W) :
  (forall r, P [ev r]) -> logs P (reading ev f).
Proof. intros H w. unfold reading, log_of. destruct (f w) as [r w1]. apply H. Qed.

Lemma no_close_app (a b : list inspect_call) :
  closes a = 0%nat -> closes b = 0%nat -> closes (a ++ b) = 0%nat.
Proof. intros A B. rewrite closes_app, A, B. reflexivity. Qed.

Ltac no_close_go :=
  repeat first
    [ apply logs_ret; reflexivity
    | apply logs_raise; reflexivity
    | apply logs_call; reflexivity
    | apply logs_effect; reflexivity
    | apply logs_emit; reflexivity
    | apply logs_reading; reflexivity
    | apply logs_bind; [reflexivity | exact no_close_app | | intros]
    | apply logs_try; [reflexivity | exact no_close_app | | intros]
    | match goal with
      | |- logs _ (if ?b then _ else _) => destruct b
      end ].

Lemma debug_note_no_close : no_close (debug_note env).
Proof. unfold debug_note, step. no_close_go. Qed.

Lemma probe_no_close page s : no_close (probe env page s).
Proof. unfold probe, debug_note, step. no_close_go; intros; reflexivity. Qed.

Lemma scan_no_close page pats : no_close (scan_text_patterns env page pats).
Proof.
  induction pats as [|t rest IH]; cbn [scan_text_patterns].
  - no_close_go.
  - cbv zeta. destruct (nonempty (strip t)); [|exact IH].
    apply logs_bind; [reflexivity | exact no_close_app | apply probe_no_close | intros b].
    destruct b; [no_close_go | exact IH].
Qed.

Lemma soft_failure_no_close : no_close (soft_failure env).
Proof. unfold soft_failure, debug_note, step. no_close_go. Qed.

Lemma guarded_inspect_log page vid pats prefix w :
  exists l,
    log_of (try_except (inspect_page env page vid pats prefix)
                       (fun _ => soft_failure env) w)
    = IGoto (config.VERIFY_URL vid) :: l
    /\ closes l = 0%nat.
Proof.
  rewrite log_try. unfold inspect_page at 1. rewrite log_bind.
  unfold step at 1. rewrite log_bind. cbn [emit log_of snd app].
  eexists. split; [reflexivity|].
  repeat apply no_close_app.
  - destruct (result_of _); [|reflexivity].
    unfold call, log_of. destruct (page_goto env page _ _). reflexivity.
  - destruct (result_of _); [|reflexivity].
    match goal with |- closes (log_of (?m ?s)) = _ => 
      assert (G : no_close m); [|apply G] end.
    apply logs_bind; [reflexivity | exact no_close_app | | intros _].
    { unfold step. no_close_go. }
    apply logs_bind; [reflexivity | exact no_close_app | apply scan_no_close | intros res].
    apply logs_bind; [reflexivity | exact no_close_app | | intros _; no_close_go].
    destruct (negb (ok res)); [|no_close_go].
    apply logs_try; [reflexivity | exact no_close_app | | intros; apply debug_note_no_close].
    unfold step. no_close_go.
  - destruct (result_of _); [reflexivity | apply soft_failure_no_close].
Qed.

Lemma close_log page w :
  log_of (try_except (step IClose (page_close env page))
                     (fun _ => @ret W inspect_call unit tt) w) = [IClose].
Proof.
  unfold try_except, step, bind, emit, call, ret, log_of.
  destruct (page_close env page w) as [[[]|e] w1]; reflexivity.
Qed.

Lemma inspect_unfold vid patterns prefix w :
  inspect_verify_page env vid patterns prefix w
  = match context_new_page env w with
    | (Ok page, w1) =>
        match finally_close env page
                (try_except (inspect_page env page vid (effective_patterns env patterns)
                               prefix)
                            (fun _ => soft_failure env)) w1 with
        | (r, w2, l2) => (r, w2, INewPage :: l2)
        end
    | (Raise _, w1) =>
        match soft_failure env w1 with
        | (r, w2, l2) => (r, w2, INewPage :: l2)
        end
    end.
Proof.
  unfold inspect_verify_page, step at 1, bind at 1, emit at 1, call at 1.
  destruct (context_new_page env w) as [[page|e] w1]; reflexivity.
Qed.

Lemma inspect_log vid patterns prefix w :
  let x := inspect_verify_page env vid patterns prefix w in
  match fst (context_new_page env w) with
  | Ok _ =>
      exists l, log_of x = INewPage :: IGoto (config.VERIFY_URL vid) :: l ++ [IClose]
                /\ closes l = 0%nat
  | Raise _ => log_of x = [INewPage; IDebugEnabled]
  end.
Proof.
  cbv zeta. rewrite inspect_unfold.
  destruct (context_new_page env w) as [[page|e] w1]; cbn [fst snd app].
  - unfold finally_close.
    destruct (guarded_inspect_log page vid (effective_patterns env patterns) prefix w1)
      as (l & L & C).
    destruct (try_except (inspect_page env page vid (effective_patterns env patterns) prefix)
                (fun _ => soft_failure env) w1) as [[r w2] l2].
    cbn [log_of snd] in L. subst l2.
    pose proof (close_log page w2) as K.
    destruct (try_except (step IClose (page_close env page)) (fun _ => ret tt) w2)
      as [[r3 w3] l3].
    cbn [log_of snd] in K. subst l3. exists l. split; [reflexivity | exact C].
  - unfold soft_failure, debug_note, step, bind, emit, call, ret.
    destruct (debug_enabled env w1) as [[b|e2] w2]; reflexivity.
Qed.

Section QuietDebug.
(** [debug_enabled_fn] is a flag reader: it does not raise. *)
Hypothesis debug_total : forall w, exists b, fst (debug_enabled env w) = Ok b.

Lemma debug_note_run w : exists w', debug_note env w = (Ok tt, w', [IDebugEnabled]).
Proof.
  unfold debug_note, step, bind, emit, call, ret.
  destruct (debug_total w) as (b & B).
  destruct (debug_enabled env w) as [o w1]. cbn [fst] in B. subst o.
  eexists. reflexivity.
Qed.

Lemma soft_failure_run w :
  exists w', soft_failure env w = (Ok soft_result, w', [IDebugEnabled]).
Proof.
  unfold soft_failure, bind. destruct (debug_note_run w) as (w1 & ->).
  eexists. reflexivity.
Qed.

Lemma probe_run page s w :
  exists b w' l,
    probe env page s w = (Ok b, w', l)
    /\ (b = true ->
        exists n, (0 < n)%nat
                  /\ l = [ICount (text_selector s) (Ok n);
                          IVisible (text_selector s) (Ok true)]).
Proof.
  unfold probe, try_except, bind at 1, reading at 1.
  destruct (locator_count env page (text_selector s) w) as [[n|e] w1]; cbn [fst snd app].
  - destruct (0 <? n)%nat eqn:Pos.
    + unfold reading.
      destruct (locator_is_visible env page (text_selector s) w1) as [[v|e] w2];
        cbn [fst snd app].
      * eexists _, _, _. split; [reflexivity|]. intros ->. exists n.
        split; [apply Nat.ltb_lt; exact Pos | reflexivity].
      * unfold bind. destruct (debug_note_run w2) as (w3 & ->). unfold ret.
        eexists _, _, _. split; [reflexivity|]. discriminate.
    + unfold ret. eexists _, _, _. split; [reflexivity|]. discriminate.
  - unfold bind. destruct (debug_note_run w1) as (w3 & ->). unfold ret.
    eexists _, _, _. split; [reflexivity|]. discriminate.
Qed.

Lemma grounded_mono pats r a l b :
  grounded pats r l -> grounded pats r (a ++ l ++ b).
Proof.
  intros [G|(t & n & I & Z & R & N & pre & post & L)]; [left; exact G|].
  right. exists t, n. repeat (split; [assumption|]).
  exists (a ++ pre), (post ++ b). rewrite L, <- !app_assoc. reflexivity.
Qed.

Lemma grounded_tail pats t r l :
  grounded pats r l -> grounded (t :: pats) r l.
Proof.
  intros [G|(t' & n & I & Z & R & N & E)]; [left; exact G|].
  right. exists t', n. split; [right; exact I|]. auto.
Qed.

Lemma scan_run page pats : forall w,
  exists r w' l,
    scan_text_patterns env page pats w = (Ok r, w', l) /\ grounded pats r l.
Proof.
  induction pats as [|t rest IH]; intros w; cbn [scan_text_patterns].
  - eexists _, _, _. split; [reflexivity | left; reflexivity].
  - cbv zeta. destruct (nonempty (strip t)) eqn:N.
    + unfold bind at 1. destruct (probe_run page (strip t) w) as (b & w1 & l1 & -> & B).
      destruct b.
      * unfold ret. eexists _, _, _. split; [reflexivity|]. right.
        destruct (B eq_refl) as (n & Pos & ->).
        exists t, n.
        split; [left; reflexivity|].
        split; [intros Z; rewrite Z in N; discriminate N|].
        split; [reflexivity|]. split; [exact Pos|].
        exists [], []. reflexivity.
      * destruct (IH w1) as (r & w2 & l2 & -> & G).
        eexists _, _, _. split; [reflexivity|].
        apply grounded_tail.
        rewrite <- (app_nil_r l2). apply grounded_mono. exact G.
    + destruct (IH w) as (r & w2 & l2 & -> & G).
      eexists _, _, _. split; [reflexivity|]. apply grounded_tail. exact G.
Qed.

Lemma guarded_inspect_run page vid pats prefix w :
  exists r w' l,
    try_except (inspect_page env page vid pats prefix) (fun _ => soft_failure env) w
    = (Ok r, w', l)
    /\ (r = soft_result \/ grounded pats r l)
    /\ ((exists e, fst (page_goto env page (config.VERIFY_URL vid) w) = Raise e) ->
        r = soft_result).
Proof.
  unfold try_except, inspect_page.
  unfold bind at 1, step at 1, bind at 1, emit at 1, call at 1. cbn [fst snd app].
  destruct (page_goto env page (config.VERIFY_URL vid) w) as [[[]|e] w1]; cbn [fst snd app].
  2:{ destruct (soft_failure_run w1) as (w2 & ->).
      eexists _, _, _. split; [reflexivity|]. split; [left; reflexivity | reflexivity]. }
  unfold bind at 1.
  assert (Idle : exists w2, try_except (step (IWaitIdle 15000)
                                          (wait_network_idle_soft env page 15000))
                              (fun _ => ret tt) w1 = (Ok tt, w2, [IWaitIdle 15000])).
  { unfold try_except, step, bind, emit, call, ret.
    destruct (wait_network_idle_soft env page 15000 w1) as [[[]|e] w2];
      eexists; reflexivity. }
  destruct Idle as (w2 & ->).
  unfold bind at 1. destruct (scan_run page pats w2) as (r & w3 & l3 & -> & G).
  unfold bind at 1.
  assert (Dump : exists w4 l4,
             (if negb (ok r)
              then try_except
                     (ts <- effect (now_stamp env) ;;
                      step (IDump (prefix ++ "_" ++ ts))
                           (ui_dump_page env page (prefix ++ "_" ++ ts)))%m
                     (fun _ => debug_note env)
              else ret tt) w3 = (Ok tt, w4, l4)).
  { destruct (negb (ok r)); [|eexists _, _; reflexivity].
    unfold try_except, bind at 1, effect at 1.
    destruct (now_stamp env w3) as [ts w4]. unfold step, bind, emit, call.
    destruct (ui_dump_page env page (prefix ++ "_" ++ ts) w4) as [[[]|e] w5];
      cbn [fst snd app].
    - eexists _, _; reflexivity.
    - destruct (debug_note_run w5) as (w6 & ->). eexists _, _; reflexivity. }
  destruct Dump as (w4 & l4 & ->). unfold ret.
  eexists _, _, _. split; [reflexivity|]. split.
  - right. rewrite app_nil_r.
    change (IGoto (config.VERIFY_URL vid) :: [IWaitIdle 15000] ++ l3 ++ l4)
      with ([IGoto (config.VERIFY_URL vid); IWaitIdle 15000] ++ l3 ++ l4).
    apply grounded_mono. exact G.
  - intros (e & X). discriminate X.
Qed.

Lemma inspect_run vid patterns prefix w :
  let x := inspect_verify_page env vid patterns prefix w in
  exists r,
    result_of x = Ok r
    /\ (r = soft_result \/ grounded (effective_patterns env patterns) r (log_of x))
    /\ ((exists e, fst (context_new_page env w) = Raise e) -> r = soft_result)
    /\ (forall page w1, context_new_page env w = (Ok page, w1) ->
        (exists e, fst (page_goto env page (config.VERIFY_URL vid) w1) = Raise e) ->
        r = soft_result).
Proof.
  cbv zeta. rewrite inspect_unfold.
  destruct (context_new_page env w) as [[page|e] w1]; cbn [fst].
  - unfold finally_close.
    destruct (guarded_inspect_run page vid (effective_patterns env patterns) prefix w1)
      as (r & w2 & l2 & -> & G & F).
    destruct (try_except (step IClose (page_close env page)) (fun _ => ret tt) w2)
      as [[r3 w3] l3].
    exists r. split; [reflexivity|]. split.
    + destruct G as [G|G]; [left; exact G | right].
      cbn [log_of snd].
      change (INewPage :: l2 ++ l3) with ([INewPage] ++ l2 ++ l3).
      apply grounded_mono. exact G.
    + split; [intros (e & X); discriminate X|].
      intros p w1' [= <- <-]. exact F.
  - destruct (soft_failure_run w1) as (w2 & ->).
    exists soft_result. split; [reflexivity|]. split; [left; reflexivity|].
    split; [reflexivity|]. intros p w1' X. discriminate X.
Qed.
End QuietDebug.
End InspectorProofs.

Section StripFacts.

Lemma lstrip_head s : head_kept (lstrip s).
Proof.
  induction s as [|c s IH]; [exact I|]. cbn [lstrip].
  destruct (py_isspace c) eqn:Ec; [exact IH | exact Ec].
Qed.

Lemma lstrip_kept s : head_kept s -> lstrip s = s.
Proof. destruct s as [|c s]; [reflexivity|]. cbn. intros ->. reflexivity. Qed.

Lemma rstrip_head s : head_kept s -> head_kept (rstrip s).
Proof.
  destruct s as [|c s]; [intros; exact I|]. cbn [head_kept rstrip]. intros H.
  destruct (rstrip s); [rewrite H|]; exact H.
Qed.

Lemma rstrip_idem s : rstrip (rstrip s) = rstrip s.
Proof.
  induction s as [|c s IH]; [reflexivity|]. cbn [rstrip].
  destruct (rstrip s) as [|d r] eqn:R.
  - destruct (py_isspace c) eqn:Ec; [reflexivity|]. cbn [rstrip]. rewrite Ec. reflexivity.
  - change (rstrip (String c (String d r))) with
      (match rstrip (String d r) with
       | EmptyString => if py_isspace c then EmptyString else String c EmptyString
       | r' => String c r'
       end).
    rewrite IH. reflexivity.
Qed.

Lemma strip_idem s : strip (strip s) = strip s.
Proof.
  unfold strip.
  rewrite (lstrip_kept (rstrip (lstrip s))) by apply rstrip_head, lstrip_head.
  apply rstrip_idem.
Qed.
End StripFacts.

Section ReaderProofs.
Import FormReaders.
Context {S E : Type}.
Variable frame : Locators S.

Lemma read_stripped_run read s :
  exists r s', read_stripped (S:=S) (E:=E) read s = (Ok r, s', []) /\ clean r.
Proof.
  unfold read_stripped, try_except, bind, call, ret.
  destruct (read s) as [[[v|]|e] s1]; cbn [fst snd app].
  - cbv zeta. destruct (nonempty (strip v)) eqn:N.
    + eexists _, _. split; [reflexivity|]. intros x [= <-].
      split; [intros Z; rewrite Z in N; discriminate N | apply strip_idem].
    + eexists _, _. split; [reflexivity|]. intros x X. discriminate X.
  - eexists _, _. split; [reflexivity|]. intros x X. discriminate X.
  - eexists _, _. split; [reflexivity|]. intros x X. discriminate X.
Qed.

Lemma read_first_run selector first second s :
  exists r s',
    read_first (E:=E) frame selector first second s = (Ok r, s', [])
    /\ clean r
    /\ ((forall n, fst (count frame selector s) = Ok n -> n = 0%nat) -> r = None).
Proof.
  unfold read_first, try_except, bind at 1, safe_count, try_except, call, ret.
  destruct (count frame selector s) as [[n|e] s1]; cbn [fst snd app].
  - destruct (n =? 0)%nat eqn:N.
    + eexists _, _. split; [reflexivity|].
      split; [intros x X; discriminate X | reflexivity].
    + unfold bind at 1.
      destruct (read_stripped_run first s1) as (r1 & s2 & -> & C1).
      destruct r1 as [v|].
      * eexists _, _. split; [reflexivity|]. split; [exact C1|].
        intros Z. specialize (Z n eq_refl). subst n. discriminate N.
      * destruct (read_stripped_run second s2) as (r2 & s3 & -> & C2).
        eexists _, _. split; [reflexivity|]. split; [exact C2|].
        intros Z. specialize (Z n eq_refl). subst n. discriminate N.
  - eexists _, _. split; [reflexivity|].
    split; [intros x X; discriminate X | reflexivity].
Qed.
End ReaderProofs.

Section RaiseFacts.
Context {S E : Type}.
Variable ev : E.

Lemma total_never {A} (m : M S E A) : total m -> raises_only_at ev m.
Proof. intros T s e X. destruct (T s) as (a & Y). rewrite Y in X. discriminate X. Qed.

Lemma raises_bind {A B} (m : M S E A) (k : A -> M S E B) :
  raises_only_at ev m -> (forall a, raises_only_at ev (k a)) ->
  raises_only_at ev (bind m k).
Proof.
  intros Hm Hk s e. rewrite result_bind, log_bind.
  specialize (Hm s). destruct (result_of (m s)) as [a|e1].
  - intros X. destruct (Hk a _ _ X) as (l & ->). exists (log_of (m s) ++ l).
    rewrite app_assoc. reflexivity.
  - intros X. destruct (Hm e1 eq_refl) as (l & ->). exists l. rewrite app_nil_r. reflexivity.
Qed.

Lemma raises_after_total {A B} (m : M S E A) (k : A -> M S E B) :
  total m -> (forall a, raises_only_at ev (k a)) -> raises_only_at ev (bind m k).
Proof. intros T. apply raises_bind. apply total_never. exact T. Qed.

Lemma total_if {A} (b : bool) (m1 m2 : M S E A) :
  total m1 -> total m2 -> total (if b then m1 else m2).
Proof. destruct b; auto. Qed.
End RaiseFacts.

Section OrgRaises.
Import FormFiller.
Context {S : Type}.
Variable frame : FrameApi S.
Variable self : t.

Local Abbreviation esc := (KeyboardPress "Escape").

Ltac total_go :=
  repeat first
    [ apply total_ret
    | apply total_emit
    | apply total_effect
    | apply total_try; intros
    | apply total_bind; [|intros]
    | match goal with
      | |- total (if ?b then _ else _) => destruct b
      | |- total (match ?x with _ => _ end) => destruct x
      | |- total (let (_, _) := ?x in _) => destruct x
      end ].

Lemma sleep_total q : total (_sleep frame q).
Proof. unfold _sleep. total_go. Qed.

Lemma is_selected_total : total (_is_org_already_selected frame).
Proof. unfold _is_org_already_selected. total_go. Qed.

Lemma wait_each_total sels ms : total (wait_each frame sels ms).
Proof. induction sels as [|sel rest IH]; cbn [wait_each]; total_go; exact IH. Qed.

Lemma wait_any_total c ms : total (_wait_any_selector frame c ms).
Proof.
  unfold _wait_any_selector.
  destruct c as [|[|a x]|[|a l]]; try apply total_ret; apply wait_each_total.
Qed.

Lemma find_first_total cands : total (find_first_visible frame cands).
Proof. induction cands as [|c rest IH]; cbn [find_first_visible]; total_go; exact IH. Qed.

Lemma strict_total : total (_check_org_selected_strict frame).
Proof. unfold _check_org_selected_strict. total_go. Qed.

Lemma swallow_total {A} (m : M S ui_call A) : total (swallow m).
Proof. unfold swallow. total_go. Qed.

Lemma conclude_total raw : total (conclude frame raw).
Proof.
  unfold conclude.
  apply total_bind; [apply strict_total | intros [[ok r] t]].
  destruct ok; [apply total_ret|].
  apply total_bind; [apply total_effect | intros _].
  destruct (nonempty raw); [apply swallow_total | apply total_ret].
Qed.

Lemma try_terms_raises raw terms : raises_only_at esc (try_terms frame raw terms).
Proof.
  induction terms as [|term rest IH]; cbn [try_terms].
  - apply total_never, total_ret.
  - destruct (String.length term <? 2)%nat; [exact IH|].
    apply raises_bind; [|intros [|]; [exact IH | apply total_never, total_ret]].
    intros s e. rewrite log_try. unfold try_except, result_of.
    destruct (try_term frame raw term s) as [[[c|e1] s1] l1]; cbn [fst snd log_of state_of];
      [intros X; discriminate X|].
    unfold bind. rewrite act_run by exact frame.
    destruct (keyboard_press frame "Escape" s1) as [[[]|e2] s2];
      cbn [fst snd log_of state_of app]; intros X; [discriminate X|].
    exists l1. reflexivity.
Qed.

Lemma fill_org_raises org_name :
  raises_only_at esc (fill_org_and_select_first frame self org_name).
Proof.
  unfold fill_org_and_select_first.
  apply raises_after_total; [apply is_selected_total | intros already].
  destruct already; [apply total_never, total_ret|].
  apply raises_after_total.
  { apply total_try. intros e. apply total_bind; [apply wait_any_total | intros; apply total_ret]. }
  intros _. apply raises_after_total; [apply find_first_total | intros o].
  destruct o as [loc|]; [|apply total_never, total_ret].
  cbv zeta. apply raises_bind; [apply try_terms_raises | intros _].
  apply total_never. apply total_bind; [apply conclude_total | intros _; apply sleep_total].
Qed.
End OrgRaises.

(* --------------------------------------------------------------------- *)
(** ** Form filler: the field methods *)
(* --------------------------------------------------------------------- *)

(** X15.  [fill_text] never raises.  It acts on one selector, the first
    candidate of the key (the text [None] when the key is missing), and
    does nothing at all when the key has an empty list of candidates.
    Its steps come in the fixed order click, clear, type, pause, and it
    stops at the first one that raises: when the click raises the log
    is the click alone; when the clearing raises, the click and the
    clearing; when the typing raises, the three of them; and when none
    raises, the three of them and the pause after a field, if that is
    positive.  So the value is typed only when the click and the
    clearing went through. *)
Theorem fill_text_never_raises :
  forall (S : Type) (frame : FormFiller.FrameApi S) (ops : FormFields.FieldOps S)
         (self : FormFiller.t) (key value : string) (s : S),
  exists s' log,
    FormFields.fill_text frame ops self key value s = (Ok tt, s', log)
    /\ match FormFields.field_selector (FormFields.selectors ops key) with
       | None => log = [] /\ s' = s
       | Some loc =>
           match FormFiller.click frame loc s with
           | (Raise _, s1) => log = [FormFiller.Click loc] /\ s' = s1
           | (Ok _, s1) =>
               match FormFiller.fill frame loc "" s1 with
               | (Raise _, s2) =>
                   log = [FormFiller.Click loc; FormFiller.Fill loc ""] /\ s' = s2
               | (Ok _, s2) =>
                   match FormFiller.type_text frame loc value s2 with
                   | (Raise _, s3) =>
                       log = [FormFiller.Click loc; FormFiller.Fill loc "";
                              FormFiller.TypeText loc value]
                       /\ s' = s3
                   | (Ok _, _) =>
                       log = [FormFiller.Click loc; FormFiller.Fill loc "";
                              FormFiller.TypeText loc value]
                             ++ (if Qle_bool (FormFiller.after_field_sec
                                                (FormFiller.delays self)) 0
                                 then []
                                 else [FormFiller.Sleep
                                         (FormFiller.after_field_sec
                                            (FormFiller.delays self))])
                   end
               end
           end
       end.
Proof. intros. apply fill_text_spec. Qed.

(** X16.  [check_all_visible_checkboxes] never raises and does nothing
    but click: its clicks are consent selectors, each at most once and
    in the order of the candidate list, the fallback selector last.
    The count it returns is at most the number of clicks made and at
    most 7, and when the fallback was clicked it is at most 1, the
    fallback being tried only when no candidate was counted. *)
Theorem checkboxes_only_consent_clicks :
  forall (S : Type) (frame : FormFiller.FrameApi S) (ops : FormFields.FieldOps S) (s : S),
  exists c s' log,
    FormFields.check_all_visible_checkboxes frame ops s = (Ok c, s', log)
    /\ 0 <= c <= Z.of_nat (List.length (FormFields.clicks log))
    /\ c <= 7
    /\ Subseq (FormFields.clicks log)
              (FormFields.consent_candidates ++ [FormFields.consent_fallback])
    /\ log = map FormFiller.Click (FormFields.clicks log)
    /\ (In FormFields.consent_fallback (FormFields.clicks log) -> c <= 1).
Proof. intros. apply check_all_spec. Qed.

(** X17.  [click_submit] never raises.  It first presses PageDown on
    the body, and clicks at most one control: the test-id button, the
    submit-type button or the button found by its text. *)
Theorem click_submit_one_click :
  forall (S : Type) (frame : FormFiller.FrameApi S) (ops : FormFields.FieldOps S)
         (self : FormFiller.t) (s : S),
  exists s' log,
    FormFields.click_submit frame ops self s = (Ok tt, s', log)
    /\ hd_error log = Some (FormFiller.Press "body" "PageDown")
    /\ (FormFields.clicks log = []
        \/ exists btn,
             FormFields.clicks log = [btn]
             /\ In btn [FormFields.submit_testid_sel; FormFields.submit_type_sel;
                        FormFields.submit_text_sel]).
Proof. intros. apply click_submit_spec. Qed.

(** X18.  On a page whose element counts are read-only,
    [locate_form_frame] never raises, calls nothing that is logged and
    changes nothing.  It answers a frame other than the main one only
    when that frame is one of the page's frames and holds one of the
    three candidate fields that the main frame does not hold; in every
    other case, a failing count included, it answers the main frame. *)
Theorem locate_form_frame_result :
  forall (S E Frame : Type) (Frame_eq_dec : forall a b : Frame, {a = b} + {a <> b})
         (main_frame : Frame) (page_frames : S -> list Frame)
         (locator_count : Frame -> string -> S -> outcome nat * S),
    (forall f sel s, snd (locator_count f sel s) = s) ->
    forall s : S,
    exists f,
      FormFields.locate_form_frame (E:=E) Frame_eq_dec main_frame page_frames
        locator_count s = (Ok f, s, [])
      /\ (f = main_frame
          \/ (f <> main_frame /\ In f (page_frames s)
              /\ exists sel,
                   In sel FormFields.form_frame_candidates
                   /\ FormFields.counted locator_count f sel s
                   /\ ~ FormFields.counted locator_count main_frame sel s)).
Proof.
  intros S E Frame dec main_frame page_frames locator_count RO s.
  apply locate_among_run. exact RO.
Qed.

(** The page of [SimFrames]: the frame that holds the email field. *)
Lemma locate_form_frame_result_witness :
  exists f, SimFrames.locate = (Ok f, tt, []) /\ f <> SimFrames.main.
Proof.
  destruct (locate_form_frame_result unit FormFiller.ui_call nat Nat.eq_dec
              SimFrames.main SimFrames.frames SimFrames.count
              (fun f sel s => match s with tt =>
                 match (f =? 2)%nat && String.eqb sel "#sid-email" as b
                   return snd (if b then (Ok 1%nat, tt) else (Ok 0%nat, tt)) = tt
                 with true => eq_refl | false => eq_refl end end) tt)
    as (f & E & H).
  exists f. split; [exact E|].
  vm_compute in E. injection E as <-. discriminate.
Defined.

(** X19.  [fill_birth_date_combobox] returns [False] without touching
    the page when the date is not of the shape year-month-day (four
    digits, then one or two, then one or two); for a date of that shape
    it returns [True] whenever it returns, whether or not any field was
    found or filled.  On the page it first runs the script that sets
    the day and the year; all it does after that is click, fill and
    press on the three date fields and pause, and the only text it
    types is an English month name, into the month field. *)
Theorem birth_date_shape_decides :
  forall (S : Type) (frame : FormFiller.FrameApi S) (ops : FormFields.FieldOps S)
         (birth_date : string) (s : S),
    let x := FormFields.fill_birth_date_combobox frame ops birth_date s in
    match FormFields.parse_birth_date birth_date with
    | None => x = (Ok false, s, [])
    | Some (y, mo, d) =>
        (forall b, result_of x = Ok b -> b = true)
        /\ exists rest,
             log_of x = FormFiller.SetBirthDateScript d y :: rest
             /\ forallb FormFields.birth_event rest = true
    end.
Proof.
  intros S frame ops birth_date s x. subst x.
  destruct (FormFields.parse_birth_date birth_date) as [[[y mo] d]|] eqn:P.
  - split.
    + intros b R. pose proof (birth_date_returns frame ops birth_date s b R) as H.
      rewrite P in H. exact H.
    + apply (birth_date_log frame ops birth_date y mo d s P).
  - apply birth_date_rejected. exact P.
Qed.

(** X20.  The only exception that leaves [fill_org_and_select_first] is
    one raised by the Escape key press that follows a failed search
    term: when the method raises, that key press is the last call it
    made. *)
Theorem fill_org_raises_only_at_escape :
  forall (S : Type) (frame : FormFiller.FrameApi S) (self : FormFiller.t)
         (org_name : string) (s : S) (e : exn),
    let x := FormFiller.fill_org_and_select_first frame self org_name s in
    result_of x = Raise e ->
    exists l, log_of x = l ++ [FormFiller.KeyboardPress "Escape"].
Proof. intros S frame self org_name s e x. subst x. apply fill_org_raises. Qed.

(** The document of [SimStuck]: the input cannot be cleared and the
    keyboard is gone. *)
Lemma fill_org_raises_only_at_escape_witness :
  exists l, log_of SimStuck.fill = l ++ [FormFiller.KeyboardPress "Escape"].
Proof.
  exact (fill_org_raises_only_at_escape _ SimStuck.frame SimDoc.filler
           "California State University-Fullerton" SimDoc.blank "page closed" eq_refl).
Defined.

(* --------------------------------------------------------------------- *)
(** ** Snapshot readers, entry point, language, status inspector *)
(* --------------------------------------------------------------------- *)

(** X21.  The snapshot readers [val] and [text] never raise and call
    nothing that is logged.  What they return is nothing, or a text
    that is not empty and has nothing left to strip: the texts of a
    snapshot are trimmed.  They return nothing when the selector
    matches no element or cannot be counted. *)
Theorem readers_return_clean_text :
  forall (S E : Type) (frame : FormReaders.Locators S) (selector : string) (s : S),
    let reads (m : M S E (option string)) :=
      exists r s',
        m s = (Ok r, s', [])
        /\ FormReaders.clean r
        /\ form_ready_dump.trimmed r
        /\ ((forall n, fst (FormReaders.count frame selector s) = Ok n -> n = 0%nat) ->
            r = None) in
    reads (FormReaders.val frame selector) /\ reads (FormReaders.text frame selector).
Proof.
  intros S E frame selector s reads. subst reads. cbv beta.
  assert (T : forall r, FormReaders.clean r -> form_ready_dump.trimmed r)
    by (intros r C v V; apply (C v V)).
  unfold FormReaders.val, FormReaders.text. split.
  - destruct (read_first_run (E:=E) frame selector
                (FormReaders.input_value frame selector)
                (FormReaders.get_attribute frame selector "value") s)
      as (r & s' & X & C & N).
    exists r, s'. split; [exact X|]. split; [exact C|]. split; [apply T, C | exact N].
  - destruct (read_first_run (E:=E) frame selector
                (FormReaders.text_content frame selector)
                (FormReaders.inner_text frame selector) s)
      as (r & s' & X & C & N).
    exists r, s'. split; [exact X|]. split; [exact C|]. split; [apply T, C | exact N].
Qed.

(** X22.  The entry point reads back the verification id from the
    verification URL the configuration builds for it: for an id that is
    not empty and has no [&] and no [#], extracting from the built URL
    gives the id. *)
Theorem verify_url_round_trip :
  forall vid : string,
    vid <> "" -> Main.sep_free vid = true ->
    Main.search_vid (config.VERIFY_URL vid) = Some vid.
Proof. intros vid N F. apply search_verify_url; assumption. Qed.

Lemma verify_url_round_trip_witness :
  Main.search_vid (config.VERIFY_URL "65f0c1a2b3d4e5f6a7b8c9d0")
  = Some "65f0c1a2b3d4e5f6a7b8c9d0".
Proof.
  apply verify_url_round_trip; [discriminate | reflexivity].
Defined.

(** X23.  The id the entry point extracts from a URL is never empty and
    holds no [&] and no [#]; it follows the key [verificationId=] in
    the URL and runs to the end of the URL or to the next [&] or [#].
    No id is extracted only when every occurrence of the key in the URL
    is followed by [&] or [#], or ends the URL. *)
Theorem extracted_id_well_formed :
  forall url : string,
    match Main.search_vid url with
    | Some v =>
        v <> "" /\ Main.sep_free v = true
        /\ exists pre post,
             url = (pre ++ Main.vid_key ++ v ++ post)%string
             /\ (post = ""
                 \/ exists c r, post = String c r /\ Main.is_sep c = true)
    | None =>
        forall pre c post,
          url = (pre ++ Main.vid_key ++ String c post)%string -> Main.is_sep c = true
    end.
Proof.
  intros url. destruct (Main.search_vid url) as [v|] eqn:X.
  - apply search_vid_found. exact X.
  - apply search_vid_none. exact X.
Qed.


(** X25.  The [Accept-Language] the API client sends is the one of the
    instance: this holds of a new instance, and [_ensure_api_service],
    [_do_precheck] (which may adopt the server's locale), [verify] and
    [close] all keep it. *)
Theorem client_language_in_sync :
  forall (W Page Frame : Type) (env : SheerIDVerifier.Collaborators W Page Frame)
         (browser_mgr_close : W -> outcome unit * W)
         (first_name last_name email birth_date school_id : option string)
         (st : SheerIDVerifier.state W),
    let after {A} (m : M (SheerIDVerifier.state W) VerificationOrchestrator.orch_call A) :=
      Lifecycle.language_in_sync (SheerIDVerifier.self (state_of (m st))) in
    (forall getenv vid, Lifecycle.language_in_sync (SheerIDVerifier.init getenv vid))
    /\ (Lifecycle.language_in_sync (SheerIDVerifier.self st) ->
        after (SheerIDVerifier._ensure_api_service env)
        /\ after (SheerIDVerifier._do_precheck env)
        /\ after (SheerIDVerifier.verify env first_name last_name email birth_date school_id)
        /\ after (Lifecycle.close browser_mgr_close)).
Proof.
  intros W Page Frame env bmc a1 a2 a3 a4 a5 st after. subst after. cbv beta.
  split; [exact sync_init|]. intros H.
  split; [exact (ensure_api_service_sync env st H)|].
  split; [exact (do_precheck_sync env st H)|].
  split; [exact (verify_sync env a1 a2 a3 a4 a5 st H)|].
  exact (close_sync bmc st H).
Qed.

(** A verifier that has adopted the locale of the server. *)
Lemma client_language_in_sync_witness :
  Lifecycle.language_in_sync
    (SheerIDVerifier.self
       (state_of
          (SheerIDVerifier._do_precheck (E:=VerificationOrchestrator.orch_call) SimApi.env
             (state_of
                (SheerIDVerifier._do_precheck (E:=VerificationOrchestrator.orch_call)
                   SimApi.env
                   (SimApi.fresh [SimApi.payload "collectStudentPersonalInfo" "fr-FR";
                                  SimApi.payload "pending" "de-DE"])))))).
Proof.
  refine (proj1 (proj2 (proj2 (client_language_in_sync _ _ _ SimApi.env
                                 (fun w => (Ok tt, w)) None None None None None _) _))).
  intros api X. vm_compute in X. injection X as <-. reflexivity.
Defined.

(** X26.  [inspect_verify_page] closes the page it opened, exactly once
    and as its last call, whatever happened in between and whether or
    not it returns; when the page could not be opened there is nothing
    to close, and nothing else is called but the debug flag. *)
Theorem inspector_closes_its_page :
  forall (W Page : Type) (env : StatusInspector.Env W Page)
         (verification_id : string) (patterns : option (list string))
         (dump_prefix : string) (w : W),
    let x := StatusInspector.inspect_verify_page env verification_id patterns
               dump_prefix w in
    match fst (StatusInspector.context_new_page env w) with
    | Ok _ =>
        exists l,
          log_of x = StatusInspector.INewPage
                     :: StatusInspector.IGoto (config.VERIFY_URL verification_id)
                     :: l ++ [StatusInspector.IClose]
          /\ StatusInspector.closes l = 0%nat
    | Raise _ => log_of x = [StatusInspector.INewPage; StatusInspector.IDebugEnabled]
    end.
Proof. intros. apply inspect_log. Qed.

(** X27.  With a debug flag that does not raise, [inspect_verify_page]
    never raises.  A result that is not [ok] names a pattern of the
    list in use, stripped and not empty, that was found on the page:
    the log shows its selector counted, with a count that is not zero,
    and then read as visible.  Every failure of the inspection itself
    is reported as [ok]: a page that cannot be opened or a navigation
    that fails gives the soft result. *)
Theorem inspector_fails_soft :
  forall (W Page : Type) (env : StatusInspector.Env W Page)
         (verification_id : string) (patterns : option (list string))
         (dump_prefix : string) (w : W),
    (forall w, exists b, fst (StatusInspector.debug_enabled env w) = Ok b) ->
    let x := StatusInspector.inspect_verify_page env verification_id patterns
               dump_prefix w in
    exists r,
      result_of x = Ok r
      /\ (r = StatusInspector.soft_result
          \/ StatusInspector.ok r = true
          \/ exists t n,
               In t (StatusInspector.effective_patterns env patterns)
               /\ strip t <> ""
               /\ r = {| StatusInspector.ok := false;
                         StatusInspector.hit := strip t;
                         StatusInspector.reason := "pattern_hit" |}
               /\ (0 < n)%nat
               /\ exists pre post,
                    log_of x
                    = pre
                      ++ [StatusInspector.ICount
                            ("text=" ++ FormFiller.dq ++ strip t ++ FormFiller.dq)%string
                            (Ok n);
                          StatusInspector.IVisible
                            ("text=" ++ FormFiller.dq ++ strip t ++ FormFiller.dq)%string
                            (Ok true)]
                      ++ post)
      /\ ((exists e, fst (StatusInspector.context_new_page env w) = Raise e) ->
          r = StatusInspector.soft_result)
      /\ (forall page w1,
            StatusInspector.context_new_page env w = (Ok page, w1) ->
            (exists e, fst (StatusInspector.page_goto env page
                              (config.VERIFY_URL verification_id) w1) = Raise e) ->
            r = StatusInspector.soft_result).
Proof. intros W Page env vid patterns prefix w D. apply inspect_run. exact D. Qed.

(** The page of [SimInspect], which shows the phrase "try again": the
    inspection reports it. *)
Lemma inspector_fails_soft_witness :
  result_of SimInspect.inspect
  = Ok {| StatusInspector.ok := false;
          StatusInspector.hit := "try again";
          StatusInspector.reason := "pattern_hit" |}
  /\ In (StatusInspector.IVisible (StatusInspector.text_selector "try again") (Ok true))
        (log_of SimInspect.inspect).
Proof.
  destruct (inspector_fails_soft unit unit SimInspect.env "vid123" None "sheerid_ui" tt
              (fun w => ex_intro _ false eq_refl))
    as (r & R & G & _).
  assert (E : result_of SimInspect.inspect
              = Ok {| StatusInspector.ok := false;
                      StatusInspector.hit := "try again";
                      StatusInspector.reason := "pattern_hit" |})
    by (vm_compute; reflexivity).
  split; [exact E|].
  unfold SimInspect.inspect in E |- *. rewrite E in R. inversion R; subst r. clear R.
  destruct G as [G|[G|(t & n & I & Z & Hr & Pos & pre & post & L)]];
    [discriminate G | discriminate G|].
  inversion Hr as [Ht]. rewrite L. unfold StatusInspector.text_selector. rewrite <- Ht.
  apply in_or_app. right. right. left. reflexivity.
Defined.
